(* ===== verification/_CoqProject ===== *)
-Q . S2P
Prelude.v
Auth.v
Tenant.v
RateLimit.v
Resilience.v
BreakerInterleaving.v
Redis.v
Postgres.v
PostgresOverlap.v
Notification.v
Connection.v
Interleaving.v
Quiescence.v
Locks.v
Queue.v
QueueRedis.v
QueuePostgres.v
Ack.v
AckInterleaving.v
AckRedis.v
AckPostgres.v
Template.v
Dispatcher.v
Http.v
RedisTrigger.v
Realtime.v
Cluster.v
Settings.v
Jwt.v
Metrics.v
Api.v
App.v
Lifecycle.v
Startup.v
Monitoring.v
System.v
Service.v
