(* ===== verification/Prelude.v ===== *)
(** * Ara notification service: a verification library

    This library models the Rust service under [src/src/] and proves the
    properties that make it correct.  The service accepts notifications over
    HTTP and over Redis Pub/Sub, finds the WebSocket and SSE connections each
    one is meant for, keeps messages for users who are offline, tracks
    acknowledgements, and separates tenants from one another.

    ** Parts, files and sources

    - [Prelude]: machine integers (the release profile wraps), the [result]
      type and its notations, strings, clocks, the interfaces of the text
      formats ([JsonCodec], [UuidText], [UnicodeTables]) and automation.
    - [Auth]: [infrastructure/auth/claims.rs] and token extraction; [Jwt]:
      [infrastructure/auth/jwt.rs] over the interface [JwtLibrary].
    - [Settings]: [infrastructure/config/settings.rs]: the sections with
      their defaults, the builder's defaults and validation.
    - [Tenant]: [domain/tenant/mod.rs]; contexts, channel name spaces,
      statistics.
    - [RateLimit]: [domain/ratelimit/]; [TokenBucket] (atomic, and interleaved
      as the step relation of the compare-and-swap loop), [Limiter],
      [Distributed] over the interface [RedisCounter].
    - [Resilience]: [infrastructure/redis/circuit_breaker.rs], [health.rs],
      [backoff.rs] ([CircuitBreaker], [Health], [Backoff]).
      [BreakerInterleaving] runs the breaker's calls atomic access by access.
    - [Redis]: [infrastructure/redis/pool.rs] ([Pool]) over the interface
      [RedisServer] of the commands the source sends; [redis_spec] says what
      an accepted command answers and leaves, [RedisLaws] what a server
      promises, [Store] is an executable server that keeps it.
    - [Postgres]: the tables of [migrations/], the statements the source
      sends ([Query]) over the interface [Postgres] with its laws, an
      executable database ([Store]) and [infrastructure/postgres/pool.rs]
      ([PostgresPool]).  [PostgresOverlap]: the enqueueing statement in two
      steps, any number of them in progress at once.
    - [Notification]: [domain/notification/types.rs] and
      [websocket/message.rs].
    - [Connection]: [domain/connection/]; the manager with its four maps, each
      operation as one function, and [Races], its non-atomic index update.
      [Interleaving]: the same operations access by access ([Task],
      [task_step]), any number of them in progress at once ([step]);
      [Quiescence]: what they leave behind when all have returned.
      [Locks]: the locks they hold and wait for, with the shards of the maps
      and, for [guard_across_await_deadlock], a fixed number of worker threads.
    - [Queue]: [domain/queue/]: the trait [MessageQueueBackend] with its
      contract [QueueLaws], [Memory], [UserQueue]; [QueueRedis] is
      [redis_backend.rs], [QueuePostgres] is [postgres_backend.rs].
    - [Ack]: [domain/ack/]: the trait [AckTrackerBackend] with [AckLaws],
      [AckMemory], [Tracker]; [AckRedis] is [ack_redis_backend.rs],
      [AckPostgres] is [ack_postgres_backend.rs].  [AckInterleaving] runs the
      calls of the memory backend access by access.
    - [Template]: [domain/template/] and [api/template.rs].
    - [Dispatcher]: [domain/notification/dispatcher.rs] over any queue and
      acknowledgement backend.
    - [Http]: [triggers/http/]; [RedisTrigger]: [triggers/redis.rs].
    - [Realtime]: the WebSocket and SSE handlers.
    - [Cluster]: [domain/cluster/]; the trait [SessionStore], [Local],
      [RedisStore], [Router].
    - [Api]: [server/middleware.rs] and the endpoints of
      [api/connection.rs], [api/tenant.rs] and [api/cluster.rs].  [App]:
      [server/app.rs]: every route with the layers around it, over the
      interfaces [Axum] and [TowerHttp].
    - [Lifecycle]: [tasks/heartbeat.rs] ([Heartbeat]) and [shutdown/mod.rs]
      ([Shutdown]).
    - [Metrics]: [infrastructure/metrics/]: every metric as a descriptor, the
      helpers as updates of series.  [Monitoring]: [api/health.rs],
      [api/metrics.rs] and the choices of [telemetry/mod.rs].
    - [Startup]: [server/state.rs] and [main.rs]: from the settings to the
      state and the routes the handlers run on, what happens when a pool
      cannot be opened, and the wait for the tasks at the end.
    - [System]: the service as a step relation over the whole state:
      connections, frames, dispatches, clean-up, heartbeats, routed messages
      and the shutdown's notices in any order.
    - [Service]: a running node.  [endpoint] puts each handler's function
      behind its route ([api], [answer]); [node_step] is a request on any
      route, the start of an upgraded WebSocket, or an internal step of
      [System].  What axum decodes and serde prints is an argument
      ([Extractors], [ResponseText]).

    ** How state and operations correspond

    A struct is a record; a concurrent map is a [gmap]; an atomic counter is
    an integer at its width; an operation is a function that returns its
    result with the state after it.  An async operation that awaits between
    two accesses to shared state is split there when a theorem is about the
    interleaving ([ack_read]/[ack_finish], [drain_read]/[drain_delete],
    [task_step], [cas_step]).  What the environment decides is an argument: clock
    readings (a function of the number of readings so far), fresh ids,
    random draws, whether a connection accepts a message and which concurrent
    send completes next ([Dispatcher.Env]), what the socket or the Pub/Sub
    stream delivers, what the Redis server and the database answer.  The
    calls that count metrics inside other parts, and log lines, are left out.
    A Redis key space and a database are the state of their server; the
    database's clock ([NOW()]) is not the program's.

    A connection's sender is the log of what was accepted, in order.  Shared
    handles ([Arc<ConnectionHandle>]) live in the manager's map; the copy a
    handler holds is looked up again by its id.

    ** What the theorems show

    - Isolation of tenants: [Service.tenant_request_confined] follows a
      request with a tenant's header from [main] through the layers, the
      handler and the dispatcher to the connections: whatever happened
      before, only connections of that tenant receive anything.  It speaks of
      a tenant other than the default one, and of states in which no connected
      tenant's id holds a colon: ids in headers are checked for that, ids in
      tokens are not.  It stands on [Tenant.channel_isolation], [Template.template_isolation] and
      [Api.channels_listed_to_tenant].
    - The whole node: [Service.connections_vouched] (each registered
      connection carries the user, tenant and roles of a token the validator
      accepted), [Service.send_request_delivers] (what a request to a send
      endpoint does, from its body to the sockets), and the lemma
      [service_refines_server], by which every step of a node is a run of
      [System]'s relation, whose invariant it so inherits.
    - Delivery: [Dispatcher.dispatch_refines] (a dispatch attempts exactly
      the addressed connections, each once, and those of a user listed again
      once more for each time), its counters, the queueing for offline users
      and their replay, from the request that queues to the stream that
      replays ([Service.offline_delivery_http]), routing between servers
      ([Cluster.Router.routed_to_target_only]).
    - Concurrency of the connection manager: no interleaving of its accesses
      answers a query with another's connection
      ([Interleaving.concurrent_answers]), overlapping registrations exceed a
      limit by at most their number less one ([overshoot_bounded]), an
      undisturbed call does what its function says ([undisturbed_call]),
      and the maps agree at rest unless an entry is refilled before it is
      dropped ([careful_runs_consistent]), which happens
      ([refilled_entry_lost]).  With the locks the calls take, and each call on
      a thread of its own, every call returns ([Locks.calls_return]), provided
      a waiting writer does not keep readers out, as in the map's locks
      ([writers_first_deadlock] if it did).  On any fixed number of worker
      threads they can all be left waiting for a call that was suspended with
      a guard in its hand ([guard_across_await_deadlock]).
    - Invariants: the manager's maps ([Connection.manager_consistent]), the
      whole service ([System.server_invariant]), a session that leaves no
      trace, the limits, the breaker, the token bucket under interleaving.
    - Contracts of the backends, against the interfaces for the memory
      backends and directly for the Redis and PostgreSQL ones with the server
      up: queue round trips, size limits, the life of an acknowledgement.
      PostgreSQL's queue returns what was queued in no particular order; its
      acknowledgement is one statement and so accepted once
      ([AckPostgres.one_acknowledgement_accepted]), where Redis's may be
      counted twice; in memory no interleaving accepts one more often than it
      was tracked ([AckInterleaving.acknowledged_at_most_once]).  The size
      limit and the separation of tenants hold whichever statements fail
      ([QueuePostgres.postgres_queue_bounded], [postgres_queue_isolation], [postgres_ack_isolation]);
      enqueueing statements that overlap inside the database exceed it by at
      most one row for each overtaken one, and do reach that
      ([PostgresOverlap.overlap_bounded], [overlaps_add_up]).
    - Start-up: validation reports exactly what is wrong
      ([Settings.validation_reports_problems]), both sets of defaults agree
      ([builder_defaults_agree]), production runs on the configured backends
      (on memory only if PostgreSQL is chosen with an empty URL) and answers
      only requests with a long enough key on every route but the four public
      ones ([Startup], by [App.app_admission]), no token is taken under
      another algorithm ([Jwt.accepted_tokens]), and the state it starts from
      keeps the invariant ([System.started_service_invariant]).
    - Monitoring: no metric or helper panics ([Metrics.metrics_never_panic]),
      a scrape shows the state ([Monitoring.scrape_reports_state]), and so
      does the health verdict.
    - The breaker under concurrency opens only after enough failures
      ([BreakerInterleaving.opens_only_after_failures]), but may half-open in
      the instant it opens ([opened_and_half_opened_at_once]).
    - Liveness of the background work: idle connections are dropped, every
      connection gets its heartbeat and its notice of the shutdown.
    - Admission: [Api.auth_gate], the rate bound of the token bucket, the
      sliding window, the breaker in front of a failing server.
    - Behaviour that departs from the intent is stated as a theorem too
      (a replay that never finishes, routes that expire although refreshed,
      a heartbeat task that blocks for good, rate limits that fresh keys avoid,
      acknowledgements counted twice, and others next to their definitions).

    ** Bounds and fuel

    Recursion follows the code's own data wherever it can.  Where it cannot:
    the dispatcher's loop over in-flight sends runs for as many turns as
    there are sends in flight, each turn completing one; chunks of a
    broadcast and the search of a substitution are bounded by the length of
    what they consume; the Redis trigger's loop and the subscriber's loop run
    over a given list of connection attempts; [scan_loop] takes the number
    of turns as an argument and answers [None] when the server has not
    returned to cursor 0 by then, since only the server bounds that loop.

    ** Not modelled

    Library code behind an interface: serde's text formats, the jsonwebtoken
    library, the redis client and server, sqlx and the database, the config
    library's reading of files and variables, the prometheus registry and
    encoder, axum's routing and decoding, the tracing subscriber and its
    exporter, tokio's scheduler beyond the interleavings above.
    One access to a concurrent map is one step, [len] included; that calls on
    different keys of one shard wait for each other is in [Locks] only.  The
    requests that change templates are one step each, so the race between the
    check and the insertion of [TemplateStore::create] is not modelled.
    Statements of
    the database run one at a time, save that [PostgresOverlap] lets the
    enqueueing ones overlap.  Preflight
    requests, the matching of paths to routes and a body longer than it
    declares are axum's and tower-http's; the listener and the runtime of
    [main.rs] are I/O. *)
From Stdlib Require Export Ascii String.
From stdpp Require Export base gmap strings list fin_maps numbers pretty sorting.
From Stdlib Require Export ZArith Lia.
From Stdlib Require SpecFloat.

Declare Scope ara_scope.
Delimit Scope ara_scope with ara.
#[export] Set Warnings "-clear-no-such-hyp,-register-all,-abstract-large-number".
#[global] Open Scope string_scope.
#[global] Open Scope list_scope.
#[global] Open Scope Z_scope.
#[global] Open Scope ara_scope.
#[global] Set Default Goal Selector "!".

(** The hint database of the development: the well-formedness lemmas of
    the components and the small facts that close their side conditions. *)
Create HintDb ara discriminated.
#[export] Hint Constants Opaque : ara.
#[export] Hint Variables Transparent : ara.

(** ** Machine integers

    The release profile of [Cargo.toml] does not turn overflow checks on, so
    arithmetic on a fixed-width integer wraps around. *)

Definition u32 (z : Z) : Z := z mod 2 ^ 32.
Definition u64 (z : Z) : Z := z mod 2 ^ 64.
Definition i64 (z : Z) : Z := (z + 2 ^ 63) mod 2 ^ 64 - 2 ^ 63.
Definition u32_max : Z := 2 ^ 32 - 1.

Definition is_u32 (z : Z) : Prop := 0 <= z < 2 ^ 32.
Definition is_u64 (z : Z) : Prop := 0 <= z < 2 ^ 64.
Definition is_i64 (z : Z) : Prop := - 2 ^ 63 <= z < 2 ^ 63.

Lemma u32_range z : is_u32 (u32 z).
Proof. unfold is_u32, u32. apply Z.mod_pos_bound. lia. Qed.
Lemma u64_range z : is_u64 (u64 z).
Proof. unfold is_u64, u64. apply Z.mod_pos_bound. lia. Qed.
Lemma u32_id z : is_u32 z -> u32 z = z.
Proof. unfold is_u32, u32. intros. by apply Z.mod_small. Qed.
Lemma u64_id z : is_u64 z -> u64 z = z.
Proof. unfold is_u64, u64. intros. by apply Z.mod_small. Qed.
Lemma i64_id z : is_i64 z -> i64 z = z.
Proof. unfold is_i64, i64. intros. rewrite Z.mod_small; lia. Qed.
Lemma u32_le z : 0 <= z -> u32 z <= z.
Proof. unfold u32. intros. apply Z.mod_le; lia. Qed.
Lemma u64_le z : 0 <= z -> u64 z <= z.
Proof. unfold u64. intros. apply Z.mod_le; lia. Qed.
#[export] Hint Resolve u32_range u64_range u32_id u64_id i64_id u32_le u64_le : ara.

(** ** Time

    A [DateTime<Utc>] is the number of nanoseconds since the epoch.  The
    current time is an argument of every operation that reads the clock.
    [num_seconds] and [num_milliseconds] of a [chrono] duration truncate
    towards zero; [timestamp] is the floor of the time in seconds. *)

Definition num_seconds (d : Z) : Z := Z.quot d (10 ^ 9).
Definition num_milliseconds (d : Z) : Z := Z.quot d (10 ^ 6).
Definition timestamp (t : Z) : Z := t / 10 ^ 9.
Definition seconds (s : Z) : Z := s * 10 ^ 9.

Lemma num_seconds_le d1 d2 : d1 <= d2 -> num_seconds d1 <= num_seconds d2.
Proof. unfold num_seconds. intros. apply Z.quot_le_mono; lia. Qed.
Lemma num_seconds_seconds s : num_seconds (seconds s) = s.
Proof. unfold num_seconds, seconds. apply Z.quot_mul. lia. Qed.
Lemma num_milliseconds_le d1 d2 : d1 <= d2 -> num_milliseconds d1 <= num_milliseconds d2.
Proof. unfold num_milliseconds. intros. apply Z.quot_le_mono; lia. Qed.

(** ** Doubles

    An [f64] is the value of its IEEE 754 specification; the operations round
    to the nearest value, ties to even. *)
Abbreviation f64 := SpecFloat.spec_float.
Definition f64_of_Z (z : Z) : f64 := SpecFloat.binary_normalize 53 1024 z 0 false.
Definition f64_div (x y : f64) : f64 := SpecFloat.SFdiv 53 1024 x y.
Definition f64_mul (x y : f64) : f64 := SpecFloat.SFmul 53 1024 x y.
Definition f64_add (x y : f64) : f64 := SpecFloat.SFadd 53 1024 x y.
Definition f64_opp (x : f64) : f64 := SpecFloat.SFopp x.
Definition f64_ltb (x y : f64) : bool := SpecFloat.SFltb x y.
Definition f64_is_nan (x : f64) : bool := match x with SpecFloat.S754_nan => true | _ => false end.

(** [f64::min] and [f64::max]: a NaN gives way to the other operand. *)
Definition f64_min (x y : f64) : f64 :=
  if f64_is_nan x then y else if f64_is_nan y then x else if f64_ltb y x then y else x.
Definition f64_max (x y : f64) : f64 :=
  if f64_is_nan x then y else if f64_is_nan y then x else if f64_ltb x y then y else x.

(** [as u64]: truncate, saturating at both ends; NaN is 0. *)
Definition f64_to_u64 (x : f64) : Z :=
  match x with
  | SpecFloat.S754_zero _ | SpecFloat.S754_nan | SpecFloat.S754_infinity true => 0
  | SpecFloat.S754_infinity false => 2 ^ 64 - 1
  | SpecFloat.S754_finite true _ _ => 0
  | SpecFloat.S754_finite false m e =>
    Z.min (2 ^ 64 - 1) (if 0 <=? e then Z.pos m * 2 ^ e else Z.pos m / 2 ^ (- e))
  end.

(** A [Uuid] is its 128-bit value; a fresh one ([Uuid::new_v4]) is an
    argument of the operation that draws it. *)
Abbreviation uuid := N (only parsing).
Definition uuid_nil : uuid := 0%N.

(** The text of a [Uuid] and its parser, of the [uuid] library. *)
Class UuidText := {
  uuid_text : uuid -> string;
  uuid_parse : string -> option uuid;
  uuid_parse_text : forall u, uuid_parse (uuid_text u) = Some u;
}.

(** ** Results *)

Inductive result (E A : Type) : Type :=
| Ok (a : A)
| Err (e : E).
Arguments Ok {E A} _.
Arguments Err {E A} _.

Definition is_ok {E A} (r : result E A) : bool :=
  match r with Ok _ => true | Err _ => false end.
Definition map_err {E F A} (f : E -> F) (r : result E A) : result F A :=
  match r with Ok a => Ok a | Err e => Err (f e) end.
Definition ok_or {E A} (o : option A) (e : E) : result E A :=
  match o with Some a => Ok a | None => Err e end.

Notation "x <-? r ;; k" := (match r with Ok x => k | Err e => Err e end)
  (at level 100, r at next level, right associativity) : ara_scope.
#[global] Instance result_eq_dec {E A} `{EqDecision E, EqDecision A} : EqDecision (result E A).
Proof. solve_decision. Defined.

(** [serde_json::to_string] and [from_str] for the types that are stored as
    text; a value that was printed is read back. *)
Class JsonCodec (T : Type) := {
  json_print : T -> result string string;
  json_parse : string -> result string T;
}.
Class JsonLaws (T : Type) `{JsonCodec T} := {
  json_roundtrip : forall (x : T) s, json_print x = Ok s -> json_parse s = Ok x;
}.

(** A codec for the values of a table, by their positions: for closed
    examples. *)
Section table.
Context {T : Type} `{EqDecision T} (table : list T).

Definition table_print (x : T) : result string string :=
  match list_find (fun y => y = x) table with Some (i, _) => Ok (pretty i) | None => Err "not in the table" end.
Definition table_parse (s : string) : result string T :=
  match list_find (fun i => pretty i = s) (seq 0 (length table)) with
  | Some (i, _) => match table !! i with Some x => Ok x | None => Err "no such position" end
  | None => Err "not a position"
  end.
Definition table_codec : JsonCodec T := {| json_print := table_print; json_parse := table_parse |}.

Lemma table_laws : @JsonLaws T table_codec.
Proof.
  split. intros x s. simpl. unfold table_print, table_parse.
  destruct (list_find (fun y => y = x) table) as [[i y]|] eqn:E; [|done]. intros [= <-].
  apply list_find_Some in E as (Hi & -> & _).
  destruct (list_find _ (seq 0 (length table))) as [[j k]|] eqn:F.
  - apply list_find_Some in F as (Hk & Hp & _). apply (inj pretty) in Hp.
    apply lookup_seq in Hk as [Hk _]. simpl in Hk. subst. by rewrite Hi.
  - apply list_find_None in F. apply lookup_lt_Some in Hi as Hl.
    destruct (proj1 (Forall_forall _ _) F i); [|done]. apply elem_of_seq. lia.
Qed.
End table.

(** ** Tactics *)

(** Splits the guards (matches and conditionals) of the goal, one at a time. *)
Ltac guards :=
  repeat first [ progress simplify_eq/= | case_match | case_decide ].

(** Closes a goal after splitting its guards. *)
Ltac solve_guards :=
  intros; guards; eauto with ara lia.

Ltac bool_to_prop :=
  repeat match goal with
  | H : (_ && _)%bool = true |- _ => apply andb_prop in H; destruct H
  | H : (_ && _)%bool = false |- _ => apply andb_false_iff in H
  | H : (_ || _)%bool = false |- _ => apply orb_false_iff in H; destruct H
  | H : (_ || _)%bool = true |- _ => apply orb_true_iff in H
  | H : (_ =? _)%Z = true |- _ => apply Z.eqb_eq in H
  | H : (_ =? _)%Z = false |- _ => apply Z.eqb_neq in H
  | H : (_ <=? _)%Z = true |- _ => apply Z.leb_le in H
  | H : (_ <=? _)%Z = false |- _ => apply Z.leb_gt in H
  | H : (_ <? _)%Z = true |- _ => apply Z.ltb_lt in H
  | H : (_ <? _)%Z = false |- _ => apply Z.ltb_ge in H
  | H : (_ >=? _)%Z = true |- _ => apply Z.geb_le in H
  | H : (_ <=? _)%nat = true |- _ => apply Nat.leb_le in H
  | H : (_ <=? _)%nat = false |- _ => apply Nat.leb_gt in H
  | H : (_ <? _)%nat = true |- _ => apply Nat.ltb_lt in H
  | H : (_ <? _)%nat = false |- _ => apply Nat.ltb_ge in H
  | H : (_ =? _)%nat = true |- _ => apply Nat.eqb_eq in H
  | H : (_ =? _)%nat = false |- _ => apply Nat.eqb_neq in H
  | H : bool_decide _ = true |- _ => apply bool_decide_eq_true in H
  | H : bool_decide _ = false |- _ => apply bool_decide_eq_false in H
  end.

(** ** Strings

    A Rust [String] is the sequence of its UTF-8 bytes; [String.length] is
    therefore [str::len]. *)

#[global] Arguments String.append : simpl nomatch.

Abbreviation COLON := ":"%char (only parsing).

Fixpoint str_has (c : Ascii.ascii) (s : string) : bool :=
  match s with
  | EmptyString => false
  | String a s' => bool_decide (a = c) || str_has c s'
  end.

(** [str::strip_prefix] *)
Fixpoint strip_prefix (p s : string) : option string :=
  match p, s with
  | EmptyString, _ => Some s
  | String a p', String b s' => if decide (a = b) then strip_prefix p' s' else None
  | String _ _, EmptyString => None
  end.

(** [str::starts_with] *)
Definition starts_with (p s : string) : bool :=
  match strip_prefix p s with Some _ => true | None => false end.

(** [<[String]>::join] *)
Fixpoint join (sep : string) (l : list string) : string :=
  match l with
  | [] => ""
  | [x] => x
  | x :: r => x +:+ sep +:+ join sep r
  end.

(** The order on strings of the standard libraries, byte by byte, and the
    sort of a vector of strings. *)
Definition str_leb (a b : string) : bool :=
  match String.compare a b with Gt => false | _ => true end.
Fixpoint insert_str (x : string) (l : list string) : list string :=
  match l with
  | [] => [x]
  | y :: r => if str_leb x y then x :: l else y :: insert_str x r
  end.
Definition sort_strings (l : list string) : list string := foldr insert_str [] l.

Lemma insert_str_perm x l : insert_str x l ≡ₚ x :: l.
Proof.
  induction l as [|y l IH]; simpl; [done|]. destruct (str_leb x y); [done|].
  rewrite IH. apply Permutation_swap.
Qed.
Lemma sort_strings_perm l : sort_strings l ≡ₚ l.
Proof. induction l as [|x l IH]; simpl; [done|]. by rewrite insert_str_perm, IH. Qed.

Lemma str_app_assoc (a b c : string) : (a +:+ b) +:+ c = a +:+ (b +:+ c).
Proof. induction a as [|x a IH]; simpl; [done|by rewrite IH]. Qed.

Lemma str_has_app c a b : str_has c (a +:+ b) = (str_has c a || str_has c b)%bool.
Proof. induction a as [|x a IH]; simpl; [done|]. by rewrite IH, orb_assoc. Qed.

Lemma str_length_app a b : String.length (a +:+ b) = (String.length a + String.length b)%nat.
Proof. induction a as [|x a IH]; simpl; [done|by rewrite IH]. Qed.

Lemma strip_prefix_app p s : strip_prefix p (p +:+ s) = Some s.
Proof. induction p as [|x p IH]; simpl; [by destruct s|]. by rewrite decide_True. Qed.

Lemma strip_prefix_Some p s r : strip_prefix p s = Some r <-> s = p +:+ r.
Proof.
  split; [|intros ->; apply strip_prefix_app].
  revert s. induction p as [|x p IH]; intros [|y s]; simpl; intros H; simplify_eq; [done..|].
  case_decide; simplify_eq. f_equal. by apply IH.
Qed.

Lemma starts_with_spec p s : starts_with p s = true <-> exists r, s = p +:+ r.
Proof.
  unfold starts_with. split.
  - destruct (strip_prefix p s) as [r|] eqn:E; [|done]. intros _. exists r. by apply strip_prefix_Some.
  - intros [r ->]. by rewrite strip_prefix_app.
Qed.

Lemma str_app_inj_l p a b : p +:+ a = p +:+ b -> a = b.
Proof. induction p; simpl; intros; simplify_eq; auto. Qed.

Lemma str_app_neq p x y : x <> y -> p +:+ x <> p +:+ y.
Proof. intros N E. by apply N, (str_app_inj_l p). Qed.

(** The first colon of a string splits it in one way only. *)
Lemma colon_split_unique a b x y :
  str_has COLON a = false -> str_has COLON b = false ->
  a +:+ ":" +:+ x = b +:+ ":" +:+ y -> a = b /\ x = y.
Proof.
  revert b. induction a as [|c a IH]; intros [|d b]; simpl; intros Ha Hb E; bool_to_prop;
    simplify_eq; try done.
  edestruct IH; eauto. by subst.
Qed.

Lemma str_has_colon_join a x : str_has COLON (a +:+ ":" +:+ x) = true.
Proof. rewrite !str_has_app. simpl. by rewrite orb_true_r. Qed.

(** *** Characters

    [str::chars] decodes the bytes of a string; a Rust string is always
    valid UTF-8, and the decoder below yields the replacement character on
    a byte that starts no sequence, as [from_utf8_lossy] does. *)

Definition str_bytes (s : string) : list N := map Ascii.N_of_ascii (String.list_ascii_of_string s).

Definition utf8_cont (b : N) : bool := ((128 <=? b) && (b <? 192))%N.
Definition utf8_replacement : N := 65533.

Fixpoint utf8_chars (bs : list N) : list N :=
  match bs with
  | [] => []
  | b0 :: r0 =>
    if (b0 <? 128)%N then b0 :: utf8_chars r0 else
    match r0 with
    | [] => [utf8_replacement]
    | b1 :: r1 =>
      if ((192 <=? b0) && (b0 <? 224))%N && utf8_cont b1
      then ((b0 - 192) * 64 + (b1 - 128))%N :: utf8_chars r1 else
      match r1 with
      | [] => utf8_replacement :: utf8_chars r0
      | b2 :: r2 =>
        if ((224 <=? b0) && (b0 <? 240))%N && utf8_cont b1 && utf8_cont b2
        then ((b0 - 224) * 4096 + (b1 - 128) * 64 + (b2 - 128))%N :: utf8_chars r2 else
        match r2 with
        | [] => utf8_replacement :: utf8_chars r0
        | b3 :: r3 =>
          if ((240 <=? b0) && (b0 <? 248))%N && utf8_cont b1 && utf8_cont b2 && utf8_cont b3
          then ((b0 - 240) * 262144 + (b1 - 128) * 4096 + (b2 - 128) * 64 + (b3 - 128))%N
               :: utf8_chars r3
          else utf8_replacement :: utf8_chars r0
        end
      end
    end
  end.

Definition chars (s : string) : list N := utf8_chars (str_bytes s).

Lemma utf8_cont_ascii b : (b < 128)%N -> utf8_cont b = false.
Proof. unfold utf8_cont. intros. apply andb_false_iff. left. apply N.leb_gt. lia. Qed.

(** An ASCII byte is never swallowed by a multi-byte sequence. *)
Lemma utf8_chars_ascii_len n b bs :
  (length bs < n)%nat -> (b < 128)%N -> b ∈ bs -> b ∈ utf8_chars bs.
Proof.
  revert bs. induction n as [|n IH]; intros bs Hn Hb Hin; [lia|].
  pose proof (utf8_cont_ascii b Hb) as Hc.
  destruct bs as [|b0 r0]; [by apply elem_of_nil in Hin|]. simpl in *.
  destruct (b0 <? 128)%N eqn:E0.
  { apply elem_of_cons in Hin as [->|Hin]; [set_solver|]. apply elem_of_cons. right. apply IH; [lia|done..]. }
  apply N.ltb_ge in E0. apply elem_of_cons in Hin as [->|Hin]; [lia|].
  assert (Hr0 : b ∈ utf8_chars r0) by (apply IH; [lia|done..]).
  destruct r0 as [|b1 r1]; [by apply elem_of_nil in Hin|].
  destruct (_ && utf8_cont b1)%bool eqn:E1.
  { apply andb_prop in E1 as [_ E1]. apply elem_of_cons in Hin as [->|Hin]; [congruence|].
    apply elem_of_cons. right. apply IH; simpl in *; [lia|done..]. }
  destruct r1 as [|b2 r2]; [set_solver|].
  destruct (_ && utf8_cont b1 && utf8_cont b2)%bool eqn:E2.
  { apply andb_prop in E2 as [E2 E2']. apply andb_prop in E2 as [_ E2].
    apply elem_of_cons in Hin as [->|Hin]; [congruence|].
    apply elem_of_cons in Hin as [->|Hin]; [congruence|].
    apply elem_of_cons. right. apply IH; simpl in *; [lia|done..]. }
  destruct r2 as [|b3 r3]; [set_solver|].
  destruct (_ && utf8_cont b1 && utf8_cont b2 && utf8_cont b3)%bool eqn:E3; [|set_solver].
  apply andb_prop in E3 as [E3 E3'']. apply andb_prop in E3 as [E3 E3'].
  apply andb_prop in E3 as [_ E3].
  apply elem_of_cons in Hin as [->|Hin]; [congruence|].
  apply elem_of_cons in Hin as [->|Hin]; [congruence|].
  apply elem_of_cons in Hin as [->|Hin]; [congruence|].
  apply elem_of_cons. right. apply IH; simpl in *; [lia|done..].
Qed.

Lemma str_has_bytes c s : str_has c s = true -> Ascii.N_of_ascii c ∈ str_bytes s.
Proof.
  unfold str_bytes. induction s as [|a s IH]; simpl; [done|].
  intros [H|H]%orb_true_iff; apply elem_of_cons; [left|right; auto].
  bool_to_prop. by subst.
Qed.

Lemma str_has_chars c s :
  (Ascii.N_of_ascii c < 128)%N -> str_has c s = true -> Ascii.N_of_ascii c ∈ chars s.
Proof. intros Hc H. eapply utf8_chars_ascii_len; [apply Nat.lt_succ_diag_r|done|by apply str_has_bytes]. Qed.

(** [char::is_alphanumeric]: decided here for ASCII; the Unicode tables
    above ASCII are the standard library's data, passed as an interface. *)
Class UnicodeTables := { alphanumeric_above_ascii : N -> bool }.

Definition is_alphanumeric `{UnicodeTables} (c : N) : bool :=
  if (c <? 128)%N then
    ((48 <=? c) && (c <=? 57) || (65 <=? c) && (c <=? 90) || (97 <=? c) && (c <=? 122))%N
  else alphanumeric_above_ascii c.

(** Tables with nothing above ASCII, for closed examples. *)
Definition ascii_only : UnicodeTables := {| alphanumeric_above_ascii := fun _ => false |}.

(** The character class shared by the channel, tenant and template
    identifier checks: alphanumeric or one of [extra]. *)
Definition all_chars_in `{UnicodeTables} (extra : list N) (s : string) : bool :=
  forallb (fun c => is_alphanumeric c || existsb (N.eqb c) extra) (chars s).

Lemma all_chars_in_no_colon `{UnicodeTables} extra s :
  existsb (N.eqb 58) extra = false -> all_chars_in extra s = true -> str_has COLON s = false.
Proof.
  intros Hx Hall. destruct (str_has COLON s) eqn:E; [|done].
  apply str_has_chars in E; [|done].
  unfold all_chars_in in Hall. rewrite forallb_forall in Hall.
  apply list_elem_of_In in E. apply Hall in E. change (Ascii.N_of_ascii COLON) with 58%N in E.
  by rewrite Hx, orb_false_r in E.
Qed.

(** ** Calls in progress

    Components whose operations interleave keep the calls in progress as a
    list; a call moves by replacing its element, and a new one is appended. *)

Definition has_one {A} (ts : list A) (P : A -> Prop) : Prop := exists t, t ∈ ts /\ P t.

Lemma has_one_update {A} (ts : list A) k t t' (P : A -> Prop) :
  ts !! k = Some t -> has_one (<[k := t']> ts) P <-> P t' \/ exists j u, j <> k /\ ts !! j = Some u /\ P u.
Proof.
  intros E. pose proof (lookup_lt_Some _ _ _ E) as L. unfold has_one. setoid_rewrite list_elem_of_lookup. split.
  - intros (u & (j & Hj) & Hu). apply list_lookup_insert_Some in Hj. naive_solver.
  - intros [H|(j & u & N & Hj & Hu)].
    + exists t'. split; [|done]. exists k. by apply list_lookup_insert_eq.
    + exists u. split; [|done]. exists j. by rewrite list_lookup_insert_ne.
Qed.

Lemma has_one_split {A} (ts : list A) k t (P : A -> Prop) :
  ts !! k = Some t -> has_one ts P -> P t \/ exists j u, j <> k /\ ts !! j = Some u /\ P u.
Proof. intros E H. apply (has_one_update ts k t t); [done|]. by rewrite list_insert_id. Qed.

(** What a step of task [k] leaves of a pending task: it is another task, or it
    was this one. *)
Lemma has_one_step {A} (ts : list A) k t t' (P : A -> Prop) :
  ts !! k = Some t -> has_one ts P -> P t \/ has_one (<[k := t']> ts) P.
Proof. intros E [H|H]%(has_one_split _ k t); [by left|by right; apply (has_one_update _ k t); auto|done]. Qed.

Lemma has_one_here {A} (ts : list A) k t t' (P : A -> Prop) : ts !! k = Some t -> P t' -> has_one (<[k := t']> ts) P.
Proof. intros E H. apply (has_one_update _ k t); auto. Qed.

Lemma has_one_start {A} (ts : list A) t (P : A -> Prop) : has_one (ts ++ [t]) P <-> has_one ts P \/ P t.
Proof. unfold has_one. setoid_rewrite elem_of_app. setoid_rewrite list_elem_of_singleton. naive_solver. Qed.

Fixpoint count_if {A} (p : A -> bool) (ts : list A) : nat :=
  match ts with [] => 0 | t :: ts => Nat.b2n (p t) + count_if p ts end.

Lemma count_if_step {A} (p : A -> bool) ts k t t' :
  ts !! k = Some t -> (count_if p (<[k := t']> ts) + Nat.b2n (p t) = count_if p ts + Nat.b2n (p t'))%nat.
Proof.
  revert k. induction ts as [|u ts IH]; intros [|k] E; try done; simpl.
  - injection E as ->. lia.
  - apply IH in E. lia.
Qed.

Lemma count_if_start {A} (p : A -> bool) ts t : count_if p (ts ++ [t]) = (count_if p ts + Nat.b2n (p t))%nat.
Proof. induction ts; simpl; lia. Qed.

Lemma count_if_mono {A} (p q : A -> bool) (ts : list A) : (forall t, p t = true -> q t = true) -> (count_if p ts <= count_if q ts)%nat.
Proof.
  intros H. induction ts as [|t ts IH]; simpl; [done|].
  specialize (H t). destruct (p t); [rewrite (H eq_refl)|]; simpl; lia.
Qed.
