(* ===== verification/Auth.v ===== *)
(** * Auth: claims and the tenant-scoped keys

    Models [infrastructure/auth/claims.rs] and the token extraction that the
    WebSocket and SSE entry points share.  The JWT library itself
    ([infrastructure/auth/jwt.rs]) decodes and checks signatures outside the
    repository: [validate] is a parameter of the entry points that call it. *)
From S2P Require Import Prelude.

Definition DEFAULT_TENANT_ID : string := "default".

Definition tenant_scoped_key (tenant_id user_id : string) : string :=
  if decide (tenant_id = DEFAULT_TENANT_ID) then user_id
  else tenant_id +:+ ":" +:+ user_id.

(** The flattened [extra] claims are opaque JSON, kept by name. *)
Record Claims := {
  sub : string;
  exp : Z;
  iat : Z;
  roles : list string;
  tenant_id : option string;
  extra : gmap string string;
}.

Definition claims_user_id (c : Claims) : string := sub c.
Definition claims_tenant_id (c : Claims) : string := default DEFAULT_TENANT_ID (tenant_id c).
Definition claims_has_role (c : Claims) (role : string) : bool :=
  existsb (fun r => bool_decide (r = role)) (roles c).
Definition claims_is_expired (now : Z) (c : Claims) : bool := exp c <? timestamp now.

(** [extract_token] of the WebSocket handler: the query parameter first,
    then a [Bearer] authorization header.  [auth_header] is [None] when the
    header is absent or is not a visible-ASCII string. *)
Definition extract_token (query_token auth_header : option string) : option string :=
  match query_token with
  | Some t => Some t
  | None => match auth_header with
            | Some a => strip_prefix "Bearer " a
            | None => None
            end
  end.

(** [extract_token] of the SSE handler. *)
Definition sse_extract_token (query_token auth_header : option string) : option string :=
  match query_token with
  | Some t => Some t
  | None => match auth_header with
            | Some a => match strip_prefix "Bearer " a with
                        | Some t => Some t
                        | None => None
                        end
            | None => None
            end
  end.

Lemma tenant_scoped_key_default u : tenant_scoped_key DEFAULT_TENANT_ID u = u.
Proof. unfold tenant_scoped_key. by rewrite decide_True. Qed.

Lemma tenant_scoped_key_other t u :
  t <> DEFAULT_TENANT_ID -> tenant_scoped_key t u = t +:+ ":" +:+ u.
Proof. intros. unfold tenant_scoped_key. by rewrite decide_False. Qed.

Lemma default_no_colon : str_has COLON DEFAULT_TENANT_ID = false.
Proof. reflexivity. Qed.

(** Keys of one tenant determine the user. *)
Lemma tenant_scoped_key_inj_user t u v :
  tenant_scoped_key t u = tenant_scoped_key t v -> u = v.
Proof.
  unfold tenant_scoped_key. case_decide; [done|].
  intros E. apply str_app_inj_l, str_app_inj_l in E. done.
Qed.

(** Queue keys and template identifiers built by [tenant_scoped_key]
    never clash when no tenant id and no user id contains a colon: the key
    determines both the tenant and the user. *)
Theorem tenant_scoped_key_inj t1 u1 t2 u2 :
  str_has COLON t1 = false -> str_has COLON t2 = false ->
  str_has COLON u1 = false -> str_has COLON u2 = false ->
  tenant_scoped_key t1 u1 = tenant_scoped_key t2 u2 -> t1 = t2 /\ u1 = u2.
Proof.
  intros Ht1 Ht2 Hu1 Hu2. unfold tenant_scoped_key.
  destruct (decide (t1 = DEFAULT_TENANT_ID)) as [->|], (decide (t2 = DEFAULT_TENANT_ID)) as [->|];
    intros E.
  - done.
  - subst u1. by rewrite str_has_colon_join in Hu1.
  - subst u2. by rewrite str_has_colon_join in Hu2.
  - by apply colon_split_unique.
Qed.

Lemma tenant_scoped_key_inj_witness :
  tenant_scoped_key "acme" "u1" = tenant_scoped_key "acme" "u1" /\ ("acme" = "acme" /\ "u1" = "u1").
Proof.
  split; [reflexivity|].
  apply (tenant_scoped_key_inj "acme" "u1" "acme" "u1"); reflexivity.
Defined.

(** Without the check the keys do clash: a default-tenant user id that
    contains a colon is read as a user of another tenant, and a tenant id
    with a colon (a JWT claim is not validated) as a prefix of another. *)
Theorem tenant_scoped_key_clash t u v :
  tenant_scoped_key DEFAULT_TENANT_ID (t +:+ ":" +:+ u) =
    (if decide (t = DEFAULT_TENANT_ID) then t +:+ ":" +:+ u else tenant_scoped_key t u) /\
  tenant_scoped_key ("a" +:+ t) ("b:" +:+ v) = tenant_scoped_key ("a" +:+ t +:+ ":b") v.
Proof.
  split.
  - rewrite tenant_scoped_key_default. case_decide; [done|]. by rewrite tenant_scoped_key_other.
  - rewrite !tenant_scoped_key_other by (by destruct t; simpl; intros [=]).
    by rewrite !str_app_assoc.
Qed.
