(* ===== verification/Tenant.v ===== *)
(** * Tenant: contexts, channel namespaces and per-tenant statistics

    Models [domain/tenant/mod.rs] and the two identifier checks that guard
    the namespaces: [is_valid_tenant_id] (server/middleware.rs) and
    [is_valid_channel_name] (realtime/websocket/handler.rs). *)
From S2P Require Import Prelude Auth.

(** ** Configuration *)

(** [ConnectionLimits] of connection/types.rs; 0 means unlimited. *)
Record ConnectionLimits := {
  max_connections : nat;
  max_connections_per_user : nat;
  max_subscriptions_per_connection : nat;
}.

Definition ConnectionLimits_default : ConnectionLimits :=
  {| max_connections := 10000; max_connections_per_user := 5;
     max_subscriptions_per_connection := 50 |}.

Record TenantLimitsConfig := {
  tl_max_connections : nat;
  tl_max_connections_per_user : nat;
  tl_max_subscriptions_per_connection : nat;
}.

Definition default_tenant_limits : TenantLimitsConfig :=
  {| tl_max_connections := 1000; tl_max_connections_per_user := 5;
     tl_max_subscriptions_per_connection := 50 |}.

Definition limits_of_config (c : TenantLimitsConfig) : ConnectionLimits :=
  {| max_connections := tl_max_connections c;
     max_connections_per_user := tl_max_connections_per_user c;
     max_subscriptions_per_connection := tl_max_subscriptions_per_connection c |}.

Record TenantConfig := {
  tc_enabled : bool;
  tc_default_limits : TenantLimitsConfig;
  tc_tenant_overrides : gmap string TenantLimitsConfig;
}.

Definition TenantConfig_default : TenantConfig :=
  {| tc_enabled := false; tc_default_limits := default_tenant_limits; tc_tenant_overrides := ∅ |}.

(** ** Tenant context *)

Record TenantContext := { ctx_tenant_id : string; ctx_is_default : bool }.

Definition TenantContext_new (t : string) : TenantContext :=
  {| ctx_tenant_id := t; ctx_is_default := bool_decide (t = DEFAULT_TENANT_ID) |}.

Definition default_tenant : TenantContext := TenantContext_new DEFAULT_TENANT_ID.

Definition namespace_channel (ctx : TenantContext) (channel : string) : string :=
  if ctx_is_default ctx then channel else ctx_tenant_id ctx +:+ ":" +:+ channel.

Definition extract_channel_name (ctx : TenantContext) (namespaced : string) : option string :=
  if ctx_is_default ctx then
    if str_has COLON namespaced then None else Some namespaced
  else
    match strip_prefix (ctx_tenant_id ctx +:+ ":") namespaced with
    | Some name => Some name
    | None => None
    end.

(** ** Identifier checks *)

Section checks.
Context `{UnicodeTables}.

Definition is_valid_channel_name (name : string) : bool :=
  if bool_decide (name = "") || (64 <? String.length name)%nat then false
  else all_chars_in [45; 95; 46]%N name.

(** [str::trim]; a header value that reached this code is visible ASCII,
    so the white space to trim is ASCII white space. *)
Definition is_ascii_space (c : Ascii.ascii) : bool :=
  let n := Ascii.N_of_ascii c in ((n =? 32) || ((9 <=? n) && (n <=? 13)))%N.
Fixpoint trim_start (s : string) : string :=
  match s with
  | EmptyString => EmptyString
  | String c r => if is_ascii_space c then trim_start r else s
  end.
Fixpoint trim_end (s : string) : string :=
  match s with
  | EmptyString => EmptyString
  | String c r => match trim_end r with
                  | EmptyString => if is_ascii_space c then EmptyString else String c EmptyString
                  | r' => String c r'
                  end
  end.
Definition trim (s : string) : string := trim_end (trim_start s).

Definition is_valid_tenant_id (id : string) : bool :=
  let trimmed := trim id in
  if bool_decide (trimmed = "") || (64 <? String.length trimmed)%nat then false
  else all_chars_in [45; 95; 46]%N trimmed.

Lemma valid_channel_no_colon c : is_valid_channel_name c = true -> str_has COLON c = false.
Proof.
  unfold is_valid_channel_name. destruct (_ || _)%bool; [done|].
  by apply all_chars_in_no_colon.
Qed.

Lemma valid_tenant_no_colon t : is_valid_tenant_id t = true -> str_has COLON (trim t) = false.
Proof.
  unfold is_valid_tenant_id. destruct (_ || _)%bool; [done|].
  by apply all_chars_in_no_colon.
Qed.

(** Trimming takes away white space, and so no colon. *)
Lemma trim_start_colon s : str_has COLON (trim_start s) = str_has COLON s.
Proof.
  induction s as [|c s IH]; simpl; [done|]. destruct (is_ascii_space c) eqn:E; [|done]. rewrite IH.
  by rewrite bool_decide_false by (by intros ->).
Qed.
Lemma trim_end_colon s : str_has COLON (trim_end s) = str_has COLON s.
Proof.
  induction s as [|c s IH]; simpl; [done|]. rewrite <- IH. destruct (trim_end s); [|done].
  destruct (is_ascii_space c) eqn:E; simpl; [|done]. by rewrite bool_decide_false by (by intros ->).
Qed.
Lemma trimmed_tenant_no_colon t : is_valid_tenant_id (trim t) = true -> str_has COLON (trim t) = false.
Proof. intros V%valid_tenant_no_colon. unfold trim in *. by rewrite trim_end_colon, trim_start_colon in V. Qed.
End checks.
#[export] Hint Resolve valid_channel_no_colon valid_tenant_no_colon : ara.

(** ** Statistics: [AtomicU64] counters, which wrap around *)

Record TenantStats := {
  active_connections : Z;
  total_connections : Z;
  messages_sent : Z;
  messages_delivered : Z;
}.

Definition TenantStats_new : TenantStats :=
  {| active_connections := 0; total_connections := 0; messages_sent := 0; messages_delivered := 0 |}.

Definition stats_record_connection (s : TenantStats) : TenantStats :=
  {| active_connections := u64 (active_connections s + 1);
     total_connections := u64 (total_connections s + 1);
     messages_sent := messages_sent s; messages_delivered := messages_delivered s |}.

Definition stats_record_disconnection (s : TenantStats) : TenantStats :=
  {| active_connections := u64 (active_connections s - 1);
     total_connections := total_connections s;
     messages_sent := messages_sent s; messages_delivered := messages_delivered s |}.

Definition stats_record_message_sent (s : TenantStats) : TenantStats :=
  {| active_connections := active_connections s; total_connections := total_connections s;
     messages_sent := u64 (messages_sent s + 1); messages_delivered := messages_delivered s |}.

Definition stats_record_message_delivered (s : TenantStats) (count : nat) : TenantStats :=
  {| active_connections := active_connections s; total_connections := total_connections s;
     messages_sent := messages_sent s;
     messages_delivered := u64 (messages_delivered s + Z.of_nat count) |}.

(** A snapshot is the record of the four loaded counters. *)
Definition snapshot (s : TenantStats) : TenantStats :=
  {| active_connections := active_connections s; total_connections := total_connections s;
     messages_sent := messages_sent s; messages_delivered := messages_delivered s |}.

(** ** Tenant manager *)

Record TenantManager := { tm_config : TenantConfig; tm_stats : gmap string TenantStats }.

Definition TenantManager_new (c : TenantConfig) : TenantManager :=
  {| tm_config := c; tm_stats := ∅ |}.

Definition tm_is_enabled (m : TenantManager) : bool := tc_enabled (tm_config m).

Definition get_limits (m : TenantManager) (t : string) : ConnectionLimits :=
  if negb (tc_enabled (tm_config m)) then ConnectionLimits_default
  else match tc_tenant_overrides (tm_config m) !! t with
       | Some c => limits_of_config c
       | None => limits_of_config (tc_default_limits (tm_config m))
       end.

Definition create_context (m : TenantManager) (t : string) : TenantContext :=
  if tc_enabled (tm_config m) then TenantContext_new t else default_tenant.

Definition get_stats (m : TenantManager) (t : string) : TenantStats :=
  match tm_stats m !! t with Some s => snapshot s | None => TenantStats_new end.

(** [entry(tenant).or_insert_with(new)] followed by an update. *)
Definition tm_upsert (f : TenantStats -> TenantStats) (m : TenantManager) (t : string) : TenantManager :=
  {| tm_config := tm_config m;
     tm_stats := <[t := f (default TenantStats_new (tm_stats m !! t))]> (tm_stats m) |}.

Definition record_connection (m : TenantManager) (t : string) : TenantManager :=
  tm_upsert stats_record_connection m t.

Definition record_disconnection (m : TenantManager) (t : string) : TenantManager :=
  match tm_stats m !! t with
  | Some s => {| tm_config := tm_config m;
                 tm_stats := <[t := stats_record_disconnection s]> (tm_stats m) |}
  | None => m
  end.

Definition record_message_sent (m : TenantManager) (t : string) : TenantManager :=
  tm_upsert stats_record_message_sent m t.

Definition record_message_delivered (m : TenantManager) (t : string) (count : nat) : TenantManager :=
  tm_upsert (fun s => stats_record_message_delivered s count) m t.

Definition list_active_tenants (m : TenantManager) : list (string * TenantStats) :=
  map (fun kv => (kv.1, snapshot kv.2))
      (filter (fun kv => 0 < active_connections kv.2) (map_to_list (tm_stats m))).

Definition all_stats (m : TenantManager) : gmap string TenantStats := snapshot <$> tm_stats m.

Lemma snapshot_id s : snapshot s = s.
Proof. by destruct s. Qed.

(** ** Channel namespaces *)

Lemma namespace_default c : namespace_channel default_tenant c = c.
Proof. reflexivity. Qed.

Lemma namespace_other t c :
  t <> DEFAULT_TENANT_ID -> namespace_channel (TenantContext_new t) c = t +:+ ":" +:+ c.
Proof. intros. unfold namespace_channel, TenantContext_new. simpl. by rewrite bool_decide_false. Qed.

(** The two namespacing functions of the program agree. *)
Lemma namespace_is_scoped_key t c :
  namespace_channel (TenantContext_new t) c = tenant_scoped_key t c.
Proof.
  unfold tenant_scoped_key. case_decide as D; [by subst|]. by apply namespace_other.
Qed.

(** A channel name that passed the name check is recovered exactly by
    [extract_channel_name] from its namespaced form, for every tenant. *)
Theorem extract_namespace_roundtrip `{UnicodeTables} t c :
  is_valid_channel_name c = true ->
  extract_channel_name (TenantContext_new t) (namespace_channel (TenantContext_new t) c) = Some c.
Proof.
  intros Hc%valid_channel_no_colon. unfold extract_channel_name, namespace_channel, TenantContext_new.
  cbn [ctx_is_default ctx_tenant_id]. case_bool_decide; [by rewrite Hc|].
  by rewrite <- (str_app_assoc t ":" c), strip_prefix_app.
Qed.

Lemma extract_namespace_roundtrip_witness :
  extract_channel_name (TenantContext_new "acme") (namespace_channel (TenantContext_new "acme") "orders")
    = Some "orders".
Proof. apply (@extract_namespace_roundtrip ascii_only "acme" "orders"). reflexivity. Defined.

(** C5: tenant isolation of channels.  Two tenants whose ids passed the id
    check and whose channel names passed the name check share a namespaced
    channel only when tenant and channel are both equal; and the channel of
    one tenant is never extracted under the context of another. *)
Theorem channel_isolation `{UnicodeTables} t1 t2 c1 c2 :
  is_valid_tenant_id t1 = true -> is_valid_tenant_id t2 = true ->
  is_valid_channel_name c1 = true -> is_valid_channel_name c2 = true ->
  (namespace_channel (TenantContext_new (trim t1)) c1 =
     namespace_channel (TenantContext_new (trim t2)) c2 -> trim t1 = trim t2 /\ c1 = c2) /\
  (trim t1 <> trim t2 ->
   extract_channel_name (TenantContext_new (trim t1))
     (namespace_channel (TenantContext_new (trim t2)) c2) = None).
Proof.
  intros Ht1%valid_tenant_no_colon Ht2%valid_tenant_no_colon
    Hc1%valid_channel_no_colon Hc2%valid_channel_no_colon.
  split.
  - rewrite !namespace_is_scoped_key. by apply tenant_scoped_key_inj.
  - intros Hne. rewrite namespace_is_scoped_key. unfold extract_channel_name, tenant_scoped_key,
      TenantContext_new. cbn [ctx_is_default ctx_tenant_id]. case_bool_decide as D1.
    + case_decide; [congruence|]. by rewrite str_has_colon_join.
    + destruct (strip_prefix _ _) as [r|] eqn:E; [|done].
      apply strip_prefix_Some in E. rewrite str_app_assoc in E. case_decide as D2.
      * rewrite E, str_has_colon_join in Hc2. done.
      * apply colon_split_unique in E; [|done..]. by destruct E.
Qed.

Lemma channel_isolation_witness :
  extract_channel_name (TenantContext_new (trim " acme"))
    (namespace_channel (TenantContext_new (trim "globex")) "orders") = None.
Proof.
  apply (proj2 (@channel_isolation ascii_only " acme" "globex" "orders" "orders"
    eq_refl eq_refl eq_refl eq_refl)).
  vm_compute. intros [=].
Defined.

(** With multi-tenancy off every tenant id gets the default context and
    the global limits; with it on, an override wins over the defaults. *)
Theorem get_limits_create_context m t :
  (tc_enabled (tm_config m) = false ->
     get_limits m t = ConnectionLimits_default /\ create_context m t = default_tenant /\
     (forall c, namespace_channel (create_context m t) c = c)) /\
  (tc_enabled (tm_config m) = true ->
     create_context m t = TenantContext_new t /\
     get_limits m t = limits_of_config
       (default (tc_default_limits (tm_config m)) (tc_tenant_overrides (tm_config m) !! t))).
Proof.
  unfold get_limits, create_context. split; intros ->; simpl; [done|].
  split; [done|]. by destruct (tc_tenant_overrides _ !! t).
Qed.

Lemma get_limits_create_context_witness :
  get_limits (TenantManager_new TenantConfig_default) "acme" = ConnectionLimits_default.
Proof. apply (proj1 (get_limits_create_context (TenantManager_new TenantConfig_default) "acme")). reflexivity. Defined.

(** ** Statistics *)

Inductive tenant_event := EvConnect | EvDisconnect | EvSent | EvDelivered (n : nat).

Definition tenant_apply (m : TenantManager) (t : string) (e : tenant_event) : TenantManager :=
  match e with
  | EvConnect => record_connection m t
  | EvDisconnect => record_disconnection m t
  | EvSent => record_message_sent m t
  | EvDelivered n => record_message_delivered m t n
  end.

Lemma tenant_apply_other m t t' e : t <> t' -> get_stats (tenant_apply m t e) t' = get_stats m t'.
Proof.
  intros. unfold get_stats, tenant_apply, record_connection, record_disconnection,
    record_message_sent, record_message_delivered, tm_upsert.
  destruct e; [..|]; try destruct (tm_stats m !! t); simpl; by rewrite ?lookup_insert_ne by done.
Qed.

Lemma tenant_apply_connect m t :
  get_stats (record_connection m t) t = stats_record_connection (get_stats m t).
Proof.
  unfold get_stats, record_connection, tm_upsert. simpl. rewrite lookup_insert_eq, snapshot_id.
  by destruct (tm_stats m !! t) as [s|]; simpl; rewrite ?snapshot_id.
Qed.

Lemma tenant_apply_disconnect m t :
  tm_stats m !! t <> None ->
  get_stats (record_disconnection m t) t = stats_record_disconnection (get_stats m t).
Proof.
  unfold get_stats, record_disconnection. destruct (tm_stats m !! t) as [s|] eqn:E; [|done].
  intros _. simpl. by rewrite lookup_insert_eq, !snapshot_id.
Qed.

(** A connection followed by a disconnection of the same tenant leaves
    the active count where it was and adds one to the total; other tenants'
    counters never move. *)
Theorem tenant_stats_connect_disconnect m t t' :
  is_u64 (active_connections (get_stats m t)) ->
  let m' := record_disconnection (record_connection m t) t in
  active_connections (get_stats m' t) = active_connections (get_stats m t) /\
  total_connections (get_stats m' t) = u64 (total_connections (get_stats m t) + 1) /\
  (t <> t' -> get_stats m' t' = get_stats m t').
Proof.
  intros Hr m'. subst m'.
  assert (Hs : tm_stats (record_connection m t) !! t <> None).
  { unfold record_connection, tm_upsert. simpl. by rewrite lookup_insert_eq. }
  rewrite tenant_apply_disconnect, tenant_apply_connect by done. simpl. split; [|split].
  - unfold is_u64, u64 in *. rewrite Zminus_mod_idemp_l, Z.add_simpl_r. by apply Z.mod_small.
  - done.
  - intros Hne. pose proof (tenant_apply_other (record_connection m t) t t' EvDisconnect Hne) as H1.
    pose proof (tenant_apply_other m t t' EvConnect Hne) as H2. simpl in *. congruence.
Qed.

Lemma tenant_stats_connect_disconnect_witness :
  active_connections (get_stats (record_disconnection
    (record_connection (TenantManager_new TenantConfig_default) "acme") "acme") "acme") = 0.
Proof.
  apply (tenant_stats_connect_disconnect (TenantManager_new TenantConfig_default) "acme" "x").
  vm_compute. split; [intros [=]|reflexivity].
Defined.

(** An unmatched disconnection wraps the active counter of a tenant that
    has none to 2^64 - 1, and the tenant is then listed as active. *)
Theorem tenant_disconnect_underflow m t s :
  tm_stats m !! t = Some s -> active_connections s = 0 ->
  active_connections (get_stats (record_disconnection m t) t) = 2 ^ 64 - 1 /\
  t ∈ (list_active_tenants (record_disconnection m t)).*1.
Proof.
  intros Hs H0. split.
  - rewrite tenant_apply_disconnect by congruence. unfold get_stats. rewrite Hs, snapshot_id. simpl.
    by rewrite H0.
  - unfold list_active_tenants, record_disconnection. rewrite Hs. simpl.
    apply list_elem_of_fmap. exists (t, snapshot (stats_record_disconnection s)). split; [done|].
    apply list_elem_of_In, in_map_iff. exists (t, stats_record_disconnection s). split; [done|].
    apply list_elem_of_In, list_elem_of_filter. split; [simpl; by rewrite H0|].
    apply elem_of_map_to_list, lookup_insert_eq.
Qed.

Lemma tenant_disconnect_underflow_witness :
  let m := {| tm_config := TenantConfig_default; tm_stats := {["acme" := TenantStats_new]} |} in
  active_connections (get_stats (record_disconnection m "acme") "acme") = 2 ^ 64 - 1.
Proof. intros m. apply (tenant_disconnect_underflow m "acme" TenantStats_new); reflexivity. Defined.
