(* ===== verification/RateLimit.v ===== *)
(** * RateLimit: token buckets, the limiter and the distributed backends

    Models [domain/ratelimit/]: [Module TokenBucket] is token_bucket.rs, with
    its compare-and-swap loop once as the atomic function a single caller
    sees and once as a step relation on interleaved callers; [Module
    Limiter] is limiter.rs and [Module Distributed] is distributed.rs, where
    Redis is an interface.  Times are milliseconds read by the caller. *)
From S2P Require Import Prelude.

(** ** Configuration *)

Record RateLimitConfig := {
  enabled : bool;
  http_requests_per_second : Z;
  http_burst_size : Z;
  ws_connections_per_minute : Z;
  ws_messages_per_second : Z;
  cleanup_interval_seconds : Z;
  bucket_ttl_seconds : Z;
  backend : string;
  redis_prefix : string;
}.

Definition RateLimitConfig_default : RateLimitConfig :=
  {| enabled := false; http_requests_per_second := 100; http_burst_size := 200;
     ws_connections_per_minute := 10; ws_messages_per_second := 50;
     cleanup_interval_seconds := 60; bucket_ttl_seconds := 300;
     backend := "local"; redis_prefix := "ara:ratelimit" |}.

(** [RateLimitConfig] holds [u32] and [u64] fields. *)
Definition config_wf (c : RateLimitConfig) : Prop :=
  is_u32 (http_requests_per_second c) /\ is_u32 (http_burst_size c) /\
  is_u32 (ws_connections_per_minute c) /\ is_u64 (bucket_ttl_seconds c).

Module TokenBucket.

Record TokenBucket := mk {
  tokens : Z;
  last_refill : Z;
  capacity : Z;
  refill_rate : Z;
}.

(** [now_millis] of a clock reading in nanoseconds. *)
Definition now_millis (t : Z) : Z := i64 (Z.max t 0 / 10 ^ 6).

Definition new (now capacity refill_rate : Z) : TokenBucket :=
  mk capacity now capacity refill_rate.

Definition wf (b : TokenBucket) : Prop :=
  0 <= tokens b <= capacity b /\ is_u32 (capacity b) /\ is_u32 (refill_rate b).

(** The tokens that accrued between [last] and [now]: a [u64] product, then
    truncation to [u32]. *)
Definition tokens_to_add (now last rate : Z) : Z :=
  let elapsed_ms := u64 (Z.max (i64 (now - last)) 0) in
  u32 (u64 (elapsed_ms * rate) / 1000).

Definition refilled (b : TokenBucket) (current add : Z) : Z :=
  Z.min (u32 (current + add)) (capacity b).

(** [try_consume_n] as one caller runs it. *)
Definition try_consume_n (b : TokenBucket) (now n : Z) : bool * TokenBucket :=
  let add := tokens_to_add now (last_refill b) (refill_rate b) in
  let r := refilled b (tokens b) add in
  if r <? n then (false, b)
  else (true, mk (r - n) now (capacity b) (refill_rate b)).

Definition try_consume (b : TokenBucket) (now : Z) : bool * TokenBucket :=
  try_consume_n b now 1.

Definition available (b : TokenBucket) (now : Z) : Z :=
  refilled b (tokens b) (tokens_to_add now (last_refill b) (refill_rate b)).

Definition retry_after (b : TokenBucket) (now : Z) : Z :=
  if 0 <? available b now then 0
  else Z.max (1000 / Z.max (refill_rate b) 1 / 1000) 1.

Definition last_activity (b : TokenBucket) : Z := last_refill b.

Lemma tokens_to_add_nonneg now last rate : 0 <= tokens_to_add now last rate.
Proof. unfold tokens_to_add. apply u32_range. Qed.

Lemma refilled_range b c a : is_u32 (capacity b) -> 0 <= refilled b c a <= capacity b.
Proof.
  unfold refilled. intros [? ?]. pose proof (u32_range (c + a)) as [? ?]. lia.
Qed.

Lemma wf_new now c r : is_u32 c -> is_u32 r -> wf (new now c r).
Proof. unfold wf, new, is_u32. simpl. lia. Qed.

Lemma wf_try_consume_n b now n : wf b -> 0 <= n -> wf (try_consume_n b now n).2.
Proof.
  intros (Ht & Hc & Hr) Hn. unfold try_consume_n.
  pose proof (refilled_range b (tokens b) (tokens_to_add now (last_refill b) (refill_rate b)) Hc).
  destruct (_ <? n) eqn:E; bool_to_prop; unfold wf; simpl; auto with lia.
Qed.

Lemma try_consume_n_fields b now n :
  capacity (try_consume_n b now n).2 = capacity b /\
  refill_rate (try_consume_n b now n).2 = refill_rate b.
Proof. unfold try_consume_n. by destruct (_ <? n). Qed.
#[export] Hint Resolve wf_new wf_try_consume_n : ara.

(** [try_consume_n] grants exactly when [available] covers the request;
    it then takes [n] tokens of the refilled count and restarts the refill
    clock, and a refusal changes nothing.  The result never exceeds the
    capacity. *)
Theorem try_consume_n_spec b now n :
  wf b -> 0 <= n ->
  (n <= available b now ->
     try_consume_n b now n = (true, mk (available b now - n) now (capacity b) (refill_rate b))) /\
  (available b now < n -> try_consume_n b now n = (false, b)) /\
  wf (try_consume_n b now n).2.
Proof.
  intros Hw Hn. split; [|split].
  - intros H. unfold try_consume_n. fold (available b now).
    destruct (available b now <? n) eqn:E; bool_to_prop; [lia|done].
  - intros H. unfold try_consume_n. fold (available b now).
    destruct (available b now <? n) eqn:E; bool_to_prop; [done|lia].
  - by apply wf_try_consume_n.
Qed.

Lemma try_consume_n_spec_witness :
  try_consume_n (mk 0 0 5 1000) 3 2 = (true, mk 1 3 5 1000).
Proof.
  apply (try_consume_n_spec (mk 0 0 5 1000) 3 2); [|lia|vm_compute; intros [=]].
  unfold wf, is_u32; simpl; lia.
Defined.

(** A request sequence: each caller brings its own clock reading. *)
Fixpoint run (b : TokenBucket) (times : list Z) : nat * TokenBucket :=
  match times with
  | [] => (0%nat, b)
  | t :: ts =>
    let '(ok, b') := try_consume b t in
    let '(k, b'') := run b' ts in
    ((if ok then S k else k), b'')
  end.

(** Clock readings that do not go back. *)
Fixpoint monotone_from (t : Z) (ts : list Z) : Prop :=
  match ts with [] => True | x :: r => t <= x /\ monotone_from x r end.

Lemma monotone_weaken s t ts : s <= t -> monotone_from t ts -> monotone_from s ts.
Proof. destruct ts as [|x r]; simpl; [done|]. intros ? [? ?]. split; [lia|done]. Qed.

Lemma tokens_to_add_bound now last rate :
  last <= now -> 0 <= last -> now < 2 ^ 63 -> 0 <= rate ->
  1000 * tokens_to_add now last rate <= (now - last) * rate.
Proof.
  intros Hle Hl Hn Hr. unfold tokens_to_add.
  rewrite (i64_id (now - last)) by (unfold is_i64; lia).
  rewrite (u64_id (Z.max _ 0)) by (unfold is_u64; lia).
  rewrite Z.max_l by lia.
  assert (H0 : 0 <= (now - last) * rate) by nia.
  pose proof (u64_le _ H0) as H1. pose proof (u64_range ((now - last) * rate)) as [H2 _].
  set (p := u64 ((now - last) * rate)) in *.
  pose proof (u32_le (p / 1000) ltac:(apply Z.div_pos; lia)).
  pose proof (Z.mul_div_le p 1000 ltac:(lia)). lia.
Qed.

Lemma refilled_le b c a : 0 <= c -> 0 <= a -> refilled b c a <= c + a.
Proof. intros. unfold refilled. pose proof (u32_le (c + a) ltac:(lia)). lia. Qed.

(** One call, in thousandths of a token: what is left and what was granted
    never exceed what was there and what accrued. *)
Lemma try_consume_potential b now :
  wf b -> 0 <= last_refill b <= now -> now < 2 ^ 63 ->
  let '(ok, b') := try_consume b now in
  1000 * (tokens b' + (if ok then 1 else 0)) <=
    1000 * tokens b + (last_refill b' - last_refill b) * refill_rate b /\
  last_refill b <= last_refill b' <= now.
Proof.
  intros (Ht & Hc & Hr) Hl Hn. unfold try_consume, try_consume_n.
  pose proof (tokens_to_add_bound now (last_refill b) (refill_rate b)
    ltac:(lia) ltac:(lia) Hn ltac:(unfold is_u32 in Hr; lia)) as Ha.
  set (a := tokens_to_add _ _ _) in *.
  pose proof (refilled_le b (tokens b) a ltac:(lia) (tokens_to_add_nonneg _ _ _)).
  destruct (_ <? 1) eqn:E; bool_to_prop; simpl; lia.
Qed.

Lemma run_potential ts b :
  wf b -> 0 <= last_refill b -> monotone_from (last_refill b) ts -> Forall (fun t => t < 2 ^ 63) ts ->
  1000 * (tokens (run b ts).2 + Z.of_nat (run b ts).1) <=
    1000 * tokens b + (last_refill (run b ts).2 - last_refill b) * refill_rate b /\
  wf (run b ts).2 /\ refill_rate (run b ts).2 = refill_rate b /\
  last_refill b <= last_refill (run b ts).2 /\
  (forall t_end, Forall (fun t => t <= t_end) ts -> last_refill b <= t_end ->
     last_refill (run b ts).2 <= t_end).
Proof.
  revert b. induction ts as [|t ts IH]; intros b Hw Hl Hm Hf; simpl.
  { repeat split; eauto with lia; apply Hw. }
  destruct Hm as [Hlt Hm]. inversion Hf as [|? ? Ht Hf']; subst.
  pose proof (try_consume_potential b t Hw ltac:(lia) Ht) as Hp.
  pose proof (wf_try_consume_n b t 1 Hw ltac:(lia)) as Hw'.
  pose proof (try_consume_n_fields b t 1) as [Hcap Hrate]. unfold try_consume in *.
  destruct (try_consume_n b t 1) as [ok b'] eqn:E. simpl in *.
  destruct Hp as [Hp [Hp1 Hp2]].
  destruct (IH b' Hw' ltac:(lia) (monotone_weaken _ _ _ Hp2 Hm) Hf') as (I1 & I2 & I3 & I4 & I5).
  destruct (run b' ts) as [k b'']. simpl in *. rewrite Hrate in *.
  assert (Hk : Z.of_nat (if ok then S k else k) = Z.of_nat k + (if ok then 1 else 0))
    by (destruct ok; lia).
  rewrite Hk. repeat split; [nia|apply I2..|lia|lia|].
  intros te Hte Hle. inversion Hte; subst. apply I5; [done|]. lia.
Qed.

(** C20: rate bound.  Callers that take turns, with clock readings that do
    not go back, are granted at most the capacity plus what accrues at
    [refill_rate] per second over the whole window, whatever the 32-bit
    and 64-bit truncations do. *)
Theorem run_rate_bound c r t0 ts t_end :
  is_u32 c -> is_u32 r -> 0 <= t0 <= t_end -> t_end < 2 ^ 63 ->
  monotone_from t0 ts -> Forall (fun t => t <= t_end) ts ->
  1000 * Z.of_nat (run (new t0 c r) ts).1 <= 1000 * c + (t_end - t0) * r.
Proof.
  intros Hc Hr Ht Hte Hm Hf.
  assert (Hf' : Forall (fun t => t < 2 ^ 63) ts) by (eapply Forall_impl; [exact Hf|]; simpl; lia).
  destruct (run_potential ts (new t0 c r) (wf_new _ _ _ Hc Hr) ltac:(simpl; lia) Hm Hf')
    as (H1 & ((H2 & _) & _) & _ & H4 & H5).
  specialize (H5 t_end Hf ltac:(simpl; lia)). simpl in *. unfold is_u32 in *. nia.
Qed.

Lemma run_rate_bound_witness :
  1000 * Z.of_nat (run (new 0 2 10) [0; 1; 2; 150]).1 <= 1000 * 2 + (150 - 0) * 10.
Proof.
  apply (run_rate_bound 2 10 0 [0; 1; 2; 150] 150); unfold is_u32; simpl; try lia.
  repeat constructor; lia.
Defined.

(** The 32-bit sum of the refill wraps.  A bucket of [c] tokens that
    sat unused until exactly [2^32 - c] tokens accrued refuses the next
    request although it is full. *)
Theorem refill_wraps_to_empty c r now :
  0 < c < 2 ^ 32 -> is_u32 r -> 0 <= now < 2 ^ 63 -> now * r < 2 ^ 64 ->
  now * r / 1000 = 2 ^ 32 - c ->
  try_consume (new 0 c r) now = (false, new 0 c r).
Proof.
  intros Hc Hr Hn Hp Hd. unfold try_consume, try_consume_n, refilled, tokens_to_add, new. simpl.
  unfold is_u32 in Hr.
  rewrite Z.sub_0_r, (i64_id now), (Z.max_l now), (u64_id now) by (unfold is_i64, is_u64; lia).
  rewrite (u64_id (now * r)) by (unfold is_u64; nia). rewrite Hd, (u32_id (2 ^ 32 - c)) by (unfold is_u32; lia).
  replace (c + (2 ^ 32 - c)) with (2 ^ 32) by lia.
  change (u32 (2 ^ 32)) with 0. rewrite Z.min_l by lia. done.
Qed.

Lemma refill_wraps_to_empty_witness :
  try_consume (new 0 200 100) 42949670960 = (false, new 0 200 100).
Proof. apply (refill_wraps_to_empty 200 100 42949670960); unfold is_u32; try lia. reflexivity. Defined.

(** *** Interleaved callers

    Each caller of [try_consume_n] is a thread; one step is one atomic
    access.  A thread computes the refill once, before the loop, and
    reuses it on every retry of the compare-and-swap, which may also fail
    spuriously ([compare_exchange_weak]). *)

Inductive pc :=
| Start
| GotNow (now : Z)
| GotAdd (now add : Z)
| GotCurrent (now add current : Z)
| Swapped (now : Z)
| Finished (granted : bool).

Abbreviation threads := (gmap nat pc).

Inductive cas_step (n : Z) : TokenBucket * threads -> TokenBucket * threads -> Prop :=
| step_now b ts i now :
    ts !! i = Some Start -> cas_step n (b, ts) (b, <[i := GotNow now]> ts)
| step_last b ts i now :
    ts !! i = Some (GotNow now) ->
    cas_step n (b, ts)
      (b, <[i := GotAdd now (tokens_to_add now (last_refill b) (refill_rate b))]> ts)
| step_load b ts i now add :
    ts !! i = Some (GotAdd now add) ->
    cas_step n (b, ts) (b, <[i := GotCurrent now add (tokens b)]> ts)
| step_refuse b ts i now add cur :
    ts !! i = Some (GotCurrent now add cur) -> refilled b cur add < n ->
    cas_step n (b, ts) (b, <[i := Finished false]> ts)
| step_swap b ts i now add cur :
    ts !! i = Some (GotCurrent now add cur) -> n <= refilled b cur add -> tokens b = cur ->
    cas_step n (b, ts)
      (mk (refilled b cur add - n) (last_refill b) (capacity b) (refill_rate b),
       <[i := Swapped now]> ts)
| step_retry b ts i now add cur :
    ts !! i = Some (GotCurrent now add cur) -> n <= refilled b cur add ->
    cas_step n (b, ts) (b, <[i := GotAdd now add]> ts)
| step_store b ts i now :
    ts !! i = Some (Swapped now) ->
    cas_step n (b, ts)
      (mk (tokens b) now (capacity b) (refill_rate b), <[i := Finished true]> ts).

(** C33: Safety under interleaving.  Whatever the callers and however their
    steps interleave, the token count stays between zero and the
    capacity. *)
Theorem cas_reachable_wf n s s' :
  0 <= n -> wf s.1 -> rtc (cas_step n) s s' -> wf s'.1.
Proof.
  intros Hn Hw H. induction H as [|x y z Hxy Hyz IH]; [done|]. apply IH.
  destruct Hw as (Ht & Hc & Hr).
  destruct Hxy; simpl in *; unfold wf; simpl; auto.
  pose proof (refilled_range b cur add Hc). auto with lia.
Qed.

(** Two callers at once: both read the old refill time, each adds a refill and
    takes a token of it. *)
Lemma double_refill_run :
  rtc (cas_step 1)
    (mk 0 0 1 1, {[0%nat := Start; 1%nat := Start]})
    (mk 0 1000 1 1, {[0%nat := Finished true; 1%nat := Finished true]}).
Proof.
  assert (Hstep : forall s s' s'', cas_step 1 s s' -> s' = s'' -> cas_step 1 s s'') by congruence.
  eapply rtc_l; [apply (step_now 1 _ _ 0%nat 1000); reflexivity|].
  eapply rtc_l; [eapply (step_last 1 _ _ 0%nat); reflexivity|].
  eapply rtc_l; [eapply (step_now 1 _ _ 1%nat 1000); reflexivity|].
  eapply rtc_l; [eapply (step_last 1 _ _ 1%nat); reflexivity|].
  eapply rtc_l; [eapply (step_load 1 _ _ 0%nat); reflexivity|].
  eapply rtc_l; [eapply (step_swap 1 _ _ 0%nat); [reflexivity|vm_compute; discriminate|reflexivity]|].
  eapply rtc_l; [eapply (step_load 1 _ _ 1%nat); reflexivity|].
  eapply rtc_l; [eapply (step_swap 1 _ _ 1%nat); [reflexivity|vm_compute; discriminate|reflexivity]|].
  eapply rtc_l; [eapply (step_store 1 _ _ 0%nat); reflexivity|].
  apply rtc_once. eapply Hstep; [eapply (step_store 1 _ _ 1%nat); reflexivity|].
  vm_compute. reflexivity.
Qed.

(** The count after that run, two granted calls later. *)
Lemma cas_reachable_wf_witness :
  rtc (cas_step 1)
    (mk 0 0 1 1, {[0%nat := Start; 1%nat := Start]})
    (mk 0 1000 1 1, {[0%nat := Finished true; 1%nat := Finished true]}) /\
  wf (mk 0 1000 1 1).
Proof.
  split; [exact double_refill_run|].
  apply (cas_reachable_wf 1 (mk 0 0 1 1, {[0%nat := Start; 1%nat := Start]})
    (mk 0 1000 1 1, {[0%nat := Finished true; 1%nat := Finished true]})); [lia| |exact double_refill_run].
  unfold wf, is_u32; simpl; lia.
Defined.

(** A caller that runs alone terminates with exactly the result and the
    state of the atomic [try_consume_n]. *)
Theorem cas_solo_refines b n now i ts :
  ts !! i = Some Start ->
  exists ts', rtc (cas_step n) (b, ts) ((try_consume_n b now n).2, ts') /\
    ts' !! i = Some (Finished (try_consume_n b now n).1) /\
    (forall j, j <> i -> ts' !! j = ts !! j).
Proof.
  intros Hi. unfold try_consume_n.
  set (add := tokens_to_add now (last_refill b) (refill_rate b)).
  set (t1 := <[i := GotNow now]> ts). set (t2 := <[i := GotAdd now add]> t1).
  set (t3 := <[i := GotCurrent now add (tokens b)]> t2).
  assert (H3 : rtc (cas_step n) (b, ts) (b, t3)).
  { eapply rtc_l; [by apply (step_now n b ts i now)|].
    eapply rtc_l; [by apply (step_last n b t1 i now), lookup_insert_eq|].
    apply rtc_once. apply step_load, lookup_insert_eq. }
  assert (Ho : forall p j, j <> i -> (<[i := p]> t3) !! j = ts !! j).
  { intros p j Hj. subst t3 t2 t1. by rewrite !lookup_insert_ne. }
  destruct (refilled b (tokens b) add <? n) eqn:E; bool_to_prop; simpl.
  - exists (<[i := Finished false]> t3). split; [|split; [apply lookup_insert_eq|auto]].
    eapply rtc_r; [exact H3|]. eapply step_refuse; [apply lookup_insert_eq|done].
  - exists (<[i := Finished true]> (<[i := Swapped now]> t3)).
    split; [|split; [apply lookup_insert_eq|]].
    + eapply rtc_r; [eapply rtc_r; [exact H3|]|].
      * by eapply step_swap; [apply lookup_insert_eq| |].
      * apply (step_store n (mk _ (last_refill b) _ _)), lookup_insert_eq.
    + intros j Hj. rewrite lookup_insert_ne by done. auto.
Qed.

Lemma cas_solo_refines_witness :
  exists ts', rtc (cas_step 1) (new 0 1 1, {[7%nat := Start]}) ((try_consume_n (new 0 1 1) 5 1).2, ts').
Proof.
  destruct (cas_solo_refines (new 0 1 1) 1 5 7 {[7%nat := Start]}) as (ts' & H & _);
    [reflexivity|by exists ts'].
Defined.

(** The refill is not atomic.  Two callers of an empty bucket of
    capacity 1 and one token per second, 1000 ms after the last refill, can
    both be granted: each adds the same accrued token. *)
Theorem cas_double_refill :
  exists b', rtc (cas_step 1)
    (mk 0 0 1 1, {[0%nat := Start; 1%nat := Start]})
    (b', {[0%nat := Finished true; 1%nat := Finished true]}) /\
  ~ exists b'' k, run (mk 0 0 1 1) [1000; 1000] = (S (S k), b'').
Proof.
  exists (mk 0 1000 1 1). split; [exact double_refill_run|].
  intros (b'' & k & H). vm_compute in H. discriminate H.
Qed.
End TokenBucket.

Module Limiter.
Import TokenBucket.

Inductive RateLimitResult :=
| Allowed (remaining limit reset_at : Z)
| Denied (retry_after limit reset_at : Z).

Definition is_allowed (r : RateLimitResult) : bool :=
  match r with Allowed _ _ _ => true | Denied _ _ _ => false end.

(** Buckets by address (its text form) and by key; the creation time kept
    beside each bucket is never read. *)
Record RateLimiter := {
  ip_buckets : gmap string TokenBucket;
  key_buckets : gmap string TokenBucket;
  config : RateLimitConfig;
}.

Definition new (c : RateLimitConfig) : RateLimiter :=
  {| ip_buckets := ∅; key_buckets := ∅; config := c |}.

Definition is_enabled (l : RateLimiter) : bool := enabled (config l).

(** [(limit as f64 / 60.0).ceil() as u32]: the quotient of a 32-bit number
    by 60 is exact or at least 1/60 away from an integer, so the rounding
    of the division does not change its ceiling. *)
Definition ws_refill_rate (limit : Z) : Z := (limit + 59) / 60.

(** The clock is read when the bucket is created, when it is consumed from
    and once more for the answer: [now0], [now1], [now2]. *)
Definition check_ip (l : RateLimiter) (ip : string) (now0 now1 now2 : Z)
  : RateLimitResult * RateLimiter :=
  if negb (enabled (config l)) then (Allowed u32_max 0 0, l)
  else
    let limit := ws_connections_per_minute (config l) in
    let rate := ws_refill_rate limit in
    let bucket := match ip_buckets l !! ip with
                  | Some b => b
                  | None => TokenBucket.new now0 limit (Z.max rate 1)
                  end in
    let reset_at := i64 (last_activity bucket + 60000) in
    let '(ok, bucket') := try_consume bucket now1 in
    let l' := {| ip_buckets := <[ip := bucket']> (ip_buckets l);
                 key_buckets := key_buckets l; config := config l |} in
    if ok then (Allowed (available bucket' now2) limit reset_at, l')
    else (Denied 60 limit reset_at, l').

Definition check_key (l : RateLimiter) (key : string) (now0 now1 now2 : Z)
  : RateLimitResult * RateLimiter :=
  if negb (enabled (config l)) then (Allowed u32_max 0 0, l)
  else
    let limit := http_burst_size (config l) in
    let rate := http_requests_per_second (config l) in
    let bucket := match key_buckets l !! key with
                  | Some b => b
                  | None => TokenBucket.new now0 limit rate
                  end in
    let reset_at := i64 (last_activity bucket + 1000) in
    let '(ok, bucket') := try_consume bucket now1 in
    let l' := {| ip_buckets := ip_buckets l;
                 key_buckets := <[key := bucket']> (key_buckets l); config := config l |} in
    if ok then (Allowed (available bucket' now2) rate reset_at, l')
    else (Denied (retry_after bucket' now2) rate reset_at, l').

Definition check_http (l : RateLimiter) (key : option string) (ip : string) (now0 now1 now2 : Z)
  : RateLimitResult * RateLimiter :=
  match key with
  | Some k => check_key l k now0 now1 now2
  | None => check_key l ip now0 now1 now2
  end.

Definition is_fresh (ttl_ms now : Z) (kv : string * TokenBucket) : Prop :=
  i64 (now - last_activity kv.2) < ttl_ms.
#[global] Instance is_fresh_dec ttl now kv : Decision (is_fresh ttl now kv).
Proof. unfold is_fresh. apply _. Defined.

Definition cleanup_stale (l : RateLimiter) (now : Z) : nat * RateLimiter :=
  let ttl_ms := i64 (u64 (bucket_ttl_seconds (config l) * 1000)) in
  let ips := filter (is_fresh ttl_ms now) (ip_buckets l) in
  let keys := filter (is_fresh ttl_ms now) (key_buckets l) in
  ((size (ip_buckets l) - size ips) + (size (key_buckets l) - size keys),
   {| ip_buckets := ips; key_buckets := keys; config := config l |})%nat.

Record RateLimiterStats := {
  st_enabled : bool; st_ip_buckets : nat; st_key_buckets : nat; st_http_limit : Z; st_ws_limit : Z;
}.
Definition stats (l : RateLimiter) : RateLimiterStats :=
  {| st_enabled := enabled (config l); st_ip_buckets := size (ip_buckets l);
     st_key_buckets := size (key_buckets l);
     st_http_limit := http_requests_per_second (config l);
     st_ws_limit := ws_connections_per_minute (config l) |}.

(** Every bucket of the limiter is well formed and was created with the
    limits of the configuration. *)
Definition limiter_wf (l : RateLimiter) : Prop :=
  config_wf (config l) /\
  map_Forall (fun _ b => TokenBucket.wf b /\ capacity b = ws_connections_per_minute (config l))
    (ip_buckets l) /\
  map_Forall (fun _ b => TokenBucket.wf b /\ capacity b = http_burst_size (config l) /\
               refill_rate b = http_requests_per_second (config l)) (key_buckets l).

Lemma ws_rate_u32 limit : is_u32 limit -> is_u32 (Z.max (ws_refill_rate limit) 1).
Proof.
  unfold is_u32, ws_refill_rate. intros. assert (0 <= (limit + 59) / 60 < 2 ^ 32); [|lia].
  split; [apply Z.div_pos; lia|]. apply Z.div_lt_upper_bound; lia.
Qed.

Lemma limiter_wf_new c : config_wf c -> limiter_wf (new c).
Proof. intros H. split; [done|]. split; apply map_Forall_empty. Qed.

Lemma limiter_wf_check_key l k n0 n1 n2 : limiter_wf l -> limiter_wf (check_key l k n0 n1 n2).2.
Proof.
  intros (Hc & Hi & Hk). unfold check_key. destruct (enabled (config l)); [|done]. simpl.
  set (b := match key_buckets l !! k with Some b => b | None => _ end).
  assert (Hb : TokenBucket.wf b /\ capacity b = http_burst_size (config l) /\
               refill_rate b = http_requests_per_second (config l)).
  { subst b. destruct (key_buckets l !! k) eqn:E; [by apply (Hk k)|].
    destruct Hc as (? & ? & _). simpl. auto with ara. }
  destruct Hb as (Hw & Hcap & Hrate).
  pose proof (wf_try_consume_n b n1 1 Hw ltac:(lia)) as Hw'.
  pose proof (try_consume_n_fields b n1 1) as [F1 F2]. unfold try_consume.
  destruct (try_consume_n b n1 1) as [ok b']. simpl in *.
  assert (limiter_wf {| ip_buckets := ip_buckets l; key_buckets := <[k := b']> (key_buckets l);
                        config := config l |}); [|by destruct ok].
  split; [done|]. split; [done|]. simpl. apply map_Forall_insert_2; [|done]. split; [done|]. split; congruence.
Qed.

Lemma limiter_wf_check_ip l ip n0 n1 n2 : limiter_wf l -> limiter_wf (check_ip l ip n0 n1 n2).2.
Proof.
  intros (Hc & Hi & Hk). unfold check_ip. destruct (enabled (config l)); [|done]. simpl.
  set (b := match ip_buckets l !! ip with Some b => b | None => _ end).
  assert (Hb : TokenBucket.wf b /\ capacity b = ws_connections_per_minute (config l)).
  { subst b. destruct (ip_buckets l !! ip) eqn:E; [by apply (Hi ip)|].
    destruct Hc as (_ & _ & ? & _). simpl. split; [|done]. auto using wf_new, ws_rate_u32. }
  destruct Hb as (Hw & Hcap).
  pose proof (wf_try_consume_n b n1 1 Hw ltac:(lia)) as Hw'.
  pose proof (try_consume_n_fields b n1 1) as [F1 F2]. unfold try_consume.
  destruct (try_consume_n b n1 1) as [ok b']. simpl in *.
  assert (limiter_wf {| ip_buckets := <[ip := b']> (ip_buckets l); key_buckets := key_buckets l;
                        config := config l |}); [|by destruct ok].
  split; [done|]. split; [|done]. simpl. apply map_Forall_insert_2; [|done]. split; [done|]. congruence.
Qed.

Lemma limiter_wf_cleanup l now : limiter_wf l -> limiter_wf (cleanup_stale l now).2.
Proof.
  intros (Hc & Hi & Hk). split; [done|]. simpl.
  split; intros k b [Hkb _]%map_lookup_filter_Some; [by apply (Hi k)|by apply (Hk k)].
Qed.
#[export] Hint Resolve limiter_wf_new limiter_wf_check_key limiter_wf_check_ip limiter_wf_cleanup : ara.

(** One operation on the limiter, as the middlewares call it. *)
Inductive limiter_op :=
| OpHttp (key : option string) (ip : string) (now0 now1 now2 : Z)
| OpIp (ip : string) (now0 now1 now2 : Z)
| OpCleanup (now : Z).

Definition limiter_apply (l : RateLimiter) (o : limiter_op) : RateLimiter :=
  match o with
  | OpHttp k ip n0 n1 n2 => (check_http l k ip n0 n1 n2).2
  | OpIp ip n0 n1 n2 => (check_ip l ip n0 n1 n2).2
  | OpCleanup now => (cleanup_stale l now).2
  end.

(** Limiter invariant.  After any sequence of operations every bucket
    holds between zero and its capacity, and still has the capacity and
    rate of the configuration. *)
Theorem limiter_invariant c ops :
  config_wf c -> limiter_wf (fold_left limiter_apply ops (new c)).
Proof.
  intros Hc. assert (H : forall l, limiter_wf l -> limiter_wf (fold_left limiter_apply ops l));
    [|by apply H, limiter_wf_new].
  induction ops as [|o ops IH]; intros l Hl; simpl; [done|]. apply IH.
  destruct o as [[k|] ip n0 n1 n2|ip n0 n1 n2|now];
    [by apply limiter_wf_check_key..|by apply limiter_wf_check_ip|by apply limiter_wf_cleanup].
Qed.

Lemma limiter_invariant_witness :
  limiter_wf (fold_left limiter_apply [OpHttp None "10.0.0.1" 0 0 0; OpIp "10.0.0.1" 0 1 1; OpCleanup 9]
    (new RateLimitConfig_default)).
Proof.
  apply (limiter_invariant RateLimitConfig_default). unfold config_wf, is_u32, is_u64. simpl. lia.
Defined.

(** Keys are limited independently, HTTP checks never touch the address
    buckets, and a disabled limiter allows everything without recording
    anything. *)
Theorem check_key_isolated l k k' n0 n1 n2 :
  (k <> k' -> key_buckets (check_key l k n0 n1 n2).2 !! k' = key_buckets l !! k') /\
  ip_buckets (check_key l k n0 n1 n2).2 = ip_buckets l /\
  (enabled (config l) = false -> check_key l k n0 n1 n2 = (Allowed u32_max 0 0, l)).
Proof.
  unfold check_key. destruct (enabled (config l)); simpl; [|done].
  set (b := match key_buckets l !! k with Some b => b | None => _ end).
  destruct (try_consume b n1) as [ok b']. destruct ok; simpl; (split; [|done]); intros;
    by rewrite lookup_insert_ne.
Qed.

Lemma check_key_isolated_witness :
  key_buckets (check_key (new RateLimitConfig_default) "a" 0 0 0).2 !! "b" = None.
Proof. apply (check_key_isolated (new RateLimitConfig_default) "a" "b" 0 0 0). discriminate. Defined.

(** [k] requests of one key, all at the same instant. *)
Fixpoint burst (l : RateLimiter) (key : string) (now : Z) (k : nat) : list bool * RateLimiter :=
  match k with
  | O => ([], l)
  | S k' => let '(r, l') := check_key l key now now now in
            let '(rs, l'') := burst l' key now k' in (is_allowed r :: rs, l'')
  end.

Lemma tokens_to_add_now now rate : tokens_to_add now now rate = 0.
Proof. unfold tokens_to_add. rewrite Z.sub_diag. reflexivity. Qed.

Lemma burst_existing k : forall l key now t,
  enabled (config l) = true -> is_u32 (http_burst_size (config l)) ->
  0 <= t <= http_burst_size (config l) ->
  key_buckets l !! key =
    Some (mk t now (http_burst_size (config l)) (http_requests_per_second (config l))) ->
  (burst l key now k).1 = replicate (k `min` Z.to_nat t) true ++ replicate (k - Z.to_nat t) false.
Proof.
  induction k as [|k IH]; intros l key now t He Hu Ht Hk; [done|]. simpl.
  unfold check_key at 1. rewrite He, Hk. simpl.
  unfold try_consume, try_consume_n. simpl. rewrite tokens_to_add_now. unfold refilled. simpl.
  unfold is_u32 in Hu. rewrite Z.add_0_r, u32_id, Z.min_l by (unfold is_u32; lia).
  destruct (t <? 1) eqn:E; bool_to_prop; simpl.
  - assert (t = 0) as -> by lia. simpl.
    match goal with |- context [burst ?l' key now k] => pose proof (IH l' key now 0) as H end.
    destruct (burst _ key now k) as [rs l'']. simpl in *. rewrite H; [|done..|apply lookup_insert_eq].
    by rewrite Nat.min_0_r, Nat.sub_0_r.
  - match goal with |- context [burst ?l' key now k] => pose proof (IH l' key now (t - 1)) as H end.
    destruct (burst _ key now k) as [rs l'']. simpl in *. rewrite H; [|done..|lia|apply lookup_insert_eq].
    replace (Z.to_nat t) with (S (Z.to_nat (t - 1))) by lia. done.
Qed.

(** The first request of a key behaves as if its full bucket were there. *)
Lemma check_key_first c key now :
  enabled c = true ->
  check_key (new c) key now now now =
  check_key {| ip_buckets := ∅; config := c;
    key_buckets := {[key := TokenBucket.new now (http_burst_size c) (http_requests_per_second c)]} |}
    key now now now.
Proof.
  intros He. unfold check_key, new. simpl. rewrite He, lookup_empty, lookup_singleton_eq. simpl.
  destruct (try_consume _ now) as [[] b']; by rewrite insert_singleton_eq.
Qed.

(** Burst behaviour.  [k] requests of a new key at one instant: the
    first [http_burst_size] are allowed and all the others are denied. *)
Theorem burst_spec c key now k :
  enabled c = true -> is_u32 (http_burst_size c) ->
  (burst (new c) key now k).1 =
    replicate (k `min` Z.to_nat (http_burst_size c)) true ++
    replicate (k - Z.to_nat (http_burst_size c)) false.
Proof.
  intros He Hu. destruct k as [|k]; [done|]. unfold is_u32 in Hu.
  rewrite <- (burst_existing (S k)
    {| ip_buckets := ∅; config := c;
       key_buckets := {[key := mk (http_burst_size c) now (http_burst_size c) (http_requests_per_second c)]} |}
    key now (http_burst_size c)); simpl; [|done..|lia|apply lookup_singleton_eq].
  cbn [burst]. rewrite (check_key_first c key now He). done.
Qed.

Lemma burst_spec_witness :
  let c := {| enabled := true; http_requests_per_second := 10; http_burst_size := 5;
              ws_connections_per_minute := 10; ws_messages_per_second := 50;
              cleanup_interval_seconds := 60; bucket_ttl_seconds := 300;
              backend := "local"; redis_prefix := "p" |} in
  (burst (new c) "test-api-key" 0 6).1 = [true; true; true; true; true; false].
Proof. intros c. apply (burst_spec c "test-api-key" 0 6); [done|unfold is_u32; simpl; lia]. Defined.

Lemma map_size_filter_le `{Countable K} {V} (P : K * V -> Prop) `{!forall x, Decision (P x)}
  (m : gmap K V) : (size (filter P m) <= size m)%nat.
Proof. apply map_subseteq_size, map_filter_subseteq. Qed.

(** Clean-up removes exactly the buckets whose last activity is at least
    the time to live ago, and counts them. *)
Theorem cleanup_stale_spec l now :
  let ttl := i64 (u64 (bucket_ttl_seconds (config l) * 1000)) in
  let '(removed, l') := cleanup_stale l now in
  (forall k b, key_buckets l' !! k = Some b <->
     key_buckets l !! k = Some b /\ i64 (now - last_refill b) < ttl) /\
  (forall k b, ip_buckets l' !! k = Some b <->
     ip_buckets l !! k = Some b /\ i64 (now - last_refill b) < ttl) /\
  (removed + size (ip_buckets l') + size (key_buckets l') =
     size (ip_buckets l) + size (key_buckets l))%nat.
Proof.
  simpl. split; [|split].
  - intros k b. by rewrite map_lookup_filter_Some.
  - intros k b. by rewrite map_lookup_filter_Some.
  - pose proof (map_size_filter_le (is_fresh (i64 (u64 (bucket_ttl_seconds (config l) * 1000))) now) (ip_buckets l)).
    pose proof (map_size_filter_le (is_fresh (i64 (u64 (bucket_ttl_seconds (config l) * 1000))) now) (key_buckets l)).
    lia.
Qed.
End Limiter.

(** ** Distributed rate limiting

    Redis is an interface: its commands as functions of its state.  The Lua
    script of [check_rate_limit] runs them without interruption. *)
Class RedisCounter (R : Type) := {
  pool_get_connection : R -> result string unit;
  redis_incr : string -> R -> result string Z * R;
  redis_expire : string -> Z -> R -> result string unit * R;
  redis_get_count : string -> R -> result string (option Z);
}.

(** What the Redis documentation says of [INCR], [EXPIRE] and [GET] while no
    key expires: [INCR] starts from 0 and answers the new value, [EXPIRE]
    leaves the value alone. *)
Class RedisCounterLaws (R : Type) `{RedisCounter R} := {
  counter_value : R -> string -> Z;
  law_connected : forall r, pool_get_connection r = Ok tt;
  law_incr : forall k r, (redis_incr k r).1 = Ok (counter_value r k + 1) /\
     counter_value (redis_incr k r).2 k = counter_value r k + 1;
  law_expire : forall k t r, (redis_expire k t r).1 = Ok tt /\
     counter_value (redis_expire k t r).2 k = counter_value r k;
  law_get : forall k r, redis_get_count k r =
     Ok (if counter_value r k =? 0 then None else Some (counter_value r k));
}.

Module Distributed.
Import TokenBucket Limiter.

Inductive RateLimitBackendType := Local | Redis.

Inductive RateLimitError := BackendError (msg : string) | Disabled.

Definition error_display (e : RateLimitError) : string :=
  match e with
  | BackendError msg => "Rate limit backend error: " +:+ msg
  | Disabled => "Rate limiter is disabled"
  end.

(** [LocalRateLimiterBackend] *)
Definition local_check_rate_limit (l : RateLimiter) (identifier : string) (limit window : Z)
  (now0 now1 now2 : Z) : result RateLimitError (bool * Z * Z) * RateLimiter :=
  let '(r, l') := check_key l identifier now0 now1 now2 in
  (match r with
   | Allowed remaining _ _ => Ok (true, remaining, 0)
   | Denied retry _ _ => Ok (false, 0, retry)
   end, l').

Definition local_get_count (l : RateLimiter) (identifier : string) (window : Z)
  : result RateLimitError Z := Ok 0.

Record RedisBackend := { rb_prefix : string; rb_enabled : bool }.

(** [rate_limit_key]; [None] is the panic of a division by zero. *)
Definition rate_limit_key (b : RedisBackend) (identifier : string) (window now : Z) : option string :=
  let d := i64 (i64 window * 1000) in
  if d =? 0 then None
  else Some (rb_prefix b +:+ ":" +:+ identifier +:+ ":" +:+ pretty (Z.quot now d)).

Section redis.
Context {R : Type} `{RedisCounter R}.

(** The Lua script: count, and set the expiry on the first count. *)
Definition count_script (key : string) (window : Z) (r : R) : result string Z * R :=
  let '(c, r1) := redis_incr key r in
  match c with
  | Err e => (Err e, r1)
  | Ok current =>
    if current =? 1 then
      let '(x, r2) := redis_expire key window r1 in
      (match x with Ok _ => Ok current | Err e => Err e end, r2)
    else (Ok current, r1)
  end.

(** [check_rate_limit]; [None] is a panic. *)
Definition check_rate_limit (b : RedisBackend) (r : R) (identifier : string) (limit window now : Z)
  : option (result RateLimitError (bool * Z * Z) * R) :=
  if negb (rb_enabled b) then Some (Ok (true, limit, 0), r)
  else
    match pool_get_connection r with
    | Err e => Some (Err (BackendError ("Failed to get connection: " +:+ e)), r)
    | Ok _ =>
      match rate_limit_key b identifier window now with
      | None => None
      | Some key =>
        let '(c, r') := count_script key window r in
        match c with
        | Err e => Some (Err (BackendError e), r')
        | Ok c =>
          let count := u32 c in
          let allowed := count <=? limit in
          let remaining := if limit <? count then 0 else limit - count in
          let retry := if allowed then 0 else window in
          Some (Ok (allowed, remaining, retry), r')
        end
      end
    end.

Definition get_count (b : RedisBackend) (r : R) (identifier : string) (window now : Z)
  : option (result RateLimitError Z) :=
  if negb (rb_enabled b) then Some (Ok 0)
  else
    match pool_get_connection r with
    | Err e => Some (Err (BackendError ("Failed to get connection: " +:+ e)))
    | Ok _ =>
      match rate_limit_key b identifier window now with
      | None => None
      | Some key => Some (map_err BackendError (match redis_get_count key r with
                                                | Ok (Some c) => Ok (u32 c)
                                                | Ok None => Ok 0
                                                | Err e => Err e
                                                end))
      end
    end.

Context `{!RedisCounterLaws R}.

Lemma count_script_spec key window r :
  (count_script key window r).1 = Ok (counter_value r key + 1) /\
  counter_value (count_script key window r).2 key = counter_value r key + 1.
Proof.
  unfold count_script. destruct (law_incr key r) as [H1 H2].
  destruct (redis_incr key r) as [c r1]. simpl in *. subst c.
  destruct (_ =? 1); [|done].
  destruct (law_expire key window r1) as [H3 H4].
  destruct (redis_expire key window r1) as [x r2]. simpl in *. subst x. by rewrite H4.
Qed.

(** [k] calls for one identifier within one window. *)
Fixpoint calls (b : RedisBackend) (r : R) (identifier : string) (limit window now : Z) (k : nat)
  : option (list bool) :=
  match k with
  | O => Some []
  | S k' =>
    match check_rate_limit b r identifier limit window now with
    | Some (Ok (ok, _, _), r') => cons ok <$> calls b r' identifier limit window now k'
    | _ => None
    end
  end.

(** Sliding-window counter.  Against a Redis that keeps its counters,
    the calls of one identifier within one window are allowed exactly
    while the count has not passed the limit. *)
Theorem redis_calls_spec b r identifier limit window now key k :
  rb_enabled b = true -> rate_limit_key b identifier window now = Some key ->
  0 <= counter_value r key -> counter_value r key + Z.of_nat k < 2 ^ 32 -> is_u32 limit ->
  calls b r identifier limit window now k =
    Some (map (fun i => bool_decide (counter_value r key + Z.of_nat i <= limit)) (seq 1 k)).
Proof.
  intros He Hkey. revert r. induction k as [|k IH]; intros r H0 Hlt Hl; [done|].
  cbn [calls]. unfold check_rate_limit. rewrite He, law_connected, Hkey. cbn [negb].
  destruct (count_script_spec key window r) as [H1 H2].
  destruct (count_script key window r) as [c r'] eqn:E. simpl in H1, H2. subst c.
  rewrite (u32_id (counter_value r key + 1)) by (unfold is_u32; lia).
  rewrite IH by (rewrite ?H2; lia || done). rewrite H2. simpl. f_equal. f_equal.
  - change (Z.of_nat 1) with 1. destruct (_ <=? _) eqn:Q; bool_to_prop; symmetry.
    + by apply bool_decide_true.
    + apply bool_decide_false. lia.
  - rewrite <- (seq_shift k 1), List.map_map. apply map_ext. intros i.
    apply bool_decide_ext. lia.
Qed.
End redis.

(** A Redis that only counts. *)
#[export] Instance counting_redis : RedisCounter (gmap string Z) := {
  pool_get_connection _ := Ok tt;
  redis_incr k r := (Ok (default 0 (r !! k) + 1), <[k := default 0 (r !! k) + 1]> r);
  redis_expire _ _ r := (Ok tt, r);
  redis_get_count k r :=
    Ok (if default 0 (r !! k) =? 0 then None else Some (default 0 (r !! k)));
}.
#[export] Instance counting_redis_laws : RedisCounterLaws (gmap string Z).
Proof.
  refine {| counter_value r k := default 0 (r !! k) |}; simpl; try done.
  intros k r. by rewrite lookup_insert_eq.
Defined.

Lemma redis_calls_spec_witness :
  calls {| rb_prefix := "p"; rb_enabled := true |} (∅ : gmap string Z) "alice" 2 60 1000 3
    = Some [true; true; false].
Proof.
  eapply eq_trans.
  - apply (redis_calls_spec {| rb_prefix := "p"; rb_enabled := true |} (∅ : gmap string Z) "alice" 2 60 1000
      "p:alice:0" 3); [reflexivity|reflexivity|vm_compute; discriminate|reflexivity|unfold is_u32; lia].
  - vm_compute. reflexivity.
Defined.

(** [create_distributed_rate_limiter]: which backend is built. *)
Definition create_distributed_rate_limiter (c : RateLimitConfig) (redis_pool : bool)
  : RateLimitBackendType * option RedisBackend :=
  if decide (backend c = "redis") then
    if redis_pool then (Redis, Some {| rb_prefix := redis_prefix c; rb_enabled := enabled c |})
    else (Local, None)
  else (Local, None).
End Distributed.
