(* ===== verification/Resilience.v ===== *)
(** * Resilience: the Redis circuit breaker and health tracker

    Models [infrastructure/redis/circuit_breaker.rs] ([Module
    CircuitBreaker]), [infrastructure/redis/health.rs] ([Module Health]) and
    [infrastructure/redis/backoff.rs] ([Module Backoff]).
    Each operation is the sequence of atomic accesses of one caller, run
    without interruption; the clock readings (milliseconds) are arguments.
    [BreakerInterleaving] lets the accesses of several callers interleave. *)
From S2P Require Import Prelude.

Module CircuitBreaker.

Inductive CircuitState := Closed | Open | HalfOpen.

#[export] Instance CircuitState_eq_dec : EqDecision CircuitState.
Proof. solve_decision. Defined.

(** [state as u8] and [CircuitState::from]. *)
Definition state_to_u8 (s : CircuitState) : Z :=
  match s with Closed => 0 | Open => 1 | HalfOpen => 2 end.
Definition state_from_u8 (v : Z) : CircuitState :=
  if v =? 0 then Closed else if v =? 1 then Open else if v =? 2 then HalfOpen else Closed.

Record CircuitBreakerConfig := {
  failure_threshold : Z;
  success_threshold : Z;
  reset_timeout_ms : Z;
}.

Definition CircuitBreakerConfig_default : CircuitBreakerConfig :=
  {| failure_threshold := 5; success_threshold := 2; reset_timeout_ms := 30000 |}.

Record CircuitBreaker := mk {
  state_u8 : Z;
  failure_count : Z;
  success_count : Z;
  last_state_change : Z;
  config : CircuitBreakerConfig;
}.

Definition with_config (c : CircuitBreakerConfig) (now : Z) : CircuitBreaker :=
  mk (state_to_u8 Closed) 0 0 now c.

Definition cur (b : CircuitBreaker) : CircuitState := state_from_u8 (state_u8 b).

(** [transition_to] *)
Definition transition_to (b : CircuitBreaker) (s : CircuitState) (now : Z) : CircuitBreaker :=
  match s with
  | Closed => mk (state_to_u8 s) 0 0 now (config b)
  | Open => mk (state_to_u8 s) (failure_count b) 0 now (config b)
  | HalfOpen => mk (state_to_u8 s) (failure_count b) 0 now (config b)
  end.

(** [check_state_transition]: [now] is the reading that decides, [now'] the
    one that is stored. *)
Definition check_state_transition (b : CircuitBreaker) (now now' : Z) : CircuitBreaker :=
  match cur b with
  | Open =>
    let elapsed := i64 (now - last_state_change b) in
    if i64 (reset_timeout_ms (config b)) <=? elapsed then
      if state_u8 b =? state_to_u8 Open
      then mk (state_to_u8 HalfOpen) (failure_count b) 0 now' (config b)
      else b
    else b
  | _ => b
  end.

(** [state] *)
Definition state (b : CircuitBreaker) (now now' : Z) : CircuitState * CircuitBreaker :=
  let b' := check_state_transition b now now' in (cur b', b').

Definition allow_request (b : CircuitBreaker) (now now' : Z) : bool * CircuitBreaker :=
  let '(s, b') := state b now now' in
  (match s with Closed => true | Open => false | HalfOpen => true end, b').

Definition record_success (b : CircuitBreaker) (now : Z) : CircuitBreaker :=
  match cur b with
  | Closed => mk (state_u8 b) 0 (success_count b) (last_state_change b) (config b)
  | HalfOpen =>
    let b1 := mk (state_u8 b) (failure_count b) (u32 (success_count b + 1)) (last_state_change b) (config b) in
    let count := u32 (success_count b + 1) in
    if success_threshold (config b) <=? count then transition_to b1 Closed now else b1
  | Open => b
  end.

Definition record_failure (b : CircuitBreaker) (now : Z) : CircuitBreaker :=
  match cur b with
  | Closed =>
    let b1 := mk (state_u8 b) (u32 (failure_count b + 1)) (success_count b) (last_state_change b) (config b) in
    let count := u32 (failure_count b + 1) in
    if failure_threshold (config b) <=? count then transition_to b1 Open now else b1
  | HalfOpen => transition_to b Open now
  | Open => mk (state_u8 b) (failure_count b) (success_count b) now (config b)
  end.

Record CircuitBreakerStats := {
  st_state : CircuitState; st_failure_count : Z; st_success_count : Z; st_last_state_change_ms : Z;
}.
Definition stats (b : CircuitBreaker) (now now' : Z) : CircuitBreakerStats * CircuitBreaker :=
  let '(s, b') := state b now now' in
  ({| st_state := s; st_failure_count := failure_count b'; st_success_count := success_count b';
      st_last_state_change_ms := last_state_change b' |}, b').

Lemma state_roundtrip s : state_from_u8 (state_to_u8 s) = s.
Proof. by destruct s. Qed.

(** ** The breaker as a state machine *)

Inductive op := Query (now now' : Z) | Success (now : Z) | Failure (now : Z).

Definition apply (b : CircuitBreaker) (o : op) : CircuitBreaker :=
  match o with
  | Query n n' => (state b n n').2
  | Success n => record_success b n
  | Failure n => record_failure b n
  end.

(** The transitions a breaker may take. *)
Inductive edge : CircuitState -> CircuitState -> Prop :=
| edge_stay s : edge s s
| edge_trip : edge Closed Open
| edge_probe : edge Open HalfOpen
| edge_recover : edge HalfOpen Closed
| edge_reopen : edge HalfOpen Open.

(** The counters below their thresholds while they are being counted. *)
Definition wf (b : CircuitBreaker) : Prop :=
  (exists s, state_u8 b = state_to_u8 s) /\
  (cur b = Closed -> 0 <= failure_count b < failure_threshold (config b) /\ success_count b = 0) /\
  (cur b = HalfOpen -> 0 <= success_count b < success_threshold (config b)).

Definition config_ok (c : CircuitBreakerConfig) : Prop :=
  0 < failure_threshold c < 2 ^ 32 /\ 0 < success_threshold c < 2 ^ 32 /\
  0 <= reset_timeout_ms c < 2 ^ 63.

Ltac cb_unfold :=
  unfold check_state_transition, record_success, record_failure, transition_to, cur in *; simpl in *.

Lemma apply_config b o : config (apply b o) = config b.
Proof. destruct o; simpl; cb_unfold; repeat case_match; done. Qed.

Lemma wf_apply b o : config_ok (config b) -> wf b -> wf (apply b o).
Proof.
  destruct b as [st fc sc lc cfg]. intros (Hf & Hs & _) ([s Es] & Hc & Hh).
  unfold cur in *. simpl in *. subst st.
  assert (Hfc : s = Closed -> 0 <= fc < failure_threshold cfg /\ sc = 0)
    by (intros ->; by apply Hc).
  assert (Hsc : s = HalfOpen -> 0 <= sc < success_threshold cfg) by (intros ->; by apply Hh).
  clear Hc Hh. unfold wf.
  destruct s; [destruct (Hfc eq_refl) as [Hfc' ->]| |specialize (Hsc eq_refl)];
    destruct o; simpl; cb_unfold; rewrite ?u32_id by (unfold is_u32; lia);
    repeat case_match; simpl; bool_to_prop; (split; [first [by exists Closed|by exists Open|by exists HalfOpen]|]);
    split; intros; try done; try lia; try discriminate.
Qed.

(** The breaker only moves along the edges of the diagram, keeps the
    counts below their thresholds while it counts, and its stored byte is
    always one of the three states: in every state any operation sequence
    reaches, for any clock. *)
Theorem breaker_invariant c now ops o :
  config_ok c ->
  let b := fold_left apply ops (with_config c now) in
  wf b /\ edge (cur b) (cur (apply b o)).
Proof.
  intros Hc b.
  assert (H : forall ops b0, config b0 = c -> wf b0 ->
    wf (fold_left apply ops b0) /\ config (fold_left apply ops b0) = c).
  { induction ops0 as [|x xs IH]; intros b0 Hb0 Hw; simpl; [done|].
    apply IH; [by rewrite apply_config|]. apply wf_apply; [by rewrite Hb0|done]. }
  destruct (H ops (with_config c now)) as [Hw Hcfg]; [done|..].
  { destruct Hc as (? & ? & _). split; [by exists Closed|]. unfold cur; simpl. split; [lia|done]. }
  split; [done|]. destruct Hw as ([s Es] & _). fold b in Es.
  destruct o; simpl; unfold state, cur in *; cb_unfold; rewrite Es, state_roundtrip; destruct s;
    simpl; rewrite ?Es; simpl; repeat case_match; simpl; rewrite ?Es; simpl; constructor.
Qed.

Lemma breaker_invariant_witness :
  wf (fold_left apply [Failure 1; Success 2; Query 3 4] (with_config CircuitBreakerConfig_default 0)).
Proof.
  apply (breaker_invariant CircuitBreakerConfig_default 0 [Failure 1; Success 2; Query 3 4] (Success 5)).
  unfold config_ok. simpl. lia.
Defined.

(** A closed breaker trips exactly at the failure threshold: [k]
    consecutive failures from a fresh breaker leave it closed, counting, for
    [k] below the threshold, and open at the threshold. *)
Theorem consecutive_failures c t0 (times : list Z) :
  config_ok c -> Z.of_nat (length times) <= failure_threshold c ->
  let b := fold_left record_failure times (with_config c t0) in
  (Z.of_nat (length times) < failure_threshold c ->
     cur b = Closed /\ failure_count b = Z.of_nat (length times)) /\
  (Z.of_nat (length times) = failure_threshold c -> cur b = Open /\ Some (last_state_change b) = last times).
Proof.
  intros (Hf & _) Hk b. subst b.
  assert (H : forall ts, Z.of_nat (length ts) < failure_threshold c ->
    fold_left record_failure ts (with_config c t0) = mk 0 (Z.of_nat (length ts)) 0 t0 c).
  { induction ts as [|x xs IH] using rev_ind; [done|]. rewrite length_app. simpl. intros Hl.
    rewrite fold_left_app, IH by lia. simpl. unfold record_failure. simpl.
    rewrite u32_id by (unfold is_u32; lia). destruct (_ <=? _) eqn:E; bool_to_prop; [lia|].
    f_equal. lia. }
  split.
  - intros Hl. by rewrite H.
  - destruct times as [|x xs _] using rev_ind; [simpl in *; lia|]. rewrite length_app. simpl. intros Hl.
    rewrite fold_left_app, H by lia. simpl. unfold record_failure. simpl.
    rewrite u32_id by (unfold is_u32; lia). destruct (_ <=? _) eqn:E; bool_to_prop; [|lia].
    split; [done|]. simpl. by rewrite last_snoc.
Qed.

Lemma consecutive_failures_witness :
  cur (fold_left record_failure [1; 2; 3; 4; 5] (with_config CircuitBreakerConfig_default 0)) = Open.
Proof.
  apply (consecutive_failures CircuitBreakerConfig_default 0 [1; 2; 3; 4; 5]);
    [unfold config_ok; simpl; lia|simpl; lia|reflexivity].
Defined.

(** Requests are refused for the whole reset timeout. *)
Definition op_time (o : op) : Z := match o with Query n _ | Success n | Failure n => n end.

Lemma open_step L b o :
  config_ok (config b) -> state_u8 b = 1 -> 0 <= L -> L <= last_state_change b < 2 ^ 63 ->
  L <= op_time o < 2 ^ 63 -> op_time o < L + reset_timeout_ms (config b) ->
  state_u8 (apply b o) = 1 /\ L <= last_state_change (apply b o) < 2 ^ 63.
Proof.
  destruct b as [st fc sc lc cfg]. intros (_ & _ & Ht) Hs HL0 HL Ho Ho'. simpl in *. subst st.
  destruct o as [n n'|n|n]; simpl in *; cb_unfold; [|lia..].
  rewrite (i64_id (n - lc)), (i64_id (reset_timeout_ms cfg)) by (unfold is_i64; lia).
  destruct (_ <=? _) eqn:E; bool_to_prop; simpl; lia.
Qed.

(** C30: An open breaker whose methods take turns, with a sensible
    configuration ([config_ok]), stays open, whatever is recorded or asked, as
    long as less than the reset timeout has passed since it opened.  A request
    is refused until a full timeout after the last recorded change, and at that
    moment the breaker half-opens and lets it through. *)
Theorem open_until_timeout b ops now now' :
  config_ok (config b) -> state_u8 b = 1 -> 0 <= last_state_change b < 2 ^ 63 ->
  Forall (fun o => last_state_change b <= op_time o < 2 ^ 63 /\
                   op_time o < last_state_change b + reset_timeout_ms (config b)) ops ->
  0 <= now < 2 ^ 63 ->
  let b' := fold_left apply ops b in
  state_u8 b' = 1 /\ last_state_change b <= last_state_change b' /\
  (now < last_state_change b' + reset_timeout_ms (config b) -> (allow_request b' now now').1 = false) /\
  (last_state_change b' + reset_timeout_ms (config b) <= now ->
     (allow_request b' now now').1 = true /\ cur (allow_request b' now now').2 = HalfOpen).
Proof.
  intros Hc Hs Hl Hops Hn b'.
  assert (H : forall ops b0, config b0 = config b -> state_u8 b0 = 1 ->
    last_state_change b <= last_state_change b0 < 2 ^ 63 ->
    Forall (fun o => last_state_change b <= op_time o < 2 ^ 63 /\
                   op_time o < last_state_change b + reset_timeout_ms (config b)) ops ->
    config (fold_left apply ops b0) = config b /\ state_u8 (fold_left apply ops b0) = 1 /\
    last_state_change b <= last_state_change (fold_left apply ops b0) < 2 ^ 63).
  { induction ops0 as [|o os IH]; intros b0 Hb0 Hs0 Hl0 Hf; simpl; [done|].
    inversion Hf as [|? ? [Ho1 Ho2] Hf']; subst.
    destruct (open_step (last_state_change b) b0 o) as [H1 H2];
      [by rewrite Hb0|done|lia|lia|done|by rewrite Hb0|].
    apply IH; [by rewrite apply_config|done|lia|done]. }
  destruct (H ops b eq_refl Hs ltac:(lia) Hops) as (Hcfg & Hst & Hlc). fold b' in Hcfg, Hst, Hlc.
  split; [done|]. split; [lia|]. clearbody b'. destruct b' as [st fc sc lc cfg]. simpl in *. subst st cfg.
  destruct Hc as (_ & _ & Ht).
  unfold allow_request, state. cb_unfold. unfold cur. simpl.
  rewrite (i64_id (now - lc)), (i64_id (reset_timeout_ms (config b))) by (unfold is_i64; lia).
  destruct (_ <=? _) eqn:E; bool_to_prop; simpl; (split; intros; [try lia; try done|try lia; try done]).
Qed.

Lemma open_until_timeout_witness :
  (allow_request (fold_left apply [Query 100 100; Failure 200] (mk 1 5 0 0 CircuitBreakerConfig_default))
     30100 30100).1 = false.
Proof.
  apply (open_until_timeout (mk 1 5 0 0 CircuitBreakerConfig_default) [Query 100 100; Failure 200] 30100 30100).
  - unfold config_ok. simpl. lia.
  - reflexivity.
  - simpl. lia.
  - repeat constructor; simpl; lia.
  - lia.
  - vm_compute. reflexivity.
Defined.

(** A half-open breaker closes after exactly [success_threshold]
    successes and reopens on the first failure. *)
Theorem half_open_resolution c fc lc (k : nat) now :
  config_ok c -> Z.of_nat k < success_threshold c ->
  let b := fold_left record_success (replicate k now) (mk 2 fc 0 lc c) in
  cur b = HalfOpen /\ success_count b = Z.of_nat k /\
  cur (record_failure b now) = Open /\ success_count (record_failure b now) = 0 /\
  (Z.of_nat k + 1 = success_threshold c ->
     record_success b now = mk (state_to_u8 Closed) 0 0 now c).
Proof.
  intros (_ & Hs & _) Hk b. subst b.
  assert (H : fold_left record_success (replicate k now) (mk 2 fc 0 lc c) = mk 2 fc (Z.of_nat k) lc c).
  { induction k as [|k IH]; [done|]. rewrite replicate_S_end, fold_left_app, IH by lia. simpl.
    unfold record_success. simpl. rewrite u32_id by (unfold is_u32; lia).
    destruct (_ <=? _) eqn:E; bool_to_prop; [lia|]. f_equal. lia. }
  rewrite H. split; [done|]. split; [done|]. split; [done|]. split; [done|]. intros Hk'.
  unfold record_success. simpl. rewrite u32_id by (unfold is_u32; lia).
  destruct (_ <=? _) eqn:E; bool_to_prop; [done|lia].
Qed.

Lemma half_open_resolution_witness :
  record_success (mk 2 5 1 0 CircuitBreakerConfig_default) 9 =
    mk (state_to_u8 Closed) 0 0 9 CircuitBreakerConfig_default.
Proof.
  apply (half_open_resolution CircuitBreakerConfig_default 5 0 1 9);
    [unfold config_ok; simpl; lia|simpl; lia|reflexivity].
Defined.
End CircuitBreaker.

Module Health.

Inductive RedisHealthStatus := Healthy | Reconnecting | CircuitOpen | Disabled.

Definition status_to_u8 (s : RedisHealthStatus) : Z :=
  match s with Healthy => 0 | Reconnecting => 1 | CircuitOpen => 2 | Disabled => 3 end.

Definition as_str (s : RedisHealthStatus) : string :=
  match s with
  | Healthy => "healthy" | Reconnecting => "reconnecting"
  | CircuitOpen => "circuit_open" | Disabled => "disabled"
  end.

Record RedisHealth := mk {
  status_u8 : Z;
  last_connected : Z;
  reconnection_attempts : Z;
  total_reconnections : Z;
}.

Definition new_with_enabled (enabled : bool) : RedisHealth :=
  mk (if enabled then status_to_u8 Reconnecting else status_to_u8 Disabled) 0 0 0.

Definition new : RedisHealth := new_with_enabled true.

Definition set_connected (h : RedisHealth) (now : Z) : RedisHealth :=
  let was_reconnecting := negb (status_u8 h =? status_to_u8 Healthy) in
  mk (status_to_u8 Healthy) now 0
     (if was_reconnecting then u32 (total_reconnections h + 1) else total_reconnections h).

Definition set_reconnecting (h : RedisHealth) : RedisHealth :=
  mk (status_to_u8 Reconnecting) (last_connected h) (u32 (reconnection_attempts h + 1))
     (total_reconnections h).

Definition set_circuit_open (h : RedisHealth) : RedisHealth :=
  mk (status_to_u8 CircuitOpen) (last_connected h) (reconnection_attempts h) (total_reconnections h).

Definition set_disabled (h : RedisHealth) : RedisHealth :=
  mk (status_to_u8 Disabled) (last_connected h) 0 (total_reconnections h).

Definition status (h : RedisHealth) : RedisHealthStatus :=
  let v := status_u8 h in
  if v =? 0 then Healthy else if v =? 1 then Reconnecting
  else if v =? 2 then CircuitOpen else if v =? 3 then Disabled else Disabled.

Definition is_healthy (h : RedisHealth) : bool :=
  match status h with Healthy => true | _ => false end.

Record RedisHealthStats := {
  st_status : RedisHealthStatus; st_last_connected_ms : Z;
  st_reconnection_attempts : Z; st_total_reconnections : Z;
}.
Definition stats (h : RedisHealth) : RedisHealthStats :=
  {| st_status := status h; st_last_connected_ms := last_connected h;
     st_reconnection_attempts := reconnection_attempts h;
     st_total_reconnections := total_reconnections h |}.

(** Health after [k] failed attempts and a success: the attempts are
    counted while reconnecting, reset by the connection, and the recovery
    counts as one reconnection; a second connection event does not. *)
Theorem reconnect_cycle h k now now' :
  Z.of_nat k < 2 ^ 32 ->
  let down := Nat.iter k set_reconnecting (set_disabled h) in
  let up := set_connected down now in
  status down = (if decide (k = 0%nat) then Disabled else Reconnecting) /\
  reconnection_attempts down = Z.of_nat k /\
  is_healthy up = true /\ reconnection_attempts up = 0 /\ last_connected up = now /\
  total_reconnections up = u32 (total_reconnections h + 1) /\
  total_reconnections (set_connected up now') = total_reconnections up.
Proof.
  intros Hk down up. subst up.
  assert (H : status down = (if decide (k = 0%nat) then Disabled else Reconnecting) /\
    reconnection_attempts down = Z.of_nat k /\ total_reconnections down = total_reconnections h /\
    status_u8 down <> 0).
  { subst down. induction k as [|k IH]; [done|]. destruct IH as (_ & I2 & I3 & _); [lia|]. simpl.
    split; [done|]. split; [rewrite I2, u32_id by (unfold is_u32; lia); lia|done]. }
  destruct H as (H1 & H2 & H3 & H4). do 5 (split; [done|]). unfold set_connected. simpl.
  destruct (status_u8 down =? 0) eqn:E; bool_to_prop; [done|]. by rewrite H3.
Qed.

Lemma reconnect_cycle_witness :
  total_reconnections (set_connected (Nat.iter 3 set_reconnecting (set_disabled new)) 7) = 1.
Proof. apply (reconnect_cycle new 3 7 8). lia. Defined.
End Health.

Module Backoff.

Record BackoffConfig := {
  initial_delay_ms : Z; max_delay_ms : Z; multiplier : f64; jitter_factor : f64;
}.
(** [2.0] and [0.1] *)
Definition two : f64 := f64_of_Z 2.
Definition one_tenth : f64 := f64_div (f64_of_Z 1) (f64_of_Z 10).
Definition BackoffConfig_default : BackoffConfig :=
  {| initial_delay_ms := 100; max_delay_ms := 30000; multiplier := two; jitter_factor := one_tenth |}.

Record ExponentialBackoff := mk { config : BackoffConfig; current_delay_ms : Z; attempt : Z }.

Definition with_config (c : BackoffConfig) : ExponentialBackoff := mk c (initial_delay_ms c) 0.
Definition new : ExponentialBackoff := with_config BackoffConfig_default.

(** [rand]'s [random_range(lo..hi)]: panics on an empty range, otherwise
    answers what the generator [draw]s. *)
Definition random_range (draw : f64 -> f64 -> f64) (lo hi : f64) : option f64 :=
  if f64_ltb lo hi then Some (draw lo hi) else None.

(** [next_delay]; [None] is a panic. *)
Definition next_delay (draw : f64 -> f64 -> f64) (b : ExponentialBackoff) : option (Z * ExponentialBackoff) :=
  let attempt' := u32 (attempt b + 1) in
  let base_delay := f64_mul (f64_of_Z (current_delay_ms b)) (multiplier (config b)) in
  let capped_delay := f64_min base_delay (f64_of_Z (max_delay_ms (config b))) in
  let answer d := Some (f64_to_u64 d, mk (config b) (f64_to_u64 d) attempt') in
  if f64_ltb (f64_of_Z 0) (jitter_factor (config b)) then
    let jitter_range := f64_mul capped_delay (jitter_factor (config b)) in
    match random_range draw (f64_opp jitter_range) jitter_range with
    | Some jitter => answer (f64_max (f64_add capped_delay jitter) (f64_of_Z 1))
    | None => None
    end
  else answer (f64_max capped_delay (f64_of_Z 1)).

Definition reset (b : ExponentialBackoff) : ExponentialBackoff :=
  mk (config b) (initial_delay_ms (config b)) 0.

(** The delays of successive attempts, [None] once it has panicked. *)
Fixpoint delays (draw : f64 -> f64 -> f64) (n : nat) (b : ExponentialBackoff) : list (option Z) :=
  match n with
  | O => []
  | S n' => match next_delay draw b with
            | Some (d, b') => Some d :: delays draw n' b'
            | None => [None]
            end
  end.

(** With the jitter at the bottom of its range: the delay starts above the
    initial one, grows by the multiplier less the jitter and stays at the cap
    less the jitter. *)
Example delays_default :
  delays (fun lo _ => lo) 12 new =
  Some <$> [180; 324; 583; 1049; 1888; 3398; 6116; 11008; 19814; 27000; 27000; 27000].
Proof. vm_compute. reflexivity. Qed.

(** A configured delay of zero leaves no range to draw the jitter from: the
    first failure panics. *)
Theorem zero_delay_panics draw :
  next_delay draw (with_config {| initial_delay_ms := 0; max_delay_ms := 30000;
                                  multiplier := two; jitter_factor := one_tenth |}) = None.
Proof. vm_compute. reflexivity. Qed.
End Backoff.
