(* ===== verification/BreakerInterleaving.v ===== *)
(** * BreakerInterleaving: the circuit breaker under concurrent calls

    [Resilience.CircuitBreaker] models each method of circuit_breaker.rs as
    one function.  Here a call is the sequence of its atomic loads, stores and
    read-modify-writes ([Call], [call_step]), any number of them in progress
    at once.  The clock is read in the access that uses the reading. *)
From S2P Require Import Prelude Resilience.
Import CircuitBreaker.

(** ** One access *)

Inductive Call :=
(* allow_request *)
| Ask | AskSince | AskSwap | AskReset | AskStamp | AskState | Asked (allowed : bool)
(* record_success and record_failure *)
| Success | SuccessReset | SuccessCount
| Failure | FailureCount | FailureStamp
(* transition_to, as their last action *)
| Turn (s : CircuitState) | TurnStamp (s : CircuitState) | TurnFailures | TurnSuccesses
| Recorded.

Definition set_state (s : CircuitState) (b : CircuitBreaker) : CircuitBreaker :=
  mk (state_to_u8 s) (failure_count b) (success_count b) (last_state_change b) (config b).
Definition set_failures (n : Z) (b : CircuitBreaker) : CircuitBreaker :=
  mk (state_u8 b) n (success_count b) (last_state_change b) (config b).
Definition set_successes (n : Z) (b : CircuitBreaker) : CircuitBreaker :=
  mk (state_u8 b) (failure_count b) n (last_state_change b) (config b).
Definition set_change (now : Z) (b : CircuitBreaker) : CircuitBreaker :=
  mk (state_u8 b) (failure_count b) (success_count b) now (config b).

Definition ask_step (now : Z) (b : CircuitBreaker) (c : Call) : option (CircuitBreaker * Call) :=
  match c with
  | Ask => Some (b, match cur b with Open => AskSince | _ => AskState end)
  | AskSince =>
    Some (b, if i64 (reset_timeout_ms (config b)) <=? i64 (now - last_state_change b) then AskSwap else AskState)
  | AskSwap =>
    Some (if state_u8 b =? state_to_u8 Open then (set_state HalfOpen b, AskReset) else (b, AskState))
  | AskReset => Some (set_successes 0 b, AskStamp)
  | AskStamp => Some (set_change now b, AskState)
  | AskState => Some (b, Asked (match cur b with Open => false | _ => true end))
  | _ => None
  end.

Definition success_step (b : CircuitBreaker) (c : Call) : option (CircuitBreaker * Call) :=
  match c with
  | Success => Some (b, match cur b with Closed => SuccessReset | HalfOpen => SuccessCount | Open => Recorded end)
  | SuccessReset => Some (set_failures 0 b, Recorded)
  | SuccessCount =>
    let count := u32 (success_count b + 1) in
    Some (set_successes count b, if success_threshold (config b) <=? count then Turn Closed else Recorded)
  | _ => None
  end.

Definition failure_step (now : Z) (b : CircuitBreaker) (c : Call) : option (CircuitBreaker * Call) :=
  match c with
  | Failure => Some (b, match cur b with Closed => FailureCount | HalfOpen => Turn Open | Open => FailureStamp end)
  | FailureCount =>
    let count := u32 (failure_count b + 1) in
    Some (set_failures count b, if failure_threshold (config b) <=? count then Turn Open else Recorded)
  | FailureStamp => Some (set_change now b, Recorded)
  | _ => None
  end.

Definition turn_step (now : Z) (b : CircuitBreaker) (c : Call) : option (CircuitBreaker * Call) :=
  match c with
  | Turn s => Some (set_state s b, TurnStamp s)
  | TurnStamp s => Some (set_change now b, match s with Closed => TurnFailures | _ => TurnSuccesses end)
  | TurnFailures => Some (set_failures 0 b, TurnSuccesses)
  | TurnSuccesses => Some (set_successes 0 b, Recorded)
  | _ => None
  end.

Definition call_step (now : Z) (b : CircuitBreaker) (c : Call) : option (CircuitBreaker * Call) :=
  match c with
  | Ask | AskSince | AskSwap | AskReset | AskStamp | AskState => ask_step now b c
  | Success | SuccessReset | SuccessCount => success_step b c
  | Failure | FailureCount | FailureStamp => failure_step now b c
  | Turn _ | TurnStamp _ | TurnFailures | TurnSuccesses => turn_step now b c
  | Asked _ | Recorded => None
  end.

(** ** The breaker and the calls in progress

    [failures] is how many failures have been counted, over all time. *)
Record Sys := mkSys { breaker : CircuitBreaker; calls : list Call; failures : nat }.

Definition starting (c : Call) : bool := match c with Ask | Success | Failure => true | _ => false end.
Definition counts_failure (c : Call) : bool := match c with FailureCount => true | _ => false end.

Inductive step (s : Sys) : Sys -> Prop :=
| step_call k c now b' c' : calls s !! k = Some c -> call_step now (breaker s) c = Some (b', c') ->
  step s (mkSys b' (<[k := c']> (calls s)) (failures s + Nat.b2n (counts_failure c)))
| step_start c : starting c = true -> step s (mkSys (breaker s) (calls s ++ [c]) (failures s)).

Definition fresh (c : CircuitBreakerConfig) (now : Z) : Sys := mkSys (with_config c now) [] 0.

(** ** No opening without failures *)

(** A call that has seen, or is about to make, a breaker that is not closed. *)
Definition past_closed (c : Call) : bool :=
  match c with
  | AskSince | AskSwap | AskReset | AskStamp | SuccessCount | FailureStamp | Turn _ | Asked false => true
  | _ => false
  end.

Record counted (s : Sys) : Prop := {
  counted_range : 0 <= failure_count (breaker s) <= Z.of_nat (failures s);
  counted_state : state_u8 (breaker s) <> 0 -> failure_threshold (config (breaker s)) <= Z.of_nat (failures s);
  counted_calls : forall c, c ∈ calls s -> past_closed c = true ->
    failure_threshold (config (breaker s)) <= Z.of_nat (failures s);
}.

Ltac access H :=
  match type of H with call_step _ _ ?c = _ => destruct c end;
  simpl in H; repeat case_match; simplify_eq; simpl in *.

Lemma cur_not_closed b : cur b <> Closed -> state_u8 b <> 0.
Proof. unfold cur, state_from_u8. intros N E. by rewrite E in N. Qed.

Lemma u32_bound z : 0 <= z -> 0 <= u32 z <= z.
Proof. intros. pose proof (u32_range z) as [? _]. pose proof (u32_le z). lia. Qed.

Lemma counted_step s s' : counted s -> step s s' -> counted s'.
Proof.
  intros [Rg St Ca] [k c now b' c' E H|c Hc].
  - pose proof (Ca c (list_elem_of_lookup_2 _ _ _ E)) as Self.
    pose proof (u32_bound (failure_count (breaker s) + 1)) as U.
    pose proof (cur_not_closed (breaker s)) as N.
    assert (Others : forall d, d ∈ <[k := c']> (calls s) -> d = c' \/ d ∈ calls s).
    { intros d (j & Hj)%list_elem_of_lookup. apply list_lookup_insert_Some in Hj as [(_ & <- & _)|[_ Hj]]; [by left|].
      right. by eapply list_elem_of_lookup_2. }
    split; simpl.
    + access H; lia.
    + access H; intros; try lia; try (specialize (St ltac:(done)); lia).
    + intros d [->|Hd]%Others Pd.
      * access H; try done; try lia; try (specialize (Self eq_refl); lia).
        all: enough (failure_threshold (config (breaker s)) <= Z.of_nat (failures s)) by lia; apply St, N; congruence.
      * specialize (Ca d Hd Pd). access H; lia.
  - split; simpl; [done|done|]. intros d [Hd|Hd]%elem_of_app Pd; [by apply (Ca d)|].
    apply list_elem_of_singleton in Hd as ->. by destruct c.
Qed.

Lemma counted_reachable c now s : rtc step (fresh c now) s -> counted s.
Proof.
  apply (rtc_ind_r counted); [|eauto using counted_step].
  split; simpl; [lia|done|]. intros d Hd. by apply not_elem_of_nil in Hd.
Qed.

Lemma step_config s s' : step s s' -> config (breaker s') = config (breaker s).
Proof. destruct 1 as [k c now b' c' E H|]; [|done]. simpl. access H; done. Qed.

Lemma config_reachable c now s : rtc step (fresh c now) s -> config (breaker s) = c.
Proof. apply (rtc_ind_r (fun s => config (breaker s) = c)); [done|]. intros ? ? _ St <-. by apply step_config. Qed.

(** C31: However the calls interleave: the breaker has left its closed state, and a
    request has been refused, only after at least [failure_threshold]
    failures were counted. *)
Theorem opens_only_after_failures c now s :
  rtc step (fresh c now) s -> cur (breaker s) <> Closed \/ Asked false ∈ calls s ->
  failure_threshold c <= Z.of_nat (failures s).
Proof.
  intros R X. rewrite <- (config_reachable _ _ _ R). destruct (counted_reachable _ _ _ R) as [_ St Ca].
  destruct X as [X|X]; [by apply St, cur_not_closed|by apply (Ca _ X)].
Qed.

(** ** Calls that run alone *)

Definition goes_on (now : Z) (x y : CircuitBreaker * Call) : Prop := call_step now x.1 x.2 = Some y.

Ltac next :=
  eapply rtc_l; [unfold goes_on, call_step, ask_step, success_step, failure_step, turn_step; simpl; reflexivity|]; simpl.

Lemma turn_alone now b s : rtc (goes_on now) (b, Turn s) (transition_to b s now, Recorded).
Proof. destruct s; repeat next; done. Qed.

Lemma ask_alone now b : let r := allow_request b now now in rtc (goes_on now) (b, Ask) (r.2, Asked r.1).
Proof.
  unfold allow_request, state, check_state_transition. next. destruct (cur b) eqn:C; simpl; rewrite ?C.
  - next. by rewrite C.
  - next. case_match; simpl; [|next; by rewrite C]. next. case_match; simpl; [|next; by rewrite C]. do 3 next. done.
  - next. by rewrite C.
Qed.

Lemma success_alone now b : rtc (goes_on now) (b, Success) (record_success b now, Recorded).
Proof.
  unfold record_success. next. destruct (cur b) eqn:C; simpl; [by next|done|]. next. case_match; [|done]. apply turn_alone.
Qed.

Lemma failure_alone now b : rtc (goes_on now) (b, Failure) (record_failure b now, Recorded).
Proof.
  unfold record_failure. next. destruct (cur b) eqn:C; simpl; [|by next|].
  - next. case_match; [|done]. apply turn_alone.
  - apply turn_alone.
Qed.

(** ** Concrete interleavings *)

(** The calls at the given places, one access each, all at the time [now]. *)
Fixpoint play (now : Z) (ks : list nat) (s : Sys) : option Sys :=
  match ks with
  | [] => Some s
  | k :: ks =>
    c ← calls s !! k;
    r ← call_step now (breaker s) c;
    play now ks (mkSys r.1 (<[k := r.2]> (calls s)) (failures s + Nat.b2n (counts_failure c)))
  end.

Lemma breaker_play_steps now ks s s' : play now ks s = Some s' -> rtc step s s'.
Proof.
  revert s. induction ks as [|k ks IH]; simpl; intros s; [by intros [= ->]|].
  destruct (calls s !! k) as [c|] eqn:E; [|done]. simpl.
  destruct (call_step _ _ c) as [[b' c']|] eqn:H; [|done]. simpl. intros P%IH.
  eapply rtc_l; [by eapply step_call|exact P].
Qed.

Lemma started now c cs : Forall (fun c => starting c = true) cs ->
  rtc step (fresh c now) (mkSys (with_config c now) cs 0).
Proof.
  induction cs as [|d cs IH] using rev_ind; intros F; [done|]. apply Forall_app in F as [F Fd].
  eapply rtc_r; [by apply IH|]. apply (step_start (mkSys _ cs 0)). by inversion Fd.
Qed.

Definition one_failure : CircuitBreakerConfig :=
  {| failure_threshold := 1; success_threshold := 2; reset_timeout_ms := 30000 |}.
Definition failing : Sys := mkSys (with_config one_failure 0) [Failure; Ask] 0.

(** [transition_to] stores the state before the time of the change.  A request
    that comes between the two sees an open breaker with the time of the
    change before: the breaker opens and half-opens within one millisecond,
    and the request is let through. *)
Theorem opened_and_half_opened_at_once : exists s,
  play 1000000 [0; 0; 0; 1; 1; 1; 1; 1; 1; 0; 0]%nat failing = Some s /\ rtc step (fresh one_failure 0) s /\
  cur (breaker s) = HalfOpen /\ last_state_change (breaker s) = 1000000 /\ calls s = [Recorded; Asked true].
Proof.
  eexists. split; [vm_compute; reflexivity|]. split; [|split_and!; reflexivity].
  etrans; [apply (started 0 one_failure [Failure; Ask]); by repeat constructor|].
  apply (breaker_play_steps 1000000 [0; 0; 0; 1; 1; 1; 1; 1; 1; 0; 0]%nat). vm_compute. reflexivity.
Qed.

Lemma opens_only_after_failures_witness : exists s,
  cur (breaker s) <> Closed /\ failure_threshold one_failure <= Z.of_nat (failures s).
Proof.
  destruct opened_and_half_opened_at_once as (s & _ & R & C & _). exists s.
  assert (N : cur (breaker s) <> Closed) by (rewrite C; discriminate).
  split; [exact N|]. exact (opens_only_after_failures one_failure 0 s R (or_introl N)).
Defined.
