(* ===== verification/Redis.v ===== *)
(** * Redis: the data connection

    Models [infrastructure/redis/pool.rs].  The Redis server and the client
    library are outside the program: [Class RedisServer] has the commands the
    program sends ([Cmd], by the type of their reply) and [Class RedisLaws]
    what the commands are documented to do, stated on a keyspace of typed
    values with their time to live.  [Module Pool] is the pool: the cached
    connection, the circuit breaker and the health tracker around a command. *)
From Stdlib Require DecimalString DecimalZ DecimalPos.
From S2P Require Import Prelude Resilience.

(** ** The server *)

(** An error of the client library: its text, and whether it is one of a
    dropped connection or of input and output. *)
Record RedisError := { re_text : string; re_dropped : bool }.

Abbreviation Fields := (list (string * string)).

Inductive Cmd : Type -> Type :=
| XADD (key : string) (maxlen : nat) (fields : Fields) : Cmd string
| XRANGE (key : string) : Cmd (list (string * Fields))
| XLEN (key : string) : Cmd nat
| DEL (key : string) : Cmd unit
| EXISTS (key : string) : Cmd bool
| HSET (key : string) (fields : Fields) : Cmd unit
| HGET (key field : string) : Cmd (option string)
| HGETALL (key : string) : Cmd Fields
| HINCRBY (key field : string) (increment : Z) : Cmd Z
| ZADD (key : string) (score : f64) (member : string) : Cmd unit
| ZREM (key member : string) : Cmd unit
| ZRANGEBYSCORE (key : string) (min max : f64) : Cmd (list string)
| ZCARD (key : string) : Cmd nat
| EXPIRE (key : string) (seconds : Z) : Cmd bool
| SET_EX (key value : string) (seconds : Z) : Cmd unit
| GET (key : string) : Cmd (option string)
| SADD (key member : string) : Cmd unit
| SREM (key member : string) : Cmd unit
| SMEMBERS (key : string) : Cmd (list string)
| SCARD (key : string) : Cmd nat
| INCRBY (key : string) (increment : Z) : Cmd Z
| PUBLISH (channel message : string) : Cmd unit
| SCAN (cursor : Z) (pattern : string) (count : Z) : Cmd (Z * list string).

Class RedisServer (R : Type) := {
  r_connect : R -> result RedisError unit * R;
  r_exec : forall {X}, Cmd X -> R -> result RedisError X * R;
}.

(** ** The documented effect of the commands *)

Inductive Value :=
| VStr (s : string)
| VSet (s : gset string)
| VHash (h : gmap string string)
| VZset (z : gmap string f64)
| VStream (s : list (string * Fields)).

(** Live keys, with the seconds they have left if they expire. *)
Abbreviation Keyspace := (gmap string (Value * option Z)).

Section keyspace.
Implicit Types k : Keyspace.

(** The value of a key by its type: empty for an absent key, nothing for a
    key of another type. *)
Definition stream_at k key : option (list (string * Fields)) :=
  match k !! key with None => Some [] | Some (VStream s, _) => Some s | _ => None end.
Definition hash_at k key : option (gmap string string) :=
  match k !! key with None => Some ∅ | Some (VHash h, _) => Some h | _ => None end.
Definition zset_at k key : option (gmap string f64) :=
  match k !! key with None => Some ∅ | Some (VZset z, _) => Some z | _ => None end.
Definition set_at k key : option (gset string) :=
  match k !! key with None => Some ∅ | Some (VSet s, _) => Some s | _ => None end.
Definition str_at k key : option (option string) :=
  match k !! key with None => Some None | Some (VStr s, _) => Some (Some s) | _ => None end.

(** A write keeps the key's expiry; a key that holds nothing is removed. *)
Definition put (key : string) (v : Value) k : Keyspace :=
  <[key := (v, match k !! key with Some (_, t) => t | None => None end)]> k.
Definition put_set (key : string) (s : gset string) k : Keyspace :=
  if decide (s = ∅) then delete key k else put key (VSet s) k.
Definition put_zset (key : string) (z : gmap string f64) k : Keyspace :=
  if decide (z = ∅) then delete key k else put key (VZset z) k.

Definition int_of_text (s : string) : option Z := Z.of_int <$> DecimalString.NilZero.int_of_string s.
Definition text_of_int (z : Z) : string := DecimalString.NilZero.string_of_int (Z.to_int z).
(** A missing counter counts as 0. *)
Definition counter (v : option string) : option Z :=
  match v with Some s => int_of_text s | None => Some 0 end.

Definition in_range (lo hi x : f64) : bool := SpecFloat.SFleb lo x && SpecFloat.SFleb x hi.

(** What a successful command may answer and leave behind.  [XADD] trims, if
    at all, from the old end and not below the length asked for. *)
Definition redis_spec {X} (c : Cmd X) k : X -> Keyspace -> Prop :=
  match c in Cmd X return X -> Keyspace -> Prop with
  | XADD key n fields => fun id k' =>
      exists s j, stream_at k key = Some s /\ (j = 0 \/ n + j <= S (length s))%nat /\
        k' = put key (VStream (drop j s ++ [(id, fields)])) k
  | XRANGE key => fun r k' => stream_at k key = Some r /\ k' = k
  | XLEN key => fun n k' => exists s, stream_at k key = Some s /\ n = length s /\ k' = k
  | DEL key => fun _ k' => k' = delete key k
  | EXISTS key => fun b k' => b = bool_decide (is_Some (k !! key)) /\ k' = k
  | HSET key fields => fun _ k' => exists h, hash_at k key = Some h /\ fields <> [] /\
      k' = put key (VHash (foldl (fun h fv => <[fv.1 := fv.2]> h) h fields)) k
  | HGET key f => fun r k' => exists h, hash_at k key = Some h /\ r = h !! f /\ k' = k
  | HGETALL key => fun r k' => exists h, hash_at k key = Some h /\ r ≡ₚ map_to_list h /\ k' = k
  | HINCRBY key f d => fun z k' => exists h old, hash_at k key = Some h /\ counter (h !! f) = Some old /\
      z = old + d /\ is_i64 z /\ k' = put key (VHash (<[f := text_of_int z]> h)) k
  | ZADD key score m => fun _ k' => exists z, zset_at k key = Some z /\ k' = put_zset key (<[m := score]> z) k
  | ZREM key m => fun _ k' => exists z, zset_at k key = Some z /\ k' = put_zset key (delete m z) k
  | ZRANGEBYSCORE key lo hi => fun r k' => exists z, zset_at k key = Some z /\
      r ≡ₚ (filter (fun mv => in_range lo hi mv.2) (map_to_list z)).*1 /\ k' = k
  | ZCARD key => fun n k' => exists z, zset_at k key = Some z /\ n = size z /\ k' = k
  | EXPIRE key t => fun b k' =>
      match k !! key with
      | None => b = false /\ k' = k
      | Some (v, _) => b = true /\ k' = if t <=? 0 then delete key k else <[key := (v, Some t)]> k
      end
  | SET_EX key v t => fun _ k' => 0 < t /\ k' = <[key := (VStr v, Some t)]> k
  | GET key => fun r k' => str_at k key = Some r /\ k' = k
  | SADD key m => fun _ k' => exists s, set_at k key = Some s /\ k' = put_set key ({[m]} ∪ s) k
  | SREM key m => fun _ k' => exists s, set_at k key = Some s /\ k' = put_set key (s ∖ {[m]}) k
  | SMEMBERS key => fun r k' => exists s, set_at k key = Some s /\ r ≡ₚ elements s /\ k' = k
  | SCARD key => fun n k' => exists s, set_at k key = Some s /\ n = size s /\ k' = k
  | INCRBY key d => fun z k' => exists v old, str_at k key = Some v /\ counter v = Some old /\
      z = old + d /\ is_i64 z /\ k' = put key (VStr (text_of_int z)) k
  | PUBLISH _ _ => fun _ k' => k' = k
  | SCAN _ _ _ => fun _ k' => k' = k
  end.

Lemma counter_text z : counter (Some (text_of_int z)) = Some z.
Proof.
  unfold counter, int_of_text, text_of_int. rewrite DecimalString.NilZero.isi; simpl.
  - by rewrite DecimalZ.of_to.
  - destruct z; simpl; try done. intros [= E]. by apply (DecimalPos.Unsigned.to_uint_nonnil p).
  - destruct z; simpl; try done. intros [= E]. by apply (DecimalPos.Unsigned.to_uint_nonnil p).
Qed.
Lemma lookup_put_ne key v k key' : key <> key' -> put key v k !! key' = k !! key'.
Proof. intros. unfold put. by rewrite lookup_insert_ne. Qed.
Lemma lookup_put_set_ne key s k key' : key <> key' -> put_set key s k !! key' = k !! key'.
Proof. intros. unfold put_set. case_decide; [by rewrite lookup_delete_ne|by apply lookup_put_ne]. Qed.
Lemma lookup_put_zset_ne key z k key' : key <> key' -> put_zset key z k !! key' = k !! key'.
Proof. intros. unfold put_zset. case_decide; [by rewrite lookup_delete_ne|by apply lookup_put_ne]. Qed.
Lemma hash_at_put key h k : hash_at (put key (VHash h) k) key = Some h.
Proof. unfold hash_at, put. by rewrite lookup_insert_eq. Qed.
Lemma zset_at_put key z k : zset_at (put_zset key z k) key = Some z.
Proof.
  unfold zset_at, put_zset. case_decide; [subst; by rewrite lookup_delete_eq|].
  unfold put. by rewrite lookup_insert_eq.
Qed.
Lemma set_at_put key s k : set_at (put_set key s k) key = Some s.
Proof.
  unfold set_at, put_set. case_decide; [subst; by rewrite lookup_delete_eq|].
  unfold put. by rewrite lookup_insert_eq.
Qed.
(** A key left alone reads the same. *)
Lemma hash_at_same k k' key : k' !! key = k !! key -> hash_at k' key = hash_at k key.
Proof. unfold hash_at. by intros ->. Qed.
Lemma zset_at_same k k' key : k' !! key = k !! key -> zset_at k' key = zset_at k key.
Proof. unfold zset_at. by intros ->. Qed.
Lemma set_at_same k k' key : k' !! key = k !! key -> set_at k' key = set_at k key.
Proof. unfold set_at. by intros ->. Qed.

(** [d] seconds go by. *)
Definition elapse (d : Z) k : Keyspace :=
  omap (fun e => match e.2 with
                 | None => Some e
                 | Some t => if t <=? d then None else Some (e.1, Some (t - d))
                 end) k.

Lemma lookup_elapse d k key :
  elapse d k !! key = match k !! key with
                      | Some (v, Some t) => if t <=? d then None else Some (v, Some (t - d))
                      | o => o
                      end.
Proof. unfold elapse. rewrite lookup_omap. by destruct (k !! key) as [[v [t|]]|]. Qed.
End keyspace.

(** A successful command has its documented effect; a server that is up
    carries out any command that applies to the keyspace. *)
Class RedisLaws (R : Type) `{RedisServer R} := {
  r_live : R -> Keyspace;
  r_up : R -> bool;
  r_elapse : Z -> R -> R;
  r_exec_ok : forall X (c : Cmd X) r x r', r_exec c r = (Ok x, r') -> redis_spec c (r_live r) x (r_live r');
  r_exec_up : forall X (c : Cmd X) r, r_up r = true -> (exists x k', redis_spec c (r_live r) x k') ->
    exists x r', r_exec c r = (Ok x, r') /\ r_up r' = true;
  r_connect_live : forall r, r_live (r_connect r).2 = r_live r;
  r_connect_up : forall r, r_up r = true -> exists r', r_connect r = (Ok tt, r') /\ r_up r' = true;
  r_elapse_live : forall d r, r_live (r_elapse d r) = elapse d (r_live r);
  r_elapse_up : forall d r, r_up (r_elapse d r) = r_up r;
}.

(** ** The pool *)

Module Pool.

Inductive PoolError := PRedis (e : RedisError) | CircuitIsOpen | ConnectionUnavailable (msg : string).

Definition pool_error_display (e : PoolError) : string :=
  match e with
  | PRedis e => "Redis error: " +:+ re_text e
  | CircuitIsOpen => "Circuit breaker is open"
  | ConnectionUnavailable msg => "Connection not available: " +:+ msg
  end.

(** [connection] is whether a connection is cached; [reads] counts the clock
    readings taken. *)
Record RedisPool (R : Type) := mk {
  connection : bool;
  circuit_breaker : CircuitBreaker.CircuitBreaker;
  health : Health.RedisHealth;
  server : R;
  reads : nat;
}.
Arguments mk {R} _ _ _ _ _.
Arguments connection {R} _.
Arguments circuit_breaker {R} _.
Arguments health {R} _.
Arguments server {R} _.
Arguments reads {R} _.

Definition new {R} (b : CircuitBreaker.CircuitBreaker) (h : Health.RedisHealth) (s : R) : RedisPool R :=
  mk false b h s 0.

Section pool.
Context {R : Type} `{RedisServer R} (clock : nat -> Z).
Implicit Types p : RedisPool R.

(** A pool operation: its result and the pool after it. *)
Definition M (X : Type) : Type := RedisPool R -> result PoolError X * RedisPool R.

Definition record_success p : RedisPool R :=
  mk (connection p) (CircuitBreaker.record_success (circuit_breaker p) (clock (reads p))) (health p) (server p) (S (reads p)).
Definition record_failure p : RedisPool R :=
  mk (connection p) (CircuitBreaker.record_failure (circuit_breaker p) (clock (reads p))) (health p) (server p) (S (reads p)).
Definition set_health (h : Health.RedisHealth) p : RedisPool R :=
  mk (connection p) (circuit_breaker p) h (server p) (reads p).
Definition set_connection (c : bool) p : RedisPool R :=
  mk c (circuit_breaker p) (health p) (server p) (reads p).
Definition set_server (s : R) p : RedisPool R :=
  mk (connection p) (circuit_breaker p) (health p) s (reads p).

(** [circuit_breaker.allow_request()] *)
Definition allow p : bool * RedisPool R :=
  let a := CircuitBreaker.allow_request (circuit_breaker p) (clock (reads p)) (clock (S (reads p))) in
  (a.1, mk (connection p) a.2 (health p) (server p) (S (S (reads p)))).

Definition connect : M unit := fun p =>
  if connection p then (Ok tt, p)
  else
    let p1 := set_health (Health.set_reconnecting (health p)) p in
    let c := r_connect (server p1) in
    match c.1 with
    | Ok _ =>
      let p2 := record_success (set_connection true (set_server c.2 p1)) in
      (Ok tt, mk (connection p2) (circuit_breaker p2) (Health.set_connected (health p2) (clock (reads p2)))
                 (server p2) (S (reads p2)))
    | Err e => (Err (PRedis e), record_failure (set_server c.2 p1))
    end.

Definition get_connection : M unit := fun p =>
  let a := allow p in
  if negb a.1 then (Err CircuitIsOpen, set_health (Health.set_circuit_open (health a.2)) a.2)
  else if connection a.2 then (Ok tt, a.2) else connect a.2.

(** The shape of the methods of [RedisPoolExt]: a connection, the command,
    and its outcome recorded. *)
Definition command {X} (c : Cmd X) : M X := fun p =>
  match get_connection p with
  | (Err e, p1) => (Err e, p1)
  | (Ok _, p1) =>
    let x := r_exec c (server p1) in
    match x.1 with
    | Ok v => (Ok v, record_success (set_server x.2 p1))
    | Err e => (Err (PRedis e), record_failure (set_server x.2 p1))
    end
  end.

(** [execute] also forgets a connection that was dropped. *)
Definition execute {X} (c : Cmd X) : M X := fun p =>
  match get_connection p with
  | (Err e, p1) => (Err e, p1)
  | (Ok _, p1) =>
    let x := r_exec c (server p1) in
    match x.1 with
    | Ok v => (Ok v, record_success (set_server x.2 p1))
    | Err e =>
      let p2 := set_server x.2 p1 in
      (Err (PRedis e), record_failure (if re_dropped e then set_connection false p2 else p2))
    end
  end.

Definition circuit_state p : CircuitBreaker.CircuitState :=
  (CircuitBreaker.state (circuit_breaker p) (clock (reads p)) (clock (S (reads p)))).1.
Definition is_healthy p : bool :=
  Health.is_healthy (health p) && match circuit_state p with CircuitBreaker.Closed => true | _ => false end.

Definition xadd_maxlen (key : string) (maxlen : nat) (fields : Fields) : M string := command (XADD key maxlen fields).
Definition xrange_all (key : string) : M (list (string * Fields)) := command (XRANGE key).
Definition del (key : string) : M unit := command (DEL key).
Definition exists_ (key : string) : M bool := command (EXISTS key).
Definition hset_multiple (key : string) (fields : Fields) : M unit := command (HSET key fields).
Definition hget (key field : string) : M (option string) := command (HGET key field).
Definition hgetall (key : string) : M Fields := command (HGETALL key).
Definition hdel (key : string) : M unit := del key.
Definition hincrby (key field : string) (increment : Z) : M Z := command (HINCRBY key field increment).
Definition zadd (key : string) (score : f64) (member : string) : M unit := command (ZADD key score member).
Definition zrem (key member : string) : M unit := command (ZREM key member).
Definition zrangebyscore (key : string) (min max : f64) : M (list string) := command (ZRANGEBYSCORE key min max).
Definition zcard (key : string) : M nat := command (ZCARD key).
Definition xlen (key : string) : M nat := command (XLEN key).
(** The reply, whether the key existed, is not looked at. *)
Definition expire (key : string) (seconds : Z) : M unit := fun p =>
  let r := command (EXPIRE key seconds) p in (match r.1 with Ok _ => Ok tt | Err e => Err e end, r.2).

(** *** Sequences of commands *)

Definition run (cs : list {X & Cmd X}) p : RedisPool R :=
  fold_left (fun p c => (command (projT2 c) p).2) cs p.

(** Nothing is sent while the breaker refuses: the command fails at once, the
    server is left alone and the health is circuit-open. *)
Lemma refused_command {X} (c : Cmd X) p :
  (allow p).1 = false ->
  (command c p).1 = Err CircuitIsOpen /\ server (command c p).2 = server p /\
  connection (command c p).2 = connection p /\
  Health.status (health (command c p).2) = Health.CircuitOpen.
Proof. intros A. unfold command, get_connection. rewrite A. done. Qed.

(** A command on a cached connection. *)
Lemma command_connected {X} (c : Cmd X) p :
  (allow p).1 = true -> connection p = true ->
  let x := r_exec c (server p) in
  command c p = match x.1 with
                | Ok v => (Ok v, record_success (set_server x.2 (allow p).2))
                | Err e => (Err (PRedis e), record_failure (set_server x.2 (allow p).2))
                end.
Proof. intros A C. unfold command, get_connection. rewrite A. simpl. by rewrite C. Qed.

Lemma command_keeps {X} (c : Cmd X) p :
  connection p = true ->
  connection (command c p).2 = true /\
  (health (command c p).2 = health p \/ health (command c p).2 = Health.set_circuit_open (health p)).
Proof.
  intros C. destruct (allow p).1 eqn:A.
  - rewrite command_connected by done. destruct (r_exec c (server p)).1; simpl; auto.
  - unfold command, get_connection. rewrite A. simpl. auto.
Qed.

(** A lost connection is never replaced: the command methods, unlike
    [execute], keep a cached connection whatever the error, so once there is
    one no later command connects again, and a pool that is not healthy
    never reports healthy again. *)
Theorem connection_never_replaced cs p :
  connection p = true ->
  connection (run cs p) = true /\
  (Health.is_healthy (health p) = false -> Health.is_healthy (health (run cs p)) = false).
Proof.
  revert p. induction cs as [|[X c] cs IH]; intros p C; simpl; [done|].
  destruct (command_keeps c p C) as [C' Hh]. destruct (IH _ C') as [I1 I2]. split; [done|].
  intros Hp. apply I2. by destruct Hh as [->| ->].
Qed.

(** [execute] does forget it, and its next call connects. *)
Lemma execute_forgets {X} (c : Cmd X) p e r' :
  (allow p).1 = true -> connection p = true -> r_exec c (server p) = (Err e, r') -> re_dropped e = true ->
  connection (execute c p).2 = false.
Proof. intros A C E D. unfold execute, get_connection. rewrite A. simpl. rewrite C. simpl. rewrite E. simpl. by rewrite D. Qed.

(** *** A server that fails every command *)

Section failing.
Context (cfg : CircuitBreaker.CircuitBreakerConfig) (lo hi : Z).
Context (Hcfg : CircuitBreaker.config_ok cfg) (Hlo : 0 <= lo) (Hhi : hi < 2 ^ 63).
Context (Hclock : forall k, lo <= clock k < hi).
Context (Hwindow : hi - lo <= CircuitBreaker.reset_timeout_ms cfg).
Context (Hfails : forall X (c : Cmd X) r, is_ok (r_exec c r).1 = false).

Lemma open_refuses p fc sc l :
  circuit_breaker p = CircuitBreaker.mk 1 fc sc l cfg -> lo <= l < hi ->
  (allow p).1 = false /\ circuit_breaker (allow p).2 = circuit_breaker p.
Proof.
  intros Hb Hl. destruct Hcfg as (_ & _ & Ht). pose proof (Hclock (reads p)) as Hc.
  unfold allow, CircuitBreaker.allow_request, CircuitBreaker.state. rewrite Hb. unfold CircuitBreaker.check_state_transition, CircuitBreaker.cur.
  simpl. rewrite (i64_id (clock _ - l)), (i64_id (CircuitBreaker.reset_timeout_ms cfg)) by (unfold is_i64; lia).
  destruct (_ <=? _) eqn:E; bool_to_prop; [lia|done].
Qed.

Lemma run_open cs p fc sc l :
  circuit_breaker p = CircuitBreaker.mk 1 fc sc l cfg -> lo <= l < hi -> server (run cs p) = server p.
Proof.
  revert p. induction cs as [|[X c] cs IH]; intros p Hb Hl; simpl; [done|].
  destruct (open_refuses p fc sc l Hb Hl) as [A B].
  destruct (refused_command c p A) as (_ & S & _). rewrite IH; [done| |done].
  unfold command, get_connection. rewrite A. cbn [negb fst snd circuit_breaker set_health]. by rewrite B.
Qed.

Lemma failed_command {X} (c : Cmd X) p fc sc l :
  circuit_breaker p = CircuitBreaker.mk 0 fc sc l cfg -> connection p = true ->
  0 <= fc < CircuitBreaker.failure_threshold cfg ->
  circuit_breaker (command c p).2 =
    (if CircuitBreaker.failure_threshold cfg <=? fc + 1
     then CircuitBreaker.mk 1 (fc + 1) 0 (clock (S (S (reads p)))) cfg
     else CircuitBreaker.mk 0 (fc + 1) sc l cfg).
Proof.
  intros Hb C Hf. destruct Hcfg as (Ht & _).
  rewrite command_connected by (try done; unfold allow; by rewrite Hb).
  pose proof (Hfails X c (server p)) as F. destruct (r_exec c (server p)).1; [done|]. simpl.
  unfold allow. rewrite Hb. unfold CircuitBreaker.record_failure. simpl.
  by rewrite u32_id by (unfold is_u32; lia).
Qed.

End failing.
End pool.

(** *** Against a server that is up *)

Section ready.
Context {R : Type} `{RedisLaws R} (clock : nat -> Z).
Implicit Types p : RedisPool R.

Definition live p : Keyspace := r_live (server p).

(** The breaker is closed and the server up; a connection is cached or can be
    made. *)
Definition ready p : Prop := CircuitBreaker.state_u8 (circuit_breaker p) = 0 /\ r_up (server p) = true.

Lemma closed_success b now :
  CircuitBreaker.state_u8 b = 0 -> CircuitBreaker.state_u8 (CircuitBreaker.record_success b now) = 0.
Proof. intros E. unfold CircuitBreaker.record_success, CircuitBreaker.cur. by rewrite E. Qed.

Lemma closed_allow p :
  CircuitBreaker.state_u8 (circuit_breaker p) = 0 ->
  allow clock p = (true, mk (connection p) (circuit_breaker p) (health p) (server p) (S (S (reads p)))).
Proof.
  intros E. unfold allow, CircuitBreaker.allow_request, CircuitBreaker.state, CircuitBreaker.check_state_transition,
    CircuitBreaker.cur. rewrite E. simpl. unfold CircuitBreaker.cur. by rewrite E.
Qed.

Lemma ready_get_connection p :
  ready p -> exists p', get_connection clock p = (Ok tt, p') /\ ready p' /\ live p' = live p.
Proof.
  intros [E U]. unfold get_connection. rewrite closed_allow by done. simpl.
  destruct (connection p) eqn:C; [by eexists|]. unfold connect. simpl.
  destruct (r_connect_up (server p) U) as (r' & Er & U'). pose proof (r_connect_live (server p)) as L. rewrite Er in *.
  eexists. split; [done|]. split; [|done]. split; [by apply closed_success|done].
Qed.

(** A command that applies succeeds, with its documented effect, and leaves
    the pool ready. *)
Lemma ready_command {X} (c : Cmd X) p :
  ready p -> (exists x k', redis_spec c (live p) x k') ->
  exists x p', command clock c p = (Ok x, p') /\ ready p' /\ redis_spec c (live p) x (live p').
Proof.
  intros Rd Hs. destruct (ready_get_connection p Rd) as (p1 & G & [E1 U1] & L1). unfold command. rewrite G.
  rewrite <- L1 in Hs. destruct (r_exec_up X c (server p1) U1 Hs) as (x & r' & Ex & U').
  pose proof (r_exec_ok X c _ _ _ Ex) as Sp. rewrite Ex. eexists x, _. split; [reflexivity|]. split.
  - split; [by apply closed_success|done].
  - unfold live in *. simpl. by rewrite <- L1.
Qed.
End ready.
End Pool.

(** ** A keyspace is such a server *)

Module Store.

Definition on {V X} (v : option V) (f : V -> option X) : option X := match v with Some x => f x | None => None end.
Definition add_int (old : option Z) (d : Z) : option Z :=
  match old with
  | Some o => if (- 2 ^ 63 <=? o + d) && (o + d <? 2 ^ 63) then Some (o + d) else None
  | None => None
  end.

(** Streams get ids by their length, are trimmed exactly, and a scan answers
    everything at once. *)
Definition exec {X} (c : Cmd X) (k : Keyspace) : option (X * Keyspace) :=
  match c in Cmd X return option (X * Keyspace) with
  | XADD key n fields => on (stream_at k key) (fun s =>
      let id := pretty (length s) in
      Some (id, put key (VStream (drop (S (length s) - n) s ++ [(id, fields)])) k))
  | XRANGE key => on (stream_at k key) (fun s => Some (s, k))
  | XLEN key => on (stream_at k key) (fun s => Some (length s, k))
  | DEL key => Some (tt, delete key k)
  | EXISTS key => Some (bool_decide (is_Some (k !! key)), k)
  | HSET key fields => on (hash_at k key) (fun h =>
      match fields with
      | [] => None
      | _ => Some (tt, put key (VHash (foldl (fun h fv => <[fv.1 := fv.2]> h) h fields)) k)
      end)
  | HGET key f => on (hash_at k key) (fun h => Some (h !! f, k))
  | HGETALL key => on (hash_at k key) (fun h => Some (map_to_list h, k))
  | HINCRBY key f d => on (hash_at k key) (fun h => on (add_int (counter (h !! f)) d) (fun z =>
      Some (z, put key (VHash (<[f := text_of_int z]> h)) k)))
  | ZADD key score m => on (zset_at k key) (fun z => Some (tt, put_zset key (<[m := score]> z) k))
  | ZREM key m => on (zset_at k key) (fun z => Some (tt, put_zset key (delete m z) k))
  | ZRANGEBYSCORE key lo hi => on (zset_at k key) (fun z =>
      Some ((filter (fun mv => in_range lo hi mv.2) (map_to_list z)).*1, k))
  | ZCARD key => on (zset_at k key) (fun z => Some (size z, k))
  | EXPIRE key t =>
      match k !! key with
      | None => Some (false, k)
      | Some (v, _) => Some (true, if t <=? 0 then delete key k else <[key := (v, Some t)]> k)
      end
  | SET_EX key v t => if 0 <? t then Some (tt, <[key := (VStr v, Some t)]> k) else None
  | GET key => on (str_at k key) (fun v => Some (v, k))
  | SADD key m => on (set_at k key) (fun s => Some (tt, put_set key ({[m]} ∪ s) k))
  | SREM key m => on (set_at k key) (fun s => Some (tt, put_set key (s ∖ {[m]}) k))
  | SMEMBERS key => on (set_at k key) (fun s => Some (elements s, k))
  | SCARD key => on (set_at k key) (fun s => Some (size s, k))
  | INCRBY key d => on (str_at k key) (fun v => on (add_int (counter v) d) (fun z =>
      Some (z, put key (VStr (text_of_int z)) k)))
  | PUBLISH _ _ => Some (tt, k)
  | SCAN _ _ _ => Some ((0, (map_to_list k).*1), k)
  end.

Lemma on_Some {V X} (v : option V) (f : V -> option X) x : on v f = Some x <-> exists y, v = Some y /\ f y = Some x.
Proof. destruct v; simpl; naive_solver. Qed.

Lemma add_int_Some old d z : add_int old d = Some z <-> exists o, old = Some o /\ z = o + d /\ is_i64 z.
Proof.
  unfold add_int, is_i64. destruct old as [o|]; [|naive_solver].
  destruct (- 2 ^ 63 <=? o + d) eqn:E1, (o + d <? 2 ^ 63) eqn:E2; simpl; bool_to_prop.
  all: split; [intros [=]; subst; exists o; split_and!; (done || lia)|intros (? & [= <-] & -> & ?); (done || lia)].
Qed.

Lemma exec_sound X (c : Cmd X) k x k' : exec c k = Some (x, k') -> redis_spec c k x k'.
Proof.
  destruct c; simpl; rewrite ?on_Some; try (intros (v & E & E')); simplify_eq/=;
    try done; try (by split); try (by eexists; split_and!); try (by intros; simplify_eq).
  - exists v. eexists. split_and!; [done| |done]. destruct maxlen; simpl; lia.
  - destruct fields; [done|]. simplify_eq. eexists. by split_and!.
  - apply on_Some in E' as (z & (o & ? & ? & ?)%add_int_Some & ?). simplify_eq. eexists _, _. by split_and!.
  - intros E. destruct (k !! key) as [[v t]|]; by simplify_eq.
  - intros E. destruct (0 <? seconds) eqn:P; [|done]. bool_to_prop. by simplify_eq.
  - apply on_Some in E' as (z & (o & ? & ? & ?)%add_int_Some & ?). simplify_eq. eexists _, _. by split_and!.
Qed.

Lemma exec_complete X (c : Cmd X) k : (exists x k', redis_spec c k x k') -> is_Some (exec c k).
Proof.
  intros (x & k' & S). destruct c; simpl in *; try done.
  all: try (destruct S as (s & E & S); rewrite E; simpl; by eauto).
  all: try (destruct S as [E S]; rewrite E; simpl; by eauto).
  - destruct S as (s & j & E & _). rewrite E. simpl. by eauto.
  - destruct S as (h & E & Hf & _). rewrite E. simpl. destruct fields; [done|by eauto].
  - destruct S as (h & old & E & C & -> & I & _). rewrite E. simpl.
    assert (A : add_int (counter (h !! field)) increment = Some (old + increment))
      by (apply add_int_Some; eauto). rewrite A. simpl. by eauto.
  - destruct (k !! key) as [[v t]|]; by eauto.
  - destruct S as [P _]. destruct (0 <? seconds) eqn:E; bool_to_prop; [by eauto|lia].
  - destruct S as (v & old & E & C & -> & I & _). rewrite E. simpl.
    assert (A : add_int (counter v) increment = Some (old + increment)) by (apply add_int_Some; eauto).
    rewrite A. simpl. by eauto.
Qed.

(** Several commands in a row. *)
Fixpoint exec_all (cs : list {X & Cmd X}) (k : Keyspace) : option Keyspace :=
  match cs with
  | [] => Some k
  | c :: rest => match exec (projT2 c) k with Some (_, k') => exec_all rest k' | None => None end
  end.

(** But for the trimming of streams, the keyspace a command leaves is
    determined. *)
Definition trims {X} (c : Cmd X) : bool := match c with XADD _ _ _ => true | _ => false end.

Lemma exec_same_keyspace X (c : Cmd X) k x k' y :
  trims c = false -> redis_spec c k x k' -> exec c k = Some y -> k' = y.2.
Proof.
  intros T S E. destruct y as [x0 k0]. apply exec_sound in E. destruct c; simpl in *; try done.
  all: repeat match goal with
       | H : exists _, _ |- _ => destruct H
       | H : _ /\ _ |- _ => destruct H
       | H : match ?o with Some _ => _ | None => _ end |- _ => destruct o as [[]|]
       end; simplify_eq; try done.
Qed.

Definition wrong_type : RedisError := {| re_text := "WRONGTYPE"; re_dropped := false |}.

#[export] Instance keyspace_server : RedisServer Keyspace := {|
  r_connect k := (Ok tt, k);
  r_exec X c k := match exec c k with Some (x, k') => (Ok x, k') | None => (Err wrong_type, k) end |}.

#[export] Program Instance keyspace_laws : RedisLaws Keyspace := {|
  r_live k := k; r_up _ := true; r_elapse := elapse |}.
Next Obligation.
  simpl. intros X c k x k'. destruct (exec c k) as [[y k1]|] eqn:E; [|done]. intros [= <- <-]. by apply exec_sound.
Qed.
Next Obligation.
  simpl. intros X c k _ Hs. destruct (exec_complete X c k Hs) as [[x k'] ->]. by eauto.
Qed.
Next Obligation. done. Qed.
Next Obligation. simpl. by eauto. Qed.
Next Obligation. done. Qed.
Next Obligation. done. Qed.
End Store.

(** ** A server that only counts the commands it fails *)

Module Broken.
Import Pool.

Definition io_error : RedisError := {| re_text := "broken pipe"; re_dropped := true |}.
Definition broken_server : RedisServer nat := {|
  r_connect n := (Ok tt, n); r_exec X c n := (Err io_error, S n) |}.
#[local] Existing Instance broken_server.

Definition pool : RedisPool nat :=
  set_connection true (new (CircuitBreaker.with_config CircuitBreaker.CircuitBreakerConfig_default 0) Health.new 0%nat).
Definition eight_gets : list {X & Cmd X} := replicate 8 (existT _ (GET "k")).


Lemma connection_never_replaced_witness :
  connection (run (fun _ => 5) eight_gets pool) = true /\
  Health.is_healthy (health (run (fun _ => 5) eight_gets pool)) = false.
Proof.
  destruct (connection_never_replaced (fun _ => 5) eight_gets pool) as [H1 H2]; [reflexivity|].
  split; [exact H1|apply H2; vm_compute; reflexivity].
Defined.
End Broken.

(** Uuids written in decimal, for closed examples. *)
Lemma decimal_roundtrip u : Z.to_N <$> int_of_text (text_of_int (Z.of_N u)) = Some u.
Proof. pose proof (counter_text (Z.of_N u)) as C. unfold counter in C. rewrite C. simpl. by rewrite N2Z.id. Qed.
Definition decimal_uuids : UuidText := {|
  uuid_text u := text_of_int (Z.of_N u); uuid_parse s := Z.to_N <$> int_of_text s;
  uuid_parse_text := decimal_roundtrip |}.
