(* ===== verification/PostgresOverlap.v ===== *)
(** * PostgresOverlap: enqueueing statements that overlap

    The statement with which [domain/queue/postgres_backend.rs] enqueues counts
    the rows of the user, deletes the oldest when there are enough and inserts
    one.  Under the database's default isolation level, READ COMMITTED, it
    reads the rows committed when it began, and a row it chose that another
    statement deletes first is skipped.  Here a statement begins and finishes
    in two steps between which others run: the size limit holds up to one row
    for each overlap, and that is what overlaps can add. *)
From S2P Require Import Prelude Postgres.

(** An enqueueing statement that has begun, and the rows it sees. *)
Record Running := {
  rn_tenant : string; rn_user : string; rn_max : Z; rn_id : uuid; rn_data : string; rn_expires : Z;
  rn_now : Z; rn_snapshot : gmap uuid QueueRow;
}.
Definition statement_of (r : Running) : Query Z :=
  ENQUEUE (rn_tenant r) (rn_user r) (rn_max r) (rn_id r) (rn_data r) (rn_expires r).

(** The rows of the user it enqueues for. *)
Abbreviation mine r m := (queue_of (rn_tenant r) (rn_user r) m).

(** Its choice among the rows it sees. *)
Definition chooses (r : Running) (victim : option uuid) : Prop :=
  if bool_decide (rn_max r <= Z.of_nat (size (mine r (rn_snapshot r))) /\ mine r (rn_snapshot r) <> ∅)
  then exists v, victim = Some v /\ oldest_in (mine r (rn_snapshot r)) v
  else victim = None.

#[export] Instance queue_row_eq_dec : EqDecision QueueRow.
Proof. solve_decision. Defined.

(** The row it chose is deleted if it is still there. *)
Definition without (r : Running) (victim : option uuid) (m : gmap uuid QueueRow) : gmap uuid QueueRow :=
  match victim with
  | Some v => if decide (m !! v = rn_snapshot r !! v) then delete v m else m
  | None => m
  end.
Definition new_row (r : Running) (stored : string) : QueueRow :=
  {| qr_tenant := rn_tenant r; qr_user := rn_user r; qr_event_data := stored; qr_queued_at := micros (rn_now r);
     qr_attempts := 0; qr_expires_at := micros (rn_expires r) |}.
Definition finishes (jsonb : string -> bool) (r : Running) (db db' : Database) : Prop :=
  exists victim stored,
    varchar_ok (rn_tenant r) = true /\ varchar_ok (rn_user r) = true /\ message_queue db !! rn_id r = None /\
    chooses r victim /\ (jsonb (rn_data r) = true -> stored = rn_data r) /\
    db' = with_queue (<[rn_id r := new_row r stored]> (without r victim (message_queue db))) db.

(** Rows were added to its queue while it ran. *)
Definition overtaken (r : Running) (db : Database) : bool :=
  bool_decide (~ mine r (message_queue db) ⊆ mine r (rn_snapshot r)).

(** ** Interleaved statements *)

Record State := { tables : Database; in_flight : list Running }.

Definition enqueues {X} (q : Query X) : bool := match q with ENQUEUE _ _ _ _ _ _ => true | _ => false end.

(** Writers with the limit [cap]; the number says whether an overtaken
    statement finished. *)
Inductive step (jsonb : string -> bool) (cap : nat) : State -> nat -> State -> Prop :=
| begin_step s r :
  rn_snapshot r = message_queue (tables s) -> rn_max r = Z.of_nat cap ->
  step jsonb cap s 0 {| tables := tables s; in_flight := r :: in_flight s |}
| finish_step s l1 r l2 db' :
  in_flight s = l1 ++ r :: l2 -> finishes jsonb r (tables s) db' ->
  step jsonb cap s (if overtaken r (tables s) then 1 else 0) {| tables := db'; in_flight := l1 ++ l2 |}
| fail_step s l1 r l2 :
  in_flight s = l1 ++ r :: l2 -> step jsonb cap s 0 {| tables := tables s; in_flight := l1 ++ l2 |}
| other_step s {X} (q : Query X) now x db' :
  enqueues q = false -> pg_spec jsonb q now (tables s) x db' ->
  step jsonb cap s 0 {| tables := db'; in_flight := in_flight s |}.

(** Runs with at most [width] enqueueing statements at a time. *)
Inductive run (jsonb : string -> bool) (cap width : nat) : State -> nat -> State -> Prop :=
| run_done s : run jsonb cap width s 0 s
| run_step s k s' n s'' :
  step jsonb cap s k s' -> (length (in_flight s') <= width)%nat ->
  run jsonb cap width s' n s'' -> run jsonb cap width s (k + n) s''.

Section overlap.
Context (jsonb : string -> bool) (cap : nat).
Implicit Types (db : Database) (s : State).

(** A statement that is alone does what [pg_spec] says. *)
Lemma alone_is_serial r db db' :
  rn_snapshot r = message_queue db ->
  finishes jsonb r db db' <-> exists dropped, pg_spec jsonb (statement_of r) (rn_now r) db dropped db'.
Proof.
  intros E. unfold finishes, chooses, without, new_row. rewrite E. simpl. split.
  - intros (v & st & Ht & Hu & F & V & J & ->). eexists _, v, st. split_and!; try done.
    destruct v as [v|]; [by rewrite decide_True|done].
  - intros (? & v & st & Ht & Hu & F & V & _ & J & ->). exists v, st. split_and!; try done.
    destruct v as [v|]; [by rewrite decide_True|done].
Qed.

Lemma others_remove {X} (q : Query X) now db x db' :
  enqueues q = false -> pg_spec jsonb q now db x db' -> message_queue db' ⊆ message_queue db.
Proof.
  destruct q; simpl; intros Q Sp; [done|..].
  all: try (destruct (pending_acks db !! n) as [p|] eqn:E0); try case_bool_decide.
  all: destruct_and?; subst; simpl; try done; by apply map_subseteq_difference_l.
Qed.

Lemma queue_of_mono t u (m m' : gmap uuid QueueRow) : m' ⊆ m -> queue_of t u m' ⊆ queue_of t u m.
Proof.
  intros S. apply map_subseteq_spec. intros k r. rewrite !queue_of_lookup. intros [E ?].
  split; [by eapply lookup_weaken|done].
Qed.

Lemma without_sub r v m : without r v m ⊆ m.
Proof. unfold without. destruct v; [|done]. case_decide; [apply delete_subseteq|done]. Qed.

(** How many rows a finishing statement leaves a user. *)
Lemma size_after_insert t u k row (m : gmap uuid QueueRow) :
  m !! k = None ->
  size (queue_of t u (<[k := row]> m)) =
  ((if decide (qr_tenant row = t /\ qr_user row = u) then 1 else 0) + size (queue_of t u m))%nat.
Proof.
  intros F. unfold queue_of. case_decide as C.
  - rewrite map_filter_insert_True by done. rewrite map_size_insert_None; [done|].
    apply map_lookup_filter_None. by left.
  - by rewrite filter_insert_fresh.
Qed.

Lemma finish_size r db db' t u :
  finishes jsonb r db db' ->
  (size (queue_of t u (message_queue db')) <= S (size (queue_of t u (message_queue db))))%nat.
Proof.
  intros (v & st & _ & _ & F & _ & _ & ->). simpl. pose proof (without_sub r v (message_queue db)) as Sub.
  rewrite size_after_insert by (by eapply lookup_weaken_None).
  pose proof (size_queue_of_sub t u _ _ Sub). case_decide; lia.
Qed.

(** One that nobody overtook adds a row only to a queue below the limit, or
    takes the place of a row that was seen. *)
Lemma finish_in_place r db db' t u bound :
  rn_max r = Z.of_nat cap -> finishes jsonb r db db' -> overtaken r db = false ->
  (size (mine r (rn_snapshot r)) <= bound)%nat -> (Nat.max 1 cap <= bound)%nat ->
  (size (queue_of t u (message_queue db)) <= bound)%nat ->
  (size (queue_of t u (message_queue db')) <= bound)%nat.
Proof.
  intros Hm (v & st & _ & _ & F & V & _ & ->) O Bs Bc B. simpl.
  pose proof (without_sub r v (message_queue db)) as Sub.
  rewrite size_after_insert by (by eapply lookup_weaken_None). pose proof (size_queue_of_sub t u _ _ Sub) as Le.
  case_decide as C; [|simpl; lia]. simpl in C. destruct C as [<- <-].
  assert (W : mine r (message_queue db) ⊆ mine r (rn_snapshot r)).
  { unfold overtaken in O. apply bool_decide_eq_false in O. by apply dec_stable. }
  pose proof (map_subseteq_size _ _ W) as Wle. unfold chooses in V. rewrite Hm in V. case_bool_decide as D.
  - destruct V as (x & -> & (row & Ex & _)). pose proof Ex as [Es Ps]%queue_of_lookup.
    assert (L : (S (size (mine r (without r (Some x) (message_queue db)))) <= size (mine r (rn_snapshot r)))%nat);
      [|lia].
    rewrite <- (map_size_insert_None x row).
    + apply map_subseteq_size, insert_subseteq_l; [done|]. etrans; [by apply queue_of_mono|done].
    + apply map_lookup_filter_None. unfold without. case_decide as E; [left; apply lookup_delete_eq|].
      destruct (message_queue db !! x) as [y|] eqn:Ey; [|by left]. right. intros z [= <-] Pz.
      apply E. rewrite Es. assert (Q : mine r (message_queue db) !! x = Some y) by (by apply queue_of_lookup).
      pose proof (lookup_weaken _ _ _ _ Q W) as Q'. congruence.
  - destruct (decide (mine r (rn_snapshot r) = ∅)) as [Z|Z].
    + rewrite Z in Wle. rewrite map_size_empty in Wle. lia.
    + apply not_and_l in D as [D|D]; [lia|done].
Qed.

(** ** The limit, up to the overlaps *)

Definition within (k : nat) (m : gmap uuid QueueRow) : Prop :=
  forall t u, (size (queue_of t u m) <= Nat.max 1 cap + k)%nat.
Definition good (k : nat) s : Prop :=
  within k (message_queue (tables s)) /\
  Forall (fun r => rn_max r = Z.of_nat cap /\ within k (rn_snapshot r)) (in_flight s).

Lemma within_mono k k' m : (k <= k')%nat -> within k m -> within k' m.
Proof. intros L W t u. specialize (W t u). lia. Qed.
Lemma within_sub k m m' : m' ⊆ m -> within k m -> within k m'.
Proof. intros S W t u. etrans; [by apply size_queue_of_sub|apply W]. Qed.

Lemma step_good s k s' k0 : step jsonb cap s k s' -> good k0 s -> good (k0 + k) s'.
Proof.
  intros St [G R]. destruct St as [s r E Em|s l1 r l2 db' E F|s l1 r l2 E|s X q now x db' Q Sp]; unfold good; cbn [tables in_flight].
  - rewrite Nat.add_0_r. split; [done|]. constructor; [|done]. by rewrite E.
  - rewrite E in R. apply Forall_app in R as [R1 [[Hm Hs] R2]%Forall_cons]. split.
    + intros t u. destruct (overtaken r (tables s)) eqn:O.
      * pose proof (finish_size r _ _ t u F). specialize (G t u). lia.
      * rewrite Nat.add_0_r. apply (finish_in_place r (tables s)); auto with lia.
    + apply Forall_app; split; (eapply Forall_impl; [eassumption|]); simpl; intros y [? ?];
        (split; [done|]); (eapply within_mono; [|done]); case_match; lia.
  - rewrite Nat.add_0_r. split; [done|]. rewrite E in R. apply Forall_app in R as [R1 [_ R2]%Forall_cons].
    by apply Forall_app.
  - rewrite Nat.add_0_r. split; [|done]. eapply within_sub; [by eapply others_remove|done].
Qed.

(** However statements overlap, a user has at most one row more than the limit
    for each overtaken statement. *)
Theorem overlap_bounded width s n s' :
  run jsonb cap width s n s' -> in_flight s = [] -> bounded cap (tables s) ->
  forall t u, (size (queue_of t u (message_queue (tables s'))) <= Nat.max 1 cap + n)%nat.
Proof.
  intros R E B. assert (G : good 0 s).
  { split; [|by rewrite E]. intros t u. rewrite Nat.add_0_r. apply B. }
  enough (good (0 + n) s') as [W _] by exact W. clear E B. revert G. generalize 0%nat as k0.
  induction R as [s|s k s1 n s' St _ _ IH]; intros k0 G; [by rewrite Nat.add_0_r|].
  rewrite Nat.add_assoc. apply IH. by eapply step_good.
Qed.

(** One at a time, none is overtaken: the limit is kept. *)
Theorem one_at_a_time_bounded s n s' :
  run jsonb cap 1 s n s' -> in_flight s = [] -> n = 0%nat.
Proof.
  intros R E.
  assert (G : (length (in_flight s) <= 1)%nat /\ Forall (fun r => message_queue (tables s) ⊆ rn_snapshot r) (in_flight s))
    by (rewrite E; split; [simpl; lia|constructor]).
  clear E. induction R as [s|s k s1 n s' St W _ IH]; [done|]. destruct G as [L F].
  enough (k = 0%nat /\ Forall (fun r => message_queue (tables s1) ⊆ rn_snapshot r) (in_flight s1)) as [-> F1].
  { apply IH. split; done. }
  clear IH. destruct St as [s r E Em|s l1 r l2 db' E Fi|s l1 r l2 E|s X q now x db' Q Sp]; cbn [tables in_flight] in *.
  - split; [done|]. constructor; [by rewrite E|done].
  - rewrite E in F, L. rewrite length_app in L. simpl in L. destruct l1, l2; simpl in L; try lia.
    apply Forall_cons in F as [F _]. unfold overtaken. rewrite bool_decide_false; [done|].
    intros N. apply N. by apply queue_of_mono.
  - rewrite E in F. apply Forall_app in F as [F1 [_ F2]%Forall_cons]. split; [done|]. by apply Forall_app.
  - split; [done|]. eapply Forall_impl; [exact F|]. simpl. intros r Hr. etrans; [by eapply others_remove|done].
Qed.

(** ** Overlaps do add up *)

Lemma overlap_runs_app width s n s1 n' s2 :
  run jsonb cap width s n s1 -> run jsonb cap width s1 n' s2 -> run jsonb cap width s (n + n') s2.
Proof.
  induction 1 as [|s k s' n s1 St W _ IH]; intros R; [done|].
  rewrite <- Nat.add_assoc. eapply run_step; [done|done|]. by apply IH.
Qed.

(** A statement for the queue of [u] that sees the rows [m]. *)
Definition writer (t u : string) (k : uuid) (m : gmap uuid QueueRow) : Running :=
  {| rn_tenant := t; rn_user := u; rn_max := Z.of_nat cap; rn_id := k; rn_data := ""; rn_expires := 0; rn_now := 0;
     rn_snapshot := m |}.

Lemma writer_finishes t u k m db v :
  varchar_ok t = true -> varchar_ok u = true -> (Nat.max 1 cap <= size (queue_of t u m))%nat ->
  message_queue db !! k = None -> oldest_in (queue_of t u m) v ->
  finishes jsonb (writer t u k m) db
    (with_queue (<[k := new_row (writer t u k m) ""]> (without (writer t u k m) (Some v) (message_queue db))) db).
Proof.
  intros Ht Hu L F O. exists (Some v), "". split_and!; try done. unfold chooses. simpl.
  rewrite bool_decide_true; [by exists v|]. split; [lia|]. intros Z. rewrite Z, map_size_empty in L. lia.
Qed.

(** Two statements that begin on the same rows. *)
Lemma overlapping_pair r1 r2 db db1 db2 :
  rn_snapshot r1 = message_queue db -> rn_snapshot r2 = message_queue db ->
  rn_max r1 = Z.of_nat cap -> rn_max r2 = Z.of_nat cap ->
  finishes jsonb r1 db db1 -> finishes jsonb r2 db1 db2 -> overtaken r2 db1 = true ->
  run jsonb cap 2 {| tables := db; in_flight := [] |} 1 {| tables := db2; in_flight := [] |}.
Proof.
  intros E1 E2 M1 M2 F1 F2 O2.
  assert (O1 : overtaken r1 db = false).
  { unfold overtaken. rewrite E1. apply bool_decide_eq_false. intros N. by apply N. }
  pose proof (finish_step jsonb cap {| tables := db; in_flight := [r2; r1] |} [r2] r1 [] _ eq_refl F1) as S1.
  pose proof (finish_step jsonb cap {| tables := db1; in_flight := [r2] |} [] r2 [] _ eq_refl F2) as S2.
  cbn [tables app] in S1, S2. rewrite O1 in S1. rewrite O2 in S2.
  change 1%nat with (0 + (0 + (0 + (1 + 0))))%nat.
  eapply run_step; [by apply (begin_step _ _ _ r1)|simpl; lia|].
  eapply run_step; [by apply (begin_step _ _ _ r2)|simpl; lia|].
  eapply run_step; [exact S1|simpl; lia|]. eapply run_step; [exact S2|simpl; lia|apply run_done].
Qed.

(** Two statements that both find the queue full leave it a row longer. *)
Lemma overlap_round t u s :
  varchar_ok t = true -> varchar_ok u = true -> in_flight s = [] ->
  (Nat.max 1 cap <= size (queue_of t u (message_queue (tables s))))%nat ->
  exists s', run jsonb cap 2 s 1 s' /\ in_flight s' = [] /\
    size (queue_of t u (message_queue (tables s'))) = S (size (queue_of t u (message_queue (tables s)))).
Proof.
  destruct s as [db rs]. cbn [tables in_flight]. intros Ht Hu -> L. set (m := message_queue db) in *.
  destruct (Store.oldest_spec (queue_of t u m)) as (v & _ & O).
  { intros Z. rewrite Z, map_size_empty in L. lia. }
  destruct (oldest_in_row _ _ _ _ O) as (row & Ev & Tv & Uv).
  set (i := fresh (dom m)). set (j := fresh ({[i]} ∪ dom m)).
  assert (Fi : m !! i = None) by (apply not_elem_of_dom; apply is_fresh).
  assert (Fj : j <> i /\ m !! j = None).
  { pose proof (is_fresh ({[i]} ∪ dom m)) as N. fold j in N. rewrite not_elem_of_union in N.
    rewrite <- not_elem_of_dom. set_solver. }
  assert (Nv : i <> v) by (intros ->; congruence).
  set (r1 := writer t u i m). set (r2 := writer t u j m).
  assert (W1 : without r1 (Some v) m = delete v m) by (unfold without; by rewrite decide_True).
  set (m1 := <[i := new_row r1 ""]> (delete v m)).
  assert (W2 : without r2 (Some v) m1 = m1).
  { unfold without. rewrite decide_False; [done|]. unfold m1. simpl.
    rewrite lookup_insert_ne, lookup_delete_eq by done. congruence. }
  pose proof (writer_finishes t u i m db v Ht Hu L Fi O) as F1. fold m r1 in F1. rewrite W1 in F1. fold m1 in F1.
  assert (Fj1 : message_queue (with_queue m1 db) !! j = None).
  { simpl. unfold m1. rewrite lookup_insert_ne by (intros E; by destruct Fj). apply lookup_delete_None. right. apply Fj. }
  pose proof (writer_finishes t u j m (with_queue m1 db) v Ht Hu L Fj1 O) as F2. fold r2 in F2.
  change (message_queue (with_queue m1 db)) with m1 in F2. rewrite W2 in F2.
  assert (O2 : overtaken r2 (with_queue m1 db) = true).
  { unfold overtaken. apply bool_decide_eq_true. intros N. apply lookup_weaken with (i := i) (x := new_row r1 "") in N.
    - apply queue_of_lookup in N as [N _]. simpl in N. congruence.
    - apply queue_of_lookup. split; [apply lookup_insert_eq|done]. }
  eexists. split; [by apply (overlapping_pair r1 r2 db _ _ eq_refl eq_refl eq_refl eq_refl F1 F2)|].
  split; [done|]. cbn [tables message_queue with_queue].
  rewrite size_after_insert by done. unfold m1. rewrite size_after_insert by (apply lookup_delete_None; by right).
  rewrite !decide_True by done. unfold queue_of. rewrite map_filter_delete, map_size_delete_Some.
  - fold (queue_of t u m). lia.
  - exists row. by apply queue_of_lookup.
Qed.

(** The bound is reached: with never more than two statements at a time a full
    queue grows by a row with each overlap, without end. *)
Theorem overlaps_add_up t u n s :
  varchar_ok t = true -> varchar_ok u = true -> in_flight s = [] ->
  (Nat.max 1 cap <= size (queue_of t u (message_queue (tables s))))%nat ->
  exists s', run jsonb cap 2 s n s' /\ in_flight s' = [] /\
    size (queue_of t u (message_queue (tables s'))) = (size (queue_of t u (message_queue (tables s))) + n)%nat.
Proof.
  intros Ht Hu. revert s. induction n as [|n IH]; intros s E L.
  - exists s. split_and!; [constructor|done|lia].
  - destruct (overlap_round t u s Ht Hu E L) as (s1 & R1 & E1 & S1).
    destruct (IH s1 E1) as (s2 & R2 & E2 & S2); [lia|].
    exists s2. split_and!; [by apply (overlap_runs_app 2 s 1 s1 n s2)|done|lia].
Qed.
End overlap.

(** ** A queue of one *)

Definition one_row : gmap uuid QueueRow :=
  {[ 7%N := {| qr_tenant := "default"; qr_user := "u"; qr_event_data := ""; qr_queued_at := 0; qr_attempts := 0;
               qr_expires_at := 0 |} ]}.
Definition full_state : State := {| tables := with_queue one_row empty_database; in_flight := [] |}.

Lemma overlaps_add_up_witness :
  exists s', run Store.any_json 1 2 full_state 5 s' /\ in_flight s' = [] /\
    size (queue_of "default" "u" (message_queue (tables s'))) = 6%nat.
Proof. apply (overlaps_add_up Store.any_json 1 "default" "u" 5 full_state); vm_compute; auto. Defined.

Lemma full_state_bounded : bounded 1 (tables full_state).
Proof.
  intros t u. etrans; [by apply map_subseteq_size, queue_of_sub|]. vm_compute. lia.
Qed.

Lemma overlap_bounded_witness :
  exists s', run Store.any_json 1 2 full_state 5 s' /\
    (size (queue_of "default" "u" (message_queue (tables s'))) <= 1 + 5)%nat.
Proof.
  destruct overlaps_add_up_witness as (s' & R & _). exists s'. split; [exact R|].
  exact (overlap_bounded Store.any_json 1 2 full_state 5 s' R eq_refl full_state_bounded "default" "u").
Defined.
