(* ===== verification/Notification.v ===== *)
(** * Notification: events, targets, builder and wire messages

    Models [domain/notification/types.rs] and the message types of
    [domain/realtime/websocket/message.rs].  JSON text is produced by
    [serde_json], outside the repository: its printer is a parameter of the
    operations that use it. *)
From S2P Require Import Prelude.

(** ** JSON values

    [serde_json::Value]; a number is kept as the text it prints to.  An
    object is a [BTreeMap] (the [preserve_order] feature is off), so its
    fields are listed by increasing key. *)
Inductive json :=
| JNull
| JBool (b : bool)
| JNumber (text : string)
| JString (s : string)
| JArray (l : list json)
| JObject (fields : list (string * json)).

#[export] Instance json_eq_dec : EqDecision json.
Proof.
  refine (fix go x y := let _ : EqDecision json := @go in
    match x, y return Decision (x = y) with
    | JNull, JNull => left eq_refl
    | JBool a, JBool b => cast_if (decide (a = b))
    | JNumber a, JNumber b => cast_if (decide (a = b))
    | JString a, JString b => cast_if (decide (a = b))
    | JArray a, JArray b => cast_if (decide (a = b))
    | JObject a, JObject b => cast_if (decide (a = b))
    | _, _ => right _
    end); abstract congruence.
Defined.

(** ** Events *)

Inductive Priority := Low | Normal | High | Critical.
#[export] Instance Priority_eq_dec : EqDecision Priority.
Proof. solve_decision. Defined.

Definition Priority_default : Priority := Normal.

Inductive Audience :=
| AudAll
| AudRoles (r : list string)
| AudUsers (u : list string)
| AudChannels (c : list string).

Inductive NotificationTarget :=
| User (id : string)
| Users (ids : list string)
| Broadcast
| Channel (name : string)
| Channels (names : list string).

Record NotificationMetadata := {
  source : string;
  priority : Priority;
  ttl : option Z;
  audience : option Audience;
  correlation_id : option string;
}.

Record NotificationEvent := {
  id : uuid;
  occurred_at : Z;
  event_type : string;
  payload : json;
  metadata : NotificationMetadata;
}.

#[export] Instance Audience_eq_dec : EqDecision Audience.
Proof. solve_decision. Defined.
#[export] Instance NotificationMetadata_eq_dec : EqDecision NotificationMetadata.
Proof. solve_decision. Defined.
#[export] Instance NotificationEvent_eq_dec : EqDecision NotificationEvent.
Proof. solve_decision. Defined.

(** ** Builder *)

Record NotificationBuilder := {
  b_event_type : string;
  b_payload : json;
  b_source : string;
  b_priority : Priority;
  b_ttl : option Z;
  b_audience : option Audience;
  b_correlation_id : option string;
}.

Definition builder_new (event_type source : string) : NotificationBuilder :=
  {| b_event_type := event_type; b_payload := JNull; b_source := source;
     b_priority := Priority_default; b_ttl := None; b_audience := None; b_correlation_id := None |}.

Definition with_payload (b : NotificationBuilder) (p : json) : NotificationBuilder :=
  {| b_event_type := b_event_type b; b_payload := p; b_source := b_source b;
     b_priority := b_priority b; b_ttl := b_ttl b; b_audience := b_audience b;
     b_correlation_id := b_correlation_id b |}.

Definition with_priority (b : NotificationBuilder) (p : Priority) : NotificationBuilder :=
  {| b_event_type := b_event_type b; b_payload := b_payload b; b_source := b_source b;
     b_priority := p; b_ttl := b_ttl b; b_audience := b_audience b;
     b_correlation_id := b_correlation_id b |}.

Definition with_ttl (b : NotificationBuilder) (t : Z) : NotificationBuilder :=
  {| b_event_type := b_event_type b; b_payload := b_payload b; b_source := b_source b;
     b_priority := b_priority b; b_ttl := Some t; b_audience := b_audience b;
     b_correlation_id := b_correlation_id b |}.

Definition with_audience (b : NotificationBuilder) (a : Audience) : NotificationBuilder :=
  {| b_event_type := b_event_type b; b_payload := b_payload b; b_source := b_source b;
     b_priority := b_priority b; b_ttl := b_ttl b; b_audience := Some a;
     b_correlation_id := b_correlation_id b |}.

Definition with_correlation_id (b : NotificationBuilder) (c : string) : NotificationBuilder :=
  {| b_event_type := b_event_type b; b_payload := b_payload b; b_source := b_source b;
     b_priority := b_priority b; b_ttl := b_ttl b; b_audience := b_audience b;
     b_correlation_id := Some c |}.

(** [payload_from]: the conversion of the caller's value is [serde_json]'s. *)
Definition payload_from {T E} (to_value : T -> result E json) (b : NotificationBuilder) (v : T)
  : result E NotificationBuilder :=
  p <-? to_value v ;; Ok (with_payload b p).

Definition build (b : NotificationBuilder) (fresh : uuid) (now : Z) : NotificationEvent :=
  {| id := fresh; occurred_at := now; event_type := b_event_type b; payload := b_payload b;
     metadata := {| source := b_source b; priority := b_priority b; ttl := b_ttl b;
                    audience := b_audience b; correlation_id := b_correlation_id b |} |}.

Definition event_new (event_type : string) (payload : json) (source : string) (fresh : uuid) (now : Z)
  : NotificationEvent :=
  build (with_payload (builder_new event_type source) payload) fresh now.

Definition event_builder (event_type source : string) : NotificationBuilder :=
  builder_new event_type source.

Definition metadata_new (source : string) : NotificationMetadata :=
  {| source := source; priority := Priority_default; ttl := None; audience := None;
     correlation_id := None |}.

(** ** Queries *)

Definition is_expired (e : NotificationEvent) (now : Z) : bool :=
  match ttl (metadata e) with
  | Some t => occurred_at e + seconds t <? now
  | None => false
  end.

Definition should_deliver_to_roles (e : NotificationEvent) (user_roles : list string) : bool :=
  match audience (metadata e) with
  | None => true
  | Some AudAll => true
  | Some (AudRoles required) =>
    existsb (fun r => existsb (fun u => bool_decide (u = r)) user_roles) required
  | Some (AudUsers _) => true
  | Some (AudChannels _) => true
  end.

Definition as_weight (p : Priority) : Z :=
  match p with Low => 1 | Normal => 2 | High => 3 | Critical => 4 end.

Definition priority_cmp (p q : Priority) : comparison := as_weight p ?= as_weight q.
Definition priority_partial_cmp (p q : Priority) : option comparison := Some (priority_cmp p q).

(** ** Wire messages *)

Inductive ClientMessage :=
| Subscribe (channels : list string)
| Unsubscribe (channels : list string)
| Ping
| Ack (notification_id : uuid).

Inductive ServerMessage :=
| Notification (event : NotificationEvent)
| Subscribed (channels : list string)
| Unsubscribed (channels : list string)
| Pong
| Heartbeat
| Acked (notification_id : uuid)
| Error (code message : string)
| Shutdown (reason : string) (reconnect_after_seconds : option Z).

Inductive OutboundMessage :=
| Raw (m : ServerMessage)
| Serialized (text : string).

Section wire.
Context {E : Type} (to_string : ServerMessage -> result E string).

Definition preserialized (m : ServerMessage) : result E OutboundMessage :=
  text <-? to_string m ;; Ok (Serialized text).

Definition to_json (o : OutboundMessage) : result E string :=
  match o with
  | Raw m => to_string m
  | Serialized text => Ok text
  end.

(** Pre-serialising a message does not change what a client receives:
    the text of the shared message is the text of the message itself, and
    the two fail together. *)
Theorem preserialized_same_text m :
  match preserialized m with
  | Ok o => to_json o = to_json (Raw m)
  | Err e => to_json (Raw m) = Err e
  end.
Proof. unfold preserialized. simpl. by destruct (to_string m). Qed.
End wire.

(** ** Properties *)

(** The order on priorities is the total order Low < Normal < High <
    Critical, and agrees with equality. *)
Theorem priority_order p q :
  (priority_cmp p q = Eq <-> p = q) /\
  priority_cmp q p = CompOpp (priority_cmp p q) /\
  (priority_cmp p q = Lt <-> as_weight p < as_weight q) /\
  priority_partial_cmp p q = Some (priority_cmp p q).
Proof.
  unfold priority_cmp, priority_partial_cmp. split; [|split; [|split]]; [..|done].
  - rewrite Z.compare_eq_iff. destruct p, q; simpl; split; intros; try done; lia.
  - apply Z.compare_antisym.
  - by rewrite Z.compare_lt_iff.
Qed.

(** An event expires strictly after its time to live, once expired it
    stays expired, and an event without a time to live never expires. *)
Theorem is_expired_spec e now :
  (ttl (metadata e) = None -> is_expired e now = false) /\
  (forall t, ttl (metadata e) = Some t -> is_expired e now = true <-> occurred_at e + seconds t < now) /\
  (forall later, now <= later -> is_expired e now = true -> is_expired e later = true).
Proof.
  unfold is_expired. split; [by intros ->|]. split.
  - intros t ->. apply Z.ltb_lt.
  - intros later Hl. destruct (ttl (metadata e)); [|done]. rewrite !Z.ltb_lt. lia.
Qed.

Lemma is_expired_spec_witness :
  is_expired (build (with_ttl (builder_new "a" "b") 60) 1%N 0) (seconds 61) = true.
Proof.
  apply (proj1 (proj2 (is_expired_spec (build (with_ttl (builder_new "a" "b") 60) 1%N 0) (seconds 61))) 60);
    vm_compute; reflexivity.
Defined.

(** Role filtering: only a role audience restricts anything, and it asks
    for one shared role. *)
Theorem should_deliver_to_roles_spec e rs :
  should_deliver_to_roles e rs = true <->
  forall required, audience (metadata e) = Some (AudRoles required) ->
    exists r, r ∈ required /\ r ∈ rs.
Proof.
  unfold should_deliver_to_roles.
  destruct (audience (metadata e)) as [[|required| |]|]; try (split; [intros _ ? [=]|done]).
  rewrite existsb_exists. split.
  - intros (r & Hr & H) ? [= <-]. apply existsb_exists in H as (u & Hu & Heq). bool_to_prop. subst.
    exists r. by rewrite !list_elem_of_In.
  - intros H. destruct (H required eq_refl) as (r & Hr & Hrs). exists r.
    rewrite !list_elem_of_In in *. split; [done|]. apply existsb_exists. exists r. split; [done|].
    by apply bool_decide_true.
Qed.
