(* ===== verification/Connection.v ===== *)
(** * Connection: handles, indices and the connection manager

    Models [domain/connection/]: types.rs, stats.rs and manager.rs.  The
    manager keeps four concurrent maps; here each is a finite map and an
    operation is the sequence of its accesses, run without interruption.
    [Module Races] splits two of them where the code releases a lock, and
    [Interleaving] runs any number of them at once, access by access.

    A handle's [sender] end of the connection's message channel is named by
    the connection id; sending is modelled by the dispatcher. *)
From S2P Require Import Prelude Tenant.

(** ** Handles *)

Record ConnectionHandle := {
  conn_id : uuid;
  user_id : string;
  tenant_id : string;
  roles : list string;
  connected_at : Z;
  last_activity : Z;
  subscriptions : gset string;
}.

Definition handle_new (user_id tenant_id : string) (roles : list string) (fresh : uuid) (now : Z)
  : ConnectionHandle :=
  {| conn_id := fresh; user_id := user_id; tenant_id := tenant_id; roles := roles;
     connected_at := now; last_activity := timestamp now; subscriptions := ∅ |}.

Definition set_last_activity (t : Z) (h : ConnectionHandle) : ConnectionHandle :=
  {| conn_id := conn_id h; user_id := user_id h; tenant_id := tenant_id h; roles := roles h;
     connected_at := connected_at h; last_activity := t; subscriptions := subscriptions h |}.

Definition set_subscriptions (f : gset string -> gset string) (h : ConnectionHandle) : ConnectionHandle :=
  {| conn_id := conn_id h; user_id := user_id h; tenant_id := tenant_id h; roles := roles h;
     connected_at := connected_at h; last_activity := last_activity h;
     subscriptions := f (subscriptions h) |}.

Definition update_activity (now : Z) (h : ConnectionHandle) : ConnectionHandle :=
  set_last_activity (timestamp now) h.

(** The time [last_activity] answers: the start of the stored second. *)
Definition last_activity_time (h : ConnectionHandle) : Z := seconds (last_activity h).

Definition has_role (h : ConnectionHandle) (role : string) : bool :=
  existsb (fun r => bool_decide (r = role)) (roles h).

Definition subscription_count (h : ConnectionHandle) : nat := size (subscriptions h).

(** ** Errors and statistics *)

Inductive ConnectionError :=
| TotalLimitExceeded (current max : nat)
| UserLimitExceeded (user_id : string) (current max : nat).

Definition error_display (e : ConnectionError) : string :=
  match e with
  | TotalLimitExceeded c m =>
    "Total connection limit exceeded (" +:+ pretty c +:+ "/" +:+ pretty m +:+ ")"
  | UserLimitExceeded u c m =>
    "User " +:+ u +:+ " connection limit exceeded (" +:+ pretty c +:+ "/" +:+ pretty m +:+ ")"
  end.

Record ConnectionStats := {
  stat_total_connections : nat; stat_unique_users : nat; stat_channels : gmap string nat;
}.
Record TenantConnectionStats := {
  ts_tenant_id : string; ts_total_connections : nat; ts_unique_users : nat;
}.
Record ChannelInfo := { ch_name : string; ch_subscriber_count : nat }.
Record UserSubscriptionInfo := {
  us_user_id : string; us_connection_count : nat; us_subscriptions : list string;
}.

(** ** Secondary indices: name -> set of connection ids *)

Abbreviation index := (gmap string (gset uuid)).

(** [entry(k).or_default().insert(i)] *)
Definition idx_insert (k : string) (i : uuid) (ix : index) : index :=
  <[k := {[i]} ∪ default ∅ (ix !! k)]> ix.

(** [remove(i)] from the set of [k], dropping the key when the set empties. *)
Definition idx_remove (k : string) (i : uuid) (ix : index) : index :=
  match ix !! k with
  | Some s => let s' := s ∖ {[i]} in if decide (s' = ∅) then delete k ix else <[k := s']> ix
  | None => ix
  end.

Definition idx_get (ix : index) (k : string) : gset uuid := default ∅ (ix !! k).

(** No key is kept with an empty set. *)
Definition idx_compact (ix : index) : Prop := forall k, ix !! k <> Some ∅.

Lemma idx_get_insert k i ix k' :
  idx_get (idx_insert k i ix) k' = if decide (k = k') then {[i]} ∪ idx_get ix k' else idx_get ix k'.
Proof.
  unfold idx_get, idx_insert. case_decide; subst; [by rewrite lookup_insert_eq|by rewrite lookup_insert_ne].
Qed.

Lemma idx_get_remove k i ix k' :
  idx_get (idx_remove k i ix) k' = if decide (k = k') then idx_get ix k' ∖ {[i]} else idx_get ix k'.
Proof.
  unfold idx_get, idx_remove. destruct (ix !! k) as [s|] eqn:E.
  - case_decide as D; case_decide; subst; rewrite ?lookup_delete_eq, ?lookup_insert_eq,
      ?lookup_delete_ne, ?lookup_insert_ne by done; rewrite ?E; simpl; set_solver.
  - case_decide; subst; rewrite ?E; simpl; set_solver.
Qed.

Lemma idx_compact_insert k i ix : idx_compact ix -> idx_compact (idx_insert k i ix).
Proof.
  intros H k'. unfold idx_insert. destruct (decide (k = k')) as [->|].
  - rewrite lookup_insert_eq. intros [= E]. set_solver.
  - rewrite lookup_insert_ne by done. apply H.
Qed.

Lemma idx_compact_remove k i ix : idx_compact ix -> idx_compact (idx_remove k i ix).
Proof.
  intros H k'. unfold idx_remove. destruct (ix !! k) as [s|] eqn:E; [|apply H]. simpl.
  case_decide; destruct (decide (k = k')) as [->|];
    rewrite ?lookup_delete_eq, ?lookup_insert_eq, ?lookup_delete_ne, ?lookup_insert_ne by done;
    try apply H; congruence.
Qed.

(** Removing one id from several names, as [unregister] does. *)
Definition idx_remove_all (ks : list string) (i : uuid) (ix : index) : index :=
  foldr (fun k acc => idx_remove k i acc) ix ks.

Lemma idx_get_remove_all ks i ix k :
  idx_get (idx_remove_all ks i ix) k = if decide (k ∈ ks) then idx_get ix k ∖ {[i]} else idx_get ix k.
Proof.
  induction ks as [|k0 ks IH]; simpl; [done|]. rewrite idx_get_remove, IH.
  repeat case_decide; subst; set_solver.
Qed.

Lemma idx_compact_remove_all ks i ix : idx_compact ix -> idx_compact (idx_remove_all ks i ix).
Proof. intros. induction ks; simpl; [done|]. by apply idx_compact_remove. Qed.
#[export] Hint Resolve idx_compact_insert idx_compact_remove idx_compact_remove_all : ara.

(** ** The manager *)

Record ConnectionManager := mk {
  connections : gmap uuid ConnectionHandle;
  user_index : gmap string (list uuid);
  channel_index : index;
  tenant_index : index;
  limits : ConnectionLimits;
}.

Definition with_limits (l : ConnectionLimits) : ConnectionManager := mk ∅ ∅ ∅ ∅ l.
Definition manager_new : ConnectionManager := with_limits ConnectionLimits_default.

(** [user_index.get(u).map(|c| c.len()).unwrap_or(0)] *)
Definition user_conn_count (m : ConnectionManager) (u : string) : nat :=
  match user_index m !! u with Some ids => length ids | None => 0 end.

(** The two limit checks of [register_with_limits]. *)
Definition check_limits (m : ConnectionManager) (u : string) (l : ConnectionLimits)
  : result ConnectionError unit :=
  if (0 <? max_connections l)%nat && (max_connections l <=? size (connections m))%nat
  then Err (TotalLimitExceeded (size (connections m)) (max_connections l))
  else if (0 <? max_connections_per_user l)%nat &&
          (max_connections_per_user l <=? user_conn_count m u)%nat
  then Err (UserLimitExceeded u (user_conn_count m u) (max_connections_per_user l))
  else Ok tt.

(** The three insertions that follow. *)
Definition insert_handle (m : ConnectionManager) (h : ConnectionHandle) : ConnectionManager :=
  mk (<[conn_id h := h]> (connections m))
     (<[user_id h := default [] (user_index m !! user_id h) ++ [conn_id h]]> (user_index m))
     (channel_index m)
     (idx_insert (tenant_id h) (conn_id h) (tenant_index m))
     (limits m).

Definition register_with_limits (m : ConnectionManager) (u t : string) (rs : list string)
  (l : ConnectionLimits) (fresh : uuid) (now : Z)
  : result ConnectionError ConnectionHandle * ConnectionManager :=
  match check_limits m u l with
  | Err e => (Err e, m)
  | Ok _ => let h := handle_new u t rs fresh now in (Ok h, insert_handle m h)
  end.

Definition register (m : ConnectionManager) (u t : string) (rs : list string) (fresh : uuid) (now : Z)
  : result ConnectionError ConnectionHandle * ConnectionManager :=
  register_with_limits m u t rs (limits m) fresh now.

(** [retain(|id| id != i)] on the user's ids, then drop an empty entry. *)
Definition user_index_remove (u : string) (i : uuid) (ix : gmap string (list uuid))
  : gmap string (list uuid) :=
  match ix !! u with
  | Some ids => let ids' := filter (fun j => j <> i) ids in
                if decide (ids' = []) then delete u ix else <[u := ids']> ix
  | None => ix
  end.

Definition unregister (m : ConnectionManager) (i : uuid) : ConnectionManager :=
  match connections m !! i with
  | None => m
  | Some h =>
    mk (delete i (connections m))
       (user_index_remove (user_id h) i (user_index m))
       (idx_remove_all (elements (subscriptions h)) i (channel_index m))
       (idx_remove (tenant_id h) i (tenant_index m))
       (limits m)
  end.

Definition subscribe_to_channel (m : ConnectionManager) (i : uuid) (channel : string)
  : result string unit * ConnectionManager :=
  match connections m !! i with
  | None => (Err "Connection not found", m)
  | Some h =>
    let max := max_subscriptions_per_connection (limits m) in
    if (0 <? max)%nat && (max <=? subscription_count h)%nat then
      (Err ("Subscription limit exceeded (" +:+ pretty (subscription_count h) +:+ "/" +:+
            pretty max +:+ ")"), m)
    else
      (Ok tt,
       mk (<[i := set_subscriptions (fun s => {[channel]} ∪ s) h]> (connections m))
          (user_index m) (idx_insert channel i (channel_index m)) (tenant_index m) (limits m))
  end.

Definition unsubscribe_from_channel (m : ConnectionManager) (i : uuid) (channel : string)
  : ConnectionManager :=
  match connections m !! i with
  | None => m
  | Some h =>
    mk (<[i := set_subscriptions (fun s => s ∖ {[channel]}) h]> (connections m))
       (user_index m) (idx_remove channel i (channel_index m)) (tenant_index m) (limits m)
  end.

(** Activity is kept in the shared handle. *)
Definition touch (m : ConnectionManager) (i : uuid) (now : Z) : ConnectionManager :=
  match connections m !! i with
  | None => m
  | Some h => mk (<[i := update_activity now h]> (connections m)) (user_index m) (channel_index m)
                 (tenant_index m) (limits m)
  end.

(** *** Queries.  Iteration order of a map or a set is that of the model. *)

Definition lookup_ids (m : ConnectionManager) (ids : list uuid) : list ConnectionHandle :=
  omap (fun i => connections m !! i) ids.

Definition get_user_connections (m : ConnectionManager) (u : string) : list ConnectionHandle :=
  match user_index m !! u with Some ids => lookup_ids m ids | None => [] end.

Definition get_channel_connections (m : ConnectionManager) (c : string) : list ConnectionHandle :=
  match channel_index m !! c with Some ids => lookup_ids m (elements ids) | None => [] end.

Definition get_all_connections (m : ConnectionManager) : list ConnectionHandle :=
  (map_to_list (connections m)).*2.

Definition get_connection (m : ConnectionManager) (i : uuid) : option ConnectionHandle :=
  connections m !! i.

Definition stats (m : ConnectionManager) : ConnectionStats :=
  {| stat_total_connections := size (connections m); stat_unique_users := size (user_index m);
     stat_channels := (fun s : gset uuid => size s) <$> channel_index m |}.

Definition total_subscriptions (m : ConnectionManager) : nat :=
  sum_list ((fun kv => size kv.2) <$> map_to_list (channel_index m)).

Definition is_stale (now timeout_secs : Z) (h : ConnectionHandle) : bool :=
  seconds (i64 timeout_secs) <? now - last_activity_time h.

Definition find_stale_connections (m : ConnectionManager) (now timeout_secs : Z) : list uuid :=
  map fst (List.filter (fun kv => is_stale now timeout_secs kv.2) (map_to_list (connections m))).

Definition cleanup_stale_connections (m : ConnectionManager) (now timeout_secs : Z)
  : nat * ConnectionManager :=
  let stale := find_stale_connections m now timeout_secs in
  (length stale, fold_left unregister stale m).

Definition get_all_connection_ids (m : ConnectionManager) : list uuid :=
  (map_to_list (connections m)).*1.

Definition list_channels (m : ConnectionManager) : list ChannelInfo :=
  map (fun kv : string * gset uuid => {| ch_name := kv.1; ch_subscriber_count := size kv.2 |})
      (map_to_list (channel_index m)).

Definition get_channel_info (m : ConnectionManager) (c : string) : option ChannelInfo :=
  match channel_index m !! c with
  | Some s => Some {| ch_name := c; ch_subscriber_count := size s |}
  | None => None
  end.

Definition channel_exists (m : ConnectionManager) (c : string) : bool :=
  match channel_index m !! c with Some _ => true | None => false end.

Definition get_user_subscriptions (m : ConnectionManager) (u : string) : option UserSubscriptionInfo :=
  match get_user_connections m u with
  | [] => None
  | conns =>
    let all := foldl (fun acc h => acc ∪ subscriptions h) (∅ : gset string) conns in
    Some {| us_user_id := u; us_connection_count := length conns; us_subscriptions := elements all |}
  end.

Definition get_tenant_connections (m : ConnectionManager) (t : string) : list ConnectionHandle :=
  match tenant_index m !! t with Some ids => lookup_ids m (elements ids) | None => [] end.

Definition tenant_stats (m : ConnectionManager) (t : string) : TenantConnectionStats :=
  let conns := get_tenant_connections m t in
  {| ts_tenant_id := t; ts_total_connections := length conns;
     ts_unique_users := size (list_to_set (user_id <$> conns) : gset string) |}.

Definition tenant_connection_count (m : ConnectionManager) (t : string) : nat :=
  match tenant_index m !! t with Some s => size s | None => 0 end.

Definition list_tenants (m : ConnectionManager) : list string := (map_to_list (tenant_index m)).*1.

Definition list_tenant_channels (m : ConnectionManager) (t : string) : list ChannelInfo :=
  let tenant_connections := idx_get (tenant_index m) t in
  if decide (tenant_connections = ∅) then []
  else omap (fun kv : string * gset uuid =>
          let count := size (kv.2 ∩ tenant_connections) in
          if (0 <? count)%nat then Some {| ch_name := kv.1; ch_subscriber_count := count |} else None)
        (map_to_list (channel_index m)).

(** ** Consistency of the four maps *)

(** Connection [i] is registered and its handle satisfies [P]. *)
Definition some_conn (m : ConnectionManager) (i : uuid) (P : ConnectionHandle -> Prop) : Prop :=
  exists h, connections m !! i = Some h /\ P h.

Record wf (m : ConnectionManager) : Prop := {
  wf_ids : forall i h, connections m !! i = Some h -> conn_id h = i;
  wf_user : forall u i, i ∈ default [] (user_index m !! u) <-> some_conn m i (fun h => user_id h = u);
  wf_user_ids : forall u ids, user_index m !! u = Some ids -> NoDup ids /\ ids <> [];
  wf_tenant : forall t i, i ∈ idx_get (tenant_index m) t <-> some_conn m i (fun h => tenant_id h = t);
  wf_channel : forall c i, i ∈ idx_get (channel_index m) c <-> some_conn m i (fun h => c ∈ subscriptions h);
  wf_tenant_compact : idx_compact (tenant_index m);
  wf_channel_compact : idx_compact (channel_index m);
}.

Lemma some_conn_insert us cs ts l conns i h j P :
  some_conn (mk (<[i := h]> conns) us cs ts l) j P <->
  (i = j /\ P h) \/ (i <> j /\ exists h', conns !! j = Some h' /\ P h').
Proof.
  unfold some_conn; simpl. setoid_rewrite lookup_insert_Some.
  destruct (decide (i = j)); naive_solver.
Qed.

Lemma some_conn_delete us cs ts l conns i j P :
  some_conn (mk (delete i conns) us cs ts l) j P <->
  i <> j /\ exists h', conns !! j = Some h' /\ P h'.
Proof. unfold some_conn; simpl. setoid_rewrite lookup_delete_Some. naive_solver. Qed.

Lemma user_index_remove_lookup u i ix u' :
  default [] (user_index_remove u i ix !! u') =
  if decide (u = u') then filter (fun j => j <> i) (default [] (ix !! u')) else default [] (ix !! u').
Proof.
  unfold user_index_remove. destruct (ix !! u) as [ids|] eqn:E.
  - case_decide as D; case_decide; subst; rewrite ?lookup_delete_eq, ?lookup_insert_eq,
      ?lookup_delete_ne, ?lookup_insert_ne by done; rewrite ?E; simpl; done.
  - case_decide; subst; rewrite ?E; done.
Qed.

Lemma user_index_remove_ids u i ix :
  (forall u' ids, ix !! u' = Some ids -> NoDup ids /\ ids <> []) ->
  forall u' ids, user_index_remove u i ix !! u' = Some ids -> NoDup ids /\ ids <> [].
Proof.
  intros H u' ids. unfold user_index_remove. destruct (ix !! u) as [l|] eqn:E; [|apply H].
  case_decide as D; destruct (decide (u = u')) as [->|];
    rewrite ?lookup_delete_eq, ?lookup_insert_eq, ?lookup_delete_ne, ?lookup_insert_ne by done;
    try apply H; [done|].
  intros [= <-]. split; [|done]. apply NoDup_filter. by eapply H.
Qed.

Lemma wf_empty l : wf (with_limits l).
Proof.
  split; unfold idx_compact, some_conn, idx_get; simpl; intros; rewrite ?lookup_empty in *; simpl; set_solver.
Qed.

Lemma wf_insert_handle m h :
  wf m -> connections m !! conn_id h = None -> subscriptions h = ∅ -> wf (insert_handle m h).
Proof.
  intros W Hf Hs. unfold insert_handle. split; simpl.
  - intros i h' [[<- <-]|[_ ?]]%lookup_insert_Some; [done|by apply (wf_ids _ W)].
  - intros u i. rewrite some_conn_insert.
    pose proof (wf_user _ W) as HW. unfold some_conn in HW. rewrite <- HW.
    destruct (decide (user_id h = u)) as [<-|Hu].
    + rewrite lookup_insert_eq; simpl. rewrite elem_of_app, list_elem_of_singleton.
      pose proof (proj1 (HW (user_id h) (conn_id h))). naive_solver congruence.
    + rewrite lookup_insert_ne by done. pose proof (proj1 (HW u (conn_id h))). naive_solver congruence.
  - intros u ids. destruct (decide (user_id h = u)) as [<-|Hu].
    + rewrite lookup_insert_eq. intros [= <-]. split; [|by destruct (default _ _)].
      apply NoDup_app. split; [|split; [|apply NoDup_singleton]].
      * destruct (user_index m !! user_id h) eqn:E; simpl; [by eapply wf_user_ids|constructor].
      * intros x Hx ->%list_elem_of_singleton. apply (wf_user _ W) in Hx as (?&?&?). congruence.
    + rewrite lookup_insert_ne by done. by apply (wf_user_ids _ W).
  - intros t i. rewrite some_conn_insert, idx_get_insert.
    pose proof (wf_tenant _ W) as HW. unfold some_conn in HW. rewrite <- HW.
    pose proof (proj1 (HW t (conn_id h))). case_decide; set_solver.
  - intros c i. rewrite some_conn_insert.
    pose proof (wf_channel _ W) as HW. unfold some_conn in HW. rewrite <- HW.
    pose proof (proj1 (HW c (conn_id h))). set_solver.
  - apply idx_compact_insert, (wf_tenant_compact _ W).
  - apply (wf_channel_compact _ W).
Qed.

Lemma wf_unregister m i : wf m -> wf (unregister m i).
Proof.
  intros W. unfold unregister. destruct (connections m !! i) as [h|] eqn:E; [|done].
  split; simpl.
  - intros j h' [_ ?]%lookup_delete_Some. by apply (wf_ids _ W).
  - intros u j. rewrite some_conn_delete, user_index_remove_lookup.
    pose proof (wf_user _ W) as HW. unfold some_conn in HW. rewrite <- HW.
    pose proof (proj1 (HW u i)). case_decide; rewrite ?list_elem_of_filter; naive_solver congruence.
  - apply user_index_remove_ids, (wf_user_ids _ W).
  - intros t j. rewrite some_conn_delete, idx_get_remove.
    pose proof (wf_tenant _ W) as HW. unfold some_conn in HW. rewrite <- HW.
    pose proof (proj1 (HW t i)). case_decide; set_solver.
  - intros c j. rewrite some_conn_delete, idx_get_remove_all.
    pose proof (wf_channel _ W) as HW. unfold some_conn in HW. rewrite <- HW.
    pose proof (proj1 (HW c i)). case_decide as D; rewrite elem_of_elements in D; set_solver.
  - apply idx_compact_remove, (wf_tenant_compact _ W).
  - apply idx_compact_remove_all, (wf_channel_compact _ W).
Qed.

(** Replacing a handle by one of the same owner. *)
Lemma wf_update m i h h' ci' :
  wf m -> connections m !! i = Some h ->
  conn_id h' = conn_id h -> user_id h' = user_id h -> tenant_id h' = tenant_id h ->
  idx_compact ci' ->
  (forall c, idx_get ci' c =
     if decide (c ∈ subscriptions h') then {[i]} ∪ idx_get (channel_index m) c
     else idx_get (channel_index m) c ∖ {[i]}) ->
  wf (mk (<[i := h']> (connections m)) (user_index m) ci' (tenant_index m) (limits m)).
Proof.
  intros W E Hi Hu Ht Hc Hci. split; simpl.
  - intros j h0 [[<- <-]|[_ ?]]%lookup_insert_Some; [|by apply (wf_ids _ W)].
    rewrite Hi. by apply (wf_ids _ W).
  - intros u j. rewrite some_conn_insert. pose proof (wf_user _ W u j) as HW.
    unfold some_conn in HW. rewrite HW. destruct (decide (i = j)) as [<-|]; naive_solver.
  - apply (wf_user_ids _ W).
  - intros t j. rewrite some_conn_insert. pose proof (wf_tenant _ W t j) as HW.
    unfold some_conn in HW. rewrite HW. destruct (decide (i = j)) as [<-|]; naive_solver.
  - intros c j. rewrite some_conn_insert, Hci. pose proof (wf_channel _ W c j) as HW.
    unfold some_conn in HW. rewrite <- HW. clear Hci W.
    case_decide; rewrite ?elem_of_union, ?elem_of_difference, ?elem_of_singleton;
      destruct (decide (i = j)) as [<-|]; naive_solver.
  - apply (wf_tenant_compact _ W).
  - done.
Qed.

Lemma wf_subscribe m i c : wf m -> wf (subscribe_to_channel m i c).2.
Proof.
  intros W. unfold subscribe_to_channel. destruct (connections m !! i) as [h|] eqn:E; [|done].
  case_match; [done|]. simpl. apply (wf_update _ _ h); try done; simpl.
  - apply idx_compact_insert, (wf_channel_compact _ W).
  - intros c'. rewrite idx_get_insert. pose proof (wf_channel _ W c' i) as HW.
    unfold some_conn in HW. repeat case_decide; set_solver.
Qed.

Lemma wf_unsubscribe m i c : wf m -> wf (unsubscribe_from_channel m i c).
Proof.
  intros W. unfold unsubscribe_from_channel. destruct (connections m !! i) as [h|] eqn:E; [|done].
  apply (wf_update _ _ h); try done; simpl.
  - apply idx_compact_remove, (wf_channel_compact _ W).
  - intros c'. rewrite idx_get_remove. pose proof (wf_channel _ W c' i) as HW.
    unfold some_conn in HW. repeat case_decide; set_solver.
Qed.

Lemma wf_touch m i now : wf m -> wf (touch m i now).
Proof.
  intros W. unfold touch. destruct (connections m !! i) as [h|] eqn:E; [|done].
  apply (wf_update _ _ h); try done; simpl; [apply (wf_channel_compact _ W)|].
  intros c'. pose proof (wf_channel _ W c' i) as HW. unfold some_conn in HW. case_decide; set_solver.
Qed.

Lemma wf_register m u t rs l fresh now :
  wf m -> connections m !! fresh = None -> wf (register_with_limits m u t rs l fresh now).2.
Proof.
  intros W Hf. unfold register_with_limits. destruct (check_limits _ _ _); [|done].
  by apply wf_insert_handle.
Qed.

Lemma wf_cleanup m now timeout : wf m -> wf (cleanup_stale_connections m now timeout).2.
Proof.
  intros W. unfold cleanup_stale_connections. cbn [snd].
  generalize (find_stale_connections m now timeout). intros l. revert m W.
  induction l; simpl; auto using wf_unregister.
Qed.
#[export] Hint Resolve wf_empty wf_register wf_unregister wf_subscribe wf_unsubscribe wf_touch
  wf_cleanup : ara.

(** ** Runs of the manager *)

Inductive step : ConnectionManager -> ConnectionManager -> Prop :=
| step_register m u t rs l fresh now :
    connections m !! fresh = None -> step m (register_with_limits m u t rs l fresh now).2
| step_unregister m i : step m (unregister m i)
| step_subscribe m i c : step m (subscribe_to_channel m i c).2
| step_unsubscribe m i c : step m (unsubscribe_from_channel m i c)
| step_touch m i now : step m (touch m i now)
| step_cleanup m now timeout : step m (cleanup_stale_connections m now timeout).2.

(** C6: The four maps of the connection manager stay consistent on every run
    of its operations from an empty manager: a connection id is listed under
    exactly its handle's user, tenant and subscribed channels, once each, and
    no index keeps an empty entry. *)
Theorem manager_consistent l m : rtc step (with_limits l) m -> wf m.
Proof.
  intros H. assert (W : wf (with_limits l)) by apply wf_empty. revert W.
  induction H as [|m1 m2 m3 S _ IH]; [done|]. intros W. apply IH.
  destruct S; auto with ara.
Qed.

Definition example_limits : ConnectionLimits :=
  {| max_connections := 2; max_connections_per_user := 1; max_subscriptions_per_connection := 1 |}.

Lemma manager_consistent_witness :
  wf (subscribe_to_channel (register (with_limits example_limits) "u" "t" [] 1%N 0).2 1%N "c").2.
Proof.
  apply (manager_consistent example_limits).
  eapply rtc_l; [apply step_register; reflexivity|].
  eapply rtc_l; [apply step_subscribe|apply rtc_refl].
Defined.

(** ** What the queries answer *)

Lemma elem_of_lookup_ids m ids h :
  wf m -> h ∈ lookup_ids m ids <-> conn_id h ∈ ids /\ connections m !! conn_id h = Some h.
Proof.
  intros W. unfold lookup_ids. rewrite list_elem_of_omap. split.
  - intros (i & Hi & E). by rewrite (wf_ids _ W _ _ E).
  - intros [? ?]. by exists (conn_id h).
Qed.

Lemma NoDup_lookup_ids m ids : wf m -> NoDup ids -> NoDup (lookup_ids m ids).
Proof.
  intros W. induction 1 as [|i ids Hi _ IH]; simpl; [constructor|].
  destruct (connections m !! i) as [h|] eqn:E; [|done]. constructor; [|done].
  intros [? _]%elem_of_lookup_ids; [|done]. apply (wf_ids _ W) in E. by subst.
Qed.

Lemma elem_of_user_connections m h u :
  wf m -> h ∈ get_user_connections m u <-> connections m !! conn_id h = Some h /\ user_id h = u.
Proof.
  intros W. pose proof (wf_user _ W u (conn_id h)) as Hu. unfold get_user_connections, some_conn in *.
  destruct (user_index m !! u); simpl in *; rewrite ?elem_of_lookup_ids, ?Hu by done; set_solver.
Qed.

Lemma elem_of_tenant_connections m h t :
  wf m -> h ∈ get_tenant_connections m t <-> connections m !! conn_id h = Some h /\ tenant_id h = t.
Proof.
  intros W. pose proof (wf_tenant _ W t (conn_id h)) as Ht. unfold get_tenant_connections, some_conn, idx_get in *.
  destruct (tenant_index m !! t); simpl in *;
    rewrite ?elem_of_lookup_ids, ?elem_of_elements, ?Ht by done; set_solver.
Qed.

Lemma elem_of_channel_connections m h c :
  wf m -> h ∈ get_channel_connections m c <-> connections m !! conn_id h = Some h /\ c ∈ subscriptions h.
Proof.
  intros W. pose proof (wf_channel _ W c (conn_id h)) as Hc. unfold get_channel_connections, some_conn, idx_get in *.
  destruct (channel_index m !! c); simpl in *;
    rewrite ?elem_of_lookup_ids, ?elem_of_elements, ?Hc by done; set_solver.
Qed.

Lemma elem_of_all_connections m h :
  wf m -> h ∈ get_all_connections m <-> connections m !! conn_id h = Some h.
Proof.
  intros W. unfold get_all_connections. rewrite list_elem_of_fmap. split.
  - intros ([i h'] & -> & E%elem_of_map_to_list). simpl. by rewrite (wf_ids _ W _ _ E).
  - intros E. exists (conn_id h, h). split; [done|]. by apply elem_of_map_to_list.
Qed.

Lemma NoDup_user_connections m u : wf m -> NoDup (get_user_connections m u).
Proof.
  intros W. unfold get_user_connections. destruct (user_index m !! u) eqn:E; [|constructor].
  apply NoDup_lookup_ids; [done|]. by eapply wf_user_ids.
Qed.

Lemma NoDup_tenant_connections m t : wf m -> NoDup (get_tenant_connections m t).
Proof.
  intros W. unfold get_tenant_connections. destruct (tenant_index m !! t); [|constructor].
  apply NoDup_lookup_ids; [done|apply NoDup_elements].
Qed.

Lemma NoDup_channel_connections m c : wf m -> NoDup (get_channel_connections m c).
Proof.
  intros W. unfold get_channel_connections. destruct (channel_index m !! c); [|constructor].
  apply NoDup_lookup_ids; [done|apply NoDup_elements].
Qed.

Lemma NoDup_all_connections m : wf m -> NoDup (get_all_connections m).
Proof.
  intros W. apply (NoDup_fmap_1 conn_id). unfold get_all_connections. rewrite <- list_fmap_compose.
  erewrite list_fmap_ext; [apply (NoDup_fst_map_to_list (connections m))|].
  intros ? [i h] Hin%list_elem_of_lookup_2. simpl. apply (wf_ids _ W). by apply elem_of_map_to_list.
Qed.
#[export] Hint Resolve NoDup_user_connections NoDup_tenant_connections NoDup_channel_connections
  NoDup_all_connections : ara.

(** C12: On a consistent manager the index-driven queries return exactly the
    registered connections of the user, tenant or channel, each once; in
    particular no query misses a connection or returns a stale one. *)
Theorem queries_exact m h k :
  wf m ->
  (h ∈ get_user_connections m k <-> connections m !! conn_id h = Some h /\ user_id h = k) /\
  (h ∈ get_tenant_connections m k <-> connections m !! conn_id h = Some h /\ tenant_id h = k) /\
  (h ∈ get_channel_connections m k <-> connections m !! conn_id h = Some h /\ k ∈ subscriptions h) /\
  NoDup (get_user_connections m k) /\ NoDup (get_tenant_connections m k) /\
  NoDup (get_channel_connections m k).
Proof.
  intros W. rewrite elem_of_user_connections, elem_of_tenant_connections, elem_of_channel_connections by done.
  split_and!; auto with ara.
Qed.

Lemma queries_exact_witness :
  let m := (subscribe_to_channel (register (with_limits example_limits) "u" "t" [] 1%N 0).2 1%N "c").2 in
  exists h, h ∈ get_channel_connections m "c" /\ connections m !! 1%N = Some h.
Proof.
  cbn zeta.
  eexists (set_subscriptions (fun s => {["c"]} ∪ s) (handle_new "u" "t" [] 1%N 0)).
  split; [|vm_compute; reflexivity].
  apply queries_exact; [|split; [vm_compute; reflexivity|apply elem_of_union_l, elem_of_singleton_2; reflexivity]].
  apply wf_subscribe, wf_register; [apply wf_empty|reflexivity].
Defined.

(** ** Limits *)

Definition within (limit n : nat) : Prop := limit = 0%nat \/ (n <= limit)%nat.

Definition within_limits (m : ConnectionManager) : Prop :=
  within (max_connections (limits m)) (size (connections m)) /\
  (forall u, within (max_connections_per_user (limits m)) (user_conn_count m u)) /\
  (forall i h, connections m !! i = Some h ->
     within (max_subscriptions_per_connection (limits m)) (subscription_count h)).

(** Runs whose registrations go through [register], as both transports do. *)
Inductive gstep : ConnectionManager -> ConnectionManager -> Prop :=
| gstep_register m u t rs fresh now :
    connections m !! fresh = None -> gstep m (register m u t rs fresh now).2
| gstep_unregister m i : gstep m (unregister m i)
| gstep_subscribe m i c : gstep m (subscribe_to_channel m i c).2
| gstep_unsubscribe m i c : gstep m (unsubscribe_from_channel m i c)
| gstep_touch m i now : gstep m (touch m i now)
| gstep_cleanup m now timeout : gstep m (cleanup_stale_connections m now timeout).2.

Lemma within_le l n n' : within l n -> (n' <= n)%nat -> within l n'.
Proof. unfold within. lia. Qed.

Lemma user_conn_count_remove u i ix u' :
  (length (default [] (user_index_remove u i ix !! u')) <= length (default [] (ix !! u')))%nat.
Proof.
  rewrite user_index_remove_lookup. case_decide; [|done]. apply length_filter.
Qed.

Lemma user_conn_count_eq m u : user_conn_count m u = length (default [] (user_index m !! u)).
Proof. unfold user_conn_count. by destruct (_ !! _). Qed.

Lemma within_unregister m i : within_limits m -> within_limits (unregister m i).
Proof.
  intros (Hc & Hu & Hs). unfold unregister. destruct (connections m !! i) as [h|] eqn:E; [|done].
  split; [|split]; simpl.
  - eapply within_le; [done|]. rewrite map_size_delete, E. lia.
  - intros u. eapply within_le; [apply Hu|]. rewrite !user_conn_count_eq. apply user_conn_count_remove.
  - intros j h' [_ ?]%lookup_delete_Some. eauto.
Qed.

Lemma within_update m i h h' ci :
  within_limits m -> connections m !! i = Some h ->
  within (max_subscriptions_per_connection (limits m)) (subscription_count h') ->
  within_limits (mk (<[i := h']> (connections m)) (user_index m) ci (tenant_index m) (limits m)).
Proof.
  intros (Hc & Hu & Hs) E Hh. split; [|split]; simpl; [|done|].
  - by rewrite map_size_insert, E.
  - intros j h0 [[_ <-]|[_ ?]]%lookup_insert_Some; eauto.
Qed.

Lemma check_limits_ok m u l r :
  check_limits m u l = Ok r ->
  within (max_connections l) (S (size (connections m))) /\
  within (max_connections_per_user l) (S (user_conn_count m u)).
Proof.
  unfold check_limits, within. repeat case_match; try done; intros _; bool_to_prop;
    split; destruct_or?; bool_to_prop; lia.
Qed.

Lemma within_register m u t rs fresh now :
  within_limits m -> connections m !! fresh = None -> within_limits (register m u t rs fresh now).2.
Proof.
  intros (Hc & Hu & Hs) Hf. unfold register, register_with_limits.
  destruct (check_limits m u (limits m)) eqn:E; [|done]. apply check_limits_ok in E as [E1 E2].
  unfold within_limits, insert_handle; cbn [limits connections conn_id handle_new user_id fst snd].
  split; [|split].
  - by rewrite map_size_insert, Hf.
  - intros u'. specialize (Hu u'). rewrite user_conn_count_eq in *; cbn [user_index].
    destruct (decide (u = u')) as [<-|]; rewrite ?lookup_insert_eq, ?lookup_insert_ne by done; [|done].
    simpl. by rewrite length_app, Nat.add_comm.
  - intros i h [[<- <-]|[_ ?]]%lookup_insert_Some; [|eauto].
    right. unfold subscription_count; cbn [subscriptions handle_new].
    rewrite (size_empty (C := gset string)). lia.
Qed.

Lemma size_insert_le (c : string) (s : gset string) : (size ({[c]} ∪ s) <= S (size s))%nat.
Proof.
  rewrite size_union_alt, size_singleton.
  assert (size (s ∖ {[c]}) <= size s)%nat by (apply subseteq_size; set_solver). lia.
Qed.

Lemma within_subscribe m i c : within_limits m -> within_limits (subscribe_to_channel m i c).2.
Proof.
  intros W. unfold subscribe_to_channel. destruct (connections m !! i) as [h|] eqn:E; [|done].
  case_match eqn:E2; [done|]. eapply within_update; [done..|].
  unfold subscription_count, within in *; cbn [subscriptions set_subscriptions].
  pose proof (size_insert_le c (subscriptions h)). bool_to_prop. destruct_or?; bool_to_prop; lia.
Qed.

Lemma within_unsubscribe m i c : within_limits m -> within_limits (unsubscribe_from_channel m i c).
Proof.
  intros W. unfold unsubscribe_from_channel. destruct (connections m !! i) as [h|] eqn:E; [|done].
  eapply within_update; [done..|]. destruct W as (_ & _ & Hs).
  apply (within_le _ (subscription_count h)); [by eapply Hs|].
  unfold subscription_count. apply subseteq_size. cbn [subscriptions set_subscriptions]. set_solver.
Qed.

Lemma within_touch m i now : within_limits m -> within_limits (touch m i now).
Proof.
  intros W. unfold touch. destruct (connections m !! i) as [h|] eqn:E; [|done].
  eapply within_update; [done..|]. destruct W as (_ & _ & Hs). by apply (Hs i h).
Qed.

Lemma within_cleanup m now timeout :
  within_limits m -> within_limits (cleanup_stale_connections m now timeout).2.
Proof.
  unfold cleanup_stale_connections. cbn [snd].
  generalize (find_stale_connections m now timeout). intros l. revert m.
  induction l; simpl; auto using within_unregister.
Qed.
#[export] Hint Resolve within_register within_unregister within_subscribe within_unsubscribe
  within_touch within_cleanup : ara.

Lemma gstep_within m m' : gstep m m' -> within_limits m -> within_limits m'.
Proof. destruct 1; auto with ara. Qed.

Lemma limits_unregister m i : limits (unregister m i) = limits m.
Proof. unfold unregister. by case_match. Qed.

Lemma limits_fold_unregister l m : limits (fold_left unregister l m) = limits m.
Proof. revert m. induction l as [|i l IH]; simpl; intros m; [done|]. by rewrite IH, limits_unregister. Qed.

Lemma gstep_limits m m' : gstep m m' -> limits m' = limits m.
Proof.
  destruct 1; unfold register, register_with_limits, subscribe_to_channel, unsubscribe_from_channel,
    touch, cleanup_stale_connections; simpl; auto using limits_unregister, limits_fold_unregister;
    by repeat case_match.
Qed.

(** On every sequential run the number of connections, the connections of
    each user and the subscriptions of each connection stay within the
    configured limits (a limit of 0 means none). *)
Theorem limits_respected l m :
  rtc gstep (with_limits l) m ->
  within (max_connections l) (size (connections m)) /\
  (forall u, within (max_connections_per_user l) (user_conn_count m u)) /\
  (forall i h, connections m !! i = Some h ->
     within (max_subscriptions_per_connection l) (subscription_count h)).
Proof.
  intros H. cut (within_limits m /\ limits m = l); [intros [W <-]; exact W|].
  assert (W0 : within_limits (with_limits l)).
  { split; [|split]; unfold within; simpl; [rewrite map_size_empty; lia| |done].
    unfold user_conn_count; simpl. setoid_rewrite lookup_empty. lia. }
  assert (L0 : limits (with_limits l) = l) by done. revert W0 L0.
  induction H as [|m1 m2 m3 S _ IH]; [done|]. intros W E.
  apply IH; [by eapply gstep_within|by rewrite (gstep_limits _ _ S)].
Qed.

Lemma limits_respected_witness :
  within 2 (size (connections (register (with_limits example_limits) "u" "t" [] 1%N 0).2)).
Proof.
  apply (limits_respected example_limits).
  eapply rtc_l; [apply gstep_register; reflexivity|apply rtc_refl].
Defined.

(** ** Functional behaviour *)

Lemma idx_remove_insert k i ix :
  idx_compact ix -> i ∉ idx_get ix k -> idx_remove k i (idx_insert k i ix) = ix.
Proof.
  intros Hc Hi. unfold idx_remove, idx_insert, idx_get in *. rewrite lookup_insert_eq.
  destruct (ix !! k) as [s|] eqn:E; simpl in *.
  - assert (Hs : ({[i]} ∪ s) ∖ {[i]} = s) by set_solver. rewrite Hs.
    case_decide; [subst; by apply Hc in E|]. by rewrite insert_insert_eq, insert_id.
  - case_decide; [|set_solver]. by rewrite delete_insert_id.
Qed.

Lemma filter_notin (i : uuid) (ids : list uuid) : i ∉ ids -> filter (fun j => j <> i) ids = ids.
Proof.
  induction ids as [|a ids IH]; [done|]. intros [? ?]%not_elem_of_cons.
  rewrite filter_cons_True by done. by rewrite IH.
Qed.

Lemma user_index_remove_push u i (ix : gmap string (list uuid)) :
  i ∉ default [] (ix !! u) -> ix !! u <> Some [] ->
  user_index_remove u i (<[u := default [] (ix !! u) ++ [i]]> ix) = ix.
Proof.
  intros Hi Hn. unfold user_index_remove. rewrite lookup_insert_eq.
  rewrite filter_app, filter_cons_False, filter_nil, app_nil_r by naive_solver.
  rewrite filter_notin by done. destruct (ix !! u) as [ids|] eqn:E; simpl.
  - case_decide; [congruence|]. by rewrite insert_insert_eq, insert_id.
  - by rewrite delete_insert_id.
Qed.

(** [register] then [unregister]: a registration is refused with the total
    limit first and the user limit second, and leaves the manager unchanged;
    otherwise the new handle is stored under a fresh id with the caller's
    identity and no subscription, and unregistering it gives back the very
    manager it started from. *)
Theorem register_unregister m u t rs l fresh now :
  wf m -> connections m !! fresh = None ->
  match register_with_limits m u t rs l fresh now with
  | (Ok h, m') => h = handle_new u t rs fresh now /\ connections m' !! fresh = Some h /\
                  unregister m' fresh = m /\
                  within (max_connections l) (S (size (connections m))) /\
                  within (max_connections_per_user l) (S (user_conn_count m u))
  | (Err (TotalLimitExceeded cur mx), m') =>
    m' = m /\ cur = size (connections m) /\ mx = max_connections l /\ (0 < mx <= cur)%nat
  | (Err (UserLimitExceeded u' cur mx), m') =>
    m' = m /\ u' = u /\ cur = user_conn_count m u /\ mx = max_connections_per_user l /\
    (0 < mx <= cur)%nat /\ within (max_connections l) (S (size (connections m)))
  end.
Proof.
  intros W Hf. unfold register_with_limits. destruct (check_limits m u l) as [r|e] eqn:E.
  - apply check_limits_ok in E as [E1 E2]. split; [done|]. split; [apply lookup_insert_eq|].
    split; [|done]. unfold unregister, insert_handle; cbn [connections conn_id handle_new].
    rewrite lookup_insert_eq. cbn [user_index channel_index tenant_index limits user_id tenant_id subscriptions handle_new conn_id].
    rewrite delete_insert_id by done. rewrite (elements_empty (C := gset string)); simpl.
    rewrite user_index_remove_push, idx_remove_insert; [by destruct m|apply (wf_tenant_compact _ W)|..].
    + intros (?&?&?)%(wf_tenant _ W). congruence.
    + intros (?&?&?)%(wf_user _ W). congruence.
    + intros H%(wf_user_ids _ W). by destruct H.
  - unfold check_limits in E. repeat case_match; simplify_eq; bool_to_prop; unfold within;
      destruct_or?; bool_to_prop; split_and!; auto with lia.
Qed.

Lemma register_unregister_witness :
  unregister (register (with_limits example_limits) "u" "t" [] 1%N 0).2 1%N = with_limits example_limits.
Proof. apply (register_unregister (with_limits example_limits) "u" "t" [] example_limits 1%N 0);
  [apply wf_empty|reflexivity]. Defined.

Lemma connections_unregister m i : connections (unregister m i) = delete i (connections m).
Proof.
  unfold unregister. destruct (connections m !! i) eqn:E; [done|]. by rewrite delete_id.
Qed.

Lemma connections_fold_unregister l m i :
  connections (fold_left unregister l m) !! i = if decide (i ∈ l) then None else connections m !! i.
Proof.
  revert m. induction l as [|j l IH]; simpl; intros m; [done|].
  rewrite IH, connections_unregister, lookup_delete. repeat case_decide; set_solver.
Qed.

Lemma elem_of_find_stale m now timeout i :
  i ∈ find_stale_connections m now timeout <->
  exists h, connections m !! i = Some h /\ is_stale now timeout h = true.
Proof.
  unfold find_stale_connections. rewrite list_elem_of_In, in_map_iff. setoid_rewrite filter_In.
  setoid_rewrite <- list_elem_of_In. split.
  - intros ([j h] & <- & Hin & ?). apply elem_of_map_to_list in Hin. eauto.
  - intros (h & ? & ?). exists (i, h). split; [done|]. split; [by apply elem_of_map_to_list|done].
Qed.

Lemma filter_sublist {A} (f : A -> bool) l : sublist (List.filter f l) l.
Proof. induction l as [|a l IH]; simpl; [constructor|]. destruct (f a); by constructor. Qed.

Lemma NoDup_find_stale m now timeout : NoDup (find_stale_connections m now timeout).
Proof.
  unfold find_stale_connections. eapply sublist_NoDup; [apply (NoDup_fst_map_to_list (connections m))|].
  apply (fmap_sublist fst), filter_sublist.
Qed.

Lemma size_fold_unregister l m :
  NoDup l -> (forall i, i ∈ l -> is_Some (connections m !! i)) ->
  (size (connections (fold_left unregister l m)) + length l = size (connections m))%nat.
Proof.
  intros Hn. revert m. induction Hn as [|i l Hi _ IH]; simpl; intros m Hm; [lia|].
  destruct (Hm i) as [h E]; [set_solver|].
  assert (Hd : forall j, j ∈ l -> is_Some (connections (unregister m i) !! j)).
  { intros j Hj. rewrite connections_unregister, lookup_delete_ne; [apply Hm; set_solver|set_solver]. }
  specialize (IH (unregister m i) Hd). rewrite connections_unregister, map_size_delete, E in IH.
  assert (size (connections m) <> 0)%nat by (apply map_size_non_empty_iff; intros D; by rewrite D in E).
  lia.
Qed.

(** [cleanup_stale_connections] unregisters exactly the connections whose
    recorded activity is older than the timeout, keeps every other one as it
    was, and returns how many it removed. *)
Theorem cleanup_stale_connections_spec m now timeout :
  let r := cleanup_stale_connections m now timeout in
  (forall i h, connections r.2 !! i = Some h <->
     connections m !! i = Some h /\ ~ seconds (i64 timeout) < now - last_activity_time h) /\
  (size (connections r.2) + r.1 = size (connections m))%nat.
Proof.
  unfold cleanup_stale_connections; cbn [fst snd]. split.
  - intros i h. rewrite connections_fold_unregister. case_decide as D; rewrite elem_of_find_stale in D.
    + destruct D as (h' & E & S). split; [done|]. intros [E' N]. simplify_eq.
      by apply Z.ltb_lt in S.
    + split; [|naive_solver]. intros E. split; [done|]. intros L%Z.ltb_lt. naive_solver.
  - apply size_fold_unregister; [apply NoDup_find_stale|].
    intros i (h & E & _)%elem_of_find_stale. by exists h.
Qed.

(** ** Interleavings

    [unregister] works on the user index in two accesses: it empties the
    entry while holding it, and, having let it go, removes the key.  A
    [register] of the same user may run in between, and two [register]s may
    both pass the limit checks before either inserts. *)
Module Races.

(** [user_conns.retain(..)], and whether the entry emptied. *)
Definition unregister_retain (u : string) (i : uuid) (ix : gmap string (list uuid))
  : bool * gmap string (list uuid) :=
  match ix !! u with
  | Some ids => let ids' := filter (fun j => j <> i) ids in (bool_decide (ids' = []), <[u := ids']> ix)
  | None => (false, ix)
  end.

(** [drop(user_conns); self.user_index.remove(..)] *)
Definition unregister_drop (emptied : bool) (u : string) (ix : gmap string (list uuid))
  : gmap string (list uuid) := if emptied then delete u ix else ix.

(** The two accesses with whatever runs between them. *)
Definition unregister_split (u : string) (i : uuid)
  (between : gmap string (list uuid) -> gmap string (list uuid)) (ix : gmap string (list uuid))
  : gmap string (list uuid) :=
  let r := unregister_retain u i ix in unregister_drop r.1 u (between r.2).

(** The push of [register]. *)
Definition register_push (u : string) (i : uuid) (ix : gmap string (list uuid)) : gmap string (list uuid) :=
  <[u := default [] (ix !! u) ++ [i]]> ix.

(** Undisturbed, the two accesses are the atomic removal of the model. *)
Lemma unregister_split_id u i ix : unregister_split u i (fun x => x) ix = user_index_remove u i ix.
Proof.
  unfold unregister_split, unregister_retain, unregister_drop, user_index_remove.
  destruct (ix !! u) as [ids|]; [|done]. simpl. repeat case_decide; case_bool_decide; simpl; try done.
  by rewrite delete_insert_eq.
Qed.

(** Interleaving: when a user's last connection is unregistered while the
    same user registers a new one between the two accesses, the new id is
    lost from the user index, so nothing sent to the user reaches a
    connection that is registered; in either sequential order it is kept. *)
Theorem unregister_race u i j ix :
  i <> j -> ix !! u = Some [i] ->
  unregister_split u i (register_push u j) ix !! u = None /\
  register_push u j (user_index_remove u i ix) !! u = Some [j] /\
  user_index_remove u i (register_push u j ix) !! u = Some [j].
Proof.
  intros Hij E.
  assert (F1 : filter (fun k => k <> i) [i] = []) by (rewrite filter_cons_False, filter_nil; naive_solver).
  assert (F2 : filter (fun k => k <> i) [i; j] = [j])
    by (rewrite filter_cons_False, filter_cons_True, filter_nil; naive_solver).
  unfold unregister_split, unregister_retain, unregister_drop, register_push, user_index_remove.
  rewrite E; simpl. rewrite !lookup_insert_eq; simpl. rewrite F1, F2; simpl.
  split_and!; rewrite ?lookup_delete_eq, ?lookup_insert_eq; done.
Qed.

Lemma unregister_race_witness :
  unregister_split "u" 1%N (register_push "u" 2%N) {["u" := [1%N]]} !! "u" = None.
Proof. apply (unregister_race "u" 1%N 2%N); [discriminate|reflexivity]. Defined.

(** Any number of registrations that check before any inserts all pass: the
    manager then exceeds its limit by all of them. *)
Definition register_checked_first (m : ConnectionManager) (hs : list ConnectionHandle) : ConnectionManager :=
  if forallb (fun h => is_ok (check_limits m (user_id h) (limits m))) hs
  then fold_left insert_handle hs m else m.

Lemma size_fold_insert_handle hs m :
  NoDup (conn_id <$> hs) -> (forall h, h ∈ hs -> connections m !! conn_id h = None) ->
  size (connections (fold_left insert_handle hs m)) = (size (connections m) + length hs)%nat.
Proof.
  revert m. induction hs as [|h hs IH]; simpl; intros m Hn Hm; [lia|].
  apply NoDup_cons in Hn as [Hh Hn]. rewrite IH; [|done|].
  - simpl. rewrite map_size_insert, (Hm h) by set_solver. lia.
  - intros h' Hin. simpl. rewrite lookup_insert_ne; [apply Hm; set_solver|].
    intros E. apply Hh. rewrite E. by apply list_elem_of_fmap_2.
Qed.

Theorem register_limit_race m hs :
  NoDup (conn_id <$> hs) -> (forall h, h ∈ hs -> connections m !! conn_id h = None) ->
  (forall h, h ∈ hs -> is_ok (check_limits m (user_id h) (limits m)) = true) ->
  size (connections (register_checked_first m hs)) = (size (connections m) + length hs)%nat.
Proof.
  intros Hn Hm Hc. unfold register_checked_first.
  replace (forallb _ hs) with true; [by apply size_fold_insert_handle|].
  symmetry. apply forallb_forall. intros h Hin%list_elem_of_In. auto.
Qed.
End Races.
