(* ===== verification/Interleaving.v ===== *)
(** * Interleaving: the connection manager under concurrent calls

    [Connection] models each operation of [domain/connection/manager.rs] as
    one function.  The service calls them from many tasks at once, and each is
    a sequence of accesses to four concurrent maps.  Here an operation in
    progress is a [Task] that says which access comes next, [task_step] does
    one access, and [step] lets any task go on or a new call begin.

    One access to a map (a call on it, or what is done while its guard is
    held) is one step; so is [len].  [subscribe_to_channel] and
    [unsubscribe_from_channel] keep the guard of the connection's entry until
    they return, during which the entry cannot be removed ([held]).
    That is the only waiting here: the guard a query keeps on its index entry
    while it looks up the connections, the locks of the shards and of the
    subscriptions are left out, which only allows more interleavings, so that
    what is proved of all of them holds of the code's.  [Locks] adds what the
    calls wait for, as a restriction of [step] ([lock_step_step]). *)
From S2P Require Import Prelude Tenant Connection.

(** ** Calls in progress *)

Inductive Lookup := ByUser (u : string) | ByTenant (t : string) | ByChannel (c : string).

Inductive Task :=
(* register_with_limits; the handle is the one the call will create *)
| Register (h : ConnectionHandle) (l : ConnectionLimits)
| RefuseTotal (l : ConnectionLimits)
| CheckUser (h : ConnectionHandle) (l : ConnectionLimits)
| InsertHandle (h : ConnectionHandle)
| IndexUser (h : ConnectionHandle)
| IndexTenant (h : ConnectionHandle)
| Registered (r : result ConnectionError ConnectionHandle)
(* unregister *)
| Unregister (i : uuid)
| LeaveUser (h : ConnectionHandle)
| DropUser (h : ConnectionHandle)
| LeaveTenant (h : ConnectionHandle)
| DropTenant (h : ConnectionHandle)
| LeaveChannels (h : ConnectionHandle) (cs : list string)
| DropChannel (h : ConnectionHandle) (c : string) (cs : list string)
| Unregistered
(* subscribe_to_channel *)
| Subscribe (i : uuid) (c : string)
| SubCheck (i : uuid) (c : string)
| SubWrite (i : uuid) (c : string)
| SubIndex (i : uuid) (c : string)
| Subscribed (r : result string unit)
(* unsubscribe_from_channel *)
| Unsubscribe (i : uuid) (c : string)
| UnsubWrite (i : uuid) (c : string)
| UnsubIndex (i : uuid) (c : string)
| UnsubDrop (i : uuid) (c : string)
| Unsubscribed
(* update_activity on a handle *)
| Touch (i : uuid) (now : Z)
| Touched
(* get_user_connections, get_tenant_connections, get_channel_connections *)
| Query (q : Lookup)
| Collect (q : Lookup) (ids : list uuid) (found : list ConnectionHandle)
| Answered (q : Lookup) (found : list ConnectionHandle).

(** ** One access *)

Definition on_connections (f : gmap uuid ConnectionHandle -> gmap uuid ConnectionHandle) (m : ConnectionManager)
  : ConnectionManager :=
  mk (f (connections m)) (user_index m) (channel_index m) (tenant_index m) (limits m).
Definition on_user_index (f : gmap string (list uuid) -> gmap string (list uuid)) (m : ConnectionManager)
  : ConnectionManager :=
  mk (connections m) (f (user_index m)) (channel_index m) (tenant_index m) (limits m).
Definition on_channel_index (f : index -> index) (m : ConnectionManager)
  : ConnectionManager :=
  mk (connections m) (user_index m) (f (channel_index m)) (tenant_index m) (limits m).
Definition on_tenant_index (f : index -> index) (m : ConnectionManager)
  : ConnectionManager :=
  mk (connections m) (user_index m) (channel_index m) (f (tenant_index m)) (limits m).

(** [entry(u).or_default().push(i)] *)
Definition push_id (u : string) (i : uuid) (ix : gmap string (list uuid)) : gmap string (list uuid) :=
  <[u := default [] (ix !! u) ++ [i]]> ix.

(** The ids an index holds under a name. *)
Definition index_ids (m : ConnectionManager) (q : Lookup) : list uuid :=
  match q with
  | ByUser u => default [] (user_index m !! u)
  | ByTenant t => elements (idx_get (tenant_index m) t)
  | ByChannel c => elements (idx_get (channel_index m) c)
  end.

Definition reached (limit n : nat) : bool := (0 <? limit)%nat && (limit <=? n)%nat.

Definition total_full (m : ConnectionManager) (l : ConnectionLimits) : bool :=
  reached (max_connections l) (size (connections m)).
Definition user_full (m : ConnectionManager) (u : string) (l : ConnectionLimits) : bool :=
  reached (max_connections_per_user l) (user_conn_count m u).
Definition subscriptions_full (m : ConnectionManager) (h : ConnectionHandle) : bool :=
  reached (max_subscriptions_per_connection (limits m)) (subscription_count h).

(** The next access of a call: the manager and the call after it.  [None] is a
    call of another method, one that has returned, or one that waits for a
    guard. *)
Definition register_step (m : ConnectionManager) (t : Task) : option (ConnectionManager * Task) :=
  match t with
  | Register h l => Some (m, if total_full m l then RefuseTotal l else CheckUser h l)
  | RefuseTotal l => Some (m, Registered (Err (TotalLimitExceeded (size (connections m)) (max_connections l))))
  | CheckUser h l =>
    Some (m, if user_full m (user_id h) l
             then Registered (Err (UserLimitExceeded (user_id h) (user_conn_count m (user_id h)) (max_connections_per_user l)))
             else InsertHandle h)
  | InsertHandle h => Some (on_connections (<[conn_id h := h]>) m, IndexUser h)
  | IndexUser h => Some (on_user_index (push_id (user_id h) (conn_id h)) m, IndexTenant h)
  | IndexTenant h => Some (on_tenant_index (idx_insert (tenant_id h) (conn_id h)) m, Registered (Ok h))
  | _ => None
  end.

Definition unregister_step (held : uuid -> bool) (m : ConnectionManager) (t : Task)
  : option (ConnectionManager * Task) :=
  match t with
  | Unregister i =>
    if held i then None
    else match connections m !! i with
         | Some h => Some (on_connections (delete i) m, LeaveUser h)
         | None => Some (m, Unregistered)
         end
  | LeaveUser h =>
    match user_index m !! user_id h with
    | Some ids =>
      let ids' := filter (fun j => j <> conn_id h) ids in
      Some (on_user_index (<[user_id h := ids']>) m, if decide (ids' = []) then DropUser h else LeaveTenant h)
    | None => Some (m, LeaveTenant h)
    end
  | DropUser h => Some (on_user_index (delete (user_id h)) m, LeaveTenant h)
  | LeaveTenant h =>
    match tenant_index m !! tenant_id h with
    | Some ids =>
      let ids' := ids ∖ {[conn_id h]} in
      Some (on_tenant_index (<[tenant_id h := ids']>) m,
            if decide (ids' = ∅) then DropTenant h else LeaveChannels h (elements (subscriptions h)))
    | None => Some (m, LeaveChannels h (elements (subscriptions h)))
    end
  | DropTenant h =>
    Some (on_tenant_index (delete (tenant_id h)) m, LeaveChannels h (elements (subscriptions h)))
  | LeaveChannels h [] => Some (m, Unregistered)
  | LeaveChannels h (c :: cs) =>
    match channel_index m !! c with
    | Some ids =>
      let ids' := ids ∖ {[conn_id h]} in
      Some (on_channel_index (<[c := ids']>) m, if decide (ids' = ∅) then DropChannel h c cs else LeaveChannels h cs)
    | None => Some (m, LeaveChannels h cs)
    end
  | DropChannel h c cs => Some (on_channel_index (delete c) m, LeaveChannels h cs)
  | _ => None
  end.

Definition subscribe_step (m : ConnectionManager) (t : Task) : option (ConnectionManager * Task) :=
  match t with
  | Subscribe i c =>
    Some (m, match connections m !! i with
             | Some _ => SubCheck i c
             | None => Subscribed (Err "Connection not found")
             end)
  | SubCheck i c =>
    h ← connections m !! i;
    let max := max_subscriptions_per_connection (limits m) in
    Some (m, if subscriptions_full m h
             then Subscribed (Err ("Subscription limit exceeded (" +:+ pretty (subscription_count h) +:+ "/" +:+
                                   pretty max +:+ ")"))
             else SubWrite i c)
  | SubWrite i c =>
    h ← connections m !! i;
    Some (on_connections <[i := set_subscriptions (fun s => {[c]} ∪ s) h]> m, SubIndex i c)
  | SubIndex i c => Some (on_channel_index (idx_insert c i) m, Subscribed (Ok tt))
  | _ => None
  end.

Definition unsubscribe_step (m : ConnectionManager) (t : Task) : option (ConnectionManager * Task) :=
  match t with
  | Unsubscribe i c => Some (m, match connections m !! i with Some _ => UnsubWrite i c | None => Unsubscribed end)
  | UnsubWrite i c =>
    h ← connections m !! i;
    Some (on_connections <[i := set_subscriptions (fun s => s ∖ {[c]}) h]> m, UnsubIndex i c)
  | UnsubIndex i c =>
    match channel_index m !! c with
    | Some ids =>
      let ids' := ids ∖ {[i]} in
      Some (on_channel_index (<[c := ids']>) m, if decide (ids' = ∅) then UnsubDrop i c else Unsubscribed)
    | None => Some (m, Unsubscribed)
    end
  | UnsubDrop i c => Some (on_channel_index (delete c) m, Unsubscribed)
  | _ => None
  end.

Definition query_step (m : ConnectionManager) (t : Task) : option (ConnectionManager * Task) :=
  match t with
  | Query q => Some (m, Collect q (index_ids m q) [])
  | Collect q (i :: ids) found => Some (m, Collect q ids (found ++ option_list (connections m !! i)))
  | Collect q [] found => Some (m, Answered q found)
  | _ => None
  end.

Definition task_step (held : uuid -> bool) (m : ConnectionManager) (t : Task)
  : option (ConnectionManager * Task) :=
  match t with
  | Register _ _ | RefuseTotal _ | CheckUser _ _ | InsertHandle _ | IndexUser _ | IndexTenant _ => register_step m t
  | Unregister _ | LeaveUser _ | DropUser _ | LeaveTenant _ | DropTenant _ | LeaveChannels _ _ | DropChannel _ _ _ =>
    unregister_step held m t
  | Subscribe _ _ | SubCheck _ _ | SubWrite _ _ | SubIndex _ _ => subscribe_step m t
  | Unsubscribe _ _ | UnsubWrite _ _ | UnsubIndex _ _ | UnsubDrop _ _ => unsubscribe_step m t
  | Touch i now => Some (touch m i now, Touched)
  | Query _ | Collect _ _ _ => query_step m t
  | Registered _ | Unregistered | Subscribed _ | Unsubscribed | Touched | Answered _ _ => None
  end.

Definition finished (t : Task) : bool :=
  match t with
  | Registered _ | Unregistered | Subscribed _ | Unsubscribed | Touched | Answered _ _ => true
  | _ => false
  end.

(** The entry of [connections] whose guard a call holds. *)
Definition guards (t : Task) : option uuid :=
  match t with
  | SubCheck i _ | SubWrite i _ | SubIndex i _ | UnsubWrite i _ | UnsubIndex i _ | UnsubDrop i _ => Some i
  | _ => None
  end.

Definition held (ts : list Task) (i : uuid) : bool := existsb (fun t => bool_decide (guards t = Some i)) ts.

(** ** The manager and the calls in progress *)

Definition owner (h : ConnectionHandle) : string * string := (user_id h, tenant_id h).

(** [issued] records whom each connection id was made for. *)
Record Sys := mkSys { mgr : ConnectionManager; tasks : list Task; issued : gmap uuid (string * string) }.

(** The connection a call registers and has not finished registering; the one
    a call takes out; the one whose subscriptions a call changes. *)
Definition registering (t : Task) : option uuid :=
  match t with
  | Register h _ | CheckUser h _ | InsertHandle h | IndexUser h | IndexTenant h => Some (conn_id h)
  | _ => None
  end.
Definition leaving (t : Task) : option uuid :=
  match t with
  | Unregister i => Some i
  | LeaveUser h | DropUser h | LeaveTenant h | DropTenant h | LeaveChannels h _ | DropChannel h _ _ => Some (conn_id h)
  | _ => None
  end.
Definition serving (t : Task) : option uuid :=
  match t with
  | Subscribe i _ | Unsubscribe i _ => Some i
  | _ => guards t
  end.

Definition issue (t : Task) (l : gmap uuid (string * string)) : gmap uuid (string * string) :=
  match t with Register h _ => <[conn_id h := owner h]> l | _ => l end.

Definition none_is (f : Task -> option uuid) (i : uuid) (ts : list Task) : Prop := Forall (fun t => f t <> Some i) ts.

Section steps.
(** Which channels a tenant's connections subscribe to. *)
Context (permits : string -> string -> Prop).

(** Which calls begin.  A new connection has a fresh id; a connection is
    unregistered by its handler or by the clean-up after its registration (it
    is not stale before); the frames of one connection are handled one after
    the other. *)
Inductive starts (s : Sys) : Task -> Prop :=
| starts_register u t rs fresh now : issued s !! fresh = None ->
  starts s (Register (handle_new u t rs fresh now) (limits (mgr s)))
| starts_unregister i : is_Some (issued s !! i) -> none_is registering i (tasks s) -> starts s (Unregister i)
| starts_subscribe i c o : issued s !! i = Some o -> permits o.2 c -> none_is serving i (tasks s) ->
  starts s (Subscribe i c)
| starts_unsubscribe i c : none_is serving i (tasks s) -> starts s (Unsubscribe i c)
| starts_touch i now : starts s (Touch i now)
| starts_query q : starts s (Query q).

Inductive step (s : Sys) : Sys -> Prop :=
| step_task k t m' t' : tasks s !! k = Some t -> task_step (held (tasks s)) (mgr s) t = Some (m', t') ->
  step s (mkSys m' (<[k := t']> (tasks s)) (issued s))
| step_start t : starts s t -> step s (mkSys (mgr s) (tasks s ++ [t]) (issue t (issued s))).

(** The service starts with an empty manager and no call. *)
Definition idle (l : ConnectionLimits) : Sys := mkSys (with_limits l) [] ∅.
End steps.

(** Case analysis of one access. *)
Ltac access H :=
  match type of H with task_step _ _ ?t = _ => destruct t end;
  simpl in H; unfold mbind, option_bind in H; repeat case_match; simplify_eq;
  repeat match goal with E : decide _ = _ |- _ => clear E end; simpl in *.

(** The maps after an access, seen through their names. *)
Lemma elem_of_push u i ix v j :
  j ∈ default [] (push_id u i ix !! v) <-> j ∈ default [] (ix !! v) \/ (v = u /\ j = i).
Proof.
  unfold push_id. destruct (decide (u = v)) as [<-|N].
  - rewrite lookup_insert_eq. simpl. rewrite elem_of_app, list_elem_of_singleton. naive_solver.
  - rewrite lookup_insert_ne by done. naive_solver.
Qed.

Lemma elem_of_insert_list (ix : gmap string (list uuid)) u l v j :
  j ∈ default [] (<[u := l]> ix !! v) <-> (v = u /\ j ∈ l) \/ (v <> u /\ j ∈ default [] (ix !! v)).
Proof.
  destruct (decide (u = v)) as [<-|N]; rewrite ?lookup_insert_eq, ?lookup_insert_ne by done; simpl; naive_solver.
Qed.

Lemma elem_of_delete_list (ix : gmap string (list uuid)) u v j :
  j ∈ default [] (delete u ix !! v) <-> v <> u /\ j ∈ default [] (ix !! v).
Proof.
  destruct (decide (u = v)) as [<-|N]; rewrite ?lookup_delete_eq, ?lookup_delete_ne by done; simpl; [set_solver|].
  naive_solver.
Qed.

Lemma idx_get_set k s (ix : index) k' : idx_get (<[k := s]> ix) k' = if decide (k = k') then s else idx_get ix k'.
Proof. unfold idx_get. case_decide; subst; by rewrite ?lookup_insert_eq, ?lookup_insert_ne. Qed.
Lemma idx_get_delete k (ix : index) k' : idx_get (delete k ix) k' = if decide (k = k') then ∅ else idx_get ix k'.
Proof. unfold idx_get. case_decide; subst; by rewrite ?lookup_delete_eq, ?lookup_delete_ne. Qed.
Lemma idx_get_Some ix k s : ix !! k = Some s -> idx_get ix k = s.
Proof. unfold idx_get. by intros ->. Qed.

Lemma step_handles hd m t m' t' i h :
  task_step hd m t = Some (m', t') -> connections m' !! i = Some h ->
  (t = InsertHandle h /\ i = conn_id h) \/
  exists h0, connections m !! i = Some h0 /\ conn_id h = conn_id h0 /\ owner h = owner h0.
Proof.
  intros H. access H; eauto; unfold touch; repeat case_match; simpl; eauto;
    rewrite ?lookup_insert_Some, ?lookup_delete_Some; naive_solver.
Qed.

Lemma step_user_index hd m t m' t' u i :
  task_step hd m t = Some (m', t') -> i ∈ default [] (user_index m' !! u) ->
  (exists h, t = IndexUser h /\ u = user_id h /\ i = conn_id h) \/ i ∈ default [] (user_index m !! u).
Proof.
  intros H. access H; eauto; unfold touch; repeat case_match; simpl; eauto;
    rewrite ?elem_of_push, ?elem_of_insert_list, ?elem_of_delete_list, ?list_elem_of_filter;
    try match goal with E : user_index _ !! _ = Some _ |- _ => pose proof (f_equal (default []) E) end; naive_solver.
Qed.

Lemma step_tenant_index hd m t m' t' n i :
  task_step hd m t = Some (m', t') -> i ∈ idx_get (tenant_index m') n ->
  (exists h, t = IndexTenant h /\ n = tenant_id h /\ i = conn_id h) \/ i ∈ idx_get (tenant_index m) n.
Proof.
  intros H. access H; eauto; unfold touch; repeat case_match; simpl; eauto;
    rewrite ?idx_get_insert, ?idx_get_set, ?idx_get_delete;
    try match goal with E : tenant_index _ !! _ = Some _ |- _ => pose proof (idx_get_Some _ _ _ E) end;
    case_decide; set_solver.
Qed.

Lemma step_channel_index hd m t m' t' c i :
  task_step hd m t = Some (m', t') -> i ∈ idx_get (channel_index m') c ->
  t = SubIndex i c \/ i ∈ idx_get (channel_index m) c.
Proof.
  intros H. access H; eauto; unfold touch; repeat case_match; simpl; eauto;
    rewrite ?idx_get_insert, ?idx_get_set, ?idx_get_delete;
    try match goal with E : channel_index _ !! _ = Some _ |- _ => pose proof (idx_get_Some _ _ _ E) end;
    case_decide; set_solver.
Qed.

(** ** Whoever asks is never answered with somebody else's connection *)

(** The owners a query is about. *)
Definition concerns (permits : string -> string -> Prop) (q : Lookup) (o : string * string) : Prop :=
  match q with ByUser u => o.1 = u | ByTenant t => o.2 = t | ByChannel c => permits o.2 c end.

Section answers.
Context (permits : string -> string -> Prop).
Abbreviation step := (step permits).
Abbreviation concerns := (concerns permits).

Definition issued_for (iss : gmap uuid (string * string)) (q : Lookup) (i : uuid) : Prop :=
  exists o, iss !! i = Some o /\ concerns q o.

Definition task_known (iss : gmap uuid (string * string)) (t : Task) : Prop :=
  match t with
  | Register h _ | CheckUser h _ | InsertHandle h | IndexUser h | IndexTenant h
  | LeaveUser h | DropUser h | LeaveTenant h | DropTenant h | LeaveChannels h _ | DropChannel h _ _ =>
    iss !! conn_id h = Some (owner h)
  | Unregister i => is_Some (iss !! i)
  | Subscribe i c | SubCheck i c | SubWrite i c | SubIndex i c => issued_for iss (ByChannel c) i
  | Collect q ids found => Forall (issued_for iss q) ids /\ Forall (fun h => concerns q (owner h)) found
  | Answered q found => Forall (fun h => concerns q (owner h)) found
  | _ => True
  end.

(** Every handle belongs to the owner its id was issued for, and an id stands
    only under names of its owner. *)
Record known (s : Sys) : Prop := {
  known_handle : forall i h, connections (mgr s) !! i = Some h -> conn_id h = i /\ issued s !! i = Some (owner h);
  known_user : forall u i, i ∈ default [] (user_index (mgr s) !! u) -> issued_for (issued s) (ByUser u) i;
  known_tenant : forall t i, i ∈ idx_get (tenant_index (mgr s)) t -> issued_for (issued s) (ByTenant t) i;
  known_channel : forall c i, i ∈ idx_get (channel_index (mgr s)) c -> issued_for (issued s) (ByChannel c) i;
  known_tasks : Forall (task_known (issued s)) (tasks s);
}.

Lemma known_index s q : known s -> Forall (issued_for (issued s) q) (index_ids (mgr s) q).
Proof.
  intros K. apply Forall_forall. intros i.
  destruct q; simpl; rewrite ?elem_of_elements; by apply K.
Qed.

Lemma step_task_known s hd t m' t' :
  known s -> task_known (issued s) t -> task_step hd (mgr s) t = Some (m', t') -> task_known (issued s) t'.
Proof.
  intros K T H. access H; try done.
  - by apply K in H1 as [-> ?].
  - split; [by apply known_index|constructor].
  - tauto.
  - destruct T as [[T1 T2]%Forall_cons F]. split; [done|]. apply Forall_app. split; [done|].
    destruct (connections (mgr s) !! _) eqn:E; constructor; [|constructor].
    apply K in E as [_ E]. destruct T1 as (o & E' & C). congruence.
Qed.

Lemma issued_for_mono iss iss' q i : iss ⊆ iss' -> issued_for iss q i -> issued_for iss' q i.
Proof. intros S (o & E & C). exists o. split; [by eapply lookup_weaken|done]. Qed.

Lemma task_known_mono iss iss' t : iss ⊆ iss' -> task_known iss t -> task_known iss' t.
Proof.
  intros S. pose proof (issued_for_mono iss iss') as I.
  destruct t; simpl; eauto using lookup_weaken.
  { intros [o ?]. exists o. by eapply lookup_weaken. }
  intros [F ?]. split; [|done]. eapply Forall_impl; eauto.
Qed.

Lemma starts_issued s t : starts permits s t -> issued s ⊆ issue t (issued s).
Proof. destruct 1; simpl; try done. by apply insert_subseteq. Qed.

Lemma known_step s s' : known s -> step s s' -> known s'.
Proof.
  intros K. destruct 1 as [k t m' t' E H|t St].
  - pose proof (proj1 (Forall_lookup _ _) (known_tasks _ K) _ _ E) as T.
    split; simpl.
    + intros i h Hi. destruct (step_handles _ _ _ _ _ _ _ H Hi) as [[-> ->]|(h0 & Hi0 & -> & ->)]; [done|by apply K].
    + intros u i Hi. destruct (step_user_index _ _ _ _ _ _ _ H Hi) as [(h & -> & -> & ->)|]; [by eexists|by apply K].
    + intros n i Hi. destruct (step_tenant_index _ _ _ _ _ _ _ H Hi) as [(h & -> & -> & ->)|]; [by eexists|by apply K].
    + intros c i Hi. destruct (step_channel_index _ _ _ _ _ _ _ H Hi) as [->|]; [done|by apply K].
    + apply Forall_insert; [apply K|]. by eapply step_task_known.
  - pose proof (starts_issued _ _ St) as S. split; simpl.
    + intros i h Hi. apply K in Hi as [? ?]. split; [done|by eapply lookup_weaken].
    + intros u i Hi. by eapply issued_for_mono, K.
    + intros n i Hi. by eapply issued_for_mono, K.
    + intros c i Hi. by eapply issued_for_mono, K.
    + apply Forall_app. split.
      * eapply Forall_impl; [apply K|]. intros ? ?. by eapply task_known_mono.
      * constructor; [|constructor]. destruct St; simpl; try done; [by rewrite lookup_insert_eq|by eexists].
Qed.

Lemma known_reachable l s : rtc step (idle l) s -> known s.
Proof.
  apply (rtc_ind_r known); [|eauto using known_step].
  split; simpl; unfold idx_get; intros *; rewrite ?lookup_empty; try done; set_solver.
Qed.

(** C8: In every interleaving of the accesses of any number of calls, a query
    that has been answered, and a query answered at any moment in between,
    yields only connections of the user, of the tenant, or of tenants that
    may subscribe to the channel it asks for. *)
Theorem concurrent_answers l s q found :
  rtc step (idle l) s ->
  Answered q found ∈ tasks s \/ found = lookup_ids (mgr s) (index_ids (mgr s) q) ->
  Forall (fun h => concerns q (owner h)) found.
Proof.
  intros K%known_reachable [A| ->].
  - by apply (proj1 (Forall_forall _ _) (known_tasks _ K)) in A.
  - apply Forall_forall. intros h (i & Hi & Hh)%list_elem_of_omap.
    apply (proj1 (Forall_forall _ _) (known_index s q K)) in Hi as (o & E & C). apply K in Hh as [_ E']. congruence.
Qed.
End answers.

(** ** How far the limits can be exceeded *)

(** A registration in progress; one that has passed the check of the total and
    not inserted its handle; one for a user that has passed the check of that
    user and not entered the index. *)
Definition in_flight (t : Task) : bool := bool_decide (is_Some (registering t)).
Definition past_total (t : Task) : bool := match t with CheckUser _ _ | InsertHandle _ => true | _ => false end.
Definition past_user (u : string) (t : Task) : bool :=
  match t with InsertHandle h | IndexUser h => bool_decide (user_id h = u) | _ => false end.

Section overshoot.
Context (permits : string -> string -> Prop) (K : nat) (l : ConnectionLimits).

(** Steps during which at most [K] registrations are in progress. *)
Definition crowded (s s' : Sys) : Prop := step permits s s' /\ (count_if in_flight (tasks s') <= K)%nat.

Definition checks_limits (t : Task) : Prop := match t with Register _ l' | CheckUser _ l' => l' = l | _ => True end.

Record bounded (s : Sys) : Prop := {
  bounded_limits : limits (mgr s) = l;
  bounded_tasks : Forall checks_limits (tasks s);
  bounded_flight : (count_if in_flight (tasks s) <= K)%nat;
  bounded_total : (0 < max_connections l)%nat ->
    (size (connections (mgr s)) + count_if past_total (tasks s) <= max_connections l + (K - 1))%nat;
  bounded_user : forall u, (0 < max_connections_per_user l)%nat ->
    (user_conn_count (mgr s) u + count_if (past_user u) (tasks s) <= max_connections_per_user l + (K - 1))%nat;
}.

Lemma reached_false limit n : reached limit n = false -> (0 < limit)%nat -> (n < limit)%nat.
Proof. unfold reached. intros H ?. apply andb_false_iff in H. rewrite Nat.ltb_ge, Nat.leb_gt in H. lia. Qed.

Lemma step_limits hd m t m' t' : task_step hd m t = Some (m', t') -> limits m' = limits m.
Proof. intros H. access H; try done. unfold touch. by case_match. Qed.

Lemma step_checks hd m t m' t' : checks_limits t -> task_step hd m t = Some (m', t') -> checks_limits t'.
Proof. intros C H. access H; done. Qed.

(** A registration past a check is not one that has yet to pass it. *)
Lemma flight_past_total ts k h :
  ts !! k = Some (Register h l) -> (count_if past_total ts < count_if in_flight ts)%nat.
Proof.
  intros E. pose proof (count_if_step past_total ts k _ Unregistered E). pose proof (count_if_step in_flight ts k _ Unregistered E).
  assert (C : (count_if past_total (<[k := Unregistered]> ts) <= count_if in_flight (<[k := Unregistered]> ts))%nat).
  { apply count_if_mono. by destruct t. }
  simpl in *. lia.
Qed.

Lemma flight_past_user ts k h u :
  ts !! k = Some (CheckUser h l) -> (count_if (past_user u) ts < count_if in_flight ts)%nat.
Proof.
  intros E. pose proof (count_if_step (past_user u) ts k _ Unregistered E). pose proof (count_if_step in_flight ts k _ Unregistered E).
  assert (C : (count_if (past_user u) (<[k := Unregistered]> ts) <= count_if in_flight (<[k := Unregistered]> ts))%nat).
  { apply count_if_mono. by destruct t. }
  simpl in *. lia.
Qed.

Lemma size_delete_le (c : gmap uuid ConnectionHandle) i : (size (delete i c) <= size c)%nat.
Proof. rewrite map_size_delete. destruct (c !! i); unfold id; lia. Qed.

Lemma step_total s k t m' t' :
  (0 < max_connections l)%nat -> tasks s !! k = Some t -> checks_limits t -> (count_if in_flight (tasks s) <= K)%nat ->
  task_step (held (tasks s)) (mgr s) t = Some (m', t') ->
  (size (connections (mgr s)) + count_if past_total (tasks s) <= max_connections l + (K - 1))%nat ->
  (size (connections m') + count_if past_total (<[k := t']> (tasks s)) <= max_connections l + (K - 1))%nat.
Proof.
  intros L E C F H B. pose proof (count_if_step past_total _ _ _ t' E) as S. access H; try lia.
  - subst l0. pose proof (flight_past_total _ _ _ E).
    match goal with E : total_full _ _ = false |- _ => apply reached_false in E; [|done] end. lia.
  - rewrite map_size_insert. case_match; unfold id; lia.
  - pose proof (size_delete_le (connections (mgr s)) i). lia.
  - rewrite map_size_insert_Some by eauto. lia.
  - rewrite map_size_insert_Some by eauto. lia.
  - unfold touch. case_match; simpl; [rewrite map_size_insert_Some by eauto|]; lia.
Qed.

Lemma user_count_index m u : user_conn_count m u = length (default [] (user_index m !! u)).
Proof. unfold user_conn_count. by destruct (_ !! u). Qed.

Lemma filtered_le (ix : gmap string (list uuid)) u ids v i :
  ix !! u = Some ids ->
  (length (default [] (<[u := filter (fun j => j <> i) ids]> ix !! v)) <= length (default [] (ix !! v)))%nat.
Proof.
  intros E. destruct (decide (u = v)) as [<-|N]; [|by rewrite lookup_insert_ne].
  rewrite lookup_insert_eq, E. apply length_filter.
Qed.

Lemma step_user s k t m' t' u :
  (0 < max_connections_per_user l)%nat -> tasks s !! k = Some t -> checks_limits t ->
  (count_if in_flight (tasks s) <= K)%nat -> task_step (held (tasks s)) (mgr s) t = Some (m', t') ->
  (user_conn_count (mgr s) u + count_if (past_user u) (tasks s) <= max_connections_per_user l + (K - 1))%nat ->
  (user_conn_count m' u + count_if (past_user u) (<[k := t']> (tasks s)) <= max_connections_per_user l + (K - 1))%nat.
Proof.
  intros L E C F H B. pose proof (count_if_step (past_user u) _ _ _ t' E) as S.
  rewrite !user_count_index in *. access H; try lia.
  - subst l0. pose proof (flight_past_user _ _ _ u E).
    match goal with E : user_full _ _ _ = false |- _ => apply reached_false in E; [|done]; rewrite user_count_index in E end.
    case_bool_decide; subst; simpl in *; lia.
  - unfold push_id. destruct (decide (user_id h = u)) as [<-|N].
    + rewrite bool_decide_true in S by done. rewrite lookup_insert_eq. simpl. rewrite length_app. simpl in *. lia.
    + rewrite bool_decide_false in S by done. rewrite lookup_insert_ne by done. simpl in *. lia.
  - pose proof (filtered_le _ _ _ u (conn_id h) H0). lia.
  - pose proof (filtered_le _ _ _ u (conn_id h) H0). lia.
  - destruct (decide (user_id h = u)) as [<-|N]; rewrite ?lookup_delete_eq, ?lookup_delete_ne by done; simpl; lia.
  - unfold touch. case_match; simpl; lia.
Qed.

Lemma bounded_step s s' : bounded s -> crowded s s' -> bounded s'.
Proof.
  intros B [[k t m' t' E H|t St] F].
  - pose proof (proj1 (Forall_lookup _ _) (bounded_tasks _ B) _ _ E) as C. split; simpl in *.
    + rewrite (step_limits _ _ _ _ _ H). apply B.
    + apply Forall_insert; [apply B|]. by eapply step_checks.
    + done.
    + intros L. eapply step_total; eauto; by apply B.
    + intros u L. eapply step_user; eauto; by apply B.
  - assert (C : checks_limits t) by (destruct St; simpl; try done; apply B).
    split; simpl in *; try apply B; [by apply Forall_app_2; [apply B|constructor]|done| |].
    + intros L. rewrite count_if_start. pose proof (bounded_total _ B L). destruct St; simpl; lia.
    + intros u L. rewrite count_if_start. pose proof (bounded_user _ B u L). destruct St; simpl; lia.
Qed.

(** Within [K - 1] of a limit, if there is one. *)
Definition nearly (limit n : nat) : Prop := (0 < limit)%nat -> (n <= limit + (K - 1))%nat.

(** C27: Registrations that overlap: while at most [K] are in progress at a time,
    the total stays within [K - 1] of its limit, and so does what the index
    holds for each user; one at a time never exceed a limit. *)
Theorem overshoot_bounded s :
  rtc crowded (idle l) s ->
  nearly (max_connections l) (size (connections (mgr s))) /\
  forall u, nearly (max_connections_per_user l) (length (index_ids (mgr s) (ByUser u))).
Proof.
  intros R. assert (B : bounded s).
  { revert s R. apply (rtc_ind_r bounded); [|eauto using bounded_step].
    split; [done|constructor|simpl; lia|intros L|intros u L].
    - change (0 + 0 <= max_connections l + (K - 1))%nat. lia.
    - rewrite user_count_index. simpl. rewrite lookup_empty. simpl. lia. }
  split.
  - intros L. pose proof (bounded_total _ B L). lia.
  - intros u L. pose proof (bounded_user _ B u L) as U. rewrite user_count_index in U. simpl. lia.
Qed.
End overshoot.

(** ** A call that nobody disturbs *)

(** What [Connection] says a call does. *)
Definition sequential (m : ConnectionManager) (t : Task) : option (ConnectionManager * Task) :=
  match t with
  | Register h l =>
    let r := register_with_limits m (user_id h) (tenant_id h) (roles h) l (conn_id h) (connected_at h) in
    Some (r.2, Registered r.1)
  | Unregister i => Some (unregister m i, Unregistered)
  | Subscribe i c => let r := subscribe_to_channel m i c in Some (r.2, Subscribed r.1)
  | Unsubscribe i c => Some (unsubscribe_from_channel m i c, Unsubscribed)
  | Touch i now => Some (touch m i now, Touched)
  | Query (ByUser u) => Some (m, Answered (ByUser u) (get_user_connections m u))
  | Query (ByTenant n) => Some (m, Answered (ByTenant n) (get_tenant_connections m n))
  | Query (ByChannel c) => Some (m, Answered (ByChannel c) (get_channel_connections m c))
  | _ => None
  end.

Section alone.
Context (hd : uuid -> bool).

(** The accesses of one call in a row. *)
Definition goes_on (x y : ConnectionManager * Task) : Prop := task_step hd x.1 x.2 = Some y.

Ltac next :=
  eapply rtc_l; [unfold goes_on; simpl; unfold mbind, option_bind; simplify_option_eq; reflexivity|]; simpl.

Lemma on_user_index_same m u i : user_index m !! u = None -> on_user_index (user_index_remove u i) m = m.
Proof. intros E. unfold on_user_index, user_index_remove. rewrite E. by destruct m. Qed.
Lemma on_tenant_index_same m n i : tenant_index m !! n = None -> on_tenant_index (idx_remove n i) m = m.
Proof. intros E. unfold on_tenant_index, idx_remove. rewrite E. by destruct m. Qed.
Lemma on_channel_index_same m n i : channel_index m !! n = None -> on_channel_index (idx_remove n i) m = m.
Proof. intros E. unfold on_channel_index, idx_remove. rewrite E. by destruct m. Qed.

Lemma leave_user m h :
  rtc goes_on (m, LeaveUser h) (on_user_index (user_index_remove (user_id h) (conn_id h)) m, LeaveTenant h).
Proof.
  destruct (user_index m !! user_id h) as [ids|] eqn:E; [|next; by rewrite on_user_index_same].
  unfold on_user_index, user_index_remove. rewrite E. simpl. case_decide as D; next; [|done].
  next. unfold on_user_index. simpl. by rewrite delete_insert_eq.
Qed.

Lemma leave_tenant m h :
  rtc goes_on (m, LeaveTenant h)
    (on_tenant_index (idx_remove (tenant_id h) (conn_id h)) m, LeaveChannels h (elements (subscriptions h))).
Proof.
  destruct (tenant_index m !! tenant_id h) as [ids|] eqn:E; [|next; by rewrite on_tenant_index_same].
  unfold on_tenant_index, idx_remove. rewrite E. simpl. case_decide as D; next; [|done].
  next. unfold on_tenant_index. simpl. by rewrite delete_insert_eq.
Qed.

Lemma leave_channel m h c cs :
  rtc goes_on (m, LeaveChannels h (c :: cs)) (on_channel_index (idx_remove c (conn_id h)) m, LeaveChannels h cs).
Proof.
  destruct (channel_index m !! c) as [ids|] eqn:E; [|next; by rewrite on_channel_index_same].
  unfold on_channel_index, idx_remove. rewrite E. simpl. case_decide as D; next; [|done].
  next. unfold on_channel_index. simpl. by rewrite delete_insert_eq.
Qed.

Lemma idx_remove_lookup k i ix k' :
  idx_remove k i ix !! k' =
  if decide (k = k') then s ← ix !! k; (if decide (s ∖ {[i]} = ∅) then None else Some (s ∖ {[i]})) else ix !! k'.
Proof.
  unfold idx_remove. destruct (ix !! k) as [s|] eqn:E; simpl; repeat case_decide; subst;
    rewrite ?lookup_delete_eq, ?lookup_insert_eq, ?lookup_delete_ne, ?lookup_insert_ne by done; done.
Qed.

Lemma idx_remove_comm k1 k2 i ix : idx_remove k1 i (idx_remove k2 i ix) = idx_remove k2 i (idx_remove k1 i ix).
Proof.
  destruct (decide (k1 = k2)) as [->|N]; [done|]. apply map_eq. intros k.
  rewrite !idx_remove_lookup. repeat case_decide; subst; done.
Qed.

Lemma idx_remove_all_comm cs k i ix : idx_remove_all cs i (idx_remove k i ix) = idx_remove k i (idx_remove_all cs i ix).
Proof. induction cs as [|c cs IH]; simpl; [done|]. by rewrite IH, idx_remove_comm. Qed.

Lemma leave_channels m h cs :
  rtc goes_on (m, LeaveChannels h cs) (on_channel_index (idx_remove_all cs (conn_id h)) m, Unregistered).
Proof.
  revert m. induction cs as [|c cs IH]; intros m.
  - next. by destruct m.
  - etrans; [apply leave_channel|]. etrans; [apply IH|]. unfold on_channel_index; simpl.
    by rewrite idx_remove_all_comm.
Qed.

Lemma collect m q ids found : rtc goes_on (m, Collect q ids found) (m, Answered q (found ++ lookup_ids m ids)).
Proof.
  revert found. induction ids as [|i ids IH]; intros found; next.
  - unfold lookup_ids. simpl. by rewrite app_nil_r.
  - etrans; [apply IH|].
    unfold lookup_ids. simpl. destruct (connections m !! i); simpl; by rewrite <- app_assoc.
Qed.

Lemma user_lookup m u : get_user_connections m u = lookup_ids m (index_ids m (ByUser u)).
Proof. unfold get_user_connections. simpl. by destruct (_ !! u). Qed.
Lemma tenant_lookup m n : get_tenant_connections m n = lookup_ids m (index_ids m (ByTenant n)).
Proof. unfold get_tenant_connections. simpl. unfold idx_get. by destruct (_ !! n). Qed.
Lemma channel_lookup m c : get_channel_connections m c = lookup_ids m (index_ids m (ByChannel c)).
Proof. unfold get_channel_connections. simpl. unfold idx_get. by destruct (_ !! c). Qed.

Lemma query_alone m q : rtc goes_on (m, Query q) (m, Answered q (lookup_ids m (index_ids m q))).
Proof. next. apply collect. Qed.

Lemma register_alone m u n rs fresh now l :
  let r := register_with_limits m u n rs l fresh now in
  rtc goes_on (m, Register (handle_new u n rs fresh now) l) (r.2, Registered r.1).
Proof.
  unfold register_with_limits, check_limits. eapply rtc_l; [done|]. unfold total_full, reached. simpl. case_match.
  { by apply rtc_once. }
  eapply rtc_l; [done|]. unfold user_full, reached. simpl. case_match; [done|].
  do 3 (eapply rtc_l; [done|]). done.
Qed.

Lemma unregister_alone m i :
  hd i = false -> (forall h, connections m !! i = Some h -> conn_id h = i) ->
  rtc goes_on (m, Unregister i) (unregister m i, Unregistered).
Proof.
  intros Hd Id. unfold unregister. destruct (connections m !! i) as [h|] eqn:E.
  - pose proof (Id h eq_refl) as E'. eapply rtc_l; [unfold goes_on; simpl; by rewrite Hd, E|]. etrans; [apply leave_user|]. etrans; [apply leave_tenant|].
    etrans; [apply leave_channels|]. simpl. by rewrite E'.
  - eapply rtc_l; [unfold goes_on; simpl; by rewrite Hd, E|]. done.
Qed.

Lemma subscribe_alone m i c :
  let r := subscribe_to_channel m i c in rtc goes_on (m, Subscribe i c) (r.2, Subscribed r.1).
Proof.
  unfold subscribe_to_channel. destruct (connections m !! i) as [h|] eqn:E; [|by next].
  next. eapply rtc_l; [unfold goes_on; simpl; by rewrite E|]. unfold subscriptions_full, reached. case_match; [done|].
  next. next. done.
Qed.

Lemma unsubscribe_alone m i c : rtc goes_on (m, Unsubscribe i c) (unsubscribe_from_channel m i c, Unsubscribed).
Proof.
  unfold unsubscribe_from_channel. destruct (connections m !! i) as [h|] eqn:E; [|by next].
  next. next. unfold idx_remove. destruct (channel_index m !! c) as [ids|] eqn:F.
  - case_decide; next; [|done]. next. unfold on_channel_index, on_connections. simpl. by rewrite delete_insert_eq.
  - next. done.
Qed.
End alone.

Lemma sequential_alone hd m t m' t' :
  sequential m t = Some (m', t') ->
  (forall h l, t = Register h l -> exists u n rs fresh now, h = handle_new u n rs fresh now) ->
  (forall i, t = Unregister i -> hd i = false) ->
  (forall i h, connections m !! i = Some h -> conn_id h = i) ->
  rtc (goes_on hd) (m, t) (m', t').
Proof.
  intros Q N U Id. destruct t; simpl in Q; try destruct q; simplify_eq.
  - destruct (N h l eq_refl) as (u & n & rs & fresh & now & ->). apply register_alone.
  - apply unregister_alone; auto.
  - apply subscribe_alone.
  - apply unsubscribe_alone.
  - by apply rtc_once.
  - rewrite user_lookup. apply query_alone.
  - rewrite tenant_lookup. apply query_alone.
  - rewrite channel_lookup. apply query_alone.
Qed.

Lemma held_last ts t m : task_step (held (ts ++ [t])) m t = task_step (held ts) m t.
Proof.
  destruct t; try done. simpl. unfold held. rewrite existsb_app. simpl. by rewrite !orb_false_r.
Qed.

Lemma goes_on_steps permits ts iss x y :
  rtc (goes_on (held ts)) x y -> rtc (step permits) (mkSys x.1 (ts ++ [x.2]) iss) (mkSys y.1 (ts ++ [y.2]) iss).
Proof.
  induction 1 as [x|x y z H _ IH]; [done|]. eapply rtc_l; [|apply IH].
  pose proof (step_task permits (mkSys x.1 (ts ++ [x.2]) iss) (length ts) x.2 y.1 y.2) as S. simpl in S.
  rewrite list_lookup_middle, held_last, insert_app_r_alt, Nat.sub_diag in S by lia.
  apply S; [done|]. rewrite H. by destruct y.
Qed.

(** C13: Whatever other calls have got to, a call that begins and is not disturbed
    while it runs returns, with the result and the effect of the one function
    that models it; an unregistration needs that nobody holds the guard of its
    connection. *)
Theorem undisturbed_call permits l s t :
  rtc (step permits) (idle l) s -> starts permits s t ->
  (forall i, t = Unregister i -> held (tasks s) i = false) ->
  exists m' t', sequential (mgr s) t = Some (m', t') /\ finished t' = true /\
    rtc (step permits) s (mkSys m' (tasks s ++ [t']) (issue t (issued s))).
Proof.
  intros K%known_reachable St U.
  assert (Q : exists m' t', sequential (mgr s) t = Some (m', t') /\ finished t' = true)
    by (destruct St; simpl; eauto; destruct q; eauto).
  destruct Q as (m' & t' & Q & F). exists m', t'. split; [done|]. split; [done|].
  eapply rtc_l; [by apply step_start|].
  apply (goes_on_steps permits (tasks s) (issue t (issued s)) (mgr s, t) (m', t')).
  eapply sequential_alone; [done| |done|intros i h Hh; by apply K in Hh as [? _]].
  intros h l' ->. inversion St. eauto 7.
Qed.

(** ** Concrete interleavings *)

(** The calls at the given places of the list, one access each; [None] if one
    of them cannot go on or [ok] refuses the step. *)
Fixpoint play (ok : Sys -> Task -> Sys -> bool) (ks : list nat) (s : Sys) : option Sys :=
  match ks with
  | [] => Some s
  | k :: ks =>
    t ← tasks s !! k;
    r ← task_step (held (tasks s)) (mgr s) t;
    let s' := mkSys r.1 (<[k := r.2]> (tasks s)) (issued s) in
    if ok s t s' then play ok ks s' else None
  end.

Definition begin (t : Task) (s : Sys) : Sys := mkSys (mgr s) (tasks s ++ [t]) (issue t (issued s)).

Definition anything (s : Sys) (t : Task) (s' : Sys) : bool := true.
Definition few (K : nat) (s : Sys) (t : Task) (s' : Sys) : bool := (count_if in_flight (tasks s') <=? K)%nat.
Lemma play_runs (ok : Sys -> Task -> Sys -> bool) (R : Sys -> Sys -> Prop) ks s s' :
  (forall s k t m' t', tasks s !! k = Some t -> task_step (held (tasks s)) (mgr s) t = Some (m', t') ->
     let s' := mkSys m' (<[k := t']> (tasks s)) (issued s) in ok s t s' = true -> R s s') ->
  play ok ks s = Some s' -> rtc R s s'.
Proof.
  intros HR. revert s. induction ks as [|k ks IH]; simpl; intros s; [by intros [= ->]|].
  destruct (tasks s !! k) as [t|] eqn:E; [|done]. simpl.
  destruct (task_step _ _ t) as [[m' t']|] eqn:H; [|done]. simpl. case_match eqn:F; [|done]. intros P%IH.
  eapply rtc_l; [|exact P]. by eapply HR.
Qed.

Lemma play_crowded permits K ks s s' : play (few K) ks s = Some s' -> rtc (crowded permits K) s s'.
Proof. apply play_runs. intros ? k t m' t' E H ? F. split; [by eapply step_task|by apply Nat.leb_le]. Qed.

Lemma play_steps permits ks s s' : play anything ks s = Some s' -> rtc (step permits) s s'.
Proof. apply play_runs. intros ? k t m' t' E H ? _. by eapply step_task. Qed.

Lemma crowded_steps permits K s s' : rtc (crowded permits K) s s' -> rtc (step permits) s s'.
Proof. apply rtc_subrel. by intros ? ? [? _]. Qed.

Lemma begin_crowded permits K t s :
  starts permits s t -> (count_if in_flight (tasks s ++ [t]) <= K)%nat -> crowded permits K s (begin t s).
Proof. intros St C. split; [by apply step_start|done]. Qed.

Section witnesses.
Definition one_connection : ConnectionLimits :=
  {| max_connections := 1; max_connections_per_user := 0; max_subscriptions_per_connection := 0 |}.
Definition own_channels (n c : string) : Prop := c = n +:+ ":orders".
Definition first : Task := Register (handle_new "alice" "acme" [] 1%N 0) one_connection.
Definition second : Task := Register (handle_new "alice" "acme" [] 2%N 0) one_connection.

(** Two registrations check before either inserts. *)
Definition both : Sys := begin second (begin first (idle one_connection)).
Definition both_in : Sys := default both (play (few 2) [0; 1; 0; 1; 0; 1; 0; 0; 1; 1]%nat both).

Lemma both_start : rtc (crowded own_channels 2) (idle one_connection) both.
Proof.
  eapply rtc_l; [apply (begin_crowded own_channels 2 first); [by constructor|simpl; lia]|].
  apply rtc_once, (begin_crowded own_channels 2 second); [by constructor|simpl; lia].
Qed.

Lemma both_run : rtc (crowded own_channels 2) (idle one_connection) both_in.
Proof. etrans; [apply both_start|]. apply (play_crowded _ _ [0; 1; 0; 1; 0; 1; 0; 0; 1; 1]%nat). vm_compute. reflexivity. Qed.

Lemma overshoot_bounded_witness :
  size (connections (mgr both_in)) = 2%nat /\ nearly 2 1 (size (connections (mgr both_in))).
Proof.
  split; [vm_compute; reflexivity|]. apply (overshoot_bounded own_channels 2 one_connection both_in both_run).
Defined.

Lemma both_reached : rtc (step own_channels) (idle one_connection) both_in.
Proof. exact (crowded_steps _ _ _ _ both_run). Qed.

(** A query that runs while the two are being unregistered. *)
Definition leaving_both : Sys := begin (Query (ByUser "alice")) (begin (Unregister 1%N) both_in).
Definition leaving_answered : Sys := default both (play anything [3; 2; 3; 3; 3; 2; 2; 2]%nat leaving_both).

Lemma leaving_reached : rtc (step own_channels) (idle one_connection) leaving_answered.
Proof.
  etrans; [exact both_reached|].
  eapply rtc_l; [apply step_start, (starts_unregister _ _ 1%N)|].
  { vm_compute. by eexists. }
  { apply Forall_forall. intros t Ht. vm_compute in Ht. repeat (apply elem_of_cons in Ht as [->|Ht]; [done|]). by apply not_elem_of_nil in Ht. }
  eapply rtc_l; [apply step_start, (starts_query _ _ (ByUser "alice"))|].
  apply (play_steps _ [3; 2; 3; 3; 3; 2; 2; 2]%nat). vm_compute. reflexivity.
Qed.

Lemma concurrent_answers_witness :
  exists h, Answered (ByUser "alice") [h] ∈ tasks leaving_answered /\ conn_id h = 2%N /\
    Forall (fun h => concerns own_channels (ByUser "alice") (owner h)) [h].
Proof.
  assert (A : Answered (ByUser "alice") [handle_new "alice" "acme" [] 2%N 0] ∈ tasks leaving_answered)
    by (vm_compute; repeat constructor).
  eexists. split; [exact A|]. split; [reflexivity|].
  apply (concurrent_answers own_channels one_connection leaving_answered _ _ leaving_reached). left. exact A.
Defined.

Lemma undisturbed_call_witness :
  exists m' t', sequential (mgr both_in) (Touch 1%N 5) = Some (m', t') /\ finished t' = true.
Proof.
  destruct (undisturbed_call own_channels one_connection both_in (Touch 1%N 5) both_reached) as (m' & t' & H & F & _);
    [constructor|done|]. exists m', t'. split; [exact H|exact F].
Defined.
End witnesses.
