(* ===== verification/Quiescence.v ===== *)
(** * Quiescence: what concurrent calls leave behind

    The calls of [Interleaving] while they run and once all have returned:
    each makes finitely many accesses ([Locks] has what they wait for); no
    index then names a connection that is gone; and the manager is consistent
    ([Connection.wf]) unless an entry was refilled between the moment a call
    emptied it and the moment it dropped it, which does happen
    ([refilled_entry_lost]). *)
From Stdlib Require Import Wellfounded.
From S2P Require Import Prelude Tenant Connection Interleaving.

(** ** What the indices hold while calls are in progress *)

(** A call that has still to take [i] out of an index, or to put it in; a call
    that is about to drop the entry it has emptied. *)
Definition out_of_user (i : uuid) (t : Task) : Prop := match t with LeaveUser h => conn_id h = i | _ => False end.
Definition out_of_tenant (i : uuid) (t : Task) : Prop :=
  match t with LeaveUser h | DropUser h | LeaveTenant h => conn_id h = i | _ => False end.
Definition out_of_channel (i : uuid) (c : string) (t : Task) : Prop :=
  match t with
  | LeaveUser h | DropUser h | LeaveTenant h | DropTenant h => conn_id h = i /\ c ∈ subscriptions h
  | LeaveChannels h cs | DropChannel h _ cs => conn_id h = i /\ c ∈ cs
  | UnsubIndex j d => j = i /\ d = c
  | _ => False
  end.
Definition into_user (i : uuid) (t : Task) : Prop := match t with IndexUser h => conn_id h = i | _ => False end.
Definition into_tenant (i : uuid) (t : Task) : Prop :=
  match t with IndexUser h | IndexTenant h => conn_id h = i | _ => False end.
Definition into_channel (i : uuid) (c : string) (t : Task) : Prop :=
  match t with SubIndex j d => j = i /\ d = c | _ => False end.
Definition empties (q : Lookup) (t : Task) : Prop :=
  match q, t with
  | ByUser u, DropUser h => user_id h = u
  | ByTenant n, DropTenant h => tenant_id h = n
  | ByChannel c, DropChannel _ d _ | ByChannel c, UnsubDrop _ d => d = c
  | _, _ => False
  end.

Definition in_no_user_entry (m : ConnectionManager) (i : uuid) : Prop :=
  forall u, i ∉ default [] (user_index m !! u).

(** What a call knows of the manager from the accesses it has made. *)
Definition task_ok (m : ConnectionManager) (t : Task) : Prop :=
  match t with
  | Register h _ | CheckUser h _ | InsertHandle h =>
    connections m !! conn_id h = None /\ subscriptions h = ∅ /\ in_no_user_entry m (conn_id h)
  | IndexUser h => is_Some (connections m !! conn_id h) /\ in_no_user_entry m (conn_id h)
  | IndexTenant h => is_Some (connections m !! conn_id h)
  | LeaveUser h | DropUser h | LeaveTenant h | DropTenant h | LeaveChannels h _ | DropChannel h _ _ =>
    connections m !! conn_id h = None
  | SubCheck i _ | SubWrite i _ | UnsubWrite i _ | UnsubDrop i _ => is_Some (connections m !! i)
  | SubIndex i c => some_conn m i (fun h => c ∈ subscriptions h)
  | UnsubIndex i c => some_conn m i (fun h => c ∉ subscriptions h)
  | _ => True
  end.

(** Calls that do not get in each other's way: no two register one id, none
    unregisters an id that is being registered, none changes the subscriptions
    of a connection while another does. *)
Definition compatible (t u : Task) : Prop :=
  (forall i, registering t = Some i -> registering u <> Some i /\ leaving u <> Some i) /\
  (forall i, serving t = Some i -> serving u <> Some i).
Definition apart (ts : list Task) : Prop :=
  forall j k t u, j <> k -> ts !! j = Some t -> ts !! k = Some u -> compatible t u.

Lemma held_false ts i k t : held ts i = false -> ts !! k = Some t -> guards t <> Some i.
Proof.
  unfold held. intros H E G. enough (existsb (fun t => bool_decide (guards t = Some i)) ts = true) by congruence.
  apply existsb_exists. exists t. split; [|by apply bool_decide_eq_true].
  apply list_elem_of_In. by eapply list_elem_of_lookup_2.
Qed.

(** The ids a call is about stay the same. *)
Definition narrower {A} (x y : option A) : Prop := forall a, x = Some a -> y = Some a.

Lemma step_ids hd m t m' t' :
  (forall i h, connections m !! i = Some h -> conn_id h = i) -> task_step hd m t = Some (m', t') ->
  narrower (registering t') (registering t) /\ narrower (leaving t') (leaving t) /\ narrower (serving t') (serving t).
Proof.
  intros Id H. access H; split_and!; intros ?; simpl; try done.
  match goal with E : connections _ !! _ = Some _ |- _ => by rewrite (Id _ _ E) end.
Qed.

Lemma apart_step ts k t t' :
  apart ts -> ts !! k = Some t ->
  narrower (registering t') (registering t) -> narrower (leaving t') (leaving t) -> narrower (serving t') (serving t) ->
  apart (<[k := t']> ts).
Proof.
  intros A E R Lv Sv i j u v N Hu Hv.
  apply list_lookup_insert_Some in Hu as [(<- & <- & _)|[Nu Hu]];
    apply list_lookup_insert_Some in Hv as [(<- & <- & _)|[Nv Hv]]; [done|..].
  - destruct (A _ _ _ _ N E Hv) as [C1 C2]. split; intros a Ha; [apply C1|apply C2]; auto.
  - destruct (A _ _ _ _ N Hu E) as [C1 C2]. split; intros a Ha.
    + destruct (C1 a Ha). split; intros X; [apply R in X|apply Lv in X]; done.
    + intros X%Sv. by destruct (C2 a Ha).
  - exact (A _ _ _ _ N Hu Hv).
Qed.

(** ** The invariant of every interleaving *)

Section invariant.
Context (permits : string -> string -> Prop).

(** Nothing but calls in progress keeps an index from naming registered
    connections only, and from having no empty entry. *)
Record settled (s : Sys) : Prop := {
  settled_known : known permits s;
  settled_apart : apart (tasks s);
  settled_tasks : Forall (task_ok (mgr s)) (tasks s);
  settled_user : forall u i, i ∈ default [] (user_index (mgr s) !! u) ->
    is_Some (connections (mgr s) !! i) \/ has_one (tasks s) (out_of_user i);
  settled_tenant : forall n i, i ∈ idx_get (tenant_index (mgr s)) n ->
    is_Some (connections (mgr s) !! i) \/ has_one (tasks s) (out_of_tenant i);
  settled_channel : forall c i, i ∈ idx_get (channel_index (mgr s)) c ->
    some_conn (mgr s) i (fun h => c ∈ subscriptions h) \/ has_one (tasks s) (out_of_channel i c);
  settled_nodup : forall u ids, user_index (mgr s) !! u = Some ids -> NoDup ids;
  settled_user_entry : forall u, user_index (mgr s) !! u = Some [] -> has_one (tasks s) (empties (ByUser u));
  settled_tenant_entry : forall n, tenant_index (mgr s) !! n = Some ∅ -> has_one (tasks s) (empties (ByTenant n));
  settled_channel_entry : forall c, channel_index (mgr s) !! c = Some ∅ -> has_one (tasks s) (empties (ByChannel c));
}.

(** A connection is registered until it is unregistered, and its
    subscriptions change only by the call that serves it. *)
Lemma step_conn hd m t m' t' i h :
  task_ok m t -> task_step hd m t = Some (m', t') -> connections m !! i = Some h ->
  (t = Unregister i /\ t' = LeaveUser h) \/
  exists h', connections m' !! i = Some h' /\ owner h' = owner h /\
    (subscriptions h' = subscriptions h \/
     (exists c, t = SubWrite i c /\ subscriptions h' = {[c]} ∪ subscriptions h) \/
     (exists c, t = UnsubWrite i c /\ subscriptions h' = subscriptions h ∖ {[c]})).
Proof.
  intros O H Hi. access H; eauto 6.
  - destruct (decide (conn_id h0 = i)) as [<-|N]; [destruct O; congruence|]. rewrite lookup_insert_ne by done. eauto 6.
  - destruct (decide (i0 = i)) as [<-|N]; [left; naive_solver congruence|]. rewrite lookup_delete_ne by done. eauto 6.
  - destruct (decide (i0 = i)) as [<-|N]; [|rewrite lookup_insert_ne by done; eauto 6]. rewrite lookup_insert_eq.
    simplify_eq. eauto 9.
  - destruct (decide (i0 = i)) as [<-|N]; [|rewrite lookup_insert_ne by done; eauto 6]. rewrite lookup_insert_eq.
    simplify_eq. eauto 9.
  - unfold touch. case_match; simpl; [|eauto 6].
    destruct (decide (i0 = i)) as [<-|N]; [|rewrite lookup_insert_ne by done; eauto 6]. rewrite lookup_insert_eq.
    simplify_eq. eauto 9.
Qed.

Lemma step_none hd m t m' t' i :
  task_step hd m t = Some (m', t') -> registering t <> Some i -> connections m !! i = None -> connections m' !! i = None.
Proof.
  intros H N Hi. destruct (connections m' !! i) as [h|] eqn:E; [|done].
  destruct (step_handles _ _ _ _ _ _ _ H E) as [[-> ->]|(h0 & ? & _)]; [done|congruence].
Qed.

Lemma step_no_entry hd m t m' t' i :
  task_step hd m t = Some (m', t') -> registering t <> Some i -> in_no_user_entry m i -> in_no_user_entry m' i.
Proof.
  intros H N Hi u E. destruct (step_user_index _ _ _ _ _ _ _ H E) as [(h & -> & -> & ->)|E']; [done|by apply (Hi u)].
Qed.

(** What a call knows survives the accesses of the others. *)
Lemma task_ok_other ts k m t m' t' u :
  task_ok m t -> compatible t u -> compatible u t -> ts !! k = Some u ->
  task_step (held ts) m t = Some (m', t') -> task_ok m u -> task_ok m' u.
Proof.
  intros O [R1 S1] [R2 S2] Hk H U.
  assert (Kept : forall i, is_Some (connections m !! i) -> leaving t <> Some i -> is_Some (connections m' !! i)).
  { intros i [h Hi] L. destruct (step_conn _ _ _ _ _ _ _ O H Hi) as [[-> _]|(h' & ? & _)]; [done|by eexists]. }
  assert (Guarded : forall i, guards u = Some i -> forall h, connections m !! i = Some h -> exists h',
            connections m' !! i = Some h' /\ (serving t <> Some i -> subscriptions h' = subscriptions h)).
  { intros i G h Hi. destruct (step_conn _ _ _ _ _ _ _ O H Hi) as [[-> ->]|(h' & Hi' & _ & Sub)].
    - exfalso. simpl in H. destruct (held ts i) eqn:E; [done|]. by destruct (held_false _ _ _ _ E Hk).
    - exists h'. split; [done|]. destruct Sub as [?|[(c & -> & _)|(c & -> & _)]]; done. }
  assert (RR : forall i, registering u = Some i -> registering t <> Some i) by (intros i X; by apply R2).
  assert (RL : forall i, registering u = Some i -> leaving t <> Some i) by (intros i X; by apply R2).
  assert (LR : forall i, leaving u = Some i -> registering t <> Some i).
  { intros i X Y. by destruct (R1 i Y). }
  clear R1 R2 S1. destruct u; simpl in *; try done.
  all: try (destruct U as (U1 & U2 & U3); split_and!; [eapply step_none|done|eapply step_no_entry]; eauto).
  all: try (destruct U as (U1 & U2); split; [apply Kept; [done|by apply RL]|eapply step_no_entry; eauto]).
  all: try (eapply step_none; eauto; fail).
  all: try (apply Kept; [done|by apply RL]).
  all: try (destruct U as [h U]; destruct (Guarded _ eq_refl h U) as (h' & X & _); by eexists).
  all: destruct U as (h & U1 & U2); destruct (Guarded _ eq_refl h U1) as (h' & X & Y); exists h'; split; [done|].
  all: rewrite Y; [done|by apply S2].
Qed.

Lemma task_ok_self hd m t m' t' :
  (forall i h, connections m !! i = Some h -> conn_id h = i) ->
  task_ok m t -> task_step hd m t = Some (m', t') -> task_ok m' t'.
Proof.
  intros Id O H. access H; try done; try (by eexists).
  - destruct O as (O1 & O2 & O3). split; [|done]. rewrite lookup_insert_eq. by eexists.
  - by destruct O.
  - match goal with E : connections _ !! _ = Some _ |- _ => rewrite (Id _ _ E) end. apply lookup_delete_eq.
  - unfold some_conn; simpl. rewrite lookup_insert_eq. eexists. split; [done|]. simpl. set_solver.
  - unfold some_conn; simpl. rewrite lookup_insert_eq. eexists. split; [done|]. simpl. set_solver.
  - destruct O as (h & O & _). by eexists.
Qed.

(** A call makes its next access in a settled state. *)
Record moves (s : Sys) (k : nat) (t : Task) (m' : ConnectionManager) (t' : Task) : Prop := {
  moves_settled : settled s;
  moves_task : tasks s !! k = Some t;
  moves_step : task_step (held (tasks s)) (mgr s) t = Some (m', t');
}.
#[local] Arguments moves_settled {s k t m' t'} _.
#[local] Arguments moves_task {s k t m' t'} _.
#[local] Arguments moves_step {s k t m' t'} _.


Lemma self_ok {s k t m' t'} : moves s k t m' t' -> task_ok (mgr s) t.
Proof. intros [W E _]. exact (proj1 (Forall_lookup _ _) (settled_tasks _ W) _ _ E). Qed.
Lemma self_known {s k t m' t'} : moves s k t m' t' -> task_known permits (issued s) t.
Proof. intros [W E _]. exact (proj1 (Forall_lookup _ _) (known_tasks _ _ (settled_known _ W)) _ _ E). Qed.
Lemma conn_ids {s} i h : settled s -> connections (mgr s) !! i = Some h -> conn_id h = i.
Proof. intros W Hi. by apply (settled_known _ W) in Hi as [? _]. Qed.

(** A call still pending after the step, unless it was this one. *)
Lemma pending_step {s k t m' t'} (P : Task -> Prop) :
  moves s k t m' t' -> has_one (tasks s) P -> P t \/ has_one (<[k := t']> (tasks s)) P.
Proof. intros M. apply has_one_step, M. Qed.
Lemma pending_here {s k t m' t'} (P : Task -> Prop) : moves s k t m' t' -> P t' -> has_one (<[k := t']> (tasks s)) P.
Proof. intros M. apply (has_one_here _ _ t), M. Qed.

Lemma registered_step {s k t m' t'} i (P : Task -> Prop) :
  moves s k t m' t' -> is_Some (connections (mgr s) !! i) -> (forall h, t' = LeaveUser h -> conn_id h = i -> P t') ->
  is_Some (connections m' !! i) \/ has_one (<[k := t']> (tasks s)) P.
Proof.
  intros M [h Hi] L. destruct (step_conn _ _ _ _ _ _ _ (self_ok M) (moves_step M) Hi) as [[_ Ht]|(h' & ? & _)].
  - right. apply (pending_here _ M). apply (L h); [done|]. exact (conn_ids _ _ (moves_settled M) Hi).
  - left. by eexists.
Qed.

(** Where the index of a user held an id the step has removed. *)
Lemma left_user {s k t m' t'} h u i :
  moves s k t m' t' -> t = LeaveUser h -> i = conn_id h -> i ∈ default [] (user_index (mgr s) !! u) ->
  i ∉ default [] (user_index m' !! u).
Proof.
  intros M -> -> Hi. pose proof (self_known M) as Kn. destruct M as [W E H]. simpl in *.
  destruct (known_user _ _ (settled_known _ W) _ _ Hi) as (o & Ho & Hu). rewrite Kn in Ho. injection Ho as <-. simpl in *. subst u.
  destruct (user_index (mgr s) !! user_id h) as [ids|]; simplify_eq; simpl; [|set_solver].
  rewrite lookup_insert_eq. simpl. rewrite list_elem_of_filter. naive_solver.
Qed.

Lemma settled_user_step {s k t m' t'} u i :
  moves s k t m' t' -> i ∈ default [] (user_index m' !! u) ->
  is_Some (connections m' !! i) \/ has_one (<[k := t']> (tasks s)) (out_of_user i).
Proof.
  intros M Hi. assert (R : is_Some (connections (mgr s) !! i) ->
    is_Some (connections m' !! i) \/ has_one (<[k := t']> (tasks s)) (out_of_user i))
    by (intros R; apply (registered_step _ _ M R); by intros h -> <-).
  destruct (step_user_index _ _ _ _ _ _ _ (moves_step M) Hi) as [(h & Ht & -> & ->)|Hi0].
  { apply R. pose proof (self_ok M) as O. rewrite Ht in O. by destruct O. }
  destruct (settled_user _ (moves_settled M) _ _ Hi0) as [|[O|]%(pending_step _ M)]; [by apply R| |by right].
  destruct t; try done. simpl in O. by destruct (left_user _ u i M eq_refl (eq_sym O) Hi0).
Qed.

Lemma left_tenant {s k t m' t'} h n i :
  moves s k t m' t' -> t = LeaveTenant h -> i = conn_id h -> i ∈ idx_get (tenant_index (mgr s)) n ->
  i ∉ idx_get (tenant_index m') n.
Proof.
  intros M -> -> Hi. pose proof (self_known M) as Kn. destruct M as [W E H]. simpl in *.
  destruct (known_tenant _ _ (settled_known _ W) _ _ Hi) as (o & Ho & Hn). rewrite Kn in Ho. injection Ho as <-.
  simpl in *. subst n. unfold idx_get in *.
  destruct (tenant_index (mgr s) !! tenant_id h) as [ids|]; simplify_eq; simpl; [|set_solver].
  rewrite lookup_insert_eq. set_solver.
Qed.

Lemma settled_tenant_step {s k t m' t'} n i :
  moves s k t m' t' -> i ∈ idx_get (tenant_index m') n ->
  is_Some (connections m' !! i) \/ has_one (<[k := t']> (tasks s)) (out_of_tenant i).
Proof.
  intros M Hi. assert (R : is_Some (connections (mgr s) !! i) ->
    is_Some (connections m' !! i) \/ has_one (<[k := t']> (tasks s)) (out_of_tenant i))
    by (intros R; apply (registered_step _ _ M R); by intros h -> <-).
  destruct (step_tenant_index _ _ _ _ _ _ _ (moves_step M) Hi) as [(h & Ht & -> & ->)|Hi0].
  { apply R. pose proof (self_ok M) as O. by rewrite Ht in O. }
  destruct (settled_tenant _ (moves_settled M) _ _ Hi0) as [|[O|]%(pending_step _ M)]; [by apply R| |by right].
  pose proof (moves_step M) as H. destruct t; try done; simpl in O.
  - right. apply (pending_here _ M). simpl in H. repeat case_match; by simplify_eq.
  - right. apply (pending_here _ M). simpl in H. by simplify_eq.
  - by destruct (left_tenant _ n i M eq_refl (eq_sym O) Hi0).
Qed.

(** A registered subscriber after the step. *)
Lemma subscriber_step {s k t m' t'} i c :
  moves s k t m' t' -> some_conn (mgr s) i (fun h => c ∈ subscriptions h) ->
  some_conn m' i (fun h => c ∈ subscriptions h) \/ has_one (<[k := t']> (tasks s)) (out_of_channel i c).
Proof.
  intros M (h & Hi & Hc).
  destruct (step_conn _ _ _ _ _ _ _ (self_ok M) (moves_step M) Hi) as [[_ Ht]|(h' & Hi' & _ & Sub)].
  - right. apply (pending_here _ M). rewrite Ht. split; [exact (conn_ids _ _ (moves_settled M) Hi)|done].
  - destruct Sub as [Sub|[(d & _ & Sub)|(d & Ht & Sub)]];
      [left; exists h'; rewrite Sub; set_solver..|].
    destruct (decide (d = c)) as [->|N]; [right|left; exists h'; rewrite Sub; set_solver].
    apply (pending_here _ M). pose proof (moves_step M) as H. rewrite Ht in H. simpl in H. rewrite Hi in H.
    simpl in H. by simplify_eq.
Qed.

Lemma idx_get_None ix k : ix !! k = None -> idx_get ix k = ∅.
Proof. unfold idx_get. by intros ->. Qed.

(** A call that has to take [i] out of a channel either still has to, or has
    just done so. *)
Lemma left_channel {s k t m' t'} i c :
  moves s k t m' t' -> out_of_channel i c t -> i ∈ idx_get (channel_index (mgr s)) c ->
  out_of_channel i c t' \/ i ∉ idx_get (channel_index m') c.
Proof.
  intros [_ _ H] O Hi. access H; try done; eauto; try (destruct O; set_solver).
  - destruct O as [<- [->|O]%elem_of_cons]; [right; rewrite idx_get_set|left; naive_solver].
    rewrite decide_True by done. set_solver.
  - destruct O as [<- [->|O]%elem_of_cons]; [right; rewrite idx_get_set|left; naive_solver].
    rewrite decide_True by done. set_solver.
  - destruct O as [<- [->|O]%elem_of_cons]; [|left; naive_solver].
    right. by rewrite idx_get_None by done.
  - destruct O as [-> ->]. right. rewrite idx_get_set, decide_True by done. set_solver.
  - destruct O as [-> ->]. right. rewrite idx_get_set, decide_True by done. set_solver.
  - destruct O as [-> ->]. right. by rewrite idx_get_None by done.
Qed.

Lemma settled_channel_step {s k t m' t'} c i :
  moves s k t m' t' -> i ∈ idx_get (channel_index m') c ->
  some_conn m' i (fun h => c ∈ subscriptions h) \/ has_one (<[k := t']> (tasks s)) (out_of_channel i c).
Proof.
  intros M Hi. destruct (step_channel_index _ _ _ _ _ _ _ (moves_step M) Hi) as [Ht|Hi0].
  { apply (subscriber_step _ _ M). pose proof (self_ok M) as O. by rewrite Ht in O. }
  destruct (settled_channel _ (moves_settled M) _ _ Hi0) as [|[O|]%(pending_step _ M)];
    [by apply (subscriber_step _ _ M)| |by right].
  destruct (left_channel i c M O Hi0) as [O'|N]; [right; by apply (pending_here _ M)|done].
Qed.

Lemma settled_nodup_step {s k t m' t'} u ids :
  moves s k t m' t' -> user_index m' !! u = Some ids -> NoDup ids.
Proof.
  intros M. pose proof (self_ok M) as O. destruct M as [W E H]. pose proof (settled_nodup _ W u) as N.
  access H; eauto; rewrite ?lookup_insert_Some, ?lookup_delete_Some.
  - unfold push_id. rewrite lookup_insert_Some. intros [[<- <-]|[_ ?]]; [|eauto].
    destruct O as [_ O]. apply NoDup_app. split; [|split; [|apply NoDup_singleton]].
    + destruct (user_index (mgr s) !! user_id h) eqn:F; simpl; [by apply N|constructor].
    + intros x Hx ->%list_elem_of_singleton. by apply (O (user_id h)).
  - intros [[<- <-]|[_ ?]]; [|eauto]. apply NoDup_filter. by eapply settled_nodup.
  - intros [[<- <-]|[_ ?]]; [|eauto]. apply NoDup_filter. by eapply settled_nodup.
  - naive_solver.
  - unfold touch. case_match; simpl; eauto.
Qed.

(** An entry is empty only while the call that emptied it has not dropped it. *)
Lemma user_entry_step {s k t m' t'} u :
  moves s k t m' t' -> user_index m' !! u = Some [] -> has_one (<[k := t']> (tasks s)) (empties (ByUser u)).
Proof.
  intros M F. assert (Old : user_index (mgr s) !! u = Some [] -> ~ empties (ByUser u) t ->
    has_one (<[k := t']> (tasks s)) (empties (ByUser u))).
  { intros G N. by destruct (pending_step _ M (settled_user_entry _ (moves_settled M) _ G)). }
  assert (Here : empties (ByUser u) t' -> has_one (<[k := t']> (tasks s)) (empties (ByUser u)))
    by (by apply (pending_here _ M)).
  destruct M as [W E H]. access H; eauto; rewrite ?lookup_insert_Some, ?lookup_delete_Some in F; try naive_solver.
  - unfold push_id in F. rewrite lookup_insert_Some in F. destruct F as [[_ F]|[_ F]]; [|eauto]. by destruct (default _ _).
  - unfold touch in F. case_match; simpl in F; eauto.
Qed.

Lemma tenant_entry_step {s k t m' t'} n :
  moves s k t m' t' -> tenant_index m' !! n = Some ∅ -> has_one (<[k := t']> (tasks s)) (empties (ByTenant n)).
Proof.
  intros M F. assert (Old : tenant_index (mgr s) !! n = Some ∅ -> ~ empties (ByTenant n) t ->
    has_one (<[k := t']> (tasks s)) (empties (ByTenant n))).
  { intros G N. by destruct (pending_step _ M (settled_tenant_entry _ (moves_settled M) _ G)). }
  assert (Here : empties (ByTenant n) t' -> has_one (<[k := t']> (tasks s)) (empties (ByTenant n)))
    by (by apply (pending_here _ M)).
  destruct M as [W E H]. access H; eauto; rewrite ?lookup_insert_Some, ?lookup_delete_Some in F; try naive_solver.
  - unfold idx_insert in F. rewrite lookup_insert_Some in F. destruct F as [[_ F]|[_ F]]; [set_solver|eauto].
  - unfold touch in F. case_match; simpl in F; eauto.
Qed.

Lemma channel_entry_step {s k t m' t'} c :
  moves s k t m' t' -> channel_index m' !! c = Some ∅ -> has_one (<[k := t']> (tasks s)) (empties (ByChannel c)).
Proof.
  intros M F. assert (Old : channel_index (mgr s) !! c = Some ∅ -> ~ empties (ByChannel c) t ->
    has_one (<[k := t']> (tasks s)) (empties (ByChannel c))).
  { intros G N. by destruct (pending_step _ M (settled_channel_entry _ (moves_settled M) _ G)). }
  assert (Here : empties (ByChannel c) t' -> has_one (<[k := t']> (tasks s)) (empties (ByChannel c)))
    by (by apply (pending_here _ M)).
  destruct M as [W E H]. access H; eauto; rewrite ?lookup_insert_Some, ?lookup_delete_Some in F; try naive_solver.
  - unfold idx_insert in F. rewrite lookup_insert_Some in F. destruct F as [[_ F]|[_ F]]; [set_solver|eauto].
  - unfold touch in F. case_match; simpl in F; eauto.
Qed.

(** A call that begins knows nothing yet and gets in nobody's way. *)
Lemma apart_start s t : known permits s -> apart (tasks s) -> starts permits s t -> apart (tasks s ++ [t]).
Proof.
  intros K A St.
  assert (New : forall j u, tasks s !! j = Some u -> compatible u t /\ compatible t u).
  { intros j u Hu. pose proof (proj1 (Forall_lookup _ _) (known_tasks _ _ K) _ _ Hu) as T.
    assert (F : forall i, issued s !! i = None -> registering u <> Some i /\ leaving u <> Some i).
    { intros i Hi. split; intros X; destruct u; simpl in *; simplify_eq; destruct T; congruence. }
    unfold compatible. destruct St as [? ? ? i ? Hi|i _ N|i ? ? _ _ N|i ? N| |]; simpl.
    all: try (apply (proj1 (Forall_lookup _ _) N) in Hu).
    - split; split; try done; intros a; [|intros [= <-]; auto].
      intros X. split; [|done]. intros [= ->]. by destruct (F _ Hi).
    - split; split; try done. intros a X. split; [done|]. congruence.
    - split; split; try done; intros a; congruence.
    - split; split; try done; intros a; congruence.
    - done.
    - done. }
  intros j k u v N Hu Hv. apply lookup_app_Some in Hu, Hv.
  destruct Hu as [Hu|[Lu Hu]], Hv as [Hv|[Lv Hv]]; try (apply list_lookup_singleton_Some in Hu as [? <-]);
    try (apply list_lookup_singleton_Some in Hv as [? <-]).
  - by eapply A.
  - by eapply New.
  - by eapply New.
  - lia.
Qed.

Lemma starts_ok s t : known permits s -> starts permits s t -> task_ok (mgr s) t.
Proof.
  intros K. destruct 1 as [u n rs i now F| | | | |]; simpl; try done. split; [|split; [done|]].
  - destruct (connections (mgr s) !! i) eqn:X; [|done]. apply K in X as [_ X]. congruence.
  - intros v X. apply (known_user _ _ K) in X as (o & X & _). congruence.
Qed.

Lemma settled_step s s' : settled s -> step permits s s' -> settled s'.
Proof.
  intros W St. pose proof (known_step _ _ _ (settled_known _ W) St) as K.
  destruct St as [k t m' t' E H|t St].
  - assert (M : moves s k t m' t') by done. pose proof (self_ok M) as O.
    assert (Id : forall i h, connections (mgr s) !! i = Some h -> conn_id h = i) by (intros i h; by apply conn_ids).
    split; simpl; try done.
    + destruct (step_ids _ _ _ _ _ Id H) as (R & L & S). eapply apart_step; eauto. apply W.
    + apply Forall_lookup. intros j u [(<- & <- & _)|[N Hu]]%list_lookup_insert_Some; [by eapply task_ok_self|].
      pose proof (proj1 (Forall_lookup _ _) (settled_tasks _ W) _ _ Hu) as U.
      exact (task_ok_other _ _ _ _ _ _ _ O (settled_apart _ W k j _ _ N E Hu)
        (settled_apart _ W j k _ _ (not_eq_sym N) Hu E) Hu H U).
    + intros u i. by apply (settled_user_step _ _ M).
    + intros n i. by apply (settled_tenant_step _ _ M).
    + intros c i. by apply (settled_channel_step _ _ M).
    + intros u ids. by apply (settled_nodup_step _ _ M).
    + intros u. by apply (user_entry_step _ M).
    + intros n. by apply (tenant_entry_step _ M).
    + intros c. by apply (channel_entry_step _ M).
  - pose proof (settled_known _ W) as K0. split; simpl; try done; try apply W.
    + apply apart_start; [done|apply W|done].
    + apply Forall_app_2; [apply W|]. constructor; [by apply starts_ok|constructor].
    + intros u i Hi. rewrite has_one_start. destruct (settled_user _ W _ _ Hi); auto.
    + intros n i Hi. rewrite has_one_start. destruct (settled_tenant _ W _ _ Hi); auto.
    + intros c i Hi. rewrite has_one_start. destruct (settled_channel _ W _ _ Hi); auto.
    + intros u Hu. rewrite has_one_start. left. by apply W.
    + intros n Hn. rewrite has_one_start. left. by apply W.
    + intros c Hc. rewrite has_one_start. left. by apply W.
Qed.

Lemma settled_idle l : settled (idle l).
Proof.
  split; simpl; unfold idx_get; intros *; rewrite ?lookup_empty; simpl; try done; try set_solver.
  by apply (known_reachable permits l).
Qed.

Lemma settled_reachable l s : rtc (step permits) (idle l) s -> settled s.
Proof. apply (rtc_ind_r settled); [apply settled_idle|eauto using settled_step]. Qed.

(** At rest: every call has returned. *)
Definition at_rest (s : Sys) : Prop := Forall (fun t => finished t = true) (tasks s).

Lemma rest_none s (P : Task -> Prop) : at_rest s -> (forall t, P t -> finished t = false) -> ~ has_one (tasks s) P.
Proof. intros R N (t & Ht & HP). apply (proj1 (Forall_forall _ _) R) in Ht. rewrite (N t HP) in Ht. done. Qed.

(** However the calls interleaved, once they have all returned no index names
    a connection that is not registered under that name, none holds an empty
    entry, and each connection stands at most once under its user. *)
Theorem no_stale_entries l s :
  rtc (step permits) (idle l) s -> at_rest s ->
  (forall u i, i ∈ index_ids (mgr s) (ByUser u) -> some_conn (mgr s) i (fun h => user_id h = u)) /\
  (forall n i, i ∈ index_ids (mgr s) (ByTenant n) -> some_conn (mgr s) i (fun h => tenant_id h = n)) /\
  (forall c i, i ∈ index_ids (mgr s) (ByChannel c) -> some_conn (mgr s) i (fun h => c ∈ subscriptions h)) /\
  (forall u ids, user_index (mgr s) !! u = Some ids -> NoDup ids /\ ids <> []) /\
  idx_compact (tenant_index (mgr s)) /\ idx_compact (channel_index (mgr s)).
Proof.
  intros W%settled_reachable R. pose proof (settled_known _ W) as K.
  assert (Q : forall q, ~ has_one (tasks s) (empties q)) by (intros q; apply rest_none; [done|]; by intros []; destruct q; simpl).
  split_and!; simpl.
  - intros u i Hi. destruct (settled_user _ W _ _ Hi) as [[h Hh]|Hp]; [|by destruct (rest_none s (out_of_user i) R (ltac:(by intros []; simpl)) Hp)].
    exists h. split; [done|]. apply K in Hi as (o & Ho & <-), Hh as [_ Hh]. by simplify_eq.
  - intros n i Hi%elem_of_elements.
    destruct (settled_tenant _ W _ _ Hi) as [[h Hh]|Hp]; [|by destruct (rest_none s (out_of_tenant i) R (ltac:(by intros []; simpl)) Hp)].
    exists h. split; [done|]. apply K in Hi as (o & Ho & <-), Hh as [_ Hh]. by simplify_eq.
  - intros c i Hi%elem_of_elements.
    destruct (settled_channel _ W _ _ Hi) as [|Hp]; [done|by destruct (rest_none s (out_of_channel i c) R (ltac:(by intros []; simpl)) Hp)].
  - intros u ids Hu. split; [by eapply settled_nodup|]. intros ->. by apply (settled_user_entry _ W), Q in Hu.
  - intros n Hn. by apply (settled_tenant_entry _ W), Q in Hn.
  - intros c Hc. by apply (settled_channel_entry _ W), Q in Hc.
Qed.

(** ** What can be lost

    [unregister] and [unsubscribe_from_channel] release the guard of an entry
    they have emptied before they remove it.  Whatever has entered it in
    between is lost. *)
Definition loses (m : ConnectionManager) (t : Task) : Prop :=
  match t with
  | DropUser h => default [] (user_index m !! user_id h) <> []
  | DropTenant h => idx_get (tenant_index m) (tenant_id h) <> ∅
  | DropChannel _ c _ | UnsubDrop _ c => idx_get (channel_index m) c <> ∅
  | _ => False
  end.

(** Steps that lose nothing. *)
Inductive careful (s : Sys) : Sys -> Prop :=
| careful_task k t m' t' : tasks s !! k = Some t -> task_step (held (tasks s)) (mgr s) t = Some (m', t') ->
  ~ loses (mgr s) t -> careful s (mkSys m' (<[k := t']> (tasks s)) (issued s))
| careful_start t : starts permits s t -> careful s (mkSys (mgr s) (tasks s ++ [t]) (issue t (issued s))).

Lemma careful_step s s' : careful s s' -> step permits s s'.
Proof. destruct 1; [by eapply step_task|by apply step_start]. Qed.

Record complete (s : Sys) : Prop := {
  complete_user : forall i h, connections (mgr s) !! i = Some h ->
    i ∈ default [] (user_index (mgr s) !! user_id h) \/ has_one (tasks s) (into_user i);
  complete_tenant : forall i h, connections (mgr s) !! i = Some h ->
    i ∈ idx_get (tenant_index (mgr s)) (tenant_id h) \/ has_one (tasks s) (into_tenant i);
  complete_channel : forall i h c, connections (mgr s) !! i = Some h -> c ∈ subscriptions h ->
    i ∈ idx_get (channel_index (mgr s)) c \/ has_one (tasks s) (into_channel i c);
}.

Lemma user_kept hd m t m' t' u i :
  task_step hd m t = Some (m', t') -> ~ loses m t -> i ∈ default [] (user_index m !! u) ->
  (exists h, t = LeaveUser h /\ conn_id h = i) \/ i ∈ default [] (user_index m' !! u).
Proof.
  intros H L Hi. access H; eauto; rewrite ?elem_of_push, ?elem_of_insert_list, ?elem_of_delete_list; eauto.
  - destruct (decide (conn_id h = i)); [eauto|right]. destruct (decide (u = user_id h)) as [->|]; [left|by right].
    rewrite H0 in Hi. split; [done|]. apply list_elem_of_filter. eauto.
  - destruct (decide (conn_id h = i)); [eauto|right]. destruct (decide (u = user_id h)) as [->|]; [left|by right].
    rewrite H0 in Hi. split; [done|]. apply list_elem_of_filter. eauto.
  - right. split; [|done]. intros ->. apply L. intros X. by rewrite X in Hi; apply not_elem_of_nil in Hi.
  - right. unfold touch. by case_match.
Qed.

Lemma tenant_kept hd m t m' t' n i :
  task_step hd m t = Some (m', t') -> ~ loses m t -> i ∈ idx_get (tenant_index m) n ->
  (exists h, t = LeaveTenant h /\ conn_id h = i) \/ i ∈ idx_get (tenant_index m') n.
Proof.
  intros H L Hi. access H; eauto; rewrite ?idx_get_insert, ?idx_get_set, ?idx_get_delete; eauto.
  - right. case_decide; set_solver.
  - destruct (decide (conn_id h = i)); [eauto|right]. case_decide; [subst|done].
    rewrite (idx_get_Some _ _ _ H0) in Hi. set_solver.
  - destruct (decide (conn_id h = i)); [eauto|right]. case_decide; [subst|done].
    rewrite (idx_get_Some _ _ _ H0) in Hi. set_solver.
  - right. case_decide; [subst|done]. destruct L. set_solver.
  - right. unfold touch. by case_match.
Qed.

Lemma channel_kept hd m t m' t' c i :
  task_step hd m t = Some (m', t') -> ~ loses m t -> i ∈ idx_get (channel_index m) c ->
  (exists h cs, t = LeaveChannels h (c :: cs) /\ conn_id h = i) \/ t = UnsubIndex i c \/ i ∈ idx_get (channel_index m') c.
Proof.
  intros H L Hi. access H; eauto; rewrite ?idx_get_insert, ?idx_get_set, ?idx_get_delete; eauto.
  all: try (unfold touch; by case_match; eauto; fail).
  all: try (right; right; case_decide; [subst; destruct L|]; set_solver).
  all: pose proof (fun g => idx_get_Some (channel_index m) c g) as G.
  - destruct (decide (conn_id h = i)), (decide (s = c)) as [->|]; eauto 6. apply G in H1. set_solver.
  - destruct (decide (conn_id h = i)), (decide (s = c)) as [->|]; eauto 6. apply G in H1. set_solver.
  - right; right. case_decide; set_solver.
  - destruct (decide (i0 = i)) as [->|], (decide (c0 = c)) as [->|]; eauto. apply G in H0. set_solver.
  - destruct (decide (i0 = i)) as [->|], (decide (c0 = c)) as [->|]; eauto. apply G in H0. set_solver.
Qed.

Lemma owner_fields h h0 : owner h = owner h0 -> user_id h = user_id h0 /\ tenant_id h = tenant_id h0.
Proof. unfold owner. by intros [= -> ->]. Qed.

(** The owner a call knows is the owner of the connection. *)
Lemma same_owner {s k t m' t'} h h' i :
  moves s k t m' t' -> issued s !! i = Some (owner h) -> connections (mgr s) !! i = Some h' -> owner h = owner h'.
Proof. intros M Hk Hi. apply (settled_known _ (moves_settled M)) in Hi as [_ Hi]. congruence. Qed.

Lemma complete_user_step {s k t m' t'} i h :
  moves s k t m' t' -> complete s -> ~ loses (mgr s) t -> connections m' !! i = Some h ->
  i ∈ default [] (user_index m' !! user_id h) \/ has_one (<[k := t']> (tasks s)) (into_user i).
Proof.
  intros M C L Hi. pose proof (self_ok M) as O. pose proof (self_known M) as Kn. pose proof (moves_step M) as H.
  destruct (step_handles _ _ _ _ _ _ _ H Hi) as [[-> ->]|(h0 & Hi0 & _ & Ow)].
  { right. apply (pending_here _ M). simpl in H. by simplify_eq. }
  destruct (owner_fields _ _ Ow) as [-> _]. destruct (complete_user _ C _ _ Hi0) as [E|P].
  - destruct (user_kept _ _ _ _ _ _ _ H L E) as [(h1 & -> & <-)|]; [|by left]. simpl in O. congruence.
  - apply (pending_step _ M) in P as [P|]; [|by right]. left. destruct t; try done. simpl in *. subst i. simplify_eq. simpl.
    apply elem_of_push. right. destruct (owner_fields _ _ (same_owner _ _ _ M Kn Hi0)). done.
Qed.

Lemma complete_tenant_step {s k t m' t'} i h :
  moves s k t m' t' -> complete s -> ~ loses (mgr s) t -> connections m' !! i = Some h ->
  i ∈ idx_get (tenant_index m') (tenant_id h) \/ has_one (<[k := t']> (tasks s)) (into_tenant i).
Proof.
  intros M C L Hi. pose proof (self_ok M) as O. pose proof (self_known M) as Kn. pose proof (moves_step M) as H.
  destruct (step_handles _ _ _ _ _ _ _ H Hi) as [[-> ->]|(h0 & Hi0 & _ & Ow)].
  { right. apply (pending_here _ M). simpl in H. by simplify_eq. }
  destruct (owner_fields _ _ Ow) as [_ ->]. destruct (complete_tenant _ C _ _ Hi0) as [E|P].
  - destruct (tenant_kept _ _ _ _ _ _ _ H L E) as [(h1 & -> & <-)|]; [|by left]. simpl in O. congruence.
  - apply (pending_step _ M) in P as [P|]; [|by right]. destruct t; try done; simpl in *; subst i; simplify_eq.
    + right. by apply (pending_here _ M).
    + left. simpl. rewrite idx_get_insert. destruct (owner_fields _ _ (same_owner _ _ _ M Kn Hi0)) as [_ ->].
      rewrite decide_True by done. set_solver.
Qed.

Lemma complete_channel_step {s k t m' t'} i h c :
  moves s k t m' t' -> complete s -> ~ loses (mgr s) t -> connections m' !! i = Some h -> c ∈ subscriptions h ->
  i ∈ idx_get (channel_index m') c \/ has_one (<[k := t']> (tasks s)) (into_channel i c).
Proof.
  intros M C L Hi Hc. pose proof (self_ok M) as O. pose proof (moves_step M) as H.
  destruct (step_handles _ _ _ _ _ _ _ H Hi) as [[-> ->]|(h0 & Hi0 & _)].
  { simpl in O. destruct O as (_ & O & _). set_solver. }
  assert (S : c ∈ subscriptions h0 \/ into_channel i c t').
  { destruct (step_conn _ _ _ _ _ _ _ O H Hi0) as [[-> ->]|(h' & Hi' & _ & Sub)].
    - simpl in H. repeat case_match; simplify_eq. simpl in Hi. by rewrite lookup_delete_eq in Hi.
    - assert (h' = h) as -> by congruence. destruct Sub as [<-|[(d & -> & E)|(d & -> & E)]]; [by left| |left; set_solver].
      rewrite E in Hc. apply elem_of_union in Hc as [->%elem_of_singleton|]; [right|by left].
      simpl in H. rewrite Hi0 in H. simpl in H. by simplify_eq. }
  destruct S as [S|S]; [|right; by apply (pending_here _ M)].
  destruct (complete_channel _ C _ _ _ Hi0 S) as [E|P].
  - destruct (channel_kept _ _ _ _ _ _ _ H L E) as [(h1 & cs & -> & <-)|[->|]]; [| |by left].
    + simpl in O. congruence.
    + destruct O as (h1 & O1 & O2). congruence.
  - apply (pending_step _ M) in P as [P|]; [|by right]. left. destruct t; try done. destruct P as [-> ->]. simpl in H.
    simplify_eq. simpl. rewrite idx_get_insert, decide_True by done. set_solver.
Qed.

Lemma complete_step s s' : settled s -> complete s -> careful s s' -> complete s'.
Proof.
  intros W C [k t m' t' E H L|t St].
  - assert (M : moves s k t m' t') by done. split; simpl; intros.
    + by apply (complete_user_step _ _ M).
    + by apply (complete_tenant_step _ _ M).
    + by eapply (complete_channel_step _ _ _ M).
  - destruct C as [U N Ch]. split; simpl; intros; rewrite has_one_start.
    + destruct (U i h); auto.
    + destruct (N i h); auto.
    + destruct (Ch i h c); auto.
Qed.

Lemma careful_reachable l s : rtc careful (idle l) s -> rtc (step permits) (idle l) s /\ complete s.
Proof.
  revert s. apply (rtc_ind_r (fun s => rtc (step permits) (idle l) s /\ complete s)).
  - split; [done|]. split; simpl; intros; by rewrite lookup_empty in *.
  - intros s s' _ C [R Co]. split; [eapply rtc_r; [done|by apply careful_step]|].
    eapply complete_step; [by eapply settled_reachable|done..].
Qed.

(** C7: The release of the guard is the only thing that goes wrong: in every
    interleaving in which no entry is refilled before it is dropped, the
    manager is consistent once all calls have returned. *)
Theorem careful_runs_consistent l s : rtc careful (idle l) s -> at_rest s -> wf (mgr s).
Proof.
  intros [R [U N C]]%careful_reachable A.
  destruct (no_stale_entries l s R A) as (SU & SN & SC & Ids & CN & CC).
  split; try done.
  - intros i h Hi. apply settled_reachable in R. by eapply conn_ids.
  - intros u i. split; [apply SU|]. intros (h & Hi & <-).
    destruct (U _ _ Hi) as [|P]; [done|by destruct (rest_none s (into_user i) A (ltac:(by intros []; simpl)) P)].
  - intros n i. specialize (SN n i). simpl in SN. rewrite elem_of_elements in SN. split; [done|]. intros (h & Hi & <-).
    destruct (N _ _ Hi) as [|P]; [done|by destruct (rest_none s (into_tenant i) A (ltac:(by intros []; simpl)) P)].
  - intros c i. specialize (SC c i). simpl in SC. rewrite elem_of_elements in SC. split; [done|]. intros (h & Hi & Hc).
    destruct (C _ _ _ Hi Hc) as [|P]; [done|by destruct (rest_none s (into_channel i c) A (ltac:(by intros []; simpl)) P)].
Qed.
End invariant.

(** ** Calls make finitely many accesses *)

(** A call that has begun goes on. *)
Inductive continues (s : Sys) : Sys -> Prop :=
| continues_task k t m' t' : tasks s !! k = Some t -> task_step (held (tasks s)) (mgr s) t = Some (m', t') ->
  continues s (mkSys m' (<[k := t']> (tasks s)) (issued s)).

(** The accesses a call has left at most: its stage, and what is left of the
    list it goes through there. *)
Definition stage (t : Task) : nat :=
  match t with
  | Unregister _ => 6
  | Register _ _ | LeaveUser _ => 5
  | CheckUser _ _ | DropUser _ | Subscribe _ _ | Unsubscribe _ _ => 4
  | InsertHandle _ | LeaveTenant _ | SubCheck _ _ | UnsubWrite _ _ => 3
  | IndexUser _ | DropTenant _ | SubWrite _ _ | UnsubIndex _ _ | Query _ => 2
  | RefuseTotal _ | IndexTenant _ | LeaveChannels _ _ | DropChannel _ _ _ | SubIndex _ _ | UnsubDrop _ _ | Touch _ _
  | Collect _ _ _ => 1
  | Registered _ | Unregistered | Subscribed _ | Unsubscribed | Touched | Answered _ _ => 0
  end.
Definition items_left (t : Task) : nat :=
  match t with
  | LeaveChannels _ cs => 2 * length cs + 1
  | DropChannel _ _ cs => 2 * length cs + 2
  | Collect _ ids _ => length ids
  | _ => 0
  end.

Definition shorter (x y : nat * nat) : Prop := (x.1 < y.1)%nat \/ (x.1 = y.1 /\ (x.2 < y.2)%nat).
Definition work_left (s : Sys) : nat * nat := (sum_list (stage <$> tasks s), sum_list (items_left <$> tasks s)).

Lemma shorter_wf : well_founded shorter.
Proof.
  intros [a b]. revert b. induction a as [a IHa] using (well_founded_induction lt_wf). intros b.
  induction b as [b IHb] using (well_founded_induction lt_wf). constructor. intros [c d]. unfold shorter. simpl. intros [L|[-> L]]; auto.
Qed.

Lemma sum_update (f : Task -> nat) ts k t t' :
  ts !! k = Some t -> (sum_list (f <$> <[k := t']> ts) + f t = sum_list (f <$> ts) + f t')%nat.
Proof.
  revert k. induction ts as [|u ts IH]; intros [|k] F; try done; simpl.
  - injection F as ->. lia.
  - apply IH in F. unfold fmap in F. lia.
Qed.

Lemma step_shorter hd m t m' t' :
  task_step hd m t = Some (m', t') -> shorter (stage t', items_left t') (stage t, items_left t).
Proof. intros H. unfold shorter. access H; lia. Qed.

Lemma continues_shorter s s' : continues s s' -> shorter (work_left s') (work_left s).
Proof.
  intros [k t m' t' E H]. apply step_shorter in H. unfold shorter, work_left in *. simpl in *.
  pose proof (sum_update stage _ _ _ t' E). pose proof (sum_update items_left _ _ _ t' E). lia.
Qed.

(** Every sequence of accesses is finite. *)
Lemma accesses_end s : sn continues s.
Proof.
  induction s as [s IH] using (well_founded_induction (wf_inverse_image _ _ _ work_left shorter_wf)).
  constructor. intros y Hy. by apply IH, continues_shorter.
Qed.

(** Apart from an unregistration, a call in progress always has its access. *)
Lemma has_access permits s k t :
  settled permits s -> tasks s !! k = Some t -> finished t = false ->
  (forall i, t = Unregister i -> held (tasks s) i = false) ->
  exists m' t', task_step (held (tasks s)) (mgr s) t = Some (m', t').
Proof.
  intros W E F N. pose proof (proj1 (Forall_lookup _ _) (settled_tasks _ _ W) _ _ E) as O.
  destruct (task_step (held (tasks s)) (mgr s) t) as [[m' t']|] eqn:H; [by do 2 eexists|].
  exfalso. destruct t; simpl in H, O, F; try done; repeat case_match; try done.
  - by rewrite (N i eq_refl) in *.
  - destruct O as [h O]. by rewrite O in H.
  - destruct O as [h O]. by rewrite O in H.
  - destruct O as [h O]. by rewrite O in H.
Qed.

(** ** Concrete interleavings *)

#[local] Instance loses_dec m t : Decision (loses m t).
Proof. destruct t; simpl; apply _. Defined.

Definition careful_now (s : Sys) (t : Task) (s' : Sys) : bool := negb (bool_decide (loses (mgr s) t)).

Lemma play_careful permits ks s s' : play careful_now ks s = Some s' -> rtc (careful permits) s s'.
Proof.
  apply play_runs. intros ? k t m' t' E H ? F. eapply careful_task; [done..|].
  by apply negb_true_iff, bool_decide_eq_false in F.
Qed.

Section witnesses.
Lemma careful_runs_consistent_witness : at_rest both_in /\ wf (mgr both_in).
Proof.
  assert (A : at_rest both_in) by (vm_compute; repeat constructor).
  split; [exact A|]. apply (careful_runs_consistent own_channels one_connection both_in); [|exact A].
  eapply rtc_l; [apply (careful_start _ _ first); by constructor|].
  eapply rtc_l; [apply (careful_start _ _ second); by constructor|].
  apply (play_careful _ [0; 1; 0; 1; 0; 1; 0; 0; 1; 1]%nat). vm_compute. reflexivity.
Defined.

(** A user's last connection leaves while the user opens a new one. *)
Definition alone_in : Sys := default both (play anything [0; 0; 0; 0; 0]%nat (begin first (idle one_connection))).
Definition swapping : Sys := begin second (begin (Unregister 1%N) alone_in).
Definition swapped : Sys := default both (play anything [1; 1; 2; 2; 2; 2; 2; 1; 1; 1]%nat swapping).

Lemma swapped_reached : rtc (step own_channels) (idle one_connection) swapped.
Proof.
  eapply rtc_l; [apply step_start, (starts_register _ _ "alice" "acme" [] 1%N 0); done|].
  etrans; [apply (play_steps _ [0; 0; 0; 0; 0]%nat _ alone_in); vm_compute; reflexivity|].
  eapply rtc_l; [apply step_start, (starts_unregister _ _ 1%N)|].
  { vm_compute. by eexists. }
  { vm_compute. repeat constructor. done. }
  eapply rtc_l; [apply step_start, (starts_register _ _ "alice" "acme" [] 2%N 0); done|].
  apply (play_steps _ [1; 1; 2; 2; 2; 2; 2; 1; 1; 1]%nat). vm_compute. reflexivity.
Qed.

(** The entry of a user that is refilled before it is dropped: in a state the
    service reaches with all calls returned, a registered connection of the
    user is in no answer for the user. *)
Theorem refilled_entry_lost : exists s h,
  rtc (step own_channels) (idle one_connection) s /\ at_rest s /\
  get_connection (mgr s) 2%N = Some h /\ user_id h = "alice" /\ get_user_connections (mgr s) "alice" = [].
Proof.
  exists swapped. eexists. split; [exact swapped_reached|].
  split; [vm_compute; repeat constructor|]. split; [vm_compute; reflexivity|]. split; reflexivity.
Qed.
End witnesses.
