(* ===== verification/Locks.v ===== *)
(** * Locks: what the manager's calls wait for

    The calls of [Interleaving] with the locks they take in
    [domain/connection/manager.rs].  A concurrent map is split into shards by
    key, each under a reader-writer lock; a connection's subscriptions are
    under a lock of their own.  [holds] is what a call keeps between two of
    its accesses - the guard of an index entry while the connections of a
    query are looked up, the guard of a connection's entry while its
    subscriptions change - and [acquires] what its next access takes, besides.
    A call whose next access conflicts with what some call holds, itself
    included, waits.

    With every call on a thread of its own nothing deadlocks as long as a
    waiting writer does not keep readers out ([calls_return]), which is how
    the map's locks behave: its documentation allows [get] while an entry is
    held for reading.  With writers first there is a deadlock
    ([writers_first_deadlock]).  On a fixed number of worker threads there is
    one anyway, since a call can be suspended while it holds a connection's
    guard ([guard_across_await_deadlock]). *)
From S2P Require Import Prelude Tenant Connection Interleaving Quiescence.

(** ** The locks *)

(** How many shards a map has and which one a key is in: the map's hashing. *)
Record Sharding := {
  shard_amount : nat;
  connection_shard : uuid -> nat;
  user_shard : string -> nat;
  tenant_shard : string -> nat;
  channel_shard : string -> nat;
}.

Inductive Lock :=
| ConnectionShard (n : nat)
| UserShard (n : nat)
| TenantShard (n : nat)
| ChannelShard (n : nat)
| Subscriptions (i : uuid).
#[export] Instance lock_eq_dec : EqDecision Lock.
Proof. solve_decision. Defined.

Inductive Mode := Shared | Exclusive.
#[export] Instance mode_eq_dec : EqDecision Mode.
Proof. solve_decision. Defined.

Definition conflicts (a b : Lock * Mode) : bool :=
  bool_decide (a.1 = b.1) && negb (bool_decide (a.2 = Shared /\ b.2 = Shared)).

(** Whether a lock for which a writer waits is given to further readers. *)
Inductive Admission := ReadersFirst | WritersFirst.

Section table.
Context (sh : Sharding).

Definition index_lock (q : Lookup) : Lock :=
  match q with
  | ByUser u => UserShard (user_shard sh u)
  | ByTenant t => TenantShard (tenant_shard sh t)
  | ByChannel c => ChannelShard (channel_shard sh c)
  end.
Definition connection_lock (i : uuid) : Lock := ConnectionShard (connection_shard sh i).

(** The guards a call holds between its accesses.  [drop(user_conns)] and its
    like come before the [remove]. *)
Definition holds (t : Task) : list (Lock * Mode) :=
  match t with
  | SubCheck i _ | SubWrite i _ | SubIndex i _ | UnsubWrite i _ | UnsubIndex i _ | UnsubDrop i _ =>
    [(connection_lock i, Shared)]
  | Collect q _ _ => [(index_lock q, Shared)]
  | DropUser _ | DropTenant _ | DropChannel _ _ _ => []
  | _ => []
  end.

(** [connections.len()] visits every shard. *)
Definition all_connection_shards : list (Lock * Mode) :=
  (fun n => (ConnectionShard n, Shared)) <$> seq 0 (shard_amount sh).

(** The locks of the next access, one after the other. *)
Definition acquires (t : Task) : list (Lock * Mode) :=
  match t with
  | Register _ l => if (0 <? max_connections l)%nat then all_connection_shards else []
  | RefuseTotal _ => all_connection_shards
  | CheckUser h l =>
    if (0 <? max_connections_per_user l)%nat then [(UserShard (user_shard sh (user_id h)), Shared)] else []
  | InsertHandle h => [(connection_lock (conn_id h), Exclusive)]
  | IndexUser h => [(UserShard (user_shard sh (user_id h)), Exclusive)]
  | IndexTenant h => [(TenantShard (tenant_shard sh (tenant_id h)), Exclusive)]
  | Unregister i => [(connection_lock i, Exclusive)]
  | LeaveUser h | DropUser h => [(UserShard (user_shard sh (user_id h)), Exclusive)]
  | LeaveTenant h | DropTenant h =>
    [(TenantShard (tenant_shard sh (tenant_id h)), Exclusive); (Subscriptions (conn_id h), Shared)]
  | LeaveChannels _ [] => []
  | LeaveChannels _ (c :: _) | DropChannel _ c _ => [(ChannelShard (channel_shard sh c), Exclusive)]
  | Subscribe i _ | Unsubscribe i _ => [(connection_lock i, Shared)]
  | SubCheck i _ => [(Subscriptions i, Shared)]
  | SubWrite i _ | UnsubWrite i _ => [(Subscriptions i, Exclusive)]
  | SubIndex _ c | UnsubIndex _ c | UnsubDrop _ c => [(ChannelShard (channel_shard sh c), Exclusive)]
  | Query q => [(index_lock q, Shared)]
  | Collect _ (i :: _) _ => [(connection_lock i, Shared)]
  | Collect _ [] _ | Touch _ _ => []
  | Registered _ | Unregistered | Subscribed _ | Unsubscribed | Touched | Answered _ _ => []
  end.

Definition is_held (ts : list Task) (a : Lock * Mode) : bool :=
  existsb (fun u => existsb (conflicts a) (holds u)) ts.
(** A writer that waits for the lock. *)
Definition writer_waits (ts : list Task) (l : Lock) : bool :=
  existsb (fun u => bool_decide ((l, Exclusive) ∈ acquires u) && is_held ts (l, Exclusive)) ts.

Definition must_wait (adm : Admission) (ts : list Task) (a : Lock * Mode) : bool :=
  is_held ts a ||
  match adm, a.2 with WritersFirst, Shared => writer_waits ts a.1 | _, _ => false end.
Definition blocked (adm : Admission) (ts : list Task) (t : Task) : bool := existsb (must_wait adm ts) (acquires t).
End table.

(** ** Steps that take their locks *)

Section steps.
Context (permits : string -> string -> Prop) (sh : Sharding) (adm : Admission).

Inductive lock_continues (s : Sys) : Sys -> Prop :=
| lock_continues_task k t m' t' : tasks s !! k = Some t -> blocked sh adm (tasks s) t = false ->
  task_step (held (tasks s)) (mgr s) t = Some (m', t') ->
  lock_continues s (mkSys m' (<[k := t']> (tasks s)) (issued s)).

Inductive lock_step (s : Sys) : Sys -> Prop :=
| lock_step_task s' : lock_continues s s' -> lock_step s s'
| lock_step_start t : starts permits s t -> lock_step s (begin t s).

(** A special case of [Interleaving.step], so that what holds of every
    interleaving of the accesses holds here. *)
Lemma lock_continues_continues s s' : lock_continues s s' -> continues s s'.
Proof. intros [k t m' t' E _ H]. by econstructor. Qed.
Lemma continues_step s s' : continues s s' -> step permits s s'.
Proof. intros [k t m' t' E H]. by econstructor. Qed.
Lemma lock_step_step s s' : lock_step s s' -> step permits s s'.
Proof.
  intros [s1 H|t H]; [by apply continues_step, lock_continues_continues|by apply step_start].
Qed.
Lemma lock_steps_steps s s' : rtc lock_step s s' -> rtc (step permits) s s'.
Proof. apply rtc_subrel. exact lock_step_step. Qed.
End steps.

(** ** Someone can always go on *)

Section progress.
Context (permits : string -> string -> Prop) (sh : Sharding).
Implicit Types s : Sys.

Lemma holds_shared t a : a ∈ holds sh t -> a.2 = Shared.
Proof. destruct t; simpl; rewrite ?elem_of_nil, ?list_elem_of_singleton; first [by intros ->|done]. Qed.

Lemma not_held ts a :
  (forall u b, u ∈ ts -> b ∈ holds sh u -> conflicts a b = false) -> is_held sh ts a = false.
Proof.
  intros N. unfold is_held. apply not_true_is_false. intros (u & Hu & X)%existsb_exists.
  apply existsb_exists in X as (b & Hb & X). apply list_elem_of_In in Hu, Hb. by rewrite (N u b) in X.
Qed.

Lemma not_blocked ts t :
  (forall a, a ∈ acquires sh t -> is_held sh ts a = false) -> blocked sh ReadersFirst ts t = false.
Proof.
  intros N. unfold blocked. apply not_true_is_false. intros (a & Ha%list_elem_of_In & X)%existsb_exists.
  unfold must_wait in X. rewrite N in X by done. by destruct a as [? []].
Qed.

(** Readers do not wait: nothing is held for writing. *)
Lemma shared_not_held ts l : is_held sh ts (l, Shared) = false.
Proof.
  apply not_held. intros u b _ Hb%holds_shared. unfold conflicts. simpl. rewrite Hb.
  rewrite (bool_decide_true (Shared = Shared /\ Shared = Shared)) by done. by rewrite andb_false_r.
Qed.

Definition collecting (t : Task) : bool := match t with Collect _ _ _ => true | _ => false end.
(** A call in the middle of a change to a connection's subscriptions. *)
Definition changing (t : Task) : bool := match guards t with Some _ => true | None => false end.

Lemma collector_free ts t : collecting t = true -> blocked sh ReadersFirst ts t = false.
Proof.
  intros C. apply not_blocked. intros [l m] Ha. destruct t; try done. simpl in Ha.
  destruct ids; simpl in Ha; [by apply elem_of_nil in Ha|]. apply list_elem_of_singleton in Ha as [= -> ->].
  apply shared_not_held.
Qed.

(** Without a query under way, only connections' entries are held. *)
Lemma held_connections ts l m :
  Forall (fun u => collecting u = false) ts -> (forall n, l <> ConnectionShard n) -> is_held sh ts (l, m) = false.
Proof.
  intros F N. apply not_held. intros u b Hu Hb. apply (proj1 (Forall_forall _ _) F) in Hu.
  unfold conflicts. simpl. destruct u; simpl in Hu, Hb; try done; rewrite ?elem_of_nil, ?list_elem_of_singleton in Hb; try done;
    subst b; simpl; by rewrite bool_decide_false by apply N.
Qed.

Lemma changer_free ts t :
  Forall (fun u => collecting u = false) ts -> changing t = true -> blocked sh ReadersFirst ts t = false.
Proof.
  intros F C. apply not_blocked. intros [l m] Ha. apply held_connections; [done|].
  destruct t; try done; simpl in Ha; apply list_elem_of_singleton in Ha as [= -> _]; done.
Qed.

Lemma nobody_held ts a :
  Forall (fun u => collecting u = false) ts -> Forall (fun u => changing u = false) ts -> is_held sh ts a = false.
Proof.
  intros F G. apply not_held. intros u b Hu Hb.
  pose proof (proj1 (Forall_forall _ _) F _ Hu) as Fu. pose proof (proj1 (Forall_forall _ _) G _ Hu) as Gu.
  destruct u; simpl in *; try done; by apply elem_of_nil in Hb.
Qed.

Lemma changing_held ts i : Forall (fun u => changing u = false) ts -> held ts i = false.
Proof.
  intros F. unfold held. apply not_true_is_false. intros (u & Hu%list_elem_of_In & X%bool_decide_eq_true)%existsb_exists.
  apply (proj1 (Forall_forall _ _) F) in Hu. unfold changing in Hu. by rewrite X in Hu.
Qed.

Lemma some_or_none (f : Task -> bool) ts :
  (exists k t, ts !! k = Some t /\ f t = true) \/ Forall (fun t => f t = false) ts.
Proof.
  destruct (decide (Forall (fun t => f t = false) ts)) as [F|F]; [by right|left].
  apply not_Forall_Exists in F; [|intros t; apply _]. apply Exists_exists in F as (t & (k & E)%list_elem_of_lookup & X).
  exists k, t. split; [done|]. by apply not_false_is_true.
Qed.

Lemma goes_on permits' s k t :
  settled permits' s -> tasks s !! k = Some t -> finished t = false -> blocked sh ReadersFirst (tasks s) t = false ->
  (forall i, t = Unregister i -> held (tasks s) i = false) -> exists s', lock_continues sh ReadersFirst s s'.
Proof.
  intros W E F B N. destruct (has_access _ _ _ _ W E F N) as (m' & t' & H). eexists. by econstructor.
Qed.

(** A query under way can go on; if there is none, a call that changes
    subscriptions can; if there is none either, every call can. *)
Lemma somebody_goes_on s :
  settled permits s -> at_rest s \/ exists s', lock_continues sh ReadersFirst s s'.
Proof.
  intros W. destruct (some_or_none (fun t => negb (finished t)) (tasks s)) as [(k & t & E & F)|R].
  2: { left. eapply Forall_impl; [exact R|]. simpl. intros t X. by apply negb_false_iff. }
  right. apply negb_true_iff in F.
  destruct (some_or_none collecting (tasks s)) as [(j & u & Eu & C)|NC].
  { eapply (goes_on permits s j u); [done|done| |by apply collector_free|]; by destruct u. }
  destruct (some_or_none changing (tasks s)) as [(j & u & Eu & C)|NG].
  { eapply (goes_on permits s j u); [done|done| |by apply changer_free|]; by destruct u. }
  eapply (goes_on permits s k t); [done..| |].
  - apply not_blocked. intros a _. by apply nobody_held.
  - intros i _. by apply changing_held.
Qed.

(** C14: Nothing deadlocks and nothing runs for ever, locks included.  For
    every sharding of the maps, with each call on a thread of its own and locks
    that admit readers while a writer waits: in every state that concurrent
    registrations, unregistrations, subscriptions and queries reach, every
    sequence of accesses of the calls in progress is finite and can be
    continued until all of them have returned. *)
Theorem calls_return l s :
  rtc (lock_step permits sh ReadersFirst) (idle l) s ->
  sn (lock_continues sh ReadersFirst) s /\
  (forall s', rtc (lock_continues sh ReadersFirst) s s' ->
   exists s'', rtc (lock_continues sh ReadersFirst) s' s'' /\ at_rest s'').
Proof.
  intros W%lock_steps_steps%settled_reachable.
  assert (SN : forall x, sn (lock_continues sh ReadersFirst) x).
  { intros x. induction (accesses_end x) as [x _ IH]. constructor. intros y Hy. by eapply IH, lock_continues_continues. }
  assert (St : forall x y, lock_continues sh ReadersFirst x y -> settled permits x -> settled permits y).
  { intros x y H Wx. eapply settled_step; [exact Wx|]. by eapply continues_step, lock_continues_continues. }
  split; [apply SN|]. intros s' R.
  assert (W' : settled permits s') by (induction R; eauto).
  clear R W s. induction (SN s') as [x _ IH]. destruct (somebody_goes_on x W') as [A|[y Hy]]; [by eexists|].
  destruct (IH y Hy) as (z & R & A); [by eauto|]. exists z. split; [by eapply rtc_l|done].
Qed.
End progress.

(** ** A fixed number of worker threads *)

Section workers.
Context (permits : string -> string -> Prop) (sh : Sharding) (workers : nat).

(** Calls run on the workers; one that is at an [await] may be suspended and
    leaves its worker, with the guards it holds. *)
Record Pool := mkPool { calls : Sys; suspended : gset nat }.

(** [handle.subscriptions.write().await] *)
Definition awaits (t : Task) : bool := match t with SubWrite _ _ | UnsubWrite _ _ => true | _ => false end.

(** The workers taken by the calls [ts], the first of which has number [k]. *)
Fixpoint busy (k : nat) (out : gset nat) (ts : list Task) : nat :=
  match ts with
  | [] => 0
  | t :: ts => (if finished t || bool_decide (k ∈ out) then 0 else 1) + busy (S k) out ts
  end.
Definition worker_free (p : Pool) : Prop := (busy 0 (suspended p) (tasks (calls p)) < workers)%nat.

Inductive pool_step (p : Pool) : Pool -> Prop :=
| pool_call k t m' t' : k ∉ suspended p -> tasks (calls p) !! k = Some t ->
  blocked sh ReadersFirst (tasks (calls p)) t = false ->
  task_step (held (tasks (calls p))) (mgr (calls p)) t = Some (m', t') ->
  pool_step p (mkPool (mkSys m' (<[k := t']> (tasks (calls p))) (issued (calls p))) (suspended p))
| pool_suspend k t : k ∉ suspended p -> tasks (calls p) !! k = Some t -> awaits t = true ->
  pool_step p (mkPool (calls p) ({[k]} ∪ suspended p))
| pool_resume k : k ∈ suspended p -> worker_free p -> pool_step p (mkPool (calls p) (suspended p ∖ {[k]}))
| pool_start t : starts permits (calls p) t -> worker_free p -> pool_step p (mkPool (begin t (calls p)) (suspended p)).

Lemma busy_app k out ts us : busy k out (ts ++ us) = (busy k out ts + busy (k + length ts) out us)%nat.
Proof.
  revert k. induction ts as [|t ts IH]; intros k; simpl; [by rewrite Nat.add_0_r|].
  rewrite IH, <- Nat.add_assoc. do 3 f_equal. lia.
Qed.
Lemma busy_all k out t n :
  finished t = false -> (forall j, (k <= j)%nat -> j ∉ out) -> busy k out (replicate n t) = n.
Proof.
  intros F. revert k. induction n as [|n IH]; intros k N; simpl; [done|].
  rewrite F, bool_decide_false by (by apply N). simpl. rewrite IH; [done|]. intros j Hj. apply N. lia.
Qed.

(** Calls begun one after another, each on a worker. *)
Lemma begin_all s out t n :
  (forall k, (k < n)%nat -> starts permits (mkSys (mgr s) (tasks s ++ replicate k t) (issued s)) t) ->
  (forall h l, t <> Register h l) -> finished t = false -> (forall j, (length (tasks s) <= j)%nat -> j ∉ out) ->
  (busy 0 out (tasks s) + n <= workers)%nat ->
  rtc pool_step (mkPool s out) (mkPool (mkSys (mgr s) (tasks s ++ replicate n t) (issued s)) out).
Proof.
  intros St Nr F O. induction n as [|n IH]; intros B.
  { rewrite app_nil_r. by destruct s. }
  eapply rtc_r; [apply IH; [auto with lia|lia]|].
  replace (replicate (S n) t) with (replicate n t ++ [t]) by (by rewrite <- replicate_S_end).
  rewrite app_assoc.
  pose proof (pool_start (mkPool (mkSys (mgr s) (tasks s ++ replicate n t) (issued s)) out) t (St n ltac:(lia))) as S1.
  unfold begin in S1. simpl in S1. replace (issue t (issued s)) with (issued s) in S1 by (destruct t; try done; by destruct (Nr h l)).
  apply S1. unfold worker_free. simpl. rewrite busy_app, busy_all; [lia|done|]. intros j Hj. apply O. simpl in Hj. lia.
Qed.
End workers.

(** ** Deadlocks *)

Section deadlocks.
Definition one_shard : Sharding :=
  {| shard_amount := 1; connection_shard _ := 0%nat; user_shard _ := 0%nat;
     tenant_shard _ := 0%nat; channel_shard _ := 0%nat |}.

Definition lock_free (adm : Admission) (s : Sys) (t : Task) (s' : Sys) : bool :=
  negb (blocked one_shard adm (tasks s) t).
Lemma play_locks permits adm ks s s' :
  play (lock_free adm) ks s = Some s' -> rtc (lock_step permits one_shard adm) s s'.
Proof.
  apply play_runs. intros ? k t m' t' E H ? F. apply lock_step_task. econstructor; [done| |done].
  by apply negb_true_iff in F.
Qed.

(** No call has an access it can make. *)
Definition stuck (adm : Admission) (s : Sys) : bool :=
  forallb (fun t => blocked one_shard adm (tasks s) t ||
                    match task_step (held (tasks s)) (mgr s) t with Some _ => false | None => true end) (tasks s).
Lemma stuck_stays adm s s' : stuck adm s = true -> ~ lock_continues one_shard adm s s'.
Proof.
  intros St [k t m' t' E B H]. unfold stuck in St. rewrite forallb_forall in St.
  specialize (St t). rewrite B, H in St. simpl in St. by specialize (St (proj1 (list_elem_of_In _ _) (list_elem_of_lookup_2 _ _ _ E))).
Qed.

Abbreviation orders := "acme:orders".
Definition registered_one (adm : Admission) : Sys :=
  default both (play (lock_free adm) [0; 0; 0; 0; 0]%nat (begin first (idle one_connection))).
Definition subscribed_one (adm : Admission) : Sys :=
  default both (play (lock_free adm) [1; 1; 1; 1]%nat (begin (Subscribe 1%N orders) (registered_one adm))).
(** A query holds the channel's entry, a subscription the connection's. *)
Definition both_hold (adm : Admission) : Sys :=
  default both (play (lock_free adm) [2; 3; 3; 3]%nat
    (begin (Subscribe 1%N orders) (begin (Query (ByChannel orders)) (subscribed_one adm)))).
Definition crossed (adm : Admission) : Sys := begin (Unregister 1%N) (both_hold adm).

Lemma crossed_reached adm : rtc (lock_step own_channels one_shard adm) (idle one_connection) (crossed adm).
Proof.
  eapply rtc_l; [apply lock_step_start, (starts_register _ _ "alice" "acme" [] 1%N 0); done|].
  etrans; [apply (play_locks _ adm [0; 0; 0; 0; 0]%nat _ (registered_one adm)); destruct adm; vm_compute; reflexivity|].
  eapply rtc_l; [apply lock_step_start, (starts_subscribe _ _ 1%N orders ("alice", "acme"))|].
  1-3: destruct adm; vm_compute; repeat constructor; done.
  etrans; [apply (play_locks _ adm [1; 1; 1; 1]%nat _ (subscribed_one adm)); destruct adm; vm_compute; reflexivity|].
  eapply rtc_l; [apply lock_step_start, (starts_query _ _ (ByChannel orders))|].
  eapply rtc_l; [apply lock_step_start, (starts_subscribe _ _ 1%N orders ("alice", "acme"))|].
  1-3: destruct adm; vm_compute; repeat constructor; done.
  etrans; [apply (play_locks _ adm [2; 3; 3; 3]%nat _ (both_hold adm)); destruct adm; vm_compute; reflexivity|].
  apply rtc_once, lock_step_start, (starts_unregister _ _ 1%N).
  - destruct adm; vm_compute; by eexists.
  - destruct adm; vm_compute; repeat constructor; done.
Qed.

(** If a waiting writer kept readers out: a query, a subscription and an
    unregistration would wait for each other for ever. *)
Theorem writers_first_deadlock : exists s,
  rtc (lock_step own_channels one_shard WritersFirst) (idle one_connection) s /\
  ~ at_rest s /\ forall s', ~ lock_continues one_shard WritersFirst s s'.
Proof.
  exists (crossed WritersFirst). split; [apply crossed_reached|]. split.
  - intros A. apply (Forall_lookup_1 _ _ 2 (Collect (ByChannel orders) [1%N] [])) in A; [done|vm_compute; reflexivity].
  - intros s'. apply stuck_stays. vm_compute. reflexivity.
Qed.

(** The same state with readers first: all three return. *)
Lemma calls_return_witness : exists s,
  rtc (lock_continues one_shard ReadersFirst) (crossed ReadersFirst) s /\ at_rest s.
Proof.
  destruct (calls_return own_channels one_shard one_connection (crossed ReadersFirst) (crossed_reached ReadersFirst))
    as [_ H]. apply (H (crossed ReadersFirst)). reflexivity.
Defined.

(** A subscription that is suspended at its [await] with the connection's guard
    held, when the workers are all given to unregistrations of it. *)
Definition subscribing_one : Sys :=
  default both (play (lock_free ReadersFirst) [1; 1]%nat (begin (Subscribe 1%N orders) (registered_one ReadersFirst))).
Definition starved (workers : nat) : Pool :=
  mkPool (mkSys (mgr subscribing_one) (tasks subscribing_one ++ replicate workers (Unregister 1%N)) (issued subscribing_one))
    {[1%nat]}.

Lemma pool_plays permits workers ks s s' :
  play (lock_free ReadersFirst) ks s = Some s' -> rtc (pool_step permits one_shard workers) (mkPool s ∅) (mkPool s' ∅).
Proof.
  set (next x y := pool_step permits one_shard workers (mkPool x ∅) (mkPool y ∅)).
  intros P. assert (R : rtc next s s').
  { eapply play_runs; [|exact P]. intros ? k t m' t' E H ? F. eapply (pool_call _ _ _ (mkPool _ _)); [set_solver|done| |done].
    by apply negb_true_iff in F. }
  clear P. induction R as [|x y z H _ IH]; [done|]. by eapply rtc_l.
Qed.

Lemma subscribing_reached workers : (0 < workers)%nat ->
  rtc (pool_step own_channels one_shard workers) (mkPool (idle one_connection) ∅) (mkPool subscribing_one ∅).
Proof.
  intros L. eapply rtc_l.
  { apply (pool_start _ _ _ (mkPool _ _) first); [|exact L].
    exact (starts_register own_channels (idle one_connection) "alice" "acme" [] 1%N 0 eq_refl). }
  etrans; [apply (pool_plays _ _ [0; 0; 0; 0; 0]%nat _ (registered_one ReadersFirst)); vm_compute; reflexivity|].
  eapply rtc_l.
  { apply (pool_start _ _ _ (mkPool _ _) (Subscribe 1%N orders)).
    - apply (starts_subscribe _ _ 1%N orders ("alice", "acme")); vm_compute; repeat constructor; done.
    - exact L. }
  apply (pool_plays _ _ [1; 1]%nat). vm_compute. reflexivity.
Qed.

Lemma starved_reached workers : (0 < workers)%nat ->
  rtc (pool_step own_channels one_shard workers) (mkPool (idle one_connection) ∅) (starved workers).
Proof.
  intros L. etrans; [by apply subscribing_reached|]. eapply rtc_l.
  { apply (pool_suspend _ _ _ (mkPool subscribing_one ∅) 1 (SubWrite 1%N orders)); [set_solver|vm_compute; reflexivity|done]. }
  cbn [calls suspended]. rewrite union_empty_r_L. apply begin_all; [|done|done| |].
  - intros k _. apply starts_unregister; [vm_compute; by eexists|]. apply Forall_app. split.
    + vm_compute. repeat constructor; done.
    + by apply Forall_replicate.
  - intros j Hj. apply not_elem_of_singleton. change (length (tasks subscribing_one)) with 2%nat in Hj. lia.
  - change (busy 0 {[1%nat]} (tasks subscribing_one)) with 0%nat. lia.
Qed.

Lemma unregister_waits workers : blocked one_shard ReadersFirst (tasks (calls (starved workers))) (Unregister 1%N) = true.
Proof. vm_compute. reflexivity. Qed.

Lemma starved_busy workers : ~ worker_free workers (starved workers).
Proof.
  unfold worker_free, starved. cbn [calls suspended tasks]. rewrite busy_app, busy_all; [|done|].
  - lia.
  - intros j Hj. apply not_elem_of_singleton. change (length (tasks subscribing_one)) with 2%nat in Hj. lia.
Qed.

(** However many workers there are: once a call is suspended with a guard held
    and each worker waits for that guard, nothing runs any more. *)
Theorem guard_across_await_deadlock workers : (0 < workers)%nat ->
  exists p, rtc (pool_step own_channels one_shard workers) (mkPool (idle one_connection) ∅) p /\
    ~ at_rest (calls p) /\ forall p', ~ pool_step own_channels one_shard workers p p'.
Proof.
  intros L. exists (starved workers). split; [by apply starved_reached|]. split.
  { intros A. apply (Forall_lookup_1 _ _ 1 (SubWrite 1%N orders)) in A; [done|vm_compute; reflexivity]. }
  assert (Late : forall k t, k <> 1%nat -> tasks (calls (starved workers)) !! k = Some t ->
    t = Unregister 1%N \/ finished t = true).
  { intros [|[|k]] t N E; [right; vm_compute in E; by simplify_eq|done|left].
    change (replicate workers (Unregister 1%N) !! k = Some t) in E. by apply lookup_replicate in E as [-> _]. }
  intros p' [k t m' t' N E B H|k t N E A|k _ F|t _ F].
  3-4: by apply (starved_busy workers).
  - apply Late in E as [->|F]; [pose proof (unregister_waits workers); congruence|by destruct t|].
    intros ->. apply N. change (suspended (starved workers)) with ({[1%nat]} : gset nat). by apply elem_of_singleton.
  - apply Late in E as [->|F]; [done|by destruct t|].
    intros ->. apply N. change (suspended (starved workers)) with ({[1%nat]} : gset nat). by apply elem_of_singleton.
Qed.

Lemma guard_across_await_deadlock_witness : exists p,
  rtc (pool_step own_channels one_shard 4) (mkPool (idle one_connection) ∅) p /\ ~ at_rest (calls p).
Proof.
  destruct (guard_across_await_deadlock 4) as (p & R & A & _); [lia|]. exists p. split; [exact R|exact A].
Defined.
End deadlocks.
