(* ===== verification/Queue.v ===== *)
(** * Queue: per-user queues for offline delivery

    Models [domain/queue/]: models.rs, backend.rs, user_queue.rs,
    memory_backend.rs and factory.rs.  [Module Memory] is the backend that
    keeps its queues in a concurrent map, [Module UserQueue] the older
    in-process queue with its own replay loop.  [Class MessageQueueBackend]
    is the trait the dispatcher and the connection handlers use, and
    [Class QueueLaws] what it promises them.

    An operation that reads the clock once per message takes the readings as
    a function: [clock k] is the [k]-th of them. *)
From S2P Require Import Prelude Notification.

(** ** Data *)

Record QueueConfig := {
  enabled : bool;
  max_queue_size_per_user : nat;
  message_ttl_seconds : Z;
  cleanup_interval_seconds : Z;
}.
Definition QueueConfig_default : QueueConfig :=
  {| enabled := false; max_queue_size_per_user := 100; message_ttl_seconds := 3600;
     cleanup_interval_seconds := 300 |}.

Record QueuedMessage := { qm_id : uuid; qm_event : NotificationEvent; qm_queued_at : Z; qm_attempts : Z }.
Definition queued_new (e : NotificationEvent) (fresh : uuid) (now : Z) : QueuedMessage :=
  {| qm_id := fresh; qm_event := e; qm_queued_at := now; qm_attempts := 0 |}.

Record StoredMessage := {
  sm_id : uuid; sm_event : NotificationEvent; sm_queued_at : Z; sm_attempts : Z; sm_stream_id : option string;
}.
#[export] Instance StoredMessage_eq_dec : EqDecision StoredMessage.
Proof. solve_decision. Defined.
Definition stored_new (e : NotificationEvent) (fresh : uuid) (now : Z) : StoredMessage :=
  {| sm_id := fresh; sm_event := e; sm_queued_at := now; sm_attempts := 0; sm_stream_id := None |}.

(** Age of at least the TTL, in whole seconds, the TTL cast to [i64]. *)
Definition age_expired (queued_at ttl now : Z) : bool := i64 ttl <=? num_seconds (now - queued_at).
Definition queued_is_expired (m : QueuedMessage) (ttl now : Z) : bool := age_expired (qm_queued_at m) ttl now.
Definition stored_is_expired (m : StoredMessage) (ttl now : Z) : bool := age_expired (sm_queued_at m) ttl now.

Record ReplayResult := { replayed : nat; rr_failed : nat; rr_expired : nat }.
Definition replay_empty : ReplayResult := {| replayed := 0; rr_failed := 0; rr_expired := 0 |}.

Inductive QueueError := Disabled | QueueFull (user_id : string) (size : nat).
Definition queue_error_display (e : QueueError) : string :=
  match e with
  | Disabled => "Message queue is disabled"
  | QueueFull u n => "Queue full for user " +:+ u +:+ " (size: " +:+ pretty n +:+ ")"
  end.

Record QueueStats := {
  qs_enabled : bool; qs_total_messages : nat; qs_users_with_queue : nat; qs_max_queue_size : nat;
  qs_max_queue_size_config : nat; qs_message_ttl_seconds : Z;
}.

(** The errors of the client libraries are kept as their messages. *)
Inductive QueueBackendError :=
| BackendDisabled
| BackendQueueFull (user_id : string) (size : nat)
| BackendRedis (e : string)
| BackendPostgres (e : string)
| BackendSerialization (e : string)
| Unavailable (msg : string).

Record DrainResult := { messages : list StoredMessage; expired : nat }.
Definition DrainResult_default : DrainResult := {| messages := []; expired := 0 |}.

Record QueueBackendStats := {
  backend_type : string; bs_enabled : bool; total_messages : nat; users_with_queue : nat;
  max_queue_size : nat; max_queue_size_config : nat; bs_message_ttl_seconds : Z;
}.

(** ** One user's queue *)

Section one_queue.
Context {A : Type} (queued_at : A -> Z).

(** Pop the oldest message when the queue is full, then push. *)
Definition push_bounded (cap : nat) (q : list A) (m : A) : list A :=
  (if (cap <=? length q)%nat then tail q else q) ++ [m].

(** The loop of [drain] and [retain]: one clock reading per message, the
    first being the [k]-th; the unexpired messages in order, and the number
    of expired ones. *)
Fixpoint split_expired (ttl : Z) (clock : nat -> Z) (k : nat) (q : list A) : list A * nat :=
  match q with
  | [] => ([], 0%nat)
  | m :: q' =>
    let r := split_expired ttl clock (S k) q' in
    if age_expired (queued_at m) ttl (clock k) then (r.1, S r.2) else (m :: r.1, r.2)
  end.

Lemma push_bounded_drop cap q m :
  push_bounded cap q m = drop (if (cap <=? length q)%nat then 1 else 0) q ++ [m].
Proof. unfold push_bounded. case_match; [by destruct q|done]. Qed.

Lemma push_bounded_length cap q m :
  (length q <= Nat.max 1 cap)%nat -> (length (push_bounded cap q m) <= Nat.max 1 cap)%nat.
Proof.
  intros H. rewrite push_bounded_drop, length_app, length_drop. simpl.
  destruct (cap <=? length q)%nat eqn:E; bool_to_prop; lia.
Qed.

Lemma age_expired_mono at0 ttl n1 n2 : n1 <= n2 -> age_expired at0 ttl n1 = true -> age_expired at0 ttl n2 = true.
Proof.
  unfold age_expired. rewrite !Z.leb_le. intros H ?.
  pose proof (num_seconds_le (n1 - at0) (n2 - at0)). lia.
Qed.

Lemma split_expired_length ttl clock k q :
  (length (split_expired ttl clock k q).1 + (split_expired ttl clock k q).2 = length q)%nat.
Proof.
  revert k. induction q as [|m q IH]; intros k; simpl; [done|].
  specialize (IH (S k)). case_match; simpl; lia.
Qed.

Lemma split_expired_sublist ttl clock k q : sublist (split_expired ttl clock k q).1 q.
Proof. revert k. induction q as [|m q IH]; intros k; simpl; [constructor|]. case_match; simpl; constructor; apply IH. Qed.

(** Messages unexpired at the latest reading are kept; those expired at the
    earliest one are not. *)
Lemma split_expired_bounds ttl clock k q lo hi :
  (forall j, lo <= clock j <= hi) ->
  (forall m, m ∈ (split_expired ttl clock k q).1 -> age_expired (queued_at m) ttl lo = false) /\
  (forall m, m ∈ q -> age_expired (queued_at m) ttl hi = false -> m ∈ (split_expired ttl clock k q).1).
Proof.
  intros Hc. revert k. induction q as [|m q IH]; intros k; simpl; [set_solver|].
  destruct (IH (S k)) as [IH1 IH2]. pose proof (Hc k).
  destruct (age_expired (queued_at m) ttl (clock k)) eqn:E; simpl; split; auto.
  - intros m' [->|?]%elem_of_cons H'; [|auto].
    rewrite (age_expired_mono _ _ (clock k) hi) in H'; [done|lia|done].
  - intros m' [->|?]%elem_of_cons; [|auto].
    destruct (age_expired (queued_at m) ttl lo) eqn:E'; [|done].
    rewrite (age_expired_mono _ _ lo (clock k)) in E; [done|lia|done].
  - intros m' [->|?]%elem_of_cons H'; set_solver.
Qed.

(** Queues of every user, one after the other. *)
Fixpoint retain_all (ttl : Z) (clock : nat -> Z) (k : nat) (users : list string) (qs : gmap string (list A))
  : nat * gmap string (list A) :=
  match users with
  | [] => (0%nat, qs)
  | u :: us =>
    match qs !! u with
    | None => retain_all ttl clock k us qs
    | Some q =>
      let r := split_expired ttl clock k q in
      let qs' := if decide (r.1 = []) then delete u qs else <[u := r.1]> qs in
      let rest := retain_all ttl clock (k + length q) us qs' in
      ((length q - length r.1) + rest.1, rest.2)%nat
    end
  end.

Definition sum_lengths (qs : gmap string (list A)) : nat :=
  sum_list ((fun kv => length kv.2) <$> map_to_list qs).
Definition max_length (qs : gmap string (list A)) : nat :=
  foldr Nat.max 0%nat ((fun kv => length kv.2) <$> map_to_list qs).
End one_queue.
#[export] Hint Resolve push_bounded_length : ara.

Section all_queues.
Context {A : Type} (queued_at : A -> Z).
Implicit Types qs : gmap string (list A).

Definition contents_of qs (u : string) : list A := default [] (qs !! u).

(** Every kept queue holds a message, and no more than the bound. *)
Definition queues_wf (cap : nat) qs : Prop :=
  forall u q, qs !! u = Some q -> q <> [] /\ (length q <= Nat.max 1 cap)%nat.

Lemma queues_wf_delete cap qs u : queues_wf cap qs -> queues_wf cap (delete u qs).
Proof. intros H u' q [_ ?]%lookup_delete_Some. by apply (H u'). Qed.

Lemma queues_wf_push cap qs u m :
  queues_wf cap qs -> queues_wf cap (<[u := push_bounded cap (contents_of qs u) m]> qs).
Proof.
  intros H u' q [[<- <-]|[_ E]]%lookup_insert_Some; [|by apply (H u')]. split.
  - unfold push_bounded. by intros [_ ?]%app_nil.
  - apply push_bounded_length. unfold contents_of. destruct (qs !! u) eqn:E; simpl; [by eapply H|lia].
Qed.

Lemma sum_lengths_delete qs u q : qs !! u = Some q -> sum_lengths qs = (length q + sum_lengths (delete u qs))%nat.
Proof.
  intros E. unfold sum_lengths. by rewrite <- (map_to_list_delete qs u q E).
Qed.

Lemma sum_lengths_replace qs u q q' :
  qs !! u = Some q -> (sum_lengths (<[u := q']> qs) + length q = sum_lengths qs + length q')%nat.
Proof.
  intros E. rewrite (sum_lengths_delete qs u q E), (sum_lengths_delete (<[u := q']> qs : gmap string (list A)) u q').
  - rewrite delete_insert_eq. lia.
  - apply lookup_insert_eq.
Qed.

Lemma retain_all_wf cap ttl clock k users qs :
  queues_wf cap qs -> queues_wf cap (retain_all queued_at ttl clock k users qs).2.
Proof.
  revert k qs. induction users as [|u us IH]; intros k qs H; simpl; [done|].
  destruct (qs !! u) as [q|] eqn:E; simpl; [|auto]. apply IH.
  case_decide as D; [by apply queues_wf_delete|].
  intros u' q' [[<- <-]|[_ ?]]%lookup_insert_Some; [|by apply (H u')]. split; [done|].
  etrans; [apply sublist_length, split_expired_sublist|by apply (H u)].
Qed.

Lemma retain_all_count ttl clock k users qs :
  let r := retain_all queued_at ttl clock k users qs in (r.1 + sum_lengths r.2 = sum_lengths qs)%nat.
Proof.
  revert k qs. induction users as [|u us IH]; intros k qs; simpl; [done|].
  destruct (qs !! u) as [q|] eqn:E; simpl; [|apply IH].
  pose proof (split_expired_length queued_at ttl clock k q) as L.
  set (r := split_expired _ _ _ _ _) in *. case_decide as D.
  - specialize (IH (k + length q)%nat (delete u qs)). pose proof (sum_lengths_delete qs u q E).
    rewrite D in *. simpl in *. lia.
  - specialize (IH (k + length q)%nat (<[u := r.1]> qs)). cbn zeta in IH.
    pose proof (sum_lengths_replace qs u q r.1 E). lia.
Qed.

(** What the cleanup leaves of each queue. *)
Definition kept (ttl lo hi : Z) (q q' : list A) : Prop :=
  sublist q' q /\ (forall m, m ∈ q' -> age_expired (queued_at m) ttl lo = false) /\
  (forall m, m ∈ q -> age_expired (queued_at m) ttl hi = false -> m ∈ q').

Lemma split_expired_kept ttl clock k q lo hi :
  (forall j, lo <= clock j <= hi) -> kept ttl lo hi q (split_expired queued_at ttl clock k q).1.
Proof. intros. split; [apply split_expired_sublist|by apply split_expired_bounds]. Qed.

Lemma retain_all_contents ttl clock k users qs lo hi u :
  (forall j, lo <= clock j <= hi) -> NoDup users ->
  let qs' := (retain_all queued_at ttl clock k users qs).2 in
  if decide (u ∈ users) then kept ttl lo hi (contents_of qs u) (contents_of qs' u)
  else qs' !! u = qs !! u.
Proof.
  intros Hc Hn. revert k qs. induction Hn as [|u0 us Hu0 Hn IH]; intros k qs; simpl.
  { first [done|case_decide; set_solver]. }
  destruct (qs !! u0) as [q|] eqn:E; simpl.
  - set (r := split_expired _ _ _ _ _). set (qs1 := if decide (r.1 = []) then delete u0 qs else <[u0 := r.1]> qs).
    specialize (IH (k + length q)%nat qs1).
    assert (Hother : u0 <> u -> qs1 !! u = qs !! u).
    { intros. unfold qs1. destruct (decide (r.1 = [])); by rewrite ?lookup_delete_ne, ?lookup_insert_ne. }
    assert (Hself : contents_of qs1 u0 = r.1).
    { unfold qs1, contents_of. destruct (decide (r.1 = [])) as [D|D]; by rewrite ?lookup_delete_eq, ?lookup_insert_eq, ?D. }
    destruct (decide (u0 = u)) as [<-|Hne].
    + cbn zeta in *. rewrite decide_False in IH by done. rewrite decide_True by set_solver.
      unfold contents_of at 2. rewrite IH. fold (contents_of qs1 u0). rewrite Hself.
      unfold contents_of. rewrite E. by apply split_expired_kept.
    + rewrite Hother in IH by done. unfold contents_of in *. rewrite Hother in IH by done.
      repeat case_decide; set_solver.
  - specialize (IH k qs). repeat case_decide; try set_solver.
    assert (u = u0) as -> by set_solver. unfold contents_of in *. rewrite IH, E. simpl.
    split; [constructor|split; set_solver].
Qed.
End all_queues.

(** ** The memory backend *)
Module Memory.

Record MemoryQueueBackend := mk { queues : gmap string (list StoredMessage); config : QueueConfig }.

Definition new (c : QueueConfig) : MemoryQueueBackend := mk ∅ c.
Definition is_enabled (b : MemoryQueueBackend) : bool := enabled (config b).
Definition ttl (b : MemoryQueueBackend) : Z := message_ttl_seconds (config b).

Definition enqueue (b : MemoryQueueBackend) (user : string) (e : NotificationEvent) (fresh : uuid) (now : Z)
  : result QueueBackendError unit * MemoryQueueBackend :=
  if negb (enabled (config b)) then (Err BackendDisabled, b)
  else
    let message := stored_new e fresh now in
    let q := default [] (queues b !! user) in
    (Ok tt, mk (<[user := push_bounded (max_queue_size_per_user (config b)) q message]> (queues b)) (config b)).

Definition drain (b : MemoryQueueBackend) (user : string) (clock : nat -> Z)
  : result QueueBackendError DrainResult * MemoryQueueBackend :=
  if negb (enabled (config b)) then (Ok DrainResult_default, b)
  else match queues b !! user with
  | None => (Ok DrainResult_default, b)
  | Some q =>
    let b' := mk (delete user (queues b)) (config b) in
    let r := split_expired sm_queued_at (ttl b) clock 0 q in
    (Ok (if decide (q = []) then DrainResult_default else {| messages := r.1; expired := r.2 |}), b')
  end.

Definition peek (b : MemoryQueueBackend) (user : string) (limit : nat)
  : result QueueBackendError (list StoredMessage) :=
  if negb (enabled (config b)) then Ok []
  else Ok match queues b !! user with Some q => take limit q | None => [] end.

Definition queue_size (b : MemoryQueueBackend) (user : string) : result QueueBackendError nat :=
  Ok match queues b !! user with Some q => length q | None => 0%nat end.

Definition cleanup_expired (b : MemoryQueueBackend) (clock : nat -> Z)
  : result QueueBackendError nat * MemoryQueueBackend :=
  let user_ids := (map_to_list (queues b)).*1 in
  let r := retain_all sm_queued_at (ttl b) clock 0 user_ids (queues b) in
  (Ok r.1, mk r.2 (config b)).

Definition clear_user_queue (b : MemoryQueueBackend) (user : string)
  : result QueueBackendError nat * MemoryQueueBackend :=
  (Ok match queues b !! user with Some q => length q | None => 0%nat end,
   mk (delete user (queues b)) (config b)).

Definition stats (b : MemoryQueueBackend) : QueueBackendStats :=
  {| backend_type := "memory"; bs_enabled := enabled (config b); total_messages := sum_lengths (queues b);
     users_with_queue := size (queues b); max_queue_size := max_length (queues b);
     max_queue_size_config := max_queue_size_per_user (config b);
     bs_message_ttl_seconds := message_ttl_seconds (config b) |}.

Definition contents (b : MemoryQueueBackend) (user : string) : list StoredMessage := contents_of (queues b) user.
Definition wf (b : MemoryQueueBackend) : Prop := queues_wf (max_queue_size_per_user (config b)) (queues b).

Inductive step : MemoryQueueBackend -> MemoryQueueBackend -> Prop :=
| step_enqueue b u e fresh now : step b (enqueue b u e fresh now).2
| step_drain b u clock : step b (drain b u clock).2
| step_cleanup b clock : step b (cleanup_expired b clock).2
| step_clear b u : step b (clear_user_queue b u).2.

Lemma step_wf b b' : step b b' -> wf b -> wf b' /\ config b' = config b.
Proof.
  destruct 1 as [b u e fresh now|b u clock|b clock|b u]; intros W; unfold wf.
  - unfold enqueue. case_match; [done|]. split; [|done]. by apply queues_wf_push.
  - unfold drain. destruct (negb _); [done|]. destruct (queues b !! u); [|done]. split; [|done].
    by apply queues_wf_delete.
  - split; [|done]. by apply retain_all_wf.
  - split; [|done]. by apply queues_wf_delete.
Qed.

(** On every run of the memory queue backend each user's queue holds at
    most [max(1, max_queue_size_per_user)] messages (a configured size of 0
    still keeps one) and no empty queue is kept. *)
Theorem queue_bounded c b user :
  rtc step (new c) b ->
  (length (contents b user) <= Nat.max 1 (max_queue_size_per_user c))%nat /\ queues b !! user <> Some [].
Proof.
  intros H. cut (wf b /\ config b = c).
  { intros [W <-]. unfold contents, contents_of, wf in *. destruct (queues b !! user) as [q|] eqn:E; simpl; [|split; [lia|done]].
    destruct (W _ _ E). split; [done|congruence]. }
  assert (W0 : wf (new c)) by (intros u q; simpl; by rewrite lookup_empty).
  assert (C0 : config (new c) = c) by done. revert W0 C0.
  induction H as [|b1 b2 b3 S _ IH]; [done|]. intros W C. destruct (step_wf _ _ S W) as [W' C'].
  apply IH; [done|by rewrite C'].
Qed.

Definition example_event (i : uuid) : NotificationEvent := event_new "t" JNull "s" i 0.
Definition example_config (n : nat) : QueueConfig :=
  {| enabled := true; max_queue_size_per_user := n; message_ttl_seconds := 60; cleanup_interval_seconds := 1 |}.

Lemma queue_bounded_witness :
  (length (contents (enqueue (enqueue (new (example_config 1)) "u" (example_event 1%N) 1%N 0).2
                             "u" (example_event 2%N) 2%N 0).2 "u") <= 1)%nat.
Proof.
  eapply (queue_bounded (example_config 1)).
  eapply rtc_l; [apply step_enqueue|]. eapply rtc_l; [apply step_enqueue|]. apply rtc_refl.
Defined.

(** [cleanup_expired] removes only expired messages, keeps the others of
    every user in their order, and returns how many messages it removed. *)
Theorem cleanup_expired_spec b clock lo hi :
  (forall j, lo <= clock j <= hi) ->
  let r := cleanup_expired b clock in
  (forall user, kept sm_queued_at (ttl b) lo hi (contents b user) (contents r.2 user)) /\
  exists n, r.1 = Ok n /\ (n + total_messages (stats r.2) = total_messages (stats b))%nat.
Proof.
  intros Hc. cbn zeta. split.
  - intros user. unfold contents, cleanup_expired; cbn [snd queues].
    pose proof (retain_all_contents sm_queued_at (ttl b) clock 0 (map_to_list (queues b)).*1
      (queues b) lo hi user Hc (NoDup_fst_map_to_list (queues b))) as H. cbn zeta in H.
    case_decide as D; [done|]. unfold contents_of. rewrite H.
    assert (E : queues b !! user = None).
    { destruct (queues b !! user) eqn:E; [|done]. destruct D. apply list_elem_of_fmap.
      exists (user, l). split; [done|by apply elem_of_map_to_list]. }
    rewrite E. simpl. split; [constructor|split; set_solver].
  - eexists. split; [reflexivity|]. simpl. apply (retain_all_count sm_queued_at).
Qed.

Lemma cleanup_expired_spec_witness :
  let b := (enqueue (new (example_config 1)) "u" (example_event 1%N) 1%N 0).2 in
  kept sm_queued_at 60 (seconds 60) (seconds 60) (contents b "u") [].
Proof.
  apply (cleanup_expired_spec (enqueue (new (example_config 1)) "u" (example_event 1%N) 1%N 0).2
           (fun _ => seconds 60) (seconds 60) (seconds 60)). lia.
Defined.
End Memory.

(** ** The in-process queue with its own replay *)
Module UserQueue.

Record UserMessageQueue := mk { queues : gmap string (list QueuedMessage); config : QueueConfig }.

Definition new (c : QueueConfig) : UserMessageQueue := mk ∅ c.
Definition is_enabled (b : UserMessageQueue) : bool := enabled (config b).

Definition enqueue (b : UserMessageQueue) (user : string) (e : NotificationEvent) (fresh : uuid) (now : Z)
  : result QueueError unit * UserMessageQueue :=
  if negb (enabled (config b)) then (Err Disabled, b)
  else
    let message := queued_new e fresh now in
    let q := default [] (queues b !! user) in
    (Ok tt, mk (<[user := push_bounded (max_queue_size_per_user (config b)) q message]> (queues b)) (config b)).

(** The loop of [replay].  [accepts sent] tells whether the receiver is still
    there once [sent] has been delivered to it.  The loop ends at the first
    refused message. *)
Fixpoint replay_loop (ttl : Z) (clock : nat -> Z) (k : nat) (accepts : list NotificationEvent -> bool)
  (sent : list NotificationEvent) (q : list QueuedMessage) (r : ReplayResult)
  : ReplayResult * list NotificationEvent :=
  match q with
  | [] => (r, sent)
  | m :: q' =>
    if queued_is_expired m ttl (clock k) then
      replay_loop ttl clock (S k) accepts sent q'
        {| replayed := replayed r; rr_failed := rr_failed r; rr_expired := S (rr_expired r) |}
    else if accepts sent then
      replay_loop ttl clock (S k) accepts (sent ++ [qm_event m]) q'
        {| replayed := S (replayed r); rr_failed := rr_failed r; rr_expired := rr_expired r |}
    else ({| replayed := replayed r; rr_failed := S (rr_failed r); rr_expired := rr_expired r |}, sent)
  end.

Definition replay (b : UserMessageQueue) (user : string) (clock : nat -> Z)
  (accepts : list NotificationEvent -> bool) : (ReplayResult * list NotificationEvent) * UserMessageQueue :=
  if negb (enabled (config b)) then ((replay_empty, []), b)
  else match queues b !! user with
  | None => ((replay_empty, []), b)
  | Some q =>
    (replay_loop (message_ttl_seconds (config b)) clock 0 accepts [] q replay_empty,
     mk (delete user (queues b)) (config b))
  end.

Definition queue_size (b : UserMessageQueue) (user : string) : nat :=
  match queues b !! user with Some q => length q | None => 0%nat end.
Definition total_queued (b : UserMessageQueue) : nat := sum_lengths (queues b).
Definition users_with_queue (b : UserMessageQueue) : nat := size (queues b).

Definition cleanup_expired (b : UserMessageQueue) (clock : nat -> Z) : nat * UserMessageQueue :=
  let r := retain_all qm_queued_at (message_ttl_seconds (config b)) clock 0 (map_to_list (queues b)).*1 (queues b) in
  (r.1, mk r.2 (config b)).

Definition clear_user_queue (b : UserMessageQueue) (user : string) : nat * UserMessageQueue :=
  (queue_size b user, mk (delete user (queues b)) (config b)).

Definition stats (b : UserMessageQueue) : QueueStats :=
  {| qs_enabled := enabled (config b); qs_total_messages := sum_lengths (queues b);
     qs_users_with_queue := size (queues b); qs_max_queue_size := max_length (queues b);
     qs_max_queue_size_config := max_queue_size_per_user (config b);
     qs_message_ttl_seconds := message_ttl_seconds (config b) |}.

Lemma replay_loop_spec ttl clock k accepts sent q r :
  exists ex n rest,
    (replay_loop ttl clock k accepts sent q r).2 = sent ++ ex /\
    sublist ex (qm_event <$> q) /\
    replayed (replay_loop ttl clock k accepts sent q r).1 = (replayed r + length ex)%nat /\
    rr_expired (replay_loop ttl clock k accepts sent q r).1 = (rr_expired r + n)%nat /\
    (rr_failed (replay_loop ttl clock k accepts sent q r).1 = rr_failed r /\ rest = 0%nat \/
     rr_failed (replay_loop ttl clock k accepts sent q r).1 = S (rr_failed r) /\ (0 < rest)%nat /\
     accepts (sent ++ ex) = false) /\
    (length ex + n + rest = length q)%nat.
Proof.
  revert k sent r. induction q as [|m q IH]; intros k sent r; simpl.
  { exists [], 0%nat, 0%nat. rewrite app_nil_r. split_and!; auto with lia; try constructor. }
  destruct (queued_is_expired m ttl (clock k)).
  - destruct (IH (S k) sent {| replayed := replayed r; rr_failed := rr_failed r; rr_expired := S (rr_expired r) |})
      as (ex & n & rest & -> & Hs & -> & -> & H & L). simpl in *.
    exists ex, (S n), rest. split_and!; auto with lia. by constructor.
  - destruct (accepts sent) eqn:Ea.
    + destruct (IH (S k) (sent ++ [qm_event m])
        {| replayed := S (replayed r); rr_failed := rr_failed r; rr_expired := rr_expired r |})
        as (ex & n & rest & -> & Hs & -> & -> & H & L). simpl in *.
      exists (qm_event m :: ex), n, rest. rewrite <- app_assoc in *. simpl in *.
      split_and!; auto with lia. by constructor.
    + exists [], 0%nat, (S (length q)). rewrite app_nil_r. simpl.
      split_and!; auto with lia; apply sublist_nil_l.
Qed.

(** [replay] empties the user's queue and sends its unexpired messages in
    order until the receiver refuses one: every message is then sent, expired,
    or, once a send has failed, lost with everything behind it. *)
Theorem replay_spec b user clock accepts q :
  enabled (config b) = true -> queues b !! user = Some q ->
  let r := replay b user clock accepts in
  queues r.2 !! user = None /\
  sublist r.1.2 (qm_event <$> q) /\ replayed r.1.1 = length r.1.2 /\ (rr_failed r.1.1 <= 1)%nat /\
  (rr_failed r.1.1 = 0%nat -> (replayed r.1.1 + rr_expired r.1.1 = length q)%nat) /\
  (rr_failed r.1.1 = 1%nat -> accepts r.1.2 = false /\ (replayed r.1.1 + rr_expired r.1.1 < length q)%nat).
Proof.
  intros He Hq. unfold replay. rewrite He, Hq. cbn [negb fst snd queues]. split; [apply lookup_delete_eq|].
  destruct (replay_loop_spec (message_ttl_seconds (config b)) clock 0 accepts [] q replay_empty)
    as (ex & n & rest & -> & Hs & -> & -> & H & L). simpl in *.
  destruct H as [[-> ->]|(-> & ? & ?)]; split_and!; auto with lia; intros; split_and?; auto with lia.
Qed.

Definition example_queue : UserMessageQueue :=
  (enqueue (new (Memory.example_config 2)) "u" (Memory.example_event 1%N) 1%N 0).2.

Lemma replay_spec_witness :
  rr_failed (replay example_queue "u" (fun _ => 0) (fun _ => false)).1.1 = 1%nat /\
  (0 < 1)%nat.
Proof.
  split; [reflexivity|].
  destruct (replay_spec example_queue "u" (fun _ => 0) (fun _ => false)
    [queued_new (Memory.example_event 1%N) 1%N 0]) as (_ & _ & _ & _ & _ & H);
    [reflexivity|vm_compute; reflexivity|].
  apply H. reflexivity.
Defined.
End UserQueue.

(** ** The backend trait *)

Class MessageQueueBackend (Q : Type) := {
  q_is_enabled : Q -> bool;
  q_message_ttl_seconds : Q -> Z;
  q_enqueue : Q -> string -> NotificationEvent -> uuid -> Z -> result QueueBackendError unit * Q;
  q_drain : Q -> string -> (nat -> Z) -> result QueueBackendError DrainResult * Q;
  q_peek : Q -> string -> nat -> result QueueBackendError (list StoredMessage) * Q;
  q_queue_size : Q -> string -> result QueueBackendError nat * Q;
  q_cleanup_expired : Q -> (nat -> Z) -> result QueueBackendError nat * Q;
  q_clear_user_queue : Q -> string -> result QueueBackendError nat * Q;
  q_stats : Q -> QueueBackendStats;
}.

(** What the trait promises a client: the messages kept for each user, and
    how [enqueue] and [drain] change them.  A backend may drop the oldest
    messages to make room, may refuse an operation, and never touches another
    user's messages. *)
Class QueueLaws (Q : Type) `{MessageQueueBackend Q} := {
  q_contents : Q -> string -> list StoredMessage;
  q_enabled_enqueue : forall q u e i n, q_is_enabled (q_enqueue q u e i n).2 = q_is_enabled q;
  q_enabled_drain : forall q u c, q_is_enabled (q_drain q u c).2 = q_is_enabled q;
  q_enqueue_disabled : forall q u e i n, q_is_enabled q = false ->
    q_enqueue q u e i n = (Err BackendDisabled, q);
  q_enqueue_ok : forall q u e i n q', q_enqueue q u e i n = (Ok tt, q') ->
    exists k, q_contents q' u = drop k (q_contents q u) ++ [stored_new e i n];
  q_enqueue_err : forall q u e i n x q' v, q_enqueue q u e i n = (Err x, q') -> q_contents q' v = q_contents q v;
  q_enqueue_other : forall q u e i n v, u <> v -> q_contents (q_enqueue q u e i n).2 v = q_contents q v;
  q_drain_ok : forall q u c lo hi r q', q_is_enabled q = true -> (forall j, lo <= c j <= hi) ->
    q_drain q u c = (Ok r, q') ->
    q_contents q' u = [] /\ kept sm_queued_at (q_message_ttl_seconds q) lo hi (q_contents q u) (messages r) /\
    (length (messages r) + expired r = length (q_contents q u))%nat;
  q_drain_err : forall q u c x q' v, q_drain q u c = (Err x, q') -> q_contents q' v = q_contents q v;
  q_drain_other : forall q u c v, u <> v -> q_contents (q_drain q u c).2 v = q_contents q v;
}.

#[export] Instance memory_backend : MessageQueueBackend Memory.MemoryQueueBackend := {|
  q_is_enabled := Memory.is_enabled; q_message_ttl_seconds := Memory.ttl; q_enqueue := Memory.enqueue;
  q_drain := Memory.drain; q_peek b u n := (Memory.peek b u n, b);
  q_queue_size b u := (Memory.queue_size b u, b);
  q_cleanup_expired := Memory.cleanup_expired; q_clear_user_queue := Memory.clear_user_queue;
  q_stats := Memory.stats |}.

Lemma memory_drain_kept b u clock lo hi r b' :
  Memory.is_enabled b = true -> (forall j, lo <= clock j <= hi) -> Memory.drain b u clock = (Ok r, b') ->
  Memory.contents b' u = [] /\
  kept sm_queued_at (Memory.ttl b) lo hi (Memory.contents b u) (messages r) /\
  (length (messages r) + expired r = length (Memory.contents b u))%nat.
Proof.
  unfold Memory.drain, Memory.is_enabled, Memory.contents, contents_of. intros -> Hc. simpl.
  destruct (Memory.queues b !! u) as [q|] eqn:E; intros [= <- <-]; simpl.
  - rewrite lookup_delete_eq. split; [done|]. case_decide as D; [subst; simpl|].
    + split; [split; [constructor|set_solver]|done].
    + split; [by apply split_expired_kept|apply split_expired_length].
  - rewrite E. split; [done|]. split; [split; [constructor|set_solver]|done].
Qed.

#[export] Program Instance memory_laws : QueueLaws Memory.MemoryQueueBackend :=
  {| q_contents := Memory.contents |}.
Next Obligation. intros. simpl. unfold Memory.enqueue. by case_match. Qed.
Next Obligation. intros. simpl. unfold Memory.drain, Memory.is_enabled. by repeat case_match. Qed.
Next Obligation. simpl. unfold Memory.enqueue, Memory.is_enabled. by intros ???? ? ->. Qed.
Next Obligation.
  simpl. unfold Memory.enqueue, Memory.contents, contents_of. intros q u e i n q' H.
  case_match; simplify_eq. simpl. rewrite lookup_insert_eq. simpl. rewrite push_bounded_drop. by eexists.
Qed.
Next Obligation. simpl. unfold Memory.enqueue. intros. by case_match; simplify_eq. Qed.
Next Obligation.
  simpl. unfold Memory.enqueue, Memory.contents, contents_of. intros. case_match; [done|]. simpl.
  by rewrite lookup_insert_ne.
Qed.
Next Obligation. intros. eapply memory_drain_kept; eauto. Qed.
Next Obligation. simpl. unfold Memory.drain. intros. by repeat case_match; simplify_eq. Qed.
Next Obligation.
  simpl. unfold Memory.drain, Memory.contents, contents_of. intros. repeat case_match; try done; simpl;
    by rewrite lookup_delete_ne.
Qed.

(** ** Offline delivery, against the trait *)

Fixpoint enqueue_all {Q} `{MessageQueueBackend Q} (q : Q) (u : string) (es : list (NotificationEvent * uuid * Z))
  : list (result QueueBackendError unit) * Q :=
  match es with
  | [] => ([], q)
  | (e, i, n) :: es' => let r := q_enqueue q u e i n in
                        let rest := enqueue_all r.2 u es' in (r.1 :: rest.1, rest.2)
  end.

Definition stored_of (x : NotificationEvent * uuid * Z) : StoredMessage := stored_new x.1.1 x.1.2 x.2.

Lemma enqueue_all_contents {Q} `{QueueLaws Q} (q : Q) u es :
  Forall (fun r => r = Ok tt) (enqueue_all q u es).1 ->
  exists k, q_contents (enqueue_all q u es).2 u = drop k (q_contents q u ++ (stored_of <$> es)).
Proof.
  revert q. induction es as [|[[e i] n] es IH]; intros q; simpl.
  { intros _. exists 0%nat. by rewrite app_nil_r. }
  intros [E F]%Forall_cons. destruct (IH _ F) as [k ->].
  destruct (q_enqueue_ok q u e i n (q_enqueue q u e i n).2) as [k0 ->].
  { rewrite <- E. by destruct (q_enqueue q u e i n). }
  exists (if decide (k = 0%nat) then Nat.min k0 (length (q_contents q u)) else (k + Nat.min k0 (length (q_contents q u)))%nat).
  rewrite <- app_assoc. change ([stored_new e i n] ++ (stored_of <$> es)) with (stored_of <$> (e, i, n) :: es).
  assert (D : drop k0 (q_contents q u) ++ (stored_of <$> (e, i, n) :: es) =
              drop (Nat.min k0 (length (q_contents q u))) (q_contents q u ++ (stored_of <$> (e, i, n) :: es))).
  { rewrite drop_app_le by lia. f_equal. destruct (decide (k0 <= length (q_contents q u))%nat).
    - by rewrite Nat.min_l.
    - rewrite Nat.min_r by lia. rewrite !drop_ge; [done|lia..]. }
  rewrite D. case_decide as Hk; [by subst|]. by rewrite drop_drop, Nat.add_comm.
Qed.

Lemma kept_sublist_mono {A} (qa : A -> Z) ttl lo hi (q q' : list A) m :
  kept qa ttl lo hi q q' -> m ∈ q' -> m ∈ q.
Proof. intros (S & _ & _) Hm. eapply elem_of_submseteq; [done|]. by apply sublist_submseteq. Qed.

(** Whatever the backend: messages accepted for an offline user come back
    from the next [drain] of the same key in the order they were queued, the
    oldest possibly dropped for room and the expired ones filtered out, and
    the queue is then empty. *)
Theorem offline_roundtrip {Q} `{QueueLaws Q} (q : Q) u es clock lo hi r q' :
  q_is_enabled (enqueue_all q u es).2 = true -> (forall j, lo <= clock j <= hi) ->
  q_contents q u = [] -> Forall (fun r => r = Ok tt) (enqueue_all q u es).1 ->
  q_drain (enqueue_all q u es).2 u clock = (Ok r, q') ->
  exists dropped,
    sublist (messages r) (drop dropped (stored_of <$> es)) /\
    (length (messages r) + expired r + Nat.min dropped (length es) = length es)%nat /\
    q_contents q' u = [] /\
    (forall x, x ∈ drop dropped es ->
       age_expired x.2 (q_message_ttl_seconds (enqueue_all q u es).2) hi = false -> stored_of x ∈ messages r).
Proof.
  intros He Hc Hq Hf Hd. destruct (enqueue_all_contents q u es Hf) as [k Hk]. rewrite Hq in Hk. simpl in Hk.
  destruct (q_drain_ok _ _ _ lo hi _ _ He Hc Hd) as (H1 & (S & _ & K) & L). rewrite Hk in *.
  exists k. split_and!; try done.
  - rewrite L, length_drop, length_fmap. lia.
  - intros x Hx Hn. apply K; [|done]. rewrite <- fmap_drop. by apply list_elem_of_fmap_2.
Qed.

Lemma offline_roundtrip_witness :
  exists dropped : nat,
    sublist [stored_new (Memory.example_event 2%N) 2%N 0] (drop dropped
      (stored_of <$> [(Memory.example_event 1%N, 1%N, 0); (Memory.example_event 2%N, 2%N, 0)])).
Proof.
  destruct (offline_roundtrip (Memory.new (Memory.example_config 1)) "u"
    [(Memory.example_event 1%N, 1%N, 0); (Memory.example_event 2%N, 2%N, 0)] (fun _ => 0) 0 0
    {| messages := [stored_new (Memory.example_event 2%N) 2%N 0]; expired := 0 |}
    (Memory.mk ∅ (Memory.example_config 1))) as (d & S & _).
  - reflexivity.
  - lia.
  - reflexivity.
  - vm_compute. repeat constructor.
  - vm_compute. reflexivity.
  - exists d. exact S.
Defined.

(** ** Factory *)

Inductive QueueBackendChoice := UseMemory | UseRedis (prefix tenant_id : string) | UsePostgres (tenant_id : string).

Record QueueSettings := {
  set_enabled : bool; set_backend : string; set_max_size_per_user : nat; set_message_ttl_seconds : Z;
  set_cleanup_interval_seconds : Z; set_redis_prefix : string;
}.

Definition queue_config_of (s : QueueSettings) : QueueConfig :=
  {| enabled := set_enabled s; max_queue_size_per_user := set_max_size_per_user s;
     message_ttl_seconds := set_message_ttl_seconds s;
     cleanup_interval_seconds := set_cleanup_interval_seconds s |}.

(** The pools are present or not; a requested backend without its pool falls
    back to memory. *)
Definition create_queue_backend (s : QueueSettings) (redis_pool postgres_pool : bool)
  (tenant_id : option string) : QueueBackendChoice * QueueConfig :=
  let tenant := default "default" tenant_id in
  (if decide (set_backend s = "postgres") then if postgres_pool then UsePostgres tenant else UseMemory
   else if decide (set_backend s = "redis") then
     if redis_pool then UseRedis (set_redis_prefix s) tenant else UseMemory
   else UseMemory, queue_config_of s).
