(* ===== verification/QueueRedis.v ===== *)
(** * QueueRedis: the queue backend on Redis streams

    Models [domain/queue/redis_backend.rs]: one stream per user, messages as
    JSON in the field [data], trimmed on arrival and deleted when drained.
    The pool is [Redis.Pool]; [clock] is its breaker's clock. *)
From S2P Require Import Prelude Resilience Redis Notification Queue.

Record RedisQueueBackend (R : Type) := mk {
  pool : Pool.RedisPool R;
  config : QueueConfig;
  prefix : string;
  tenant_id : string;
}.
Arguments mk {R} _ _ _ _.
Arguments pool {R} _.
Arguments config {R} _.
Arguments prefix {R} _.
Arguments tenant_id {R} _.

Section backend.
Context {R : Type} `{RedisServer R} `{JsonCodec StoredMessage} (clock : nat -> Z).
Implicit Types b : RedisQueueBackend R.

Definition new (c : QueueConfig) (p : Pool.RedisPool R) (prefix : string) : RedisQueueBackend R :=
  mk p c prefix "default".
Definition with_tenant (c : QueueConfig) (p : Pool.RedisPool R) (prefix tenant : string) : RedisQueueBackend R :=
  mk p c prefix tenant.

Definition queue_key b (user : string) : string := prefix b +:+ ":" +:+ tenant_id b +:+ ":" +:+ user.

Definition map_error (e : Pool.PoolError) : QueueBackendError :=
  match e with
  | Pool.PRedis e => BackendRedis (re_text e)
  | Pool.CircuitIsOpen => Unavailable "Circuit breaker is open"
  | Pool.ConnectionUnavailable msg => Unavailable msg
  end.

(** A pool operation of the backend. *)
Definition with_pool {X} (op : Pool.M X) b : result QueueBackendError X * RedisQueueBackend R :=
  let r := op (pool b) in (map_err map_error r.1, mk r.2 (config b) (prefix b) (tenant_id b)).

Definition is_enabled b : bool := enabled (config b).

Definition enqueue b (user : string) (e : NotificationEvent) (fresh : uuid) (now : Z)
  : result QueueBackendError unit * RedisQueueBackend R :=
  if negb (enabled (config b)) then (Err BackendDisabled, b)
  else
    match json_print (stored_new e fresh now) with
    | Err x => (Err (BackendSerialization x), b)
    | Ok msg_json =>
      let r := with_pool (Pool.xadd_maxlen clock (queue_key b user) (max_queue_size_per_user (config b))
                            [("data", msg_json)]) b in
      (match r.1 with Ok _ => Ok tt | Err x => Err x end, r.2)
    end.

Definition set_stream_id (i : string) (m : StoredMessage) : StoredMessage :=
  {| sm_id := sm_id m; sm_event := sm_event m; sm_queued_at := sm_queued_at m; sm_attempts := sm_attempts m;
     sm_stream_id := Some i |}.

(** The message of a stream entry: the first field [data], if it parses. *)
Definition entry_message (entry : string * Fields) : option StoredMessage :=
  match list_find (fun kv : string * string => kv.1 = "data") entry.2 with
  | Some (_, (_, json)) => match json_parse json with
                           | Ok m => Some (set_stream_id entry.1 m)
                           | Err _ => None
                           end
  | None => None
  end.

(** The loop of [drain]: entries without a message are skipped, and the clock
    is read for each message. *)
Definition parse_entries (ttl : Z) (now : nat -> Z) (entries : list (string * Fields)) : DrainResult :=
  let r := split_expired sm_queued_at ttl now 0 (omap entry_message entries) in
  {| messages := r.1; expired := r.2 |}.

(** [drain] up to the deletion: [None] when there is nothing to delete. *)
Definition drain_read b (user : string) (now : nat -> Z)
  : result QueueBackendError (option DrainResult) * RedisQueueBackend R :=
  let r := with_pool (Pool.xrange_all clock (queue_key b user)) b in
  (match r.1 with
   | Err e => Err e
   | Ok [] => Ok None
   | Ok entries => Ok (Some (parse_entries (message_ttl_seconds (config b)) now entries))
   end, r.2).

Definition drain_delete b (user : string) (d : DrainResult)
  : result QueueBackendError DrainResult * RedisQueueBackend R :=
  match messages d, expired d with
  | [], O => (Ok d, b)
  | _, _ => let r := with_pool (Pool.del clock (queue_key b user)) b in
            (match r.1 with Ok _ => Ok d | Err e => Err e end, r.2)
  end.

Definition drain b (user : string) (now : nat -> Z)
  : result QueueBackendError DrainResult * RedisQueueBackend R :=
  if negb (enabled (config b)) then (Ok DrainResult_default, b)
  else
    let r := drain_read b user now in
    match r.1 with
    | Err e => (Err e, r.2)
    | Ok None => (Ok DrainResult_default, r.2)
    | Ok (Some d) => drain_delete r.2 user d
    end.

Definition peek b (user : string) (limit : nat)
  : result QueueBackendError (list StoredMessage) * RedisQueueBackend R :=
  if negb (enabled (config b)) then (Ok [], b)
  else
    let r := with_pool (Pool.xrange_all clock (queue_key b user)) b in
    (match r.1 with Ok entries => Ok (omap entry_message (take limit entries)) | Err e => Err e end, r.2).

Definition queue_size b (user : string) : result QueueBackendError nat * RedisQueueBackend R :=
  if negb (enabled (config b)) then (Ok 0%nat, b)
  else with_pool (Pool.xlen clock (queue_key b user)) b.

(** Nothing is cleaned up on Redis. *)
Definition cleanup_expired b (now : nat -> Z) : result QueueBackendError nat * RedisQueueBackend R := (Ok 0%nat, b).

Definition clear_user_queue b (user : string) : result QueueBackendError nat * RedisQueueBackend R :=
  let n := queue_size b user in
  match n.1 with
  | Err e => (Err e, n.2)
  | Ok count => let r := with_pool (Pool.del clock (queue_key b user)) n.2 in
                (match r.1 with Ok _ => Ok count | Err e => Err e end, r.2)
  end.

Definition stats b : QueueBackendStats :=
  {| backend_type := "redis"; bs_enabled := enabled (config b); total_messages := 0; users_with_queue := 0;
     max_queue_size := 0; max_queue_size_config := max_queue_size_per_user (config b);
     bs_message_ttl_seconds := message_ttl_seconds (config b) |}.

#[local] Instance redis_backend : MessageQueueBackend (RedisQueueBackend R) := {|
  q_is_enabled := is_enabled; q_message_ttl_seconds b := message_ttl_seconds (config b);
  q_enqueue := enqueue; q_drain := drain; q_peek := peek; q_queue_size := queue_size;
  q_cleanup_expired := cleanup_expired; q_clear_user_queue := clear_user_queue; q_stats := stats |}.
End backend.

(** ** Round trip *)

(** A message as it was queued, its stream id forgotten. *)
Definition forget_id (m : StoredMessage) : StoredMessage :=
  {| sm_id := sm_id m; sm_event := sm_event m; sm_queued_at := sm_queued_at m; sm_attempts := sm_attempts m;
     sm_stream_id := None |}.

Lemma split_expired_fmap {A B} (f : A -> B) (qa : A -> Z) (qb : B -> Z) ttl now k q :
  (forall m, qb (f m) = qa m) ->
  split_expired qb ttl now k (f <$> q) =
  (f <$> (split_expired qa ttl now k q).1, (split_expired qa ttl now k q).2).
Proof.
  intros Hf. revert k. induction q as [|m q IH]; intros k; simpl; [done|].
  rewrite IH, Hf. by destruct (age_expired (qa m) ttl (now k)).
Qed.

Section laws.
Context {R : Type} `{RedisLaws R} `{JsonLaws StoredMessage} (clock : nat -> Z).
Implicit Types b : RedisQueueBackend R.
#[local] Existing Instance redis_backend.

Abbreviation stream_of b user := (stream_at (Pool.live (pool b)) (queue_key b user)).

(** Stream entries as [enqueue] writes them. *)
Definition encodes (e : string * Fields) (m : StoredMessage) : Prop :=
  exists s, e.2 = [("data", s)] /\ json_print m = Ok s.

Lemma entry_message_encodes e m : encodes e m -> entry_message e = Some (set_stream_id e.1 m).
Proof.
  intros (s & E & P). unfold entry_message. rewrite E. simpl. by rewrite (json_roundtrip m s P).
Qed.

Lemma entries_messages es ms :
  Forall2 encodes es ms -> forget_id <$> omap entry_message es = forget_id <$> ms.
Proof.
  induction 1 as [|e m es ms E _ IH]; [done|]. csimpl. rewrite (entry_message_encodes e m E). csimpl.
  rewrite IH. done.
Qed.

(** One message to a stream that has room for it. *)
Lemma enqueue_room b user e i t s entries :
  is_enabled b = true -> Pool.ready (pool b) -> json_print (stored_new e i t) = Ok s ->
  stream_of b user = Some entries -> (length entries < max_queue_size_per_user (config b))%nat ->
  exists b' sid, enqueue clock b user e i t = (Ok tt, b') /\ Pool.ready (pool b') /\
    config b' = config b /\ queue_key b' user = queue_key b user /\
    stream_of b' user = Some (entries ++ [(sid, [("data", s)])]).
Proof.
  unfold is_enabled, enqueue. intros -> Rd Hp Hs Hroom. rewrite Hp. cbn [negb].
  destruct (Pool.ready_command clock (XADD (queue_key b user) (max_queue_size_per_user (config b)) [("data", s)])
    (pool b) Rd) as (sid & p' & E & Rd' & (s0 & j & E0 & Hj & Hk)).
  { eexists "0-1", _. simpl. exists entries, 0%nat. split_and!; eauto. }
  rewrite Hs in E0. simplify_eq. assert (j = 0%nat) as -> by lia.
  unfold with_pool, Pool.xadd_maxlen. rewrite E. simpl. eexists _, sid. split; [reflexivity|]. simpl.
  split_and!; try done. unfold queue_key in *. simpl. rewrite Hk. unfold stream_at, put. by rewrite lookup_insert_eq.
Qed.

Lemma enqueue_all_room b user es entries ms :
  is_enabled b = true -> Pool.ready (pool b) -> Forall (fun x => is_ok (json_print (stored_of x)) = true) es ->
  stream_of b user = Some entries -> Forall2 encodes entries ms ->
  (length entries + length es <= max_queue_size_per_user (config b))%nat ->
  exists r b' entries', enqueue_all (H := redis_backend clock) b user es = (r, b') /\
    Forall (fun x => x = Ok tt) r /\ Pool.ready (pool b') /\ config b' = config b /\
    queue_key b' user = queue_key b user /\
    stream_of b' user = Some entries' /\ Forall2 encodes entries' (ms ++ (stored_of <$> es)) /\
    length entries' = (length entries + length es)%nat.
Proof.
  intros En Rd P Hs Henc Hroom. revert b entries ms En Rd Hs Henc Hroom.
  induction P as [|[[e i] t] es Px P IH]; intros b entries ms En Rd Hs Henc Hroom; simpl.
  { eexists [], b, entries. rewrite app_nil_r, Nat.add_0_r. by split_and!. }
  destruct (json_print (stored_of (e, i, t))) as [s|] eqn:Ep; [|done].
  destruct (enqueue_room b user e i t s entries En Rd Ep Hs) as (b1 & sid & E1 & Rd1 & C1 & K1 & S1); [simpl in *; lia|].
  destruct (IH b1 (entries ++ [(sid, [("data", s)])]) (ms ++ [stored_of (e, i, t)]))
    as (r & b' & entries' & E2 & Fr & Rd' & C' & K' & S' & Enc' & L').
  - unfold is_enabled in *. by rewrite C1.
  - done.
  - by rewrite K1 in *.
  - apply Forall2_app; [done|]. constructor; [|constructor]. by exists s.
  - rewrite C1, length_app. simpl in *. lia.
  - rewrite E1. simpl. rewrite E2. simpl. eexists (Ok tt :: r), b', entries'.
    rewrite <- app_assoc in Enc'. rewrite length_app in L'. simpl in *. split_and!; try done; try congruence; try lia.
    by constructor.
Qed.

(** What [drain] answers and leaves on a stream of messages. *)
Lemma drain_stream b user now entries ms :
  is_enabled b = true -> Pool.ready (pool b) -> stream_of b user = Some entries -> Forall2 encodes entries ms ->
  ms <> [] ->
  let live := split_expired sm_queued_at (message_ttl_seconds (config b)) now 0 ms in
  exists d b', drain clock b user now = (Ok d, b') /\ forget_id <$> messages d = forget_id <$> live.1 /\
    expired d = live.2 /\ Pool.live (pool b') !! queue_key b user = None.
Proof.
  intros En Rd Hs Henc Hne live. unfold drain. unfold is_enabled in En. rewrite En. cbn [negb].
  destruct (Pool.ready_command clock (XRANGE (queue_key b user)) (pool b) Rd) as (r & p1 & E1 & Rd1 & Er & L1).
  { eexists entries, _. simpl. by split. }
  rewrite Hs in Er. injection Er as <-.
  unfold drain_read, with_pool, Pool.xrange_all. rewrite E1. cbn [fst snd map_err].
  destruct entries as [|e0 entries]; [inversion Henc; subst; done|]. remember (e0 :: entries) as es eqn:Hes.
  set (d := parse_entries _ _ _).
  assert (Hd : forget_id <$> messages d = forget_id <$> live.1 /\ expired d = live.2).
  { pose proof (split_expired_fmap forget_id sm_queued_at sm_queued_at (message_ttl_seconds (config b)) now 0) as SF.
    pose proof (SF (omap entry_message es) ltac:(done)) as S1. pose proof (SF ms ltac:(done)) as S2.
    rewrite (entries_messages es ms Henc), S2 in S1. unfold d, parse_entries, live. simpl. by injection S1. }
  assert (Hdel : messages d <> [] \/ expired d <> 0%nat).
  { pose proof (split_expired_length sm_queued_at (message_ttl_seconds (config b)) now 0 ms) as L.
    fold live in L. destruct Hd as [Hm Hx]. apply (f_equal length) in Hm. rewrite !length_fmap in Hm.
    destruct ms; [done|]. destruct (messages d); [right|by left]. simpl in *. lia. }
  destruct (Pool.ready_command clock (DEL (queue_key b user)) p1 Rd1) as (u & p2 & E2 & Rd2 & L2); [by eexists tt, _|].
  exists d. unfold drain_delete, with_pool, Pool.del, queue_key in *. cbn [pool config prefix tenant_id].
  destruct (messages d), (expired d); try (exfalso; naive_solver);
    rewrite E2; simpl; eexists; (split; [reflexivity|]); simpl; split_and!; try apply Hd; rewrite L2; apply lookup_delete_eq.
Qed.

(** C17: Offline delivery over Redis, with Redis up and the calls one after
    another (none between the read and the delete of a drain, cf.
    [message_between_read_and_delete_lost]): messages queued for a user who has
    none yet, at least one and no more than the size limit, are all accepted;
    the next drain returns the unexpired ones in the order they were queued,
    each as it was queued but for its stream id, counts the others, and leaves
    no stream behind. *)
Theorem redis_offline_roundtrip b user es now :
  is_enabled b = true -> Pool.ready (pool b) -> Forall (fun x => is_ok (json_print (stored_of x)) = true) es ->
  stream_of b user = Some [] -> (0 < length es <= max_queue_size_per_user (config b))%nat ->
  let live := split_expired sm_queued_at (message_ttl_seconds (config b)) now 0 (stored_of <$> es) in
  exists r b1 d b2, enqueue_all (H := redis_backend clock) b user es = (r, b1) /\ Forall (fun x => x = Ok tt) r /\
    drain clock b1 user now = (Ok d, b2) /\ forget_id <$> messages d = live.1 /\ expired d = live.2 /\
    Pool.live (pool b2) !! queue_key b user = None.
Proof.
  intros En Rd P Hs [Hpos Hmax] live.
  destruct (enqueue_all_room b user es [] [] En Rd P Hs ltac:(constructor) Hmax)
    as (r & b1 & entries & E1 & Fr & Rd1 & C1 & K1 & S1 & Enc & _). simpl in Enc.
  destruct (drain_stream b1 user now entries (stored_of <$> es)) as (d & b2 & E2 & M & X & L).
  - unfold is_enabled in *. by rewrite C1.
  - done.
  - by rewrite K1 in *.
  - done.
  - destruct es; [simpl in Hpos; lia|done].
  - exists r, b1, d, b2. rewrite C1 in M, X. rewrite K1 in L. split_and!; try done. rewrite M.
    pose proof (split_expired_fmap forget_id sm_queued_at sm_queued_at (message_ttl_seconds (config b)) now 0
      (stored_of <$> es) ltac:(done)) as SF.
    rewrite <- list_fmap_compose in SF. unfold live.
    assert (Ef : (forget_id ∘ stored_of) <$> es = stored_of <$> es) by (by apply list_fmap_ext).
    rewrite Ef in SF. rewrite SF at 2. done.
Qed.
End laws.

(** ** A drain that is overtaken *)

Section race.
Context {R : Type} `{RedisLaws R} `{JsonLaws StoredMessage} (clock : nat -> Z).
Implicit Types b : RedisQueueBackend R.

(** [drain] reads the stream and deletes it in two commands: a message that
    is accepted between them, from this process or another, is deleted
    without having been read. *)
Theorem message_between_read_and_delete_lost b user now d b1 e i t b2 :
  drain_read clock b user now = (Ok (Some d), b1) -> messages d <> [] ->
  enqueue clock b1 user e i t = (Ok tt, b2) -> Pool.ready (pool b2) ->
  exists b3, drain_delete clock b2 user d = (Ok d, b3) /\
    Pool.live (pool b3) !! queue_key b user = None /\
    forall now', exists b4, drain clock b3 user now' = (Ok DrainResult_default, b4).
Proof.
  intros Hr Hd He Rd.
  assert (K : forall X (op : Pool.M X) b', queue_key (with_pool op b').2 user = queue_key b' user) by done.
  assert (K1 : queue_key b1 user = queue_key b user).
  { unfold drain_read in Hr. simplify_eq. apply K. }
  assert (K2 : queue_key b2 user = queue_key b1 user).
  { unfold enqueue in He. destruct (negb _); [done|]. destruct (json_print _); [|done]. simplify_eq. apply K. }
  destruct (Pool.ready_command clock (DEL (queue_key b2 user)) (pool b2) Rd) as (u & p3 & E & Rd3 & L); [by eexists tt, _|].
  unfold drain_delete, with_pool, Pool.del. destruct (messages d); [done|]. rewrite E. simpl.
  eexists. split; [reflexivity|]. simpl. rewrite L, <- K1, <- K2. split; [apply lookup_delete_eq|].
  intros now'. unfold drain. simpl. destruct (negb _); [by eexists|].
  unfold drain_read, with_pool, Pool.xrange_all, queue_key in *. simpl.
  set (key := prefix b2 +:+ _) in *.
  destruct (Pool.ready_command clock (XRANGE key) p3 Rd3) as (r & p4 & E4 & Rd4 & Er & L4).
  { eexists [], _. simpl. rewrite L. unfold stream_at. by rewrite lookup_delete_eq. }
  rewrite E4. simpl. rewrite L in Er. unfold stream_at in Er. rewrite lookup_delete_eq in Er. simplify_eq.
  by eexists.
Qed.
End race.

(** ** Two messages over a keyspace *)

Section witnesses.
#[local] Existing Instances Store.keyspace_server Store.keyspace_laws.

Definition two_events : list (NotificationEvent * uuid * Z) :=
  [(Memory.example_event 1%N, 11%N, 0); (Memory.example_event 2%N, 12%N, 0)].
#[local] Instance two_codec : JsonCodec StoredMessage := table_codec (stored_of <$> two_events).
#[local] Instance two_laws : JsonLaws StoredMessage := table_laws (stored_of <$> two_events).

Definition example_pool : Pool.RedisPool Keyspace :=
  Pool.new (CircuitBreaker.with_config CircuitBreaker.CircuitBreakerConfig_default 0) Health.new ∅.
Definition example_backend : RedisQueueBackend Keyspace := new (Memory.example_config 5) example_pool "ara:queue".
Definition zero_clock (k : nat) : Z := 0.

Lemma redis_offline_roundtrip_witness :
  exists r b1 d b2,
    enqueue_all (H := redis_backend zero_clock) example_backend "acme:carol" two_events = (r, b1) /\
    drain zero_clock b1 "acme:carol" zero_clock = (Ok d, b2) /\
    map (fun m => id (sm_event m)) (messages d) = [1%N; 2%N].
Proof.
  destruct (redis_offline_roundtrip zero_clock example_backend "acme:carol" two_events zero_clock)
    as (r & b1 & d & b2 & E1 & _ & E2 & M & _).
  - reflexivity.
  - split; reflexivity.
  - repeat constructor.
  - reflexivity.
  - simpl. lia.
  - exists r, b1, d, b2. split; [exact E1|]. split; [exact E2|].
    assert (F : forall l, map (fun m => id (sm_event m)) l = map (fun m => id (sm_event m)) (forget_id <$> l))
      by (induction l as [|m l IH]; [reflexivity|]; simpl; f_equal; exact IH).
    rewrite F, M. vm_compute. reflexivity.
Defined.

Lemma message_between_read_and_delete_lost_witness :
  let b0 := (enqueue zero_clock example_backend "u" (Memory.example_event 1%N) 11%N 0).2 in
  let r := drain_read zero_clock b0 "u" zero_clock in
  exists d b3, r.1 = Ok (Some d) /\
    drain_delete zero_clock (enqueue zero_clock r.2 "u" (Memory.example_event 2%N) 12%N 0).2 "u" d = (Ok d, b3) /\
    Pool.live (pool b3) !! "ara:queue:default:u" = None.
Proof.
  intros b0 r.
  destruct (message_between_read_and_delete_lost zero_clock b0 "u" zero_clock
    {| messages := [set_stream_id "0" (stored_new (Memory.example_event 1%N) 11%N 0)]; expired := 0 |} r.2
    (Memory.example_event 2%N) 12%N 0 (enqueue zero_clock r.2 "u" (Memory.example_event 2%N) 12%N 0).2)
    as (b3 & E & L & _).
  - vm_compute. reflexivity.
  - discriminate.
  - vm_compute. reflexivity.
  - split; vm_compute; reflexivity.
  - eexists _, b3. split; [|split; [exact E|exact L]]. vm_compute. reflexivity.
Defined.
End witnesses.
