(* ===== verification/QueuePostgres.v ===== *)
(** * QueuePostgres: the queue backend on PostgreSQL

    Models [domain/queue/postgres_backend.rs]: one table for every tenant and
    user, the size limit enforced by the statement that inserts, expiry by the
    database's clock.  The statements are those of [Postgres]; a failed
    update of the statistics is logged and ignored, as the code does. *)
From S2P Require Import Prelude Notification Queue Postgres.

Record PostgresQueueBackend (D : Type) := mk { pool : D; config : QueueConfig; tenant_id : string }.
Arguments mk {D} _ _ _.
Arguments pool {D} _.
Arguments config {D} _.
Arguments tenant_id {D} _.

Section backend.
Context {D : Type} `{Postgres D} `{JsonCodec NotificationEvent}.
Implicit Types b : PostgresQueueBackend D.

Definition new (c : QueueConfig) (p : D) : PostgresQueueBackend D := mk p c "default".
Definition with_tenant (c : QueueConfig) (p : D) (tenant : string) : PostgresQueueBackend D := mk p c tenant.

Definition is_enabled b : bool := enabled (config b).

(** A statement of the backend. *)
Definition query {X} (q : Query X) b : result QueueBackendError X * PostgresQueueBackend D :=
  let r := pg_exec q (pool b) in (map_err BackendPostgres r.1, mk r.2 (config b) (tenant_id b)).

(** [now] is the program's clock.  [Duration::seconds] panics for more than
    [i64::MAX] milliseconds; up to there the sum is exact. *)
Definition enqueue b (user : string) (e : NotificationEvent) (fresh : uuid) (now : Z)
  : result QueueBackendError unit * PostgresQueueBackend D :=
  if negb (enabled (config b)) then (Err BackendDisabled, b)
  else
    let expires_at := now + seconds (i64 (message_ttl_seconds (config b))) in
    match json_print e with
    | Err x => (Err (BackendSerialization x), b)
    | Ok event_data =>
      let r := query (ENQUEUE (tenant_id b) user (i64 (Z.of_nat (max_queue_size_per_user (config b)))) fresh
                        event_data expires_at) b in
      match r.1 with
      | Err x => (Err x, r.2)
      | Ok _ =>
        let s := query (UPSERT_QUEUE_STATS (tenant_id b) {| qt_enqueued := 1; qt_drained := 0; qt_expired := 0 |}) r.2 in
        (Ok tt, s.2)
      end
    end.

(** A row whose event does not parse is skipped. *)
Definition row_message (row : MessageRow) : option StoredMessage :=
  let '(i, event_data, queued_at, attempts) := row in
  match json_parse event_data with
  | Ok event => Some {| sm_id := i; sm_event := event; sm_queued_at := queued_at; sm_attempts := u32 attempts;
                        sm_stream_id := None |}
  | Err _ => None
  end.

Definition drain b (user : string) (now : nat -> Z)
  : result QueueBackendError DrainResult * PostgresQueueBackend D :=
  if negb (enabled (config b)) then (Ok DrainResult_default, b)
  else
    let r1 := query (DRAIN_LIVE (tenant_id b) user) b in
    match r1.1 with
    | Err x => (Err x, r1.2)
    | Ok rows =>
      let r2 := query (DELETE_EXPIRED_OF (tenant_id b) user) r1.2 in
      match r2.1 with
      | Err x => (Err x, r2.2)
      | Ok expired =>
        let messages := omap row_message rows in
        let drained_count := length messages in
        let b' :=
          if (0 <? drained_count)%nat || (0 <? expired)%nat
          then (query (UPSERT_QUEUE_STATS (tenant_id b)
                  {| qt_enqueued := 0; qt_drained := i64 (Z.of_nat drained_count); qt_expired := i64 (Z.of_nat expired) |})
                  r2.2).2
          else r2.2 in
        (Ok {| messages := messages; expired := expired |}, b')
      end
    end.

Definition peek b (user : string) (limit : nat)
  : result QueueBackendError (list StoredMessage) * PostgresQueueBackend D :=
  if negb (enabled (config b)) then (Ok [], b)
  else
    let r := query (PEEK (tenant_id b) user (i64 (Z.of_nat limit))) b in
    (match r.1 with Ok rows => Ok (omap row_message rows) | Err x => Err x end, r.2).

Definition queue_size b (user : string) : result QueueBackendError nat * PostgresQueueBackend D :=
  if negb (enabled (config b)) then (Ok 0%nat, b)
  else
    let r := query (COUNT_LIVE (tenant_id b) user) b in
    (match r.1 with Ok count => Ok (Z.to_nat (u64 count)) | Err x => Err x end, r.2).

Definition cleanup_expired b (now : nat -> Z) : result QueueBackendError nat * PostgresQueueBackend D :=
  if negb (enabled (config b)) then (Ok 0%nat, b) else query (DELETE_EXPIRED (tenant_id b)) b.

Definition clear_user_queue b (user : string) : result QueueBackendError nat * PostgresQueueBackend D :=
  if negb (enabled (config b)) then (Ok 0%nat, b) else query (DELETE_QUEUE (tenant_id b) user) b.

Definition stats b : QueueBackendStats :=
  let '(total, users, largest) :=
    match (query (QUEUE_SIZES (tenant_id b)) b).1 with Ok r => r | Err _ => (0, 0, 0) end in
  {| backend_type := "postgres"; bs_enabled := enabled (config b); total_messages := Z.to_nat (u64 total);
     users_with_queue := Z.to_nat (u64 users); max_queue_size := Z.to_nat (u64 largest);
     max_queue_size_config := max_queue_size_per_user (config b);
     bs_message_ttl_seconds := message_ttl_seconds (config b) |}.

#[local] Instance postgres_backend : MessageQueueBackend (PostgresQueueBackend D) := {|
  q_is_enabled := is_enabled; q_message_ttl_seconds b := message_ttl_seconds (config b);
  q_enqueue := enqueue; q_drain := drain; q_peek := peek; q_queue_size := queue_size;
  q_cleanup_expired := cleanup_expired; q_clear_user_queue := clear_user_queue; q_stats := stats |}.
End backend.

(** ** Every operation is a sequence of statements *)

Section laws.
Context {D : Type} `{PostgresLaws D} `{JsonLaws NotificationEvent}.
Implicit Types (b : PostgresQueueBackend D) (d : D).

(** The operations of the backend that reach the database. *)
Inductive operation b : PostgresQueueBackend D -> Prop :=
| op_enqueue u e fresh now : operation b (enqueue b u e fresh now).2
| op_drain u now : operation b (drain b u now).2
| op_peek u limit : operation b (peek b u limit).2
| op_size u : operation b (queue_size b u).2
| op_cleanup now : operation b (cleanup_expired b now).2
| op_clear u : operation b (clear_user_queue b u).2.

Definition cap_ok (c : QueueConfig) : Prop := is_i64 (Z.of_nat (max_queue_size_per_user c)).

Lemma operation_statements b b' :
  cap_ok (config b) -> operation b b' ->
  config b' = config b /\ tenant_id b' = tenant_id b /\
  statements (tenant_id b) (max_queue_size_per_user (config b)) (pool b) (pool b').
Proof.
  intros C. destruct 1; unfold enqueue, drain, peek, queue_size, cleanup_expired, clear_user_queue, query; simpl.
  all: rewrite ?(i64_id _ C); repeat case_match; simpl; (split_and!; [done..|]).
  all: repeat (apply statements_snoc; [done|done|]); constructor.
Qed.

(** A run of the database: operations of backends that share the limit
    [cap], of whatever tenants and in whatever order. *)
Inductive run (cap : nat) : D -> D -> Prop :=
| run_nil d : run cap d d
| run_op b b' d' : cap_ok (config b) -> max_queue_size_per_user (config b) = cap -> operation b b' ->
  run cap (pool b') d' -> run cap (pool b) d'.

(** C19: However the operations of the service interleave, and whichever of their
    statements fail, no user of any tenant ever has more than
    [max(1, max_queue_size_per_user)] rows. *)
Theorem postgres_queue_bounded cap d d' :
  run cap d d' -> bounded cap (pg_db d) -> bounded cap (pg_db d').
Proof.
  induction 1 as [|b b' d' C E O _ IH]; [done|]. intros B. apply IH.
  destruct (operation_statements b b' C O) as (_ & _ & S). rewrite E in S. by eapply statements_bounded.
Qed.

(** An operation of one tenant's backend leaves every row and counter of the
    other tenants as it was, also when it fails half-way. *)
Theorem postgres_queue_isolation b b' t :
  cap_ok (config b) -> operation b b' -> t <> tenant_id b -> same_tenant_rows t (pg_db (pool b)) (pg_db (pool b')).
Proof.
  intros C O N. destruct (operation_statements b b' C O) as (_ & _ & S). by eapply statements_other_tenant.
Qed.

(** ** Round trip *)

Abbreviation rows_of b user := (queue_of (tenant_id b) user (message_queue (pg_db (pool b)))).

(** The row of a message queued at [now] with a TTL. *)
Definition encodes ttl (x : NotificationEvent * uuid * Z) (kv : uuid * QueueRow) : Prop :=
  kv.1 = x.1.2 /\ json_print x.1.1 = Ok (qr_event_data kv.2) /\ qr_attempts kv.2 = 0 /\
  qr_expires_at kv.2 = micros (x.2 + seconds (i64 ttl)).

Lemma queue_query_counts {X} (q : Query X) b :
  counts_only q -> pg_up (pool b) = true ->
  let b' := (query q b).2 in
  pg_up (pool b') = true /\ config b' = config b /\ tenant_id b' = tenant_id b /\
  message_queue (pg_db (pool b')) = message_queue (pg_db (pool b)) /\ pg_clock (pool b) <= pg_clock (pool b').
Proof.
  intros C U. simpl. destruct (exec_counts_only q (pool b) C) as [-> _].
  destruct (pg_exec_stays X q (pool b) U) as [-> _]. split_and!; try done. apply pg_exec_clock.
Qed.

(** A message for a queue that has room. *)
Lemma pg_enqueue_room b user x data :
  is_enabled b = true -> cap_ok (config b) -> pg_up (pool b) = true ->
  varchar_ok (tenant_id b) = true -> varchar_ok user = true ->
  json_print x.1.1 = Ok data -> pg_jsonb data = true -> message_queue (pg_db (pool b)) !! x.1.2 = None ->
  (size (rows_of b user) < max_queue_size_per_user (config b))%nat ->
  exists b' row, enqueue b user x.1.1 x.1.2 x.2 = (Ok tt, b') /\ pg_up (pool b') = true /\
    config b' = config b /\ tenant_id b' = tenant_id b /\ pg_clock (pool b) <= pg_clock (pool b') /\
    message_queue (pg_db (pool b')) = <[x.1.2 := row]> (message_queue (pg_db (pool b))) /\
    qr_tenant row = tenant_id b /\ qr_user row = user /\
    encodes (message_ttl_seconds (config b)) x (x.1.2, row).
Proof.
  intros En C U Ht Hu Hp Hj Hf Hroom. unfold enqueue. unfold is_enabled in En. rewrite En, Hp. cbn [negb].
  rewrite i64_id by done. cbv zeta. set (q := ENQUEUE _ _ _ _ _ _).
  destruct (exec_applies q (pool b) U) as (n & d1 & E & U1 & Sp & Hc).
  { simpl. by rewrite (varchar_text _ Ht), (varchar_text _ Hu), Hj. }
  { eexists 0, _. exists None, data. split_and!; try done. case_bool_decide; [lia|done]. }
  destruct Sp as (victim & st & _ & _ & _ & V & _ & J & Edb). rewrite (J Hj) in Edb.
  case_bool_decide; [lia|]. subst victim.
  set (b1 := mk d1 (config b) (tenant_id b)). assert (Q : query q b = (Ok n, b1)) by (unfold query; by rewrite E).
  rewrite Q. cbn [fst snd]. set (q2 := UPSERT_QUEUE_STATS _ _).
  destruct (queue_query_counts q2 b1 I U1) as (U2 & C2 & T2 & M2 & Hc2).
  eexists _, {| qr_expires_at := micros (x.2 + seconds (i64 (message_ttl_seconds (config b)))) |}.
  split; [reflexivity|]. rewrite M2. subst b1. cbn [pool]. rewrite Edb. split_and!; [done..|by etrans|reflexivity|done|done|].
  done.
Qed.

(** What a message needs to be stored. *)
Definition storable (db : Database) (x : NotificationEvent * uuid * Z) : Prop :=
  message_queue db !! x.1.2 = None /\ exists data, json_print x.1.1 = Ok data /\ pg_jsonb data = true.

Definition holds b user (es : list (NotificationEvent * uuid * Z)) : Prop :=
  exists rows, map_to_list (rows_of b user) ≡ₚ rows /\ Forall2 (encodes (message_ttl_seconds (config b))) es rows.

Lemma holds_length b user es : holds b user es -> size (rows_of b user) = length es.
Proof.
  intros (rows & P & F). rewrite <- length_map_to_list, P. symmetry. by eapply Forall2_length.
Qed.

Lemma pg_enqueue_all_room b user es0 es :
  is_enabled b = true -> cap_ok (config b) -> pg_up (pool b) = true ->
  varchar_ok (tenant_id b) = true -> varchar_ok user = true ->
  NoDup ((fun x => x.1.2) <$> es) -> Forall (storable (pg_db (pool b))) es -> holds b user es0 ->
  (length es0 + length es <= max_queue_size_per_user (config b))%nat ->
  exists r b', enqueue_all (H := postgres_backend) b user es = (r, b') /\ Forall (fun x => x = Ok tt) r /\
    is_enabled b' = true /\ pg_up (pool b') = true /\ config b' = config b /\ tenant_id b' = tenant_id b /\
    holds b' user (es0 ++ es).
Proof.
  intros En C U Ht Hu Nd St Hold Hroom. revert b es0 En C U Ht St Hold Hroom.
  induction es as [|x es IH]; intros b es0 En C U Ht St Hold Hroom; simpl.
  { eexists [], b. rewrite app_nil_r. by split_and!. }
  apply Forall_cons in St as [(Hf & data & Hp & Hj) St]. apply NoDup_cons in Nd as [Nx Nd].
  destruct (pg_enqueue_room b user x data En C U Ht Hu Hp Hj Hf) as (b1 & row & E1 & U1 & C1 & T1 & _ & M1 & Rt & Ru & Enc).
  { rewrite (holds_length b user es0 Hold). simpl in Hroom. lia. }
  destruct (IH Nd b1 (es0 ++ [x])) as (r & b' & E2 & Fr & En' & U' & C' & T' & Hold').
  - unfold is_enabled in *. by rewrite C1.
  - by rewrite C1.
  - done.
  - by rewrite T1.
  - apply Forall_forall. intros y Hy. destruct (proj1 (Forall_forall _ _) St y Hy) as [Fy Ry]. split; [|done].
    rewrite M1, lookup_insert_ne; [done|]. intros Eq. apply Nx. rewrite Eq. by apply (list_elem_of_fmap_2 (fun x => x.1.2)).
  - destruct Hold as (rows & P & F). exists (rows ++ [(x.1.2, row)]). rewrite C1, M1, T1. split.
    + unfold queue_of. rewrite map_filter_insert_True by done. fold (rows_of b user).
      rewrite map_to_list_insert by (apply map_lookup_filter_None; by left). rewrite P. apply Permutation_cons_append.
    + apply Forall2_app; [done|]. constructor; [done|constructor].
  - rewrite C1, length_app. simpl in *. lia.
  - destruct x as [[e i] t]. cbn [fst snd] in *. rewrite E1. simpl. rewrite E2. eexists _, b'. split; [reflexivity|].
    rewrite <- app_assoc in Hold'. split_and!; try done; try congruence. by constructor.
Qed.

Abbreviation delivered m := (sm_id m, sm_event m).
Abbreviation submitted x := (x.1.2, x.1.1).

Lemma rows_messages ttl es rows : Forall2 (encodes ttl) es rows ->
  (fun m => delivered m) <$> omap row_message (message_row <$> rows) = (fun x => submitted x) <$> es.
Proof.
  induction 1 as [|x kv es rows (Ei & Ep & _) _ IH]; [done|]. csimpl.
  rewrite (json_roundtrip _ _ Ep). csimpl. by rewrite IH, Ei.
Qed.

(** A drain before the messages expire. *)
Lemma drain_unexpired b user es now :
  is_enabled b = true -> pg_up (pool b) = true -> varchar_ok (tenant_id b) = true -> varchar_ok user = true ->
  holds b user es ->
  Forall (fun x => pg_clock (pool b) < micros (x.2 + seconds (i64 (message_ttl_seconds (config b))))) es ->
  exists dr b', drain b user now = (Ok dr, b') /\
    (fun m => delivered m) <$> messages dr ≡ₚ (fun x => submitted x) <$> es /\ expired dr = 0%nat /\ rows_of b' user = ∅.
Proof.
  intros En U Ht Hu (rows & P & F) Hc. unfold drain. unfold is_enabled in En. rewrite En. cbn [negb].
  assert (A : text_ok (tenant_id b) && text_ok user = true) by (by rewrite (varchar_text _ Ht), (varchar_text _ Hu)).
  destruct (exec_applies (DRAIN_LIVE (tenant_id b) user) (pool b) U) as (rs & d1 & E1 & U1 & [Prs Db1] & Cl1); [done|by eexists _, _|].
  destruct (exec_applies (DELETE_EXPIRED_OF (tenant_id b) user) d1 U1) as (n & d2 & E2 & U2 & [En2 Db2] & Cl2); [done|by eexists _, _|].
  assert (L : live_of (pg_clock (pool b)) (tenant_id b) user (message_queue (pg_db (pool b))) = rows_of b user).
  { apply map_filter_id. intros k r E. apply elem_of_map_to_list in E. rewrite P in E.
    apply list_elem_of_lookup in E as [j Ej]. destruct (Forall2_lookup_r _ _ _ _ _ F Ej) as (x & Ex & (_ & _ & _ & ->)).
    by apply (proj1 (Forall_lookup _ _) Hc j). }
  rewrite L in *.
  assert (Z : queue_of (tenant_id b) user (message_queue (pg_db d1)) = ∅).
  { rewrite Db1. simpl. apply map_empty. intros k. apply eq_None_not_Some. intros [r Er].
    apply queue_of_lookup in Er as [[Er Nr]%lookup_difference_Some Pr]. apply (proj1 (eq_None_not_Some _) Nr).
    exists r. by apply queue_of_lookup. }
  assert (Z2 : n = 0%nat).
  { rewrite En2. unfold expired_of. rewrite Z, map_filter_empty. done. }
  assert (Z3 : queue_of (tenant_id b) user (message_queue (pg_db d2)) = ∅).
  { rewrite Db2. simpl. unfold expired_of. rewrite Z, map_filter_empty, map_difference_empty. done. }
  assert (Q1 : query (DRAIN_LIVE (tenant_id b) user) b = (Ok rs, mk d1 (config b) (tenant_id b)))
    by (unfold query; by rewrite E1).
  assert (Q2 : query (DELETE_EXPIRED_OF (tenant_id b) user) (mk d1 (config b) (tenant_id b)) =
               (Ok n, mk d2 (config b) (tenant_id b))) by (unfold query; simpl; by rewrite E2).
  rewrite Q1. cbn [fst snd]. rewrite Q2. cbn [fst snd].
  eexists _, _. split; [reflexivity|]. cbn [messages expired]. split_and!.
  - rewrite Prs, P. by rewrite (rows_messages _ _ _ F).
  - done.
  - case_match; [|done]. unfold query. simpl. set (q := UPSERT_QUEUE_STATS _ _).
    destruct (exec_counts_only q d2 I) as [-> _]. done.
Qed.

(** C18: Offline delivery over PostgreSQL: with the database up, the messages
    queued for a user, within the size limit, are all accepted, and a drain
    before they expire returns each of them once - in an order of the
    database's choosing - and leaves none. *)
Theorem postgres_offline_roundtrip b user es now :
  is_enabled b = true -> cap_ok (config b) -> pg_up (pool b) = true ->
  varchar_ok (tenant_id b) = true -> varchar_ok user = true -> rows_of b user = ∅ ->
  NoDup ((fun x => x.1.2) <$> es) -> Forall (storable (pg_db (pool b))) es ->
  (length es <= max_queue_size_per_user (config b))%nat ->
  exists r b1, enqueue_all (H := postgres_backend) b user es = (r, b1) /\ Forall (fun x => x = Ok tt) r /\
    (Forall (fun x => pg_clock (pool b1) < micros (x.2 + seconds (i64 (message_ttl_seconds (config b))))) es ->
     exists dr b2, drain b1 user now = (Ok dr, b2) /\
       (fun m => delivered m) <$> messages dr ≡ₚ (fun x => submitted x) <$> es /\ expired dr = 0%nat /\
       rows_of b2 user = ∅).
Proof.
  intros En C U Ht Hu Emp Nd St Hroom.
  destruct (pg_enqueue_all_room b user [] es) as (r & b1 & E & Fr & En1 & U1 & C1 & T1 & Hold); try done.
  { exists []. by rewrite Emp, map_to_list_empty. }
  exists r, b1. split_and!; [done..|]. rewrite <- C1. intros Hc. apply (drain_unexpired b1 user es now); try done.
  by rewrite T1.
Qed.

(** [drain] deletes the live messages before it deletes the expired ones: if
    the second statement fails, the messages it was to return are gone. *)
Theorem drain_error_loses_messages b user now rows d1 x b' :
  is_enabled b = true -> pg_exec (DRAIN_LIVE (tenant_id b) user) (pool b) = (Ok rows, d1) ->
  is_ok (pg_exec (DELETE_EXPIRED_OF (tenant_id b) user) d1).1 = false -> drain b user now = (x, b') ->
  (exists e, x = Err e) /\
  live_of (pg_clock (pool b)) (tenant_id b) user (message_queue (pg_db (pool b'))) = ∅.
Proof.
  unfold is_enabled, drain. intros En E1 E2. rewrite En. unfold query. cbn [pool config tenant_id negb]. rewrite E1.
  cbn [fst snd map_err pool config tenant_id]. pose proof (pg_exec_ok _ _ _ _ _ E1) as [_ Db1].
  pose proof (exec_cases (DELETE_EXPIRED_OF (tenant_id b) user) d1) as Cs.
  destruct (pg_exec (DELETE_EXPIRED_OF (tenant_id b) user) d1) as [[?|e] d2]; [done|]. simpl in *.
  intros [= <- <-]. split; [by eexists|]. simpl. apply map_empty. intros k.
  assert (Hk : forall r, message_queue (pg_db d2) !! k = Some r -> message_queue (pg_db d1) !! k = Some r).
  { intros r. destruct Cs as [->|(n & _ & ->)]; [done|]. simpl. by intros [? _]%lookup_difference_Some. }
  apply eq_None_not_Some. intros [r [(Er & Tr & Ur) Lr]%live_of_lookup]. apply Hk in Er. rewrite Db1 in Er. simpl in Er.
  apply lookup_difference_Some in Er as [Er Nr]. apply (proj1 (eq_None_not_Some _) Nr). exists r. by apply live_of_lookup.
Qed.
End laws.

(** ** Two messages over a table *)

Section witnesses.
#[local] Existing Instances Store.store_server Store.store_laws.

Definition two_events : list (NotificationEvent * uuid * Z) :=
  [(Memory.example_event 1%N, 11%N, 0); (Memory.example_event 2%N, 12%N, 0)].
#[local] Instance two_codec : JsonCodec NotificationEvent := table_codec (map (fun x => x.1.1) two_events).
#[local] Instance two_laws : JsonLaws NotificationEvent := table_laws (map (fun x => x.1.1) two_events).

Definition example_store : Store.PgStore := {| Store.st_db := empty_database; Store.st_now := 0; Store.st_up := true |}.
Definition example_backend : PostgresQueueBackend Store.PgStore := new (Memory.example_config 5) example_store.

Lemma postgres_offline_roundtrip_witness :
  exists r b1 dr b2,
    enqueue_all (H := postgres_backend) example_backend "acme:carol" two_events = (r, b1) /\
    drain b1 "acme:carol" (fun _ => 0) = (Ok dr, b2) /\
    map (fun m => (sm_id m, sm_event m)) (messages dr) ≡ₚ
      [(11%N, Memory.example_event 1%N); (12%N, Memory.example_event 2%N)].
Proof.
  destruct (postgres_offline_roundtrip example_backend "acme:carol" two_events (fun _ => 0))
    as (r & b1 & E1 & _ & Hd); try reflexivity.
  - split; vm_compute; [discriminate|reflexivity].
  - apply (bool_decide_unpack _); vm_compute; exact I.
  - repeat constructor; eexists; split; reflexivity.
  - simpl. lia.
  - assert (C : pg_clock (pool b1) = 0).
    { change b1 with (r, b1).2. rewrite <- E1. vm_compute. reflexivity. }
    destruct Hd as (dr & b2 & E2 & P & _).
    + rewrite C. repeat constructor.
    + exists r, b1, dr, b2. split; [exact E1|]. split; [exact E2|]. exact P.
Defined.

(** A full queue of one. *)
Definition full_store : Store.PgStore :=
  pool (enqueue (new (Memory.example_config 1) example_store) "u" (Memory.example_event 1%N) 11%N 0).2.

Lemma postgres_queue_bounded_witness :
  bounded 1 (pg_db (pool (enqueue (new (Memory.example_config 1) full_store) "u" (Memory.example_event 2%N) 12%N 0).2)).
Proof.
  apply (postgres_queue_bounded 1 example_store).
  - apply (run_op 1 (new (Memory.example_config 1) example_store)
      (enqueue (new (Memory.example_config 1) example_store) "u" (Memory.example_event 1%N) 11%N 0).2).
    + split; vm_compute; [discriminate|reflexivity].
    + reflexivity.
    + constructor.
    + apply (run_op 1 (new (Memory.example_config 1) full_store)
        (enqueue (new (Memory.example_config 1) full_store) "u" (Memory.example_event 2%N) 12%N 0).2).
      * split; vm_compute; [discriminate|reflexivity].
      * reflexivity.
      * constructor.
      * constructor.
  - intros t u. change (queue_of t u _) with (∅ : gmap uuid QueueRow). vm_compute. apply le_S, le_n.
Defined.

Lemma postgres_queue_isolation_witness :
  same_tenant_rows "other" (pg_db full_store)
    (pg_db (pool (enqueue (new (Memory.example_config 1) full_store) "u" (Memory.example_event 2%N) 12%N 0).2)).
Proof.
  apply (postgres_queue_isolation (new (Memory.example_config 1) full_store)).
  - split; vm_compute; [discriminate|reflexivity].
  - constructor.
  - discriminate.
Defined.
End witnesses.
