(* ===== verification/Ack.v ===== *)
(** * Ack: acknowledgement tracking

    Models [domain/ack/]: ack.rs ([Module Tracker]), ack_backend.rs (the data
    and [Class AckTrackerBackend]), ack_memory_backend.rs ([Module AckMemory])
    and the factory of mod.rs.  The counters are [u64] atomics and wrap. *)
From S2P Require Import Prelude.

(** ** Data *)

Record AckConfig := { enabled : bool; timeout_seconds : Z; cleanup_interval_seconds : Z }.
Definition AckConfig_default : AckConfig :=
  {| enabled := false; timeout_seconds := 30; cleanup_interval_seconds := 60 |}.

Inductive AckBackendError :=
| AckDisabled
| AckRedis (e : string)
| AckPostgres (e : string)
| AckSerialization (e : string)
| AckUnavailable (msg : string).

Record PendingAckInfo := {
  notification_id : uuid; user_id : string; connection_id : uuid; sent_at : Z;
}.
Definition info_new (n : uuid) (u : string) (c : uuid) (now : Z) : PendingAckInfo :=
  {| notification_id := n; user_id := u; connection_id := c; sent_at := now |}.

Definition elapsed_expired (sent_at timeout now : Z) : bool := i64 timeout <=? num_seconds (now - sent_at).
Definition info_is_expired (p : PendingAckInfo) (timeout now : Z) : bool :=
  elapsed_expired (sent_at p) timeout now.
Definition latency_ms (p : PendingAckInfo) (now : Z) : Z := Z.max (num_milliseconds (now - sent_at p)) 0.

Definition calculate_ack_rate (acked expired : Z) : f64 :=
  let completed := u64 (acked + expired) in
  if 0 <? completed then f64_div (f64_of_Z acked) (f64_of_Z completed) else f64_of_Z 1.

Definition calculate_avg_latency (total_latency_ms ack_count : Z) : Z :=
  if 0 <? ack_count then total_latency_ms / ack_count else 0.

Record AckStats := { total_tracked : Z; total_acked : Z; total_expired : Z; total_latency_ms : Z }.
Definition AckStats_default : AckStats :=
  {| total_tracked := 0; total_acked := 0; total_expired := 0; total_latency_ms := 0 |}.

Definition count_tracked (s : AckStats) : AckStats :=
  {| total_tracked := u64 (total_tracked s + 1); total_acked := total_acked s;
     total_expired := total_expired s; total_latency_ms := total_latency_ms s |}.
Definition count_acked (latency : Z) (s : AckStats) : AckStats :=
  {| total_tracked := total_tracked s; total_acked := u64 (total_acked s + 1);
     total_expired := total_expired s; total_latency_ms := u64 (total_latency_ms s + latency) |}.
Definition count_expired (n : Z) (s : AckStats) : AckStats :=
  {| total_tracked := total_tracked s; total_acked := total_acked s;
     total_expired := if 0 <? n then u64 (total_expired s + n) else total_expired s;
     total_latency_ms := total_latency_ms s |}.

Record AckBackendStats := {
  backend_type : string; st_enabled : bool; st_total_tracked : Z; st_total_acked : Z;
  st_total_expired : Z; pending_count_stat : Z; ack_rate : f64; avg_latency_ms : Z;
}.

(** ** The backend trait *)

Class AckTrackerBackend (A : Type) := {
  a_is_enabled : A -> bool;
  a_timeout_seconds : A -> Z;
  a_cleanup_interval_seconds : A -> Z;
  a_track : A -> uuid -> string -> uuid -> Z -> A;
  a_acknowledge : A -> uuid -> string -> Z -> bool * A;
  a_get_pending : A -> uuid -> result AckBackendError (option PendingAckInfo);
  a_cleanup_expired : A -> (uuid -> Z) -> nat * A;
  a_pending_count : A -> nat;
  a_stats : A -> AckBackendStats;
}.

(** What a client relies on: the user whose acknowledgement of a notification
    is awaited, if any.  A disabled tracker awaits nothing new and accepts
    nothing; an acknowledgement is accepted exactly from the awaited user,
    and is then no longer awaited. *)
Class AckLaws (A : Type) `{AckTrackerBackend A} := {
  a_awaits : A -> uuid -> option string;
  a_track_enabled : forall a n u c t, a_is_enabled (a_track a n u c t) = a_is_enabled a;
  a_track_awaits : forall a n u c t n', a_is_enabled a = true ->
    a_awaits (a_track a n u c t) n' = if decide (n = n') then Some u else a_awaits a n';
  a_track_disabled : forall a n u c t, a_is_enabled a = false -> a_track a n u c t = a;
  a_ack_enabled : forall a n u t, a_is_enabled (a_acknowledge a n u t).2 = a_is_enabled a;
  a_ack_result : forall a n u t,
    (a_acknowledge a n u t).1 = a_is_enabled a && bool_decide (a_awaits a n = Some u);
  a_ack_awaits : forall a n u t n',
    a_awaits (a_acknowledge a n u t).2 n' =
    if (a_acknowledge a n u t).1 && bool_decide (n = n') then None else a_awaits a n';
}.

(** ** The memory backend *)
Module AckMemory.

Record MemoryAckBackend := mk { config : AckConfig; pending : gmap uuid PendingAckInfo; counters : AckStats }.

Definition new (c : AckConfig) : MemoryAckBackend := mk c ∅ AckStats_default.
Definition is_enabled (b : MemoryAckBackend) : bool := enabled (config b).

Definition track (b : MemoryAckBackend) (n : uuid) (u : string) (c : uuid) (now : Z) : MemoryAckBackend :=
  if negb (enabled (config b)) then b
  else mk (config b) (<[n := info_new n u c now]> (pending b)) (count_tracked (counters b)).

Definition acknowledge (b : MemoryAckBackend) (n : uuid) (u : string) (now : Z) : bool * MemoryAckBackend :=
  if negb (enabled (config b)) then (false, b)
  else match pending b !! n with
  | Some p =>
    let removed := delete n (pending b) in
    if negb (bool_decide (user_id p = u)) then
      (false, mk (config b) (<[n := p]> removed) (counters b))
    else (true, mk (config b) removed (count_acked (latency_ms p now) (counters b)))
  | None => (false, b)
  end.

Definition get_pending (b : MemoryAckBackend) (n : uuid) : result AckBackendError (option PendingAckInfo) :=
  Ok (pending b !! n).

(** [retain] looks at every entry once; [clock n] is the reading taken for
    the entry of [n]. *)
Definition still_pending (b : MemoryAckBackend) (clock : uuid -> Z) (kv : uuid * PendingAckInfo) : Prop :=
  info_is_expired kv.2 (timeout_seconds (config b)) (clock kv.1) = false.
#[global] Instance still_pending_dec b clock kv : Decision (still_pending b clock kv) := decide (_ = false).

Definition cleanup_expired (b : MemoryAckBackend) (clock : uuid -> Z) : nat * MemoryAckBackend :=
  if negb (enabled (config b)) then (0%nat, b)
  else
    let kept := filter (still_pending b clock) (pending b) in
    let expired_count := (size (pending b) - size kept)%nat in
    (expired_count, mk (config b) kept (count_expired (Z.of_nat expired_count) (counters b))).

Definition pending_count (b : MemoryAckBackend) : nat := size (pending b).

Definition stats (b : MemoryAckBackend) : AckBackendStats :=
  let s := counters b in
  {| backend_type := "memory"; st_enabled := enabled (config b); st_total_tracked := total_tracked s;
     st_total_acked := total_acked s; st_total_expired := total_expired s;
     pending_count_stat := Z.of_nat (size (pending b));
     ack_rate := calculate_ack_rate (total_acked s) (total_expired s);
     avg_latency_ms := calculate_avg_latency (total_latency_ms s) (total_acked s) |}.

#[global] Instance backend : AckTrackerBackend MemoryAckBackend := {|
  a_is_enabled := is_enabled; a_timeout_seconds b := timeout_seconds (config b);
  a_cleanup_interval_seconds b := cleanup_interval_seconds (config b);
  a_track := track; a_acknowledge := acknowledge; a_get_pending := get_pending;
  a_cleanup_expired := cleanup_expired; a_pending_count := pending_count; a_stats := stats |}.

Definition awaits (b : MemoryAckBackend) (n : uuid) : option string := user_id <$> pending b !! n.

#[global] Program Instance laws : AckLaws MemoryAckBackend := {| a_awaits := awaits |}.
Next Obligation. intros. simpl. unfold track. by case_match. Qed.
Next Obligation.
  simpl. unfold track, is_enabled, awaits. intros ?????? ->. simpl. rewrite lookup_insert.
  by case_decide.
Qed.
Next Obligation. simpl. unfold track, is_enabled. by intros ????? ->. Qed.
Next Obligation. intros. simpl. unfold acknowledge, is_enabled. by repeat case_match. Qed.
Next Obligation.
  intros. simpl. unfold acknowledge, is_enabled, awaits. destruct (enabled (config a)) eqn:E; [|done].
  simpl. destruct (pending a !! n) as [p|] eqn:Ep; simpl; [|done]. repeat case_bool_decide; naive_solver.
Qed.
Next Obligation.
  intros. simpl. unfold acknowledge, is_enabled, awaits. destruct (enabled (config a)) eqn:E; [|done].
  simpl. destruct (pending a !! n) as [p|] eqn:Ep; simpl; [|done].
  repeat case_bool_decide; simpl; subst; rewrite ?lookup_delete_eq, ?lookup_delete_ne,
    ?insert_delete_eq, ?insert_id by done; done.
Qed.

(** *** The counters *)

Inductive op := Track (n : uuid) (u : string) (c : uuid) (now : Z) | Acknowledge (n : uuid) (u : string) (now : Z)
              | Cleanup (clock : uuid -> Z).

Definition apply (b : MemoryAckBackend) (o : op) : MemoryAckBackend :=
  match o with
  | Track n u c now => track b n u c now
  | Acknowledge n u now => (acknowledge b n u now).2
  | Cleanup clock => (cleanup_expired b clock).2
  end.

(** Tracks of a notification that was already awaited: the new entry replaces
    the old one. *)
Fixpoint overwritten (b : MemoryAckBackend) (ops : list op) : Z :=
  match ops with
  | [] => 0
  | o :: ops' =>
    (match o with
     | Track n _ _ _ => if enabled (config b) && bool_decide (is_Some (pending b !! n)) then 1 else 0
     | _ => 0
     end) + overwritten (apply b o) ops'
  end.

Definition balance (b : MemoryAckBackend) : Z :=
  total_tracked (counters b) - total_acked (counters b) - total_expired (counters b) - Z.of_nat (size (pending b)).

Lemma size_filter_le (P : uuid * PendingAckInfo -> Prop) `{!forall x, Decision (P x)} (m : gmap uuid PendingAckInfo) :
  (size (filter P m) <= size m)%nat.
Proof. apply map_subseteq_size, map_filter_subseteq. Qed.

Lemma u64_shift z : exists k, u64 z = z + k * 2 ^ 64.
Proof. exists (- (z / 2 ^ 64)). unfold u64. rewrite Z.mod_eq by lia. lia. Qed.

Lemma mod_shift a b k : a = b + k * 2 ^ 64 -> a mod 2 ^ 64 = b mod 2 ^ 64.
Proof. intros ->. apply Z.mod_add. lia. Qed.

Lemma balance_apply b o :
  balance (apply b o) mod 2 ^ 64 = (balance b + overwritten b [o]) mod 2 ^ 64.
Proof.
  unfold balance. destruct o as [n u c now|n u now|clock]; simpl.
  - unfold track. destruct (enabled (config b)) eqn:E; simpl; [|f_equal; lia].
    destruct (u64_shift (total_tracked (counters b) + 1)) as [k ->]. apply (mod_shift _ _ k).
    rewrite map_size_insert. case_bool_decide as D.
    + destruct D as [p Ep]. rewrite Ep. unfold id. lia.
    + destruct (pending b !! n) eqn:Ep; [destruct D; by eexists|]. lia.
  - unfold acknowledge. destruct (enabled (config b)) eqn:E; simpl; [|f_equal; lia].
    destruct (pending b !! n) as [p|] eqn:Ep; simpl; [|f_equal; lia]. case_bool_decide as D; simpl.
    + destruct (u64_shift (total_acked (counters b) + 1)) as [k ->]. apply (mod_shift _ _ (- k)).
      assert (size (pending b) <> 0)%nat
        by (apply map_size_non_empty_iff; intros D'; by rewrite D' in Ep).
      rewrite map_size_delete, Ep. lia.
    + rewrite insert_delete_eq, insert_id by done. f_equal. lia.
  - unfold cleanup_expired. destruct (enabled (config b)) eqn:E; simpl; [|f_equal; lia].
    pose proof (size_filter_le (still_pending b clock) (pending b)) as L.
    set (k := size (filter _ _)) in *. case_match eqn:D; bool_to_prop; [|f_equal; lia].
    destruct (u64_shift (total_expired (counters b) + Z.of_nat (size (pending b) - k))) as [j ->].
    apply (mod_shift _ _ (- j)). lia.
Qed.

Lemma balance_run b ops :
  balance (foldl apply b ops) mod 2 ^ 64 = (balance b + overwritten b ops) mod 2 ^ 64.
Proof.
  revert b. induction ops as [|o ops IH]; intros b; simpl; [by rewrite Z.add_0_r|].
  rewrite IH, Z.add_mod, balance_apply, <- Z.add_mod by lia. f_equal. simpl. lia.
Qed.

(** On every run of the memory backend the counters add up (modulo the
    width of the counters): each tracked notification has been acknowledged,
    has expired, is still pending, or was replaced by a later track of the
    same notification id. *)
Theorem ack_counters_balance c ops :
  let b := foldl apply (new c) ops in
  total_tracked (counters b) mod 2 ^ 64 =
  (total_acked (counters b) + total_expired (counters b) + Z.of_nat (pending_count b) +
   overwritten (new c) ops) mod 2 ^ 64.
Proof.
  cbn zeta. pose proof (balance_run (new c) ops) as H. unfold balance, pending_count in *.
  set (b := foldl apply (new c) ops) in *.
  replace (total_tracked (counters b)) with
    ((total_tracked (counters b) - total_acked (counters b) - total_expired (counters b) -
      Z.of_nat (size (pending b))) +
     (total_acked (counters b) + total_expired (counters b) + Z.of_nat (size (pending b)))) by lia.
  rewrite Z.add_mod, H, <- Z.add_mod by lia. f_equal. unfold new; simpl. rewrite map_size_empty. lia.
Qed.

(** [cleanup_expired] drops the pending entries older than the timeout
    and only those, counts each once, and does nothing when tracking is off. *)
Theorem ack_cleanup_spec b clock n p :
  let r := cleanup_expired b clock in
  (pending r.2 !! n = Some p <->
   pending b !! n = Some p /\
   (enabled (config b) = true -> num_seconds (clock n - sent_at p) < i64 (timeout_seconds (config b)))) /\
  (r.1 + size (pending r.2) = size (pending b))%nat.
Proof.
  unfold cleanup_expired. destruct (enabled (config b)); simpl; [|split; [naive_solver|done]]. split.
  - rewrite map_lookup_filter_Some. unfold still_pending, info_is_expired, elapsed_expired; simpl.
    rewrite Z.leb_gt. naive_solver.
  - pose proof (size_filter_le (still_pending b clock) (pending b)). lia.
Qed.
End AckMemory.

(** ** Who may acknowledge, against the trait *)

(** For any backend that keeps the trait's contract: with tracking on, a
    tracked notification is acknowledged exactly once and only by the user it
    was tracked for; an acknowledgement by another user is refused and
    changes nothing; and tracking the notification for a second user makes
    the first user's acknowledgement fail. *)
Theorem acknowledge_lifecycle {A} `{AckLaws A} (a : A) n u v c c' t t1 t2 t3 :
  a_is_enabled a = true -> u <> v ->
  let a1 := a_track a n u c t in
  (a_acknowledge a1 n u t1).1 = true /\
  (a_acknowledge (a_acknowledge a1 n u t1).2 n u t2).1 = false /\
  (a_acknowledge a1 n v t1).1 = false /\
  (a_acknowledge (a_acknowledge a1 n v t1).2 n u t2).1 = true /\
  (a_acknowledge (a_track a1 n v c' t1) n u t2).1 = false /\
  (a_acknowledge (a_track a1 n v c' t1) n v t3).1 = true.
Proof.
  intros He Hne. cbn zeta.
  assert (E1 : a_is_enabled (a_track a n u c t) = true) by (by rewrite a_track_enabled).
  assert (E2 : a_is_enabled (a_track (a_track a n u c t) n v c' t1) = true) by (by rewrite a_track_enabled).
  rewrite !a_ack_result, !a_ack_awaits, !a_ack_result, !a_ack_enabled, E1, E2.
  rewrite !a_track_awaits by done. rewrite !decide_True by done.
  repeat case_bool_decide; naive_solver.
Qed.

Lemma acknowledge_lifecycle_witness :
  let b := AckMemory.new {| enabled := true; timeout_seconds := 30; cleanup_interval_seconds := 60 |} in
  (a_acknowledge (a_track (a_track b 7%N "alice" 1%N 0) 7%N "bob" 2%N 0) 7%N "alice" 0).1 = false.
Proof.
  cbn zeta. apply (acknowledge_lifecycle (AckMemory.new
    {| enabled := true; timeout_seconds := 30; cleanup_interval_seconds := 60 |})
    7%N "alice" "bob" 1%N 2%N 0 0 0 0); [reflexivity|discriminate].
Defined.

(** ** The stand-alone tracker *)
Module Tracker.

Record PendingAck := { tr_notification_id : uuid; tr_user_id : string; tr_sent_at : Z; tr_connection_id : uuid }.
Definition pending_new (n : uuid) (u : string) (c : uuid) (now : Z) : PendingAck :=
  {| tr_notification_id := n; tr_user_id := u; tr_sent_at := now; tr_connection_id := c |}.
Definition is_expired (p : PendingAck) (timeout now : Z) : bool := elapsed_expired (tr_sent_at p) timeout now.

Record AckTracker := mk { config : AckConfig; pending : gmap uuid PendingAck; tr_stats : AckStats }.

Record AckStatsSnapshot := {
  sn_total_tracked : Z; sn_total_acked : Z; sn_total_expired : Z; sn_pending_count : Z;
  sn_ack_rate : f64; sn_avg_latency_ms : Z;
}.

Definition with_config (c : AckConfig) : AckTracker := mk c ∅ AckStats_default.
Definition new : AckTracker := with_config AckConfig_default.
Definition is_enabled (b : AckTracker) : bool := enabled (config b).

Definition track (b : AckTracker) (n : uuid) (u : string) (c : uuid) (now : Z) : AckTracker :=
  if negb (enabled (config b)) then b
  else mk (config b) (<[n := pending_new n u c now]> (pending b)) (count_tracked (tr_stats b)).

Definition acknowledge (b : AckTracker) (n : uuid) (u : string) (now : Z) : bool * AckTracker :=
  if negb (enabled (config b)) then (false, b)
  else match pending b !! n with
  | Some p =>
    let removed := delete n (pending b) in
    if negb (bool_decide (tr_user_id p = u)) then
      (false, mk (config b) (<[n := p]> removed) (tr_stats b))
    else (true, mk (config b) removed
                  (count_acked (Z.max (num_milliseconds (now - tr_sent_at p)) 0) (tr_stats b)))
  | None => (false, b)
  end.

Definition still_pending (b : AckTracker) (clock : uuid -> Z) (kv : uuid * PendingAck) : Prop :=
  is_expired kv.2 (timeout_seconds (config b)) (clock kv.1) = false.
#[global] Instance still_pending_dec b clock kv : Decision (still_pending b clock kv) := decide (_ = false).

Definition cleanup_expired (b : AckTracker) (clock : uuid -> Z) : nat * AckTracker :=
  if negb (enabled (config b)) then (0%nat, b)
  else
    let kept := filter (still_pending b clock) (pending b) in
    let expired_count := (size (pending b) - size kept)%nat in
    (expired_count, mk (config b) kept (count_expired (Z.of_nat expired_count) (tr_stats b))).

Definition pending_count (b : AckTracker) : nat := size (pending b).

Definition stats (b : AckTracker) : AckStatsSnapshot :=
  let s := tr_stats b in
  let completed := u64 (total_acked s + total_expired s) in
  {| sn_total_tracked := total_tracked s; sn_total_acked := total_acked s;
     sn_total_expired := total_expired s; sn_pending_count := Z.of_nat (size (pending b));
     sn_ack_rate := if 0 <? completed then f64_div (f64_of_Z (total_acked s)) (f64_of_Z completed)
                    else f64_of_Z 1;
     sn_avg_latency_ms := if 0 <? total_acked s then total_latency_ms s / total_acked s else 0 |}.

(** The tracker seen as the memory backend. *)
Definition info_of (p : PendingAck) : PendingAckInfo :=
  {| notification_id := tr_notification_id p; user_id := tr_user_id p;
     connection_id := tr_connection_id p; sent_at := tr_sent_at p |}.
Definition to_memory (b : AckTracker) : AckMemory.MemoryAckBackend :=
  AckMemory.mk (config b) (info_of <$> pending b) (tr_stats b).

(** The stand-alone tracker and the memory backend are the same machine:
    under the map that renames the fields of an entry every operation gives
    the same answer and the same next state. *)
Theorem tracker_refines_memory b n u c now clock :
  to_memory (track b n u c now) = AckMemory.track (to_memory b) n u c now /\
  ((acknowledge b n u now).1, to_memory (acknowledge b n u now).2) = AckMemory.acknowledge (to_memory b) n u now /\
  ((cleanup_expired b clock).1, to_memory (cleanup_expired b clock).2) =
    AckMemory.cleanup_expired (to_memory b) clock /\
  pending_count b = AckMemory.pending_count (to_memory b) /\
  sn_ack_rate (stats b) = ack_rate (AckMemory.stats (to_memory b)) /\
  sn_avg_latency_ms (stats b) = avg_latency_ms (AckMemory.stats (to_memory b)).
Proof.
  split_and!; try done; [| | |by unfold pending_count, AckMemory.pending_count; simpl; rewrite map_size_fmap].
  - unfold track, AckMemory.track, to_memory; simpl. case_match; [done|]. simpl. by rewrite fmap_insert.
  - unfold acknowledge, AckMemory.acknowledge, to_memory; simpl. case_match; [done|].
    rewrite lookup_fmap. destruct (pending b !! n) as [p|] eqn:E; simpl; [|done].
    case_bool_decide; simpl; [by rewrite fmap_delete|by rewrite fmap_insert, fmap_delete].
  - unfold cleanup_expired, AckMemory.cleanup_expired, to_memory; simpl. case_match; [done|]. simpl.
    assert (F : filter (AckMemory.still_pending (AckMemory.mk (config b) (info_of <$> pending b) (tr_stats b)) clock)
                  (info_of <$> pending b) = info_of <$> filter (still_pending b clock) (pending b)).
    { rewrite map_filter_fmap. f_equal. }
    by rewrite F, ?map_size_fmap.
Qed.
End Tracker.

(** ** Factory *)

Inductive AckBackendChoice := AckUseMemory | AckUseRedis (prefix tenant_id : string) | AckUsePostgres (tenant_id : string).

Record AckSettings := {
  as_enabled : bool; as_backend : string; as_timeout_seconds : Z; as_cleanup_interval_seconds : Z;
  as_redis_prefix : string;
}.

Definition create_ack_backend (s : AckSettings) (redis_pool postgres_pool : bool) (tenant_id : option string)
  : AckBackendChoice * AckConfig :=
  let tenant := default "default" tenant_id in
  (if decide (as_backend s = "postgres") then if postgres_pool then AckUsePostgres tenant else AckUseMemory
   else if decide (as_backend s = "redis") then
     if redis_pool then AckUseRedis (as_redis_prefix s) tenant else AckUseMemory
   else AckUseMemory,
   {| enabled := as_enabled s; timeout_seconds := as_timeout_seconds s;
      cleanup_interval_seconds := as_cleanup_interval_seconds s |}).
