(* ===== verification/AckInterleaving.v ===== *)
(** * AckInterleaving: acknowledgements in memory under concurrent calls

    [Ack.AckMemory] models each method of ack_memory_backend.rs as one
    function.  Here a call is the sequence of its accesses to the concurrent
    map and to the counters ([Call], [call_step]), any number of calls are in
    progress at once, and the clean-up's [retain] may remove any expired entry
    between any two accesses, to count what it removed at its end.  [acknowledge] removes the entry before it
    looks at the user, and puts it back when the user is another. *)
From S2P Require Import Prelude Ack.

(** ** One access *)

Inductive Call :=
| Track (n : uuid) (u : string) (c : uuid)
| CountTracked (n : uuid) (u : string)
| Tracked (n : uuid) (u : string)
| Ignored (n : uuid) (u : string)
| Acknowledge (n : uuid) (u : string)
| PutBack (n : uuid) (u : string) (p : PendingAckInfo)
| CountAcked (n : uuid) (u : string) (p : PendingAckInfo)
| CountLatency (n : uuid) (u : string) (latency : Z)
| Acked (n : uuid) (u : string) (r : bool).

Definition incr_acked (s : AckStats) : AckStats :=
  {| total_tracked := total_tracked s; total_acked := u64 (total_acked s + 1);
     total_expired := total_expired s; total_latency_ms := total_latency_ms s |}.
Definition add_latency (latency : Z) (s : AckStats) : AckStats :=
  {| total_tracked := total_tracked s; total_acked := total_acked s;
     total_expired := total_expired s; total_latency_ms := u64 (total_latency_ms s + latency) |}.

Abbreviation backend := AckMemory.MemoryAckBackend.
Definition on_pending (f : gmap uuid PendingAckInfo -> gmap uuid PendingAckInfo) (b : backend) : backend :=
  AckMemory.mk (AckMemory.config b) (f (AckMemory.pending b)) (AckMemory.counters b).
Definition on_counters (f : AckStats -> AckStats) (b : backend) : backend :=
  AckMemory.mk (AckMemory.config b) (AckMemory.pending b) (f (AckMemory.counters b)).

(** The next access of a call; [now] is the clock if it reads it. *)
Definition track_step (now : Z) (b : backend) (c : Call) : option (backend * Call) :=
  match c with
  | Track n u i =>
    Some (if negb (AckMemory.is_enabled b) then (b, Ignored n u)
          else (on_pending (<[n := info_new n u i now]>) b, CountTracked n u))
  | CountTracked n u => Some (on_counters count_tracked b, Tracked n u)
  | _ => None
  end.

Definition acknowledge_step (now : Z) (b : backend) (c : Call) : option (backend * Call) :=
  match c with
  | Acknowledge n u =>
    Some (if negb (AckMemory.is_enabled b) then (b, Acked n u false)
          else match AckMemory.pending b !! n with
               | Some p => (on_pending (delete n) b, if negb (bool_decide (user_id p = u)) then PutBack n u p else CountAcked n u p)
               | None => (b, Acked n u false)
               end)
  | PutBack n u p => Some (on_pending (<[n := p]>) b, Acked n u false)
  | CountAcked n u p => Some (on_counters incr_acked b, CountLatency n u (latency_ms p now))
  | CountLatency n u latency => Some (on_counters (add_latency latency) b, Acked n u true)
  | _ => None
  end.

Definition call_step (now : Z) (b : backend) (c : Call) : option (backend * Call) :=
  match c with
  | Track _ _ _ | CountTracked _ _ => track_step now b c
  | Acknowledge _ _ | PutBack _ _ _ | CountAcked _ _ _ | CountLatency _ _ _ => acknowledge_step now b c
  | Tracked _ _ | Ignored _ _ | Acked _ _ _ => None
  end.

(** ** The backend and the calls in progress *)

(** [removed]: the entries clean-ups have removed and not counted yet. *)
Record Acks := mkAcks { store : backend; calls : list Call; removed : nat }.

(** [self.stats.total_expired.fetch_add(expired_count)] *)
Definition add_expired (k : nat) (s : AckStats) : AckStats :=
  {| total_tracked := total_tracked s; total_acked := total_acked s;
     total_expired := u64 (total_expired s + Z.of_nat k); total_latency_ms := total_latency_ms s |}.

Inductive step (s : Acks) : Acks -> Prop :=
| step_call k c now b' c' : calls s !! k = Some c -> call_step now (store s) c = Some (b', c') ->
  step s (mkAcks b' (<[k := c']> (calls s)) (removed s))
| step_track n u i : step s (mkAcks (store s) (calls s ++ [Track n u i]) (removed s))
| step_acknowledge n u : step s (mkAcks (store s) (calls s ++ [Acknowledge n u]) (removed s))
| step_expire n p now : AckMemory.is_enabled (store s) = true -> AckMemory.pending (store s) !! n = Some p ->
  info_is_expired p (timeout_seconds (AckMemory.config (store s))) now = true ->
  step s (mkAcks (on_pending (delete n) (store s)) (calls s) (S (removed s)))
| step_count_expired k : (0 < k <= removed s)%nat ->
  step s (mkAcks (on_counters (add_expired k) (store s)) (calls s) (removed s - k)).

Definition fresh (c : AckConfig) : Acks := mkAcks (AckMemory.new c) [] 0.

(** Case analysis of one access. *)
Ltac access H :=
  match type of H with call_step _ _ ?c = _ => destruct c end;
  simpl in H; repeat case_match; simplify_eq; simpl in *.

(** ** No acknowledgement is accepted twice *)

(** Calls that have entered notification [n]; that hold its entry to put it
    back; that have accepted its acknowledgement, also for user [u]. *)
Definition tracked (n : uuid) (c : Call) : bool :=
  match c with CountTracked m _ | Tracked m _ => bool_decide (m = n) | _ => false end.
Definition holds (n : uuid) (c : Call) : bool := match c with PutBack m _ _ => bool_decide (m = n) | _ => false end.
Definition accepted (n : uuid) (c : Call) : bool :=
  match c with CountAcked m _ _ | CountLatency m _ _ | Acked m _ true => bool_decide (m = n) | _ => false end.
Definition tracked_for (n : uuid) (u : string) (c : Call) : Prop :=
  match c with CountTracked m v | Tracked m v => m = n /\ v = u | _ => False end.

Definition awaiting (m : gmap uuid PendingAckInfo) (n : uuid) : nat := Nat.b2n (bool_decide (is_Some (m !! n))).

(** Whom a call's acknowledgement was awaited from. *)
Definition call_ok (cs : list Call) (c : Call) : Prop :=
  match c with
  | PutBack n _ p => has_one cs (tracked_for n (user_id p))
  | CountAcked n u p => user_id p = u /\ has_one cs (tracked_for n u)
  | CountLatency n u _ | Acked n u true => has_one cs (tracked_for n u)
  | _ => True
  end.

(** Calls whose increment of a counter is done. *)
Definition counted_tracked (c : Call) : bool := match c with Tracked _ _ => true | _ => false end.
Definition counted_acked (c : Call) : bool := match c with CountLatency _ _ _ | Acked _ _ true => true | _ => false end.

Record accounted (s : Acks) : Prop := {
  accounted_once : forall n,
    (awaiting (AckMemory.pending (store s)) n + count_if (holds n) (calls s) + count_if (accepted n) (calls s)
     <= count_if (tracked n) (calls s))%nat;
  accounted_pending : forall n p, AckMemory.pending (store s) !! n = Some p ->
    has_one (calls s) (tracked_for n (user_id p));
  accounted_calls : Forall (call_ok (calls s)) (calls s);
  accounted_tracked : total_tracked (AckMemory.counters (store s)) = u64 (Z.of_nat (count_if counted_tracked (calls s)));
  accounted_acked : total_acked (AckMemory.counters (store s)) = u64 (Z.of_nat (count_if counted_acked (calls s)));
}.

Lemma u64_succ n : u64 (u64 (Z.of_nat n) + 1) = u64 (Z.of_nat (S n)).
Proof. unfold u64. rewrite Zplus_mod_idemp_l. f_equal. lia. Qed.

Lemma awaiting_insert m k n p : awaiting (<[n := p]> m) k = if decide (n = k) then 1%nat else awaiting m k.
Proof. unfold awaiting. case_decide; subst; [by rewrite lookup_insert_eq|by rewrite lookup_insert_ne]. Qed.
Lemma awaiting_delete m k n : awaiting (delete n m) k = if decide (n = k) then 0%nat else awaiting m k.
Proof. unfold awaiting. case_decide; subst; [by rewrite lookup_delete_eq|by rewrite lookup_delete_ne]. Qed.
Lemma awaiting_le m n : (awaiting m n <= 1)%nat.
Proof. unfold awaiting. case_bool_decide; simpl; lia. Qed.
Lemma awaiting_some m n p : m !! n = Some p -> awaiting m n = 1%nat.
Proof. unfold awaiting. by intros ->. Qed.

Lemma accounted_once_step now s k c b' c' n :
  calls s !! k = Some c -> call_step now (store s) c = Some (b', c') ->
  (awaiting (AckMemory.pending (store s)) n + count_if (holds n) (calls s) + count_if (accepted n) (calls s)
     <= count_if (tracked n) (calls s))%nat ->
  let cs := <[k := c']> (calls s) in
  (awaiting (AckMemory.pending b') n + count_if (holds n) cs + count_if (accepted n) cs <= count_if (tracked n) cs)%nat.
Proof.
  intros E H A cs. pose proof (count_if_step (holds n) _ _ _ c' E) as Ho.
  pose proof (count_if_step (accepted n) _ _ _ c' E) as Ac. pose proof (count_if_step (tracked n) _ _ _ c' E) as Tr.
  fold cs in Ho, Ac, Tr. pose proof (awaiting_le (AckMemory.pending (store s)) n) as Le.
  access H; rewrite ?awaiting_insert, ?awaiting_delete; try lia.
  all: try match goal with P : AckMemory.pending _ !! ?m = Some _ |- _ => pose proof (awaiting_some _ _ _ P) end.
  all: repeat case_bool_decide; repeat case_decide; subst; try done; simpl in *; lia.
Qed.

(** A track for a user stays one. *)
Lemma tracked_for_step now b b' cs k c c' n u :
  cs !! k = Some c -> call_step now b c = Some (b', c') -> has_one cs (tracked_for n u) ->
  has_one (<[k := c']> cs) (tracked_for n u).
Proof.
  intros E H P. destruct (has_one_step _ _ _ c' _ E P) as [T|]; [|done]. apply (has_one_here _ _ _ _ _ E).
  access H; done.
Qed.

Lemma call_ok_mono cs cs' c :
  (forall n u, has_one cs (tracked_for n u) -> has_one cs' (tracked_for n u)) -> call_ok cs c -> call_ok cs' c.
Proof. intros M. destruct c as [| | | | | | | |? ? []]; simpl; naive_solver. Qed.

Lemma accounted_start s c :
  accounted s -> (forall n, tracked n c = false /\ holds n c = false /\ accepted n c = false) ->
  counted_tracked c = false -> counted_acked c = false -> call_ok (calls s ++ [c]) c ->
  accounted (mkAcks (store s) (calls s ++ [c]) (removed s)).
Proof.
  intros A N Ct Ca O. split; simpl.
  - intros n. destruct (N n) as (T & Ho & Ac). rewrite !count_if_start, T, Ho, Ac. pose proof (accounted_once _ A n).
    simpl. lia.
  - intros n p Hp. apply has_one_start. left. by apply A.
  - apply Forall_app_2; [|by constructor]. eapply Forall_impl; [apply A|]. intros ?. apply call_ok_mono.
    intros n u P. apply has_one_start. by left.
  - rewrite count_if_start, Ct, Nat.add_0_r. apply A.
  - rewrite count_if_start, Ca, Nat.add_0_r. apply A.
Qed.

Lemma accounted_step s s' : accounted s -> step s s' -> accounted s'.
Proof.
  intros A. destruct 1 as [k c now b' c' E H|n u i|n u|n p now _ F _|k _].
  - pose proof (proj1 (Forall_lookup _ _) (accounted_calls _ A) _ _ E) as O.
    pose proof (fun n u => tracked_for_step _ _ _ _ _ _ _ n u E H) as T. split; simpl.
    + intros n. apply (accounted_once_step _ _ _ _ _ _ _ E H), A.
    + intros n p Hp. pose proof (fun F => T _ _ (accounted_pending _ A n p F)) as Old. specialize (T n (user_id p)).
      pose proof (has_one_here _ _ _ c' (tracked_for n (user_id p)) E) as Here.
      access H; rewrite ?lookup_insert_Some, ?lookup_delete_Some in Hp; naive_solver.
    + apply Forall_insert; [eapply Forall_impl; [apply A|]; intros ?; by apply call_ok_mono|].
      pose proof (accounted_pending _ A) as P.
      access H; try done; try (by apply T).
      * by apply T, P.
      * match goal with X : negb _ = false |- _ => apply negb_false_iff, bool_decide_eq_true in X; subst u end.
        split; [done|]. by apply T, P.
      * apply T, O.
    + pose proof (count_if_step counted_tracked _ _ _ c' E) as C. pose proof (accounted_tracked _ A) as AT.
      access H; rewrite AT, ?u64_succ; do 2 f_equal; lia.
    + pose proof (count_if_step counted_acked _ _ _ c' E) as C. pose proof (accounted_acked _ A) as AT.
      access H; rewrite AT, ?u64_succ; do 2 f_equal; lia.
  - by apply accounted_start.
  - by apply accounted_start.
  - split; simpl; try apply A.
    + intros m. pose proof (accounted_once _ A m). rewrite awaiting_delete. case_decide; lia.
    + intros m q [_ Hq]%lookup_delete_Some. by apply A.
  - by split; simpl; apply A.
Qed.

Lemma accounted_reachable c s : rtc step (fresh c) s -> accounted s.
Proof.
  apply (rtc_ind_r accounted); [|eauto using accounted_step].
  split; simpl; try done.
Qed.

(** C23: However the calls and the clean-up interleave: of all the calls that
    acknowledge a notification no more are accepted than times it has been
    entered, each of them for a user it was entered for, and the counters
    are the numbers of calls that have counted. *)
Theorem acknowledged_at_most_once c s n :
  rtc step (fresh c) s ->
  (count_if (accepted n) (calls s) <= count_if (tracked n) (calls s))%nat /\
  (forall u, Acked n u true ∈ calls s -> has_one (calls s) (tracked_for n u)) /\
  total_tracked (AckMemory.counters (store s)) = u64 (Z.of_nat (count_if counted_tracked (calls s))) /\
  total_acked (AckMemory.counters (store s)) = u64 (Z.of_nat (count_if counted_acked (calls s))).
Proof.
  intros A%accounted_reachable. split_and!; try apply A.
  - pose proof (accounted_once _ A n). lia.
  - intros u Hu. exact (proj1 (Forall_forall _ _) (accounted_calls _ A) _ Hu).
Qed.

(** ** Calls that run alone *)

Definition goes_on (now : Z) (x y : backend * Call) : Prop := call_step now x.1 x.2 = Some y.

Lemma track_alone now b n u i :
  rtc (goes_on now) (b, Track n u i)
    (AckMemory.track b n u i now, if AckMemory.is_enabled b then Tracked n u else Ignored n u).
Proof.
  unfold AckMemory.track. change (enabled (AckMemory.config b)) with (AckMemory.is_enabled b).
  destruct (AckMemory.is_enabled b) eqn:En; simpl.
  - do 2 (eapply rtc_l; [unfold goes_on; simpl; rewrite ?En; reflexivity|]). done.
  - eapply rtc_l; [unfold goes_on; simpl; rewrite En; reflexivity|]. done.
Qed.

Lemma acknowledge_alone now b n u :
  let r := AckMemory.acknowledge b n u now in rtc (goes_on now) (b, Acknowledge n u) (r.2, Acked n u r.1).
Proof.
  unfold AckMemory.acknowledge. change (enabled (AckMemory.config b)) with (AckMemory.is_enabled b).
  destruct (AckMemory.is_enabled b) eqn:En; simpl.
  - destruct (AckMemory.pending b !! n) as [p|] eqn:F; simpl.
    + eapply rtc_l; [unfold goes_on; simpl; rewrite En, F; reflexivity|]. simpl.
      case_bool_decide; simpl; do 2 (try (eapply rtc_l; [unfold goes_on; simpl; reflexivity|])); done.
    + eapply rtc_l; [unfold goes_on; simpl; rewrite En, F; reflexivity|]. done.
  - eapply rtc_l; [unfold goes_on; simpl; rewrite En; reflexivity|]. done.
Qed.

(** ** A wrong user in between *)

Fixpoint play (ks : list nat) (s : Acks) : option Acks :=
  match ks with
  | [] => Some s
  | k :: ks =>
    c ← calls s !! k;
    r ← call_step 0 (store s) c;
    play ks (mkAcks r.1 (<[k := r.2]> (calls s)) (removed s))
  end.

Lemma ack_play_steps ks s s' : play ks s = Some s' -> rtc step s s'.
Proof.
  revert s. induction ks as [|k ks IH]; simpl; intros s; [by intros [= ->]|].
  destruct (calls s !! k) as [c|] eqn:E; [|done]. simpl.
  destruct (call_step _ _ c) as [[b' c']|] eqn:H; [|done]. simpl. intros P%IH.
  eapply rtc_l; [by eapply step_call|exact P].
Qed.

Definition tracking : AckConfig := {| enabled := true; timeout_seconds := 30; cleanup_interval_seconds := 60 |}.
Definition contested : Acks :=
  mkAcks (AckMemory.new tracking) [Track 1%N "alice" 7%N; Acknowledge 1%N "bob"; Acknowledge 1%N "alice"] 0.

Lemma contested_reached : rtc step (fresh tracking) contested.
Proof.
  eapply rtc_l; [apply (step_track _ 1%N "alice" 7%N)|]. eapply rtc_l; [apply (step_acknowledge _ 1%N "bob")|].
  apply rtc_once.
  exact (step_acknowledge (mkAcks (AckMemory.new tracking) [Track 1%N "alice" 7%N; Acknowledge 1%N "bob"] 0) 1%N "alice").
Qed.

(** While another user's acknowledgement holds the entry, that of the user it
    is awaited from is refused; the entry is put back afterwards and nobody
    acknowledges it. *)
Theorem acknowledgement_lost_to_other_user : exists s,
  rtc step (fresh tracking) s /\
  calls s = [Tracked 1%N "alice"; Acked 1%N "bob" false; Acked 1%N "alice" false] /\
  AckMemory.awaits (store s) 1%N = Some "alice".
Proof.
  eexists. split; [|split].
  - etrans; [exact contested_reached|]. apply (ack_play_steps [0; 0; 1; 2; 1]%nat). vm_compute. reflexivity.
  - reflexivity.
  - reflexivity.
Qed.

Lemma acknowledged_at_most_once_witness : exists s,
  Acked 1%N "alice" true ∈ calls s /\ (count_if (accepted 1%N) (calls s) <= count_if (tracked 1%N) (calls s))%nat.
Proof.
  assert (R : rtc step (fresh tracking) (default contested (play [0; 0; 2; 1; 2; 2]%nat contested))).
  { etrans; [exact contested_reached|]. apply (ack_play_steps [0; 0; 2; 1; 2; 2]%nat). vm_compute. reflexivity. }
  eexists. split; [|exact (proj1 (acknowledged_at_most_once tracking _ 1%N R))].
  vm_compute. repeat constructor.
Defined.
