(* ===== verification/AckRedis.v ===== *)
(** * AckRedis: the acknowledgement backend on Redis

    Models [domain/ack/ack_redis_backend.rs]: a hash per pending
    acknowledgement, a sorted set of their deadlines and a hash of counters.
    Errors of the bookkeeping commands are logged and ignored, as the code
    does; [clock] is the clock of the pool's breaker. *)
From S2P Require Import Prelude Resilience Redis Ack.

Record RedisAckBackend (R : Type) := mk {
  pool : Pool.RedisPool R;
  config : AckConfig;
  prefix : string;
  tenant_id : string;
}.
Arguments mk {R} _ _ _ _.
Arguments pool {R} _.
Arguments config {R} _.
Arguments prefix {R} _.
Arguments tenant_id {R} _.

Section backend.
Context {R : Type} `{RedisServer R} `{JsonCodec PendingAckInfo} `{UuidText} (clock : nat -> Z).
Implicit Types b : RedisAckBackend R.

Definition new (c : AckConfig) (p : Pool.RedisPool R) (prefix : string) : RedisAckBackend R :=
  mk p c prefix "default".
Definition with_tenant (c : AckConfig) (p : Pool.RedisPool R) (prefix tenant : string) : RedisAckBackend R :=
  mk p c prefix tenant.
Definition set_pool (p : Pool.RedisPool R) b : RedisAckBackend R := mk p (config b) (prefix b) (tenant_id b).

Definition pending_key b (n : uuid) : string := prefix b +:+ ":" +:+ tenant_id b +:+ ":pending:" +:+ uuid_text n.
Definition timeout_key b : string := prefix b +:+ ":" +:+ tenant_id b +:+ ":timeout".
Definition stats_key b : string := prefix b +:+ ":" +:+ tenant_id b +:+ ":stats".

Definition map_error (e : Pool.PoolError) : AckBackendError :=
  match e with
  | Pool.PRedis e => AckRedis (re_text e)
  | Pool.CircuitIsOpen => AckUnavailable "Circuit breaker is open"
  | Pool.ConnectionUnavailable msg => AckUnavailable msg
  end.

Definition is_enabled b : bool := enabled (config b).

(** [now] is the time of the new entry, [now'] that of its deadline. *)
Definition track b (n : uuid) (u : string) (c : uuid) (now now' : Z) : RedisAckBackend R :=
  if negb (enabled (config b)) then b
  else
    match json_print (info_new n u c now) with
    | Err _ => b
    | Ok pending_json =>
      let expiry_timestamp := i64 (timestamp now' + i64 (timeout_seconds (config b))) in
      let r1 := Pool.hset_multiple clock (pending_key b n) [("data", pending_json)] (pool b) in
      match r1.1 with
      | Err _ => set_pool r1.2 b
      | Ok _ =>
        let ttl := i64 (i64 (timeout_seconds (config b)) + 60) in
        let r2 := Pool.expire clock (pending_key b n) ttl r1.2 in
        let r3 := Pool.zadd clock (timeout_key b) (f64_of_Z expiry_timestamp) (uuid_text n) r2.2 in
        let r4 := Pool.hincrby clock (stats_key b) "total_tracked" 1 r3.2 in
        set_pool r4.2 b
      end
    end.

(** [acknowledge] up to the check of the user: the entry it found. *)
Definition ack_read b (n : uuid) (u : string) : option PendingAckInfo * RedisAckBackend R :=
  let r := Pool.hget clock (pending_key b n) "data" (pool b) in
  (match r.1 with
   | Ok (Some json) => match json_parse json with
                       | Ok p => if bool_decide (user_id p = u) then Some p else None
                       | Err _ => None
                       end
   | _ => None
   end, set_pool r.2 b).

(** The rest of it, for an entry that was found. *)
Definition ack_finish b (n : uuid) (p : PendingAckInfo) (now : Z) : bool * RedisAckBackend R :=
  let latency_ms := latency_ms p now in
  let r1 := Pool.del clock (pending_key b n) (pool b) in
  let r2 := Pool.zrem clock (timeout_key b) (uuid_text n) r1.2 in
  let r3 := Pool.hincrby clock (stats_key b) "total_acked" 1 r2.2 in
  let r4 := Pool.hincrby clock (stats_key b) "total_latency_ms" (i64 latency_ms) r3.2 in
  (true, set_pool r4.2 b).

Definition acknowledge b (n : uuid) (u : string) (now : Z) : bool * RedisAckBackend R :=
  if negb (enabled (config b)) then (false, b)
  else
    let r := ack_read b n u in
    match r.1 with Some p => ack_finish r.2 n p now | None => (false, r.2) end.

Definition get_pending b (n : uuid) : result AckBackendError (option PendingAckInfo) * RedisAckBackend R :=
  let r := Pool.hget clock (pending_key b n) "data" (pool b) in
  (match r.1 with
   | Err e => Err (map_error e)
   | Ok None => Ok None
   | Ok (Some json) => match json_parse json with Ok p => Ok (Some p) | Err x => Err (AckSerialization x) end
   end, set_pool r.2 b).

(** The loop of [cleanup_expired]: an id that does not parse is left. *)
Fixpoint cleanup_loop b (ids : list string) : nat * RedisAckBackend R :=
  match ids with
  | [] => (0%nat, b)
  | i :: rest =>
    match uuid_parse i with
    | None => cleanup_loop b rest
    | Some n =>
      let r1 := Pool.del clock (pending_key b n) (pool b) in
      let r2 := Pool.zrem clock (timeout_key b) i r1.2 in
      let r := cleanup_loop (set_pool r2.2 b) rest in
      (if is_ok r1.1 then S r.1 else r.1, r.2)
    end
  end.

Definition cleanup_expired b (now : Z) : nat * RedisAckBackend R :=
  if negb (enabled (config b)) then (0%nat, b)
  else
    let r := Pool.zrangebyscore clock (timeout_key b) (f64_of_Z 0) (f64_of_Z (timestamp now)) (pool b) in
    let b1 := set_pool r.2 b in
    match r.1 with
    | Err _ => (0%nat, b1)
    | Ok ids =>
      let c := cleanup_loop b1 ids in
      if (0 <? c.1)%nat
      then (c.1, set_pool (Pool.hincrby clock (stats_key c.2) "total_expired" (Z.of_nat c.1) (pool c.2)).2 c.2)
      else c
    end.

Definition pending_count b : nat * RedisAckBackend R :=
  let r := Pool.zcard clock (timeout_key b) (pool b) in
  (match r.1 with Ok n => n | Err _ => 0%nat end, set_pool r.2 b).

(** A counter of the stats hash: [parse::<u64>().unwrap_or(0)] of the last
    field of that name. *)
Definition stat_of (fields : Fields) (name : string) : Z :=
  match last (List.filter (fun kv => bool_decide (kv.1 = name)) fields) with
  | Some (_, v) => match int_of_text v with Some z => if (0 <=? z) && (z <? 2 ^ 64) then z else 0 | None => 0 end
  | None => 0
  end.

Definition stats b : AckBackendStats * RedisAckBackend R :=
  let r := Pool.hgetall clock (stats_key b) (pool b) in
  let fields := match r.1 with Ok f => f | Err _ => [] end in
  let c := pending_count (set_pool r.2 b) in
  let acked := stat_of fields "total_acked" in
  let expired := stat_of fields "total_expired" in
  ({| backend_type := "redis"; st_enabled := enabled (config b);
      st_total_tracked := stat_of fields "total_tracked"; st_total_acked := acked; st_total_expired := expired;
      pending_count_stat := Z.of_nat c.1; ack_rate := calculate_ack_rate acked expired;
      avg_latency_ms := calculate_avg_latency (stat_of fields "total_latency_ms") acked |}, c.2).
End backend.

(** ** Against a Redis that is up *)

Section laws.
Context {R : Type} `{RedisLaws R} `{JsonLaws PendingAckInfo} `{UuidText} (clock : nat -> Z).
Implicit Types b : RedisAckBackend R.

Abbreviation live b := (Pool.live (pool b)).

Lemma keys_distinct b n :
  pending_key b n <> timeout_key b /\ pending_key b n <> stats_key b /\ timeout_key b <> stats_key b.
Proof. unfold pending_key, timeout_key, stats_key. split_and!; do 3 apply str_app_neq; done. Qed.

(** The counters of the stats hash, small enough to count on. *)
Definition counters_fit k key (h : gmap string string) : Prop :=
  hash_at k key = Some h /\
  forall f, exists old, counter (h !! f) = Some old /\ 0 <= old < 2 ^ 62.

Lemma hincrby_fits p key f d h :
  Pool.ready p -> counters_fit (Pool.live p) key h -> 0 <= d < 2 ^ 62 ->
  exists z p', Pool.hincrby clock key f d p = (Ok z, p') /\ Pool.ready p' /\
    hash_at (Pool.live p') key = Some (<[f := text_of_int z]> h) /\
    (forall key', key <> key' -> Pool.live p' !! key' = Pool.live p !! key') /\
    counter (h !! f) = Some (z - d).
Proof.
  intros Rd [Hh Hc] Hd. destruct (Hc f) as (old & Ho & Hr).
  destruct (Pool.ready_command clock (HINCRBY key f d) p Rd) as (z & p' & E & Rd' & (h' & old' & Hh' & Ho' & Hz & _ & L)).
  { exists (old + d). eexists. simpl. exists h, old. split_and!; try done. unfold is_i64. lia. }
  simplify_eq. exists (old + d), p'. split_and!; try done; rewrite ?L.
  - by apply hash_at_put.
  - intros key' Hk. by apply lookup_put_ne.
  - rewrite Ho. f_equal. lia.
Qed.

Lemma track_effect b n u c now now' s h z st :
  is_enabled b = true -> Pool.ready (pool b) -> json_print (info_new n u c now) = Ok s ->
  hash_at (live b) (pending_key b n) = Some h -> zset_at (live b) (timeout_key b) = Some z ->
  counters_fit (live b) (stats_key b) st -> 0 < i64 (i64 (timeout_seconds (config b)) + 60) ->
  let b' := track clock b n u c now now' in
  Pool.ready (pool b') /\ config b' = config b /\ prefix b' = prefix b /\ tenant_id b' = tenant_id b /\
  (exists h', hash_at (live b') (pending_key b n) = Some h' /\ h' !! "data" = Some s) /\
  (exists z', zset_at (live b') (timeout_key b) = Some z' /\ is_Some (z' !! uuid_text n)) /\
  exists v, hash_at (live b') (stats_key b) = Some (<["total_tracked" := text_of_int v]> st) /\
            counter (st !! "total_tracked") = Some (v - 1).
Proof.
  intros En Rd Hp Hh Hz [Hst Hfit] Ht b'. destruct (keys_distinct b n) as (N1 & N2 & N3).
  unfold b', track. unfold is_enabled in En. rewrite En, Hp. cbn [negb].
  unfold Pool.hset_multiple, Pool.expire, Pool.zadd.
  destruct (Pool.ready_command clock (HSET (pending_key b n) [("data", s)]) (pool b) Rd)
    as (x1 & p1 & E1 & R1 & (h1 & Hh1 & _ & L1)); [eexists tt, _; simpl; by eexists|].
  rewrite Hh in Hh1. injection Hh1 as <-. rewrite E1. cbn [fst snd].
  destruct (Pool.ready_command clock (EXPIRE (pending_key b n) (i64 (i64 (timeout_seconds (config b)) + 60))) p1 R1)
    as (x2 & p2 & E2 & R2 & L2).
  { simpl. rewrite L1. unfold put. rewrite lookup_insert_eq. eauto. }
  simpl in L2. rewrite L1 in L2. unfold put in L2. rewrite lookup_insert_eq in L2. destruct L2 as [_ L2].
  destruct (_ <=? 0) eqn:Z in L2; bool_to_prop; [lia|]. rewrite insert_insert_eq in L2. rewrite E2. cbn [fst snd].
  set (score := f64_of_Z _).
  destruct (Pool.ready_command clock (ZADD (timeout_key b) score (uuid_text n)) p2 R2)
    as (x3 & p3 & E3 & R3 & (z3 & Hz3 & L3)).
  { eexists tt, _. simpl. eexists. split; [|done]. rewrite L2.
    erewrite zset_at_same; [exact Hz|]. by apply lookup_insert_ne. }
  rewrite E3. cbn [fst snd].
  assert (F : forall key, key <> pending_key b n -> key <> timeout_key b -> Pool.live p3 !! key = live b !! key).
  { intros key ? ?. rewrite L3, lookup_put_zset_ne, L2, lookup_insert_ne by done. done. }
  destruct (hincrby_fits p3 (stats_key b) "total_tracked" 1 st R3) as (v & p4 & E4 & R4 & H4 & F4 & C4); [|lia|].
  { split; [|done]. rewrite <- Hst. apply hash_at_same. apply F; congruence. }
  rewrite E4. simpl. split_and!; try done.
  - eexists. split; [|apply (lookup_insert_eq h)]. rewrite (hash_at_same (Pool.live p3)) by (apply F4; congruence).
    unfold hash_at. rewrite L3, lookup_put_zset_ne, L2, lookup_insert_eq by congruence. done.
  - eexists. split; [|rewrite lookup_insert_eq; by eexists]. rewrite (zset_at_same (Pool.live p3)) by (apply F4; congruence).
    rewrite L3. apply zset_at_put.
  - by exists v.
Qed.

Lemma ack_read_effect b n u h :
  Pool.ready (pool b) -> hash_at (live b) (pending_key b n) = Some h ->
  exists b', ack_read clock b n u =
    (match h !! "data" with
     | Some json => match json_parse json with
                    | Ok p => if bool_decide (user_id p = u) then Some p else None
                    | Err _ => None
                    end
     | None => None
     end, b') /\
    Pool.ready (pool b') /\ config b' = config b /\ prefix b' = prefix b /\ tenant_id b' = tenant_id b /\
    live b' = live b.
Proof.
  intros Rd Hh. unfold ack_read, Pool.hget.
  destruct (Pool.ready_command clock (HGET (pending_key b n) "data") (pool b) Rd) as (x & p' & E & R' & (h' & Hh' & -> & L)).
  { eexists _, _. simpl. by exists h. }
  rewrite Hh in Hh'. injection Hh' as <-. rewrite E. simpl. eexists. split; [reflexivity|]. by split_and!.
Qed.

Lemma ack_finish_effect b n p now z st :
  Pool.ready (pool b) -> zset_at (live b) (timeout_key b) = Some z -> counters_fit (live b) (stats_key b) st ->
  0 <= latency_ms p now < 2 ^ 62 ->
  exists b', ack_finish clock b n p now = (true, b') /\
    Pool.ready (pool b') /\ config b' = config b /\ prefix b' = prefix b /\ tenant_id b' = tenant_id b /\
    live b' !! pending_key b n = None /\
    (exists z', zset_at (live b') (timeout_key b) = Some z' /\ z' !! uuid_text n = None) /\
    exists v w, counter (st !! "total_acked") = Some (v - 1) /\
    counter (st !! "total_latency_ms") = Some (w - latency_ms p now) /\
    hash_at (live b') (stats_key b) =
      Some (<["total_latency_ms" := text_of_int w]> (<["total_acked" := text_of_int v]> st)).
Proof.
  intros Rd Hz [Hst Hfit] Hl. destruct (keys_distinct b n) as (N1 & N2 & N3).
  unfold ack_finish, Pool.del, Pool.zrem.
  destruct (Pool.ready_command clock (DEL (pending_key b n)) (pool b) Rd) as (x1 & p1 & E1 & R1 & L1); [by eexists tt, _|].
  simpl in L1. rewrite E1. cbn [fst snd].
  destruct (Pool.ready_command clock (ZREM (timeout_key b) (uuid_text n)) p1 R1)
    as (x2 & p2 & E2 & R2 & (z2 & Hz2 & L2)).
  { eexists tt, _. simpl. eexists. split; [|done]. erewrite zset_at_same; [exact Hz|]. rewrite L1. by apply lookup_delete_ne. }
  rewrite E2. cbn [fst snd].
  assert (F2 : forall key, key <> pending_key b n -> key <> timeout_key b -> Pool.live p2 !! key = live b !! key).
  { intros key ? ?. rewrite L2, lookup_put_zset_ne, L1, lookup_delete_ne by done. done. }
  destruct (hincrby_fits p2 (stats_key b) "total_acked" 1 st R2) as (v & p3 & E3 & R3 & Hs3 & F3 & C3); [|lia|].
  { split; [|done]. rewrite <- Hst. apply hash_at_same. apply F2; congruence. }
  rewrite E3. cbn [fst snd].
  assert (Hi : i64 (latency_ms p now) = latency_ms p now) by (apply i64_id; unfold is_i64; lia). rewrite Hi.
  destruct (Pool.ready_command clock (HINCRBY (stats_key b) "total_latency_ms" (latency_ms p now)) p3 R3)
    as (w & p4 & E4 & R4 & (h4 & old & Hh4 & Ho4 & Hw & _ & L4)).
  { destruct (Hfit "total_latency_ms") as (old & Ho & Hr). exists (old + latency_ms p now). eexists. simpl.
    exists (<["total_acked" := text_of_int v]> st), old. split_and!; try done.
    - by rewrite lookup_insert_ne.
    - unfold is_i64. lia. }
  rewrite Hs3 in Hh4. injection Hh4 as <-. unfold Pool.hincrby. rewrite E4. cbn [fst snd].
  assert (F4 : forall key, key <> pending_key b n -> key <> timeout_key b -> key <> stats_key b ->
                 Pool.live p4 !! key = live b !! key).
  { intros key ? ? ?. rewrite L4, lookup_put_ne, F3 by done. by apply F2. }
  eexists. split; [reflexivity|]. simpl. split_and!; try done.
  - rewrite L4, lookup_put_ne, F3, L2, lookup_put_zset_ne, L1 by congruence. apply lookup_delete_eq.
  - eexists. split; [|apply (lookup_delete_eq z2)].
    rewrite (zset_at_same (Pool.live p2)); [rewrite L2; apply zset_at_put|].
    rewrite L4, lookup_put_ne, F3 by congruence. done.
  - exists v, w. split; [done|]. rewrite lookup_insert_ne in Ho4 by done. split; [|rewrite L4; apply hash_at_put].
    rewrite Ho4. f_equal. lia.
Qed.

Lemma same_keys b b' n :
  prefix b' = prefix b -> tenant_id b' = tenant_id b ->
  pending_key b' n = pending_key b n /\ timeout_key b' = timeout_key b /\ stats_key b' = stats_key b.
Proof. unfold pending_key, timeout_key, stats_key. by intros -> ->. Qed.

(** An acknowledgement of an unknown or foreign entry is refused and changes
    nothing on Redis. *)
Lemma acknowledge_refused b n u now h :
  Pool.ready (pool b) -> hash_at (live b) (pending_key b n) = Some h ->
  (forall json p, h !! "data" = Some json -> json_parse json = Ok p -> user_id p <> u) ->
  exists b', acknowledge clock b n u now = (false, b') /\ Pool.ready (pool b') /\ config b' = config b /\
    prefix b' = prefix b /\ tenant_id b' = tenant_id b /\ live b' = live b.
Proof.
  intros Rd Hh Hu. unfold acknowledge. destruct (enabled (config b)) eqn:En; cbn [negb]; [|by exists b; split_and!].
  destruct (ack_read_effect b n u h Rd Hh) as (b' & E & X). rewrite E. cbn [fst snd].
  destruct (h !! "data") as [json|] eqn:D; [|by exists b'].
  destruct (json_parse json) as [p|] eqn:P; [|by exists b'].
  rewrite bool_decide_false by (by eapply Hu). by exists b'.
Qed.

(** C21: Acknowledgement over Redis: with Redis up and calls one after another
    (two at once can both be accepted, [concurrent_acks_both_counted]), a
    tracked notification is acknowledged exactly once and only by the user it
    was tracked for, an acknowledgement by another user is refused and changes
    nothing, and the accepted one removes the entry and its deadline. *)
Theorem redis_ack_lifecycle b n u v c now now' t s h z st :
  is_enabled b = true -> Pool.ready (pool b) -> u <> v -> json_print (info_new n u c now) = Ok s ->
  hash_at (live b) (pending_key b n) = Some h -> zset_at (live b) (timeout_key b) = Some z ->
  counters_fit (live b) (stats_key b) st -> 0 < i64 (i64 (timeout_seconds (config b)) + 60) ->
  0 <= latency_ms (info_new n u c now) t < 2 ^ 62 ->
  (exists old, counter (st !! "total_tracked") = Some old /\ old + 1 < 2 ^ 62) ->
  let b1 := track clock b n u c now now' in
  exists b2 b3 b4,
    acknowledge clock b1 n v t = (false, b2) /\ live b2 = live b1 /\
    acknowledge clock b2 n u t = (true, b3) /\ live b3 !! pending_key b n = None /\
    (exists z', zset_at (live b3) (timeout_key b) = Some z' /\ z' !! uuid_text n = None) /\
    acknowledge clock b3 n u t = (false, b4) /\ live b4 = live b3.
Proof.
  intros En Rd Huv Hp Hh Hz Hst Ht Hl (old & Hold & Hroom) b1.
  destruct (track_effect b n u c now now' s h z st En Rd Hp Hh Hz Hst Ht)
    as (R1 & C1 & P1 & T1 & (h1 & Hh1 & D1) & (z1 & Hz1 & _) & (w & Hs1 & Hw)). fold b1 in R1, C1, P1, T1, Hh1, Hz1, Hs1.
  destruct (same_keys b b1 n P1 T1) as (K1 & K1' & K1'').
  pose proof (json_roundtrip _ _ Hp) as Hparse.
  destruct (acknowledge_refused b1 n v t h1 R1) as (b2 & E2 & R2 & C2 & P2 & T2 & L2); [by rewrite K1| |].
  { intros json p Hj Hq. rewrite D1 in Hj. injection Hj as <-. rewrite Hparse in Hq. injection Hq as <-. done. }
  destruct (same_keys b1 b2 n P2 T2) as (K2 & K2' & K2'').
  destruct (ack_read_effect b2 n u h1 R2) as (b2' & E2' & R2' & C2' & P2' & T2' & L2'); [by rewrite L2, K2, K1|].
  destruct (same_keys b2 b2' n P2' T2') as (K3 & K3' & K3'').
  rewrite D1, Hparse, bool_decide_true in E2' by done.
  destruct (ack_finish_effect b2' n (info_new n u c now) t z1 (<["total_tracked" := text_of_int w]> st) R2')
    as (b3 & E3 & R3 & C3 & P3 & T3 & L3 & (z3 & Hz3 & Hz3') & _); [| |done|].
  { by rewrite L2', L2, K3', K2', K1'. }
  { split; [by rewrite L2', L2, K3'', K2'', K1''|]. intros f. destruct (decide (f = "total_tracked")) as [->|Nf].
    - rewrite lookup_insert_eq. exists w. rewrite Hold in Hw. injection Hw as ->. destruct Hst as [_ Hf].
      destruct (Hf "total_tracked") as (o & Ho & Hr). rewrite Hold in Ho. injection Ho as <-.
      split; [apply counter_text|lia].
    - rewrite lookup_insert_ne by done. by apply Hst. }
  rewrite K3, K2, K1 in L3. rewrite K3', K2', K1' in Hz3.
  destruct (same_keys b2' b3 n P3 T3) as (K4 & K4' & _).
  destruct (acknowledge_refused b3 n u t ∅ R3) as (b4 & E4 & _ & _ & _ & _ & L4).
  { rewrite K4, K3, K2, K1. unfold hash_at. by rewrite L3. }
  { by intros json p. }
  exists b2, b3, b4. split_and!; try done; [|by exists z3].
  unfold acknowledge. rewrite C2, C1. unfold is_enabled in En. rewrite En, E2'. done.
Qed.

Lemma counters_fit_insert k key st f v :
  hash_at k key = Some (<[f := text_of_int v]> st) -> 0 <= v < 2 ^ 62 ->
  (forall g, exists old, counter (st !! g) = Some old /\ 0 <= old < 2 ^ 62) ->
  counters_fit k key (<[f := text_of_int v]> st).
Proof.
  intros Hh Hv Hc. split; [done|]. intros g. destruct (decide (f = g)) as [<-|].
  - rewrite lookup_insert_eq. exists v. split; [apply counter_text|done].
  - rewrite lookup_insert_ne by done. apply Hc.
Qed.

(** Two acknowledgements at once: the entry is read before it is removed, so
    two requests that both read it are both accepted, and the one tracked
    notification is counted as acknowledged twice. *)
Theorem concurrent_acks_both_counted b n p s h z st t t' a l :
  Pool.ready (pool b) -> hash_at (live b) (pending_key b n) = Some h -> h !! "data" = Some s -> json_print p = Ok s ->
  zset_at (live b) (timeout_key b) = Some z -> counters_fit (live b) (stats_key b) st ->
  counter (st !! "total_acked") = Some a -> counter (st !! "total_latency_ms") = Some l -> a + 1 < 2 ^ 62 ->
  0 <= latency_ms p t < 2 ^ 62 -> 0 <= latency_ms p t' < 2 ^ 62 -> l + latency_ms p t < 2 ^ 62 ->
  exists b1 b2 b3 b4 st',
    ack_read clock b n (user_id p) = (Some p, b1) /\ ack_read clock b1 n (user_id p) = (Some p, b2) /\
    ack_finish clock b2 n p t = (true, b3) /\ ack_finish clock b3 n p t' = (true, b4) /\
    hash_at (live b4) (stats_key b) = Some st' /\ counter (st' !! "total_acked") = Some (a + 2).
Proof.
  intros Rd Hh Hd Hp Hz Hst Ha Hl Hroom Ht Ht' Hlr. pose proof (json_roundtrip _ _ Hp) as Hparse.
  destruct (ack_read_effect b n (user_id p) h Rd Hh) as (b1 & E1 & R1 & C1 & P1 & T1 & L1).
  rewrite Hd, Hparse, bool_decide_true in E1 by done. destruct (same_keys b b1 n P1 T1) as (K1 & K1' & K1'').
  destruct (ack_read_effect b1 n (user_id p) h R1) as (b2 & E2 & R2 & C2 & P2 & T2 & L2); [by rewrite L1, K1|].
  rewrite Hd, Hparse, bool_decide_true in E2 by done. destruct (same_keys b1 b2 n P2 T2) as (K2 & K2' & K2'').
  destruct (ack_finish_effect b2 n p t z st R2) as (b3 & E3 & R3 & C3 & P3 & T3 & _ & (z3 & Hz3 & _) & v & w & Hv & Hw & S3);
    [by rewrite L2, L1, K2', K1'| |done|].
  { destruct Hst as [Hst Hc]. split; [by rewrite L2, L1, K2'', K1''|done]. }
  destruct (same_keys b2 b3 n P3 T3) as (K3 & K3' & K3''). rewrite Ha in Hv. rewrite Hl in Hw. simplify_eq.
  destruct Hst as [_ Hc]. destruct (Hc "total_acked") as (a' & Ha' & Hra). rewrite Ha in Ha'. simplify_eq.
  destruct (Hc "total_latency_ms") as (l' & Hl' & Hrl). rewrite Hl in Hl'. simplify_eq.
  destruct (ack_finish_effect b3 n p t' z3 (<["total_latency_ms" := text_of_int w]> (<["total_acked" := text_of_int v]> st)) R3)
    as (b4 & E4 & _ & _ & _ & _ & _ & _ & v' & w' & Hv' & _ & S4); [by rewrite K3'| |done|].
  { apply counters_fit_insert; [by rewrite K3''|lia|]. intros g. destruct (decide (g = "total_acked")) as [->|].
    - rewrite lookup_insert_eq. exists v. split; [apply counter_text|lia].
    - rewrite lookup_insert_ne by done. apply Hc. }
  rewrite lookup_insert_ne, lookup_insert_eq, counter_text in Hv' by done. simplify_eq.
  exists b1, b2, b3, b4. eexists. rewrite K3'', K2'', K1'' in S4. split_and!; try done.
  rewrite lookup_insert_ne, lookup_insert_eq, counter_text by done. f_equal. lia.
Qed.
End laws.

(** ** One notification over a keyspace *)

Section witnesses.
#[local] Existing Instances Store.keyspace_server Store.keyspace_laws decimal_uuids.

#[local] Instance PendingAckInfo_eq_dec : EqDecision PendingAckInfo.
Proof. solve_decision. Defined.
Definition example_pending : PendingAckInfo := info_new 7%N "alice" 1%N 0.
#[local] Instance one_codec : JsonCodec PendingAckInfo := table_codec [example_pending].
#[local] Instance one_laws : JsonLaws PendingAckInfo := table_laws [example_pending].
Definition no_time (k : nat) : Z := 0.

Definition example_stats : gmap string string :=
  foldr (fun f h => <[f := text_of_int 0]> h) ∅ ["total_tracked"; "total_acked"; "total_expired"; "total_latency_ms"].
Definition fresh_backend : RedisAckBackend Keyspace :=
  new {| enabled := true; timeout_seconds := 30; cleanup_interval_seconds := 60 |}
    (Pool.new (CircuitBreaker.with_config CircuitBreaker.CircuitBreakerConfig_default 0) Health.new ∅) "ara:ack".
Definition tracking_backend : RedisAckBackend Keyspace := track no_time fresh_backend 7%N "alice" 1%N 0 0.

Lemma example_ready : Pool.ready (pool fresh_backend) /\ Pool.ready (pool tracking_backend).
Proof. split; split; vm_compute; reflexivity. Qed.

Lemma empty_counters_fit : counters_fit (Pool.live (pool fresh_backend)) (stats_key fresh_backend) ∅.
Proof. split; [reflexivity|]. intros f. exists 0. rewrite lookup_empty. split; [reflexivity|lia]. Qed.

Lemma redis_ack_lifecycle_witness :
  exists b2 b3, acknowledge no_time tracking_backend 7%N "bob" 5 = (false, b2) /\
    acknowledge no_time b2 7%N "alice" 5 = (true, b3).
Proof.
  destruct (redis_ack_lifecycle no_time fresh_backend 7%N "alice" "bob" 1%N 0 0 5 "0" ∅ ∅ ∅)
    as (b2 & b3 & b4 & E1 & _ & E2 & _).
  - reflexivity.
  - apply example_ready.
  - discriminate.
  - reflexivity.
  - reflexivity.
  - reflexivity.
  - apply empty_counters_fit.
  - vm_compute. reflexivity.
  - vm_compute. split; [discriminate|reflexivity].
  - exists 0. split; [reflexivity|lia].
  - exists b2, b3. split; [exact E1|exact E2].
Defined.

Lemma tracked_counters_fit :
  counters_fit (Pool.live (pool tracking_backend)) (stats_key tracking_backend) {["total_tracked" := "1"]}.
Proof.
  split; [vm_compute; reflexivity|]. intros f. destruct (decide (f = "total_tracked")) as [->|N].
  - exists 1. split; [vm_compute; reflexivity|lia].
  - exists 0. rewrite lookup_singleton_ne by congruence. split; [reflexivity|lia].
Qed.

Lemma concurrent_acks_both_counted_witness :
  exists b1 b2 b3 b4 st',
    ack_read no_time tracking_backend 7%N "alice" = (Some example_pending, b1) /\
    ack_read no_time b1 7%N "alice" = (Some example_pending, b2) /\
    ack_finish no_time b2 7%N example_pending 5 = (true, b3) /\
    ack_finish no_time b3 7%N example_pending 6 = (true, b4) /\
    hash_at (Pool.live (pool b4)) (stats_key tracking_backend) = Some st' /\ counter (st' !! "total_acked") = Some 2.
Proof.
  apply (concurrent_acks_both_counted no_time tracking_backend 7%N example_pending "0" {["data" := "0"]}
    {["7" := f64_of_Z 30]} {["total_tracked" := "1"]} 5 6 0 0).
  - apply example_ready.
  - vm_compute. reflexivity.
  - reflexivity.
  - reflexivity.
  - vm_compute. reflexivity.
  - apply tracked_counters_fit.
  - vm_compute. reflexivity.
  - vm_compute. reflexivity.
  - lia.
  - vm_compute. split; [discriminate|reflexivity].
  - vm_compute. split; [discriminate|reflexivity].
  - vm_compute. reflexivity.
Defined.
End witnesses.
