(* ===== verification/AckPostgres.v ===== *)
(** * AckPostgres: the acknowledgement backend on PostgreSQL

    Models [domain/ack/ack_postgres_backend.rs]: a row per notification whose
    acknowledgement is awaited and a row of counters per tenant, over the
    statements of [Postgres].  Errors of the bookkeeping statements are logged
    and ignored, as the code does. *)
From S2P Require Import Prelude Ack Postgres.

Record PostgresAckBackend (D : Type) := mk { pool : D; config : AckConfig; tenant_id : string }.
Arguments mk {D} _ _ _.
Arguments pool {D} _.
Arguments config {D} _.
Arguments tenant_id {D} _.

Section backend.
Context {D : Type} `{Postgres D}.
Implicit Types b : PostgresAckBackend D.

Definition new (c : AckConfig) (p : D) : PostgresAckBackend D := mk p c "default".
Definition with_tenant (c : AckConfig) (p : D) (tenant : string) : PostgresAckBackend D := mk p c tenant.

Definition is_enabled b : bool := enabled (config b).

Definition query {X} (q : Query X) b : result string X * PostgresAckBackend D :=
  let r := pg_exec q (pool b) in (r.1, mk r.2 (config b) (tenant_id b)).

Definition track b (n : uuid) (u : string) (c : uuid) (now : Z) : PostgresAckBackend D :=
  if negb (enabled (config b)) then b
  else
    let expires_at := now + seconds (i64 (timeout_seconds (config b))) in
    let r := query (INSERT_PENDING n (tenant_id b) u c expires_at) b in
    match r.1 with
    | Err _ => r.2
    | Ok _ =>
      (query (UPSERT_ACK_STATS (tenant_id b) {| at_tracked := 1; at_acked := 0; at_expired := 0; at_latency := 0 |}) r.2).2
    end.

Definition acknowledge b (n : uuid) (u : string) (now : Z) : bool * PostgresAckBackend D :=
  if negb (enabled (config b)) then (false, b)
  else
    let r := query (DELETE_PENDING n u (tenant_id b)) b in
    match r.1 with
    | Ok (Some (sent_at, _)) =>
      let latency_ms := Z.max (num_milliseconds (now - sent_at)) 0 in
      (true, (query (UPSERT_ACK_STATS (tenant_id b)
                {| at_tracked := 0; at_acked := 1; at_expired := 0; at_latency := i64 latency_ms |}) r.2).2)
    | _ => (false, r.2)
    end.

Definition get_pending b (n : uuid) : result AckBackendError (option PendingAckInfo) * PostgresAckBackend D :=
  let r := query (SELECT_PENDING n (tenant_id b)) b in
  (match r.1 with
   | Err x => Err (AckPostgres x)
   | Ok None => Ok None
   | Ok (Some (notification_id, user_id, connection_id, sent_at)) =>
     Ok (Some (info_new notification_id user_id connection_id sent_at))
   end, r.2).

Definition cleanup_expired b : nat * PostgresAckBackend D :=
  if negb (enabled (config b)) then (0%nat, b)
  else
    let r := query (DELETE_EXPIRED_PENDING (tenant_id b)) b in
    match r.1 with
    | Err _ => (0%nat, r.2)
    | Ok count =>
      if (0 <? count)%nat
      then (count, (query (UPSERT_ACK_STATS (tenant_id b)
              {| at_tracked := 0; at_acked := 0; at_expired := i64 (Z.of_nat count); at_latency := 0 |}) r.2).2)
      else (count, r.2)
    end.

Definition pending_count b : nat * PostgresAckBackend D :=
  let r := query (COUNT_PENDING (tenant_id b)) b in
  (Z.to_nat (u64 match r.1 with Ok count => count | Err _ => 0 end), r.2).

Definition stats b : AckBackendStats * PostgresAckBackend D :=
  let r := query (SELECT_ACK_STATS (tenant_id b)) b in
  let c := pending_count r.2 in
  (match r.1 with
   | Ok (Some t) =>
     {| backend_type := "postgres"; st_enabled := enabled (config b); st_total_tracked := u64 (at_tracked t);
        st_total_acked := u64 (at_acked t); st_total_expired := u64 (at_expired t);
        pending_count_stat := Z.of_nat c.1;
        ack_rate := calculate_ack_rate (u64 (at_acked t)) (u64 (at_expired t));
        avg_latency_ms := calculate_avg_latency (u64 (at_latency t)) (u64 (at_acked t)) |}
   | _ =>
     {| backend_type := "postgres"; st_enabled := enabled (config b); st_total_tracked := 0; st_total_acked := 0;
        st_total_expired := 0; pending_count_stat := Z.of_nat c.1; ack_rate := f64_of_Z 1; avg_latency_ms := 0 |}
   end, c.2).
End backend.

(** ** Against a database that is up *)

Section laws.
Context {D : Type} `{PostgresLaws D}.
Implicit Types b : PostgresAckBackend D.

Abbreviation pending b := (pending_acks (pg_db (pool b))).

(** The user whose acknowledgement of [n] this tenant's backend awaits. *)
Definition awaits b (n : uuid) : option string :=
  match pending b !! n with
  | Some p => if bool_decide (pr_tenant p = tenant_id b) then Some (pr_user p) else None
  | None => None
  end.

(** The database is up and takes the names of this tenant and user. *)
Definition ready b (u : string) : Prop :=
  pg_up (pool b) = true /\ varchar_ok (tenant_id b) = true /\ varchar_ok u = true.

Lemma ack_query_counts {X} (q : Query X) b :
  counts_only q -> pg_up (pool b) = true ->
  pg_up (pool (query q b).2) = true /\ pending (query q b).2 = pending b.
Proof.
  intros C U. simpl. destruct (exec_counts_only q (pool b) C) as [_ ->]. by destruct (pg_exec_stays X q (pool b) U) as [-> _].
Qed.

(** Tracking: the first recipient of a notification is the one awaited. *)
Lemma pg_track_effect b n u c now :
  is_enabled b = true -> ready b u ->
  let b' := track b n u c now in
  config b' = config b /\ tenant_id b' = tenant_id b /\ pg_up (pool b') = true /\
  pending b' = match pending b !! n with
               | Some _ => pending b
               | None => <[n := {| pr_tenant := tenant_id b; pr_user := u; pr_connection := c;
                                   pr_sent_at := micros (pg_clock (pool b));
                                   pr_expires_at := micros (now + seconds (i64 (timeout_seconds (config b)))) |}]> (pending b)
               end.
Proof.
  intros En (U & Ht & Hu) b'. unfold b', track. unfold is_enabled in En. rewrite En. cbn [negb]. cbv zeta.
  set (q := INSERT_PENDING _ _ _ _ _).
  destruct (exec_applies q (pool b) U) as (x & d1 & E & U1 & (_ & _ & Edb) & _).
  { simpl. by rewrite (varchar_text _ Ht), (varchar_text _ Hu). }
  { eexists tt, _. by split_and!. }
  assert (Q : query q b = (Ok x, mk d1 (config b) (tenant_id b))) by (unfold query; by rewrite E). rewrite Q. cbn [fst snd].
  set (q2 := UPSERT_ACK_STATS _ _). destruct (ack_query_counts q2 (mk d1 (config b) (tenant_id b)) I U1) as [U2 P2].
  split_and!; try done. rewrite P2. cbn [pool]. rewrite Edb. by destruct (pending b !! n).
Qed.

(** Acknowledging: one statement finds the row and removes it. *)
Lemma acknowledge_effect b n u now :
  is_enabled b = true -> ready b u ->
  let r := acknowledge b n u now in
  config r.2 = config b /\ tenant_id r.2 = tenant_id b /\ pg_up (pool r.2) = true /\
  r.1 = bool_decide (awaits b n = Some u) /\ pending r.2 = if r.1 then delete n (pending b) else pending b.
Proof.
  intros En (U & Ht & Hu) r. unfold r, acknowledge. unfold is_enabled in En. rewrite En. cbn [negb].
  set (q := DELETE_PENDING _ _ _).
  destruct (exec_applies q (pool b) U) as (x & d1 & E & U1 & Sp & _).
  { simpl. by rewrite (varchar_text _ Ht), (varchar_text _ Hu). }
  { simpl. destruct (pending b !! n); [case_bool_decide|]; by eexists _, _. }
  assert (Q : query q b = (Ok x, mk d1 (config b) (tenant_id b))) by (unfold query; by rewrite E). rewrite Q. cbn [fst snd].
  simpl in Sp. unfold awaits. destruct (pending b !! n) as [p|] eqn:Ep.
  - destruct (decide (pr_user p = u /\ pr_tenant p = tenant_id b)) as [[Eu Et]|N].
    + rewrite (bool_decide_true _ (conj Eu Et)) in Sp. destruct Sp as [-> Edb].
      set (q2 := UPSERT_ACK_STATS _ _). destruct (ack_query_counts q2 (mk d1 (config b) (tenant_id b)) I U1) as [U2 P2].
      rewrite (bool_decide_true _ Et), Eu, bool_decide_true by done. split_and!; try done. cbn [fst snd]. rewrite P2. cbn [pool]. by rewrite Edb.
    + rewrite (bool_decide_false _ N) in Sp. destruct Sp as [-> Edb]. cbn [fst snd pool]. rewrite Edb. split_and!; try done.
      symmetry. apply bool_decide_eq_false. case_bool_decide; [intros [= ?]; naive_solver|done].
  - destruct Sp as [-> Edb]. cbn [fst snd pool]. rewrite Edb. by split_and!.
Qed.

Lemma awaits_same b b' n : pending b' = pending b -> tenant_id b' = tenant_id b -> awaits b' n = awaits b n.
Proof. unfold awaits. by intros -> ->. Qed.
Lemma awaits_delete b b' n n' :
  pending b' = delete n (pending b) -> tenant_id b' = tenant_id b ->
  awaits b' n' = if decide (n = n') then None else awaits b n'.
Proof.
  unfold awaits. intros -> ->. case_decide as N; [subst; by rewrite lookup_delete_eq|]. by rewrite lookup_delete_ne.
Qed.
Lemma ready_same b b' u : ready b u -> pg_up (pool b') = true -> tenant_id b' = tenant_id b -> ready b' u.
Proof. unfold ready. intros (_ & ? & ?) ? ->. by split_and!. Qed.

(** Acknowledgements by any users, one after the other. *)
Fixpoint acknowledge_all b (n : uuid) (acks : list (string * Z)) : list bool * PostgresAckBackend D :=
  match acks with
  | [] => ([], b)
  | (u, now) :: rest =>
    let r := acknowledge b n u now in
    let rs := acknowledge_all r.2 n rest in (r.1 :: rs.1, rs.2)
  end.

Lemma acknowledge_all_unawaited b n acks :
  is_enabled b = true -> Forall (fun a => ready b a.1) acks -> awaits b n = None ->
  (acknowledge_all b n acks).1 = repeat false (length acks).
Proof.
  intros En F. revert b En F. induction acks as [|[u t] acks IH]; intros b En F A; [done|].
  apply Forall_cons in F as [Ru F]. cbn [acknowledge_all fst snd length repeat].
  destruct (acknowledge_effect b n u t En Ru) as (C & T & U & R & P). rewrite A, bool_decide_false in R by done.
  rewrite R in P |- *. f_equal. apply IH.
  - unfold is_enabled in *. by rewrite C.
  - eapply Forall_impl; [exact F|]. intros a Ha. by apply (ready_same b).
  - by rewrite (awaits_same b).
Qed.

(** C22: Of any acknowledgements of a tracked notification, by whatever users and
    in whatever order, exactly the first one by the awaited user is accepted:
    one statement finds the row and deletes it. *)
Theorem one_acknowledgement_accepted b n u before now after :
  is_enabled b = true -> Forall (fun a => ready b a.1) (before ++ (u, now) :: after) -> awaits b n = Some u ->
  Forall (fun a => a.1 <> u) before ->
  (acknowledge_all b n (before ++ (u, now) :: after)).1 =
  repeat false (length before) ++ true :: repeat false (length after).
Proof.
  revert b. induction before as [|[v t] before IH]; intros b En F A Nu; cbn [app] in *;
    apply Forall_cons in F as [Rv F]; cbn [acknowledge_all fst snd length repeat app].
  - destruct (acknowledge_effect b n u now En Rv) as (C & T & U & R & P). rewrite A, bool_decide_true in R by done.
    rewrite R in P |- *. f_equal. apply acknowledge_all_unawaited.
    + unfold is_enabled in *. by rewrite C.
    + eapply Forall_impl; [exact F|]. intros a Ha. by apply (ready_same b).
    + by rewrite (awaits_delete b _ n), decide_True.
  - apply Forall_cons in Nu as [Nv Nu]. simpl in Nv, Rv.
    destruct (acknowledge_effect b n v t En Rv) as (C & T & U & R & P).
    rewrite A, bool_decide_false in R by congruence. rewrite R in P |- *. f_equal. apply IH; [| | |done].
    + unfold is_enabled in *. by rewrite C.
    + eapply Forall_impl; [exact F|]. intros a Ha. by apply (ready_same b).
    + by rewrite (awaits_same b).
Qed.

(** A notification is tracked for its first recipient: tracking it again, for
    another recipient or in another tenant, changes nobody's expectation. *)
Lemma track_awaits b n u c now n' :
  is_enabled b = true -> ready b u ->
  awaits (track b n u c now) n' =
  if decide (n = n' /\ pending b !! n = None) then Some u else awaits b n'.
Proof.
  intros En Rd. destruct (pg_track_effect b n u c now En Rd) as (C & T & U & P).
  unfold awaits. rewrite P, T. destruct (pending b !! n) as [p|] eqn:Ep.
  - rewrite decide_False by (by intros [_ ?]). done.
  - destruct (decide (n = n')) as [<-|N].
    + rewrite lookup_insert_eq, decide_True by done. by rewrite bool_decide_true.
    + rewrite lookup_insert_ne, decide_False by (done || by intros [? _]). done.
Qed.

Lemma get_pending_spec b n :
  pg_up (pool b) = true -> text_ok (tenant_id b) = true ->
  exists b', get_pending b n =
    (Ok (match pending b !! n with
         | Some p => if bool_decide (pr_tenant p = tenant_id b)
                     then Some (info_new n (pr_user p) (pr_connection p) (pr_sent_at p)) else None
         | None => None
         end), b').
Proof.
  intros U Ht. unfold get_pending, query.
  destruct (exec_applies (SELECT_PENDING n (tenant_id b)) (pool b) U Ht) as (x & d1 & -> & _ & [-> _] & _);
    [by eexists _, _|]. simpl. destruct (pending b !! n); [case_bool_decide|]; by eexists.
Qed.

(** Cleaning up removes this tenant's expired rows, and counts them. *)
Lemma cleanup_spec b :
  is_enabled b = true -> pg_up (pool b) = true -> text_ok (tenant_id b) = true ->
  let gone := expired_pending (pg_clock (pool b)) (tenant_id b) (pending b) in
  (cleanup_expired b).1 = size gone /\ pending (cleanup_expired b).2 = pending b ∖ gone.
Proof.
  intros En U Ht gone. unfold cleanup_expired. unfold is_enabled in En. rewrite En. cbn [negb].
  destruct (exec_applies (DELETE_EXPIRED_PENDING (tenant_id b)) (pool b) U Ht) as (x & d1 & E & U1 & [Ex Edb] & _);
    [by eexists _, _|].
  assert (Q : query (DELETE_EXPIRED_PENDING (tenant_id b)) b = (Ok x, mk d1 (config b) (tenant_id b)))
    by (unfold query; by rewrite E).
  rewrite Q. cbn [fst snd]. set (q2 := UPSERT_ACK_STATS _ _).
  destruct (ack_query_counts q2 (mk d1 (config b) (tenant_id b)) I U1) as [_ P2].
  destruct (0 <? x)%nat; cbn [fst snd]; (split; [done|]); rewrite ?P2; cbn [pool]; by rewrite Edb.
Qed.

(** The life of a notification: awaited from its recipient once tracked,
    refused from anyone else, accepted once, and then unknown. *)
Theorem postgres_ack_lifecycle b n u v c now now1 now2 now3 :
  is_enabled b = true -> ready b u -> ready b v -> pending b !! n = None -> u <> v ->
  let b1 := track b n u c now in
  let r2 := acknowledge b1 n v now1 in
  let r3 := acknowledge r2.2 n u now2 in
  (exists b', get_pending b1 n = (Ok (Some (info_new n u c (micros (pg_clock (pool b))))), b')) /\
  r2.1 = false /\ r3.1 = true /\ (acknowledge r3.2 n u now3).1 = false /\
  (exists b', get_pending r3.2 n = (Ok None, b')) /\
  forall n', n' <> n -> awaits r3.2 n' = awaits b n'.
Proof.
  intros En Ru Rv Hn N b1 r2 r3. destruct (pg_track_effect b n u c now En Ru) as (C1 & T1 & U1 & P1).
  pose proof (track_awaits b n u c now n En Ru) as A1. rewrite decide_True in A1 by done. fold b1 in C1, T1, U1, P1, A1.
  assert (En1 : is_enabled b1 = true) by (unfold is_enabled in *; by rewrite C1).
  destruct (acknowledge_effect b1 n v now1 En1) as (C2 & T2 & U2 & R2 & P2); [by apply (ready_same b)|]. fold r2 in C2, T2, U2, R2, P2.
  rewrite A1, bool_decide_false in R2 by congruence. rewrite R2 in P2.
  assert (En2 : is_enabled r2.2 = true) by (unfold is_enabled in *; by rewrite C2).
  assert (A2 : awaits r2.2 n = Some u) by (by rewrite (awaits_same b1)).
  destruct (acknowledge_effect r2.2 n u now2 En2) as (C3 & T3 & U3 & R3 & P3); [apply (ready_same b); [done|done|congruence]|].
  fold r3 in C3, T3, U3, R3, P3. rewrite A2, bool_decide_true in R3 by done. rewrite R3 in P3.
  assert (En3 : is_enabled r3.2 = true) by (unfold is_enabled in *; by rewrite C3).
  destruct (acknowledge_effect r3.2 n u now3 En3) as (_ & _ & _ & R4 & _); [apply (ready_same b); [done|done|congruence]|].
  rewrite (awaits_delete r2.2 _ n), decide_True in R4 by done. pose proof (proj1 (proj2 Ru)) as Ht.
  split_and!; try done.
  - destruct (get_pending_spec b1 n U1) as [b' ->]; [rewrite T1; by apply varchar_text|].
    rewrite P1, Hn, lookup_insert_eq, bool_decide_true by done. by eexists.
  - destruct (get_pending_spec r3.2 n U3) as [b' ->]; [rewrite T3, T2, T1; by apply varchar_text|].
    rewrite P3, lookup_delete_eq. by eexists.
  - intros n' Nn. rewrite (awaits_delete r2.2 _ n), decide_False, (awaits_same b1) by done.
    unfold b1. rewrite track_awaits by done. rewrite decide_False; [done|]. intros [? _]. congruence.
Qed.
End laws.

(** ** Isolation *)

Section isolation.
Context {D : Type} `{PostgresLaws D}.
Implicit Types b : PostgresAckBackend D.

Inductive operation b : PostgresAckBackend D -> Prop :=
| op_track n u c now : operation b (track b n u c now)
| op_acknowledge n u now : operation b (acknowledge b n u now).2
| op_get n : operation b (get_pending b n).2
| op_cleanup : operation b (cleanup_expired b).2
| op_count : operation b (pending_count b).2
| op_stats : operation b (stats b).2.

(** An operation of one tenant's backend leaves every row and counter of the
    other tenants as it was, also when a statement of it fails. *)
Theorem postgres_ack_isolation b b' t :
  operation b b' -> t <> tenant_id b -> same_tenant_rows t (pg_db (pool b)) (pg_db (pool b')).
Proof.
  intros O. apply (statements_other_tenant (tenant_id b) 0).
  destruct O; unfold track, acknowledge, get_pending, cleanup_expired, stats, pending_count, query; simpl;
    repeat case_match; simpl; repeat (apply statements_snoc; [done|done|]); constructor.
Qed.
End isolation.

(** ** One notification over a table *)

Section witnesses.
#[local] Existing Instances Store.store_server Store.store_laws.

Definition example_store : Store.PgStore :=
  {| Store.st_db := empty_database; Store.st_now := 5000; Store.st_up := true |}.
Definition example_backend : PostgresAckBackend Store.PgStore :=
  new {| enabled := true; timeout_seconds := 30; cleanup_interval_seconds := 60 |} example_store.
Definition tracking_backend : PostgresAckBackend Store.PgStore := track example_backend 7%N "alice" 1%N 0.

Lemma pg_example_ready : forall u, u = "alice" \/ u = "bob" -> ready example_backend u /\ ready tracking_backend u.
Proof. intros u [-> | ->]; split; split_and!; vm_compute; reflexivity. Qed.

Lemma postgres_ack_lifecycle_witness :
  (acknowledge (acknowledge tracking_backend 7%N "bob" 1).2 7%N "alice" 2).1 = true.
Proof.
  apply (postgres_ack_lifecycle example_backend 7%N "alice" "bob" 1%N 0 1 2 3).
  - reflexivity.
  - apply pg_example_ready. left. reflexivity.
  - apply pg_example_ready. right. reflexivity.
  - reflexivity.
  - discriminate.
Defined.

Lemma one_acknowledgement_accepted_witness :
  (acknowledge_all tracking_backend 7%N [("bob", 1); ("alice", 2); ("alice", 3)]).1 = [false; true; false].
Proof.
  apply (one_acknowledgement_accepted tracking_backend 7%N "alice" [("bob", 1)] 2 [("alice", 3)]).
  - vm_compute. reflexivity.
  - repeat constructor; vm_compute; reflexivity.
  - vm_compute. reflexivity.
  - repeat constructor. discriminate.
Defined.

Lemma postgres_ack_isolation_witness :
  same_tenant_rows "other" (pg_db example_store) (pg_db (pool tracking_backend)).
Proof. apply (postgres_ack_isolation example_backend); [constructor|discriminate]. Defined.
End witnesses.
