(* ===== verification/Template.v ===== *)
(** * Template: notification templates

    Models [domain/template/] (types.rs, substitution.rs, store.rs) and the
    template endpoints of [api/template.rs].  [serde_json]'s printer is the
    interface [JsonText]. *)
From S2P Require Import Prelude Auth Tenant Notification.

(** ** Data *)

Inductive TemplateError :=
| NotFound (id : string)
| AlreadyExists (id : string)
| InvalidId (msg : string)
| InvalidTemplate (msg : string)
| SubstitutionFailed (msg : string).

Definition template_error_display (e : TemplateError) : string :=
  match e with
  | NotFound s => "Template not found: " +:+ s
  | AlreadyExists s => "Template already exists: " +:+ s
  | InvalidId s => "Invalid template ID: " +:+ s
  | InvalidTemplate s => "Invalid template: " +:+ s
  | SubstitutionFailed s => "Variable substitution failed: " +:+ s
  end.

Record Template := {
  t_id : string; t_name : string; t_event_type : string; t_payload_template : json;
  t_default_priority : Priority; t_default_ttl : option Z; t_description : option string;
  t_created_at : Z; t_updated_at : Z;
}.

Record CreateTemplateRequest := {
  cr_id : string; cr_name : string; cr_event_type : string; cr_payload_template : json;
  cr_default_priority : Priority; cr_default_ttl : option Z; cr_description : option string;
}.

Definition template_of_request (r : CreateTemplateRequest) (now : Z) : Template :=
  {| t_id := cr_id r; t_name := cr_name r; t_event_type := cr_event_type r;
     t_payload_template := cr_payload_template r; t_default_priority := cr_default_priority r;
     t_default_ttl := cr_default_ttl r; t_description := cr_description r;
     t_created_at := now; t_updated_at := now |}.

Record UpdateTemplateRequest := {
  up_name : option string; up_event_type : option string; up_payload_template : option json;
  up_default_priority : option Priority; up_default_ttl : option (option Z);
  up_description : option (option string);
}.

Record TemplateListResponse := { templates : list Template; total : nat }.

Record RenderedTemplate := {
  rt_event_type : string; rt_payload : json; rt_priority : Priority; rt_ttl : option Z;
}.

Section validation.
Context `{UnicodeTables}.

(** Alphanumeric, dash, underscore, or colon. *)
Definition valid_id_chars (id : string) : bool := all_chars_in [45; 95; 58]%N id.

Definition validate (t : Template) : result TemplateError unit :=
  if bool_decide (t_id t = "") || (130 <? String.length (t_id t))%nat then
    Err (InvalidId "ID must be 1-130 characters")
  else if negb (valid_id_chars (t_id t)) then
    Err (InvalidId "ID must contain only alphanumeric, dash, underscore, or colon")
  else if bool_decide (t_name t = "") || (256 <? String.length (t_name t))%nat then
    Err (InvalidTemplate "Name must be 1-256 characters")
  else if bool_decide (t_event_type t = "") || (128 <? String.length (t_event_type t))%nat then
    Err (InvalidTemplate "Event type must be 1-128 characters")
  else Ok tt.
End validation.

(** ** Substitution *)

(** [str::replace] of a non-empty pattern: left to right, without overlap;
    [skip] bytes of a match already replaced remain to be passed over. *)
Fixpoint replace_from (pattern by_ : string) (skip : nat) (s : string) : string :=
  match s with
  | EmptyString => EmptyString
  | String c r =>
    match skip with
    | S k => replace_from pattern by_ k r
    | O => if starts_with pattern s then by_ +:+ replace_from pattern by_ (String.length pattern - 1) r
           else String c (replace_from pattern by_ 0 r)
    end
  end.
Definition str_replace (pattern by_ s : string) : string := replace_from pattern by_ 0 s.

(** [serde_json]'s printer, for arrays and objects. *)
Class JsonText := { json_text : json -> string }.

(** [Map::insert] of a [BTreeMap]: fields stay in key order, and a key that is
    there has its value replaced. *)
Fixpoint obj_insert (k : string) (v : json) (fields : list (string * json)) : list (string * json) :=
  match fields with
  | [] => [(k, v)]
  | (k0, v0) :: r =>
    match String.compare k k0 with
    | Lt => (k, v) :: fields
    | Eq => (k0, v) :: r
    | Gt => (k0, v0) :: obj_insert k v r
    end
  end.

Definition placeholder (key : string) : string := "{{" +:+ key +:+ "}}".

Section substitution.
Context `{JsonText}.

Definition replacement (v : json) : string :=
  match v with
  | JString s => s
  | JNumber n => n
  | JBool b => if b then "true" else "false"
  | JNull => ""
  | _ => json_text v
  end.

(** One pass per variable, in key order, over the text produced so far. *)
Definition substitute_string (template : string) (vars : list (string * json)) : string :=
  fold_left (fun acc kv => str_replace (placeholder kv.1) (replacement kv.2) acc) vars template.

Fixpoint substitute_value (value : json) (vars : list (string * json)) : json :=
  match value with
  | JString s => JString (substitute_string s vars)
  | JArray l => JArray (map (fun v => substitute_value v vars) l)
  | JObject fields =>
    JObject (fold_left (fun acc kv => obj_insert kv.1 kv.2 acc)
               (map (fun kv => (substitute_string kv.1 vars, substitute_value kv.2 vars)) fields) [])
  | _ => value
  end.

(** [substitute_value]'s result type carries an error no case builds. *)
Definition substitute_variables (template variables : json) : result TemplateError json :=
  match variables with
  | JObject vars => Ok (substitute_value template vars)
  | _ => Err (SubstitutionFailed "Variables must be an object")
  end.
End substitution.

(** ** The store *)

Abbreviation TemplateStore := (gmap string Template).
Definition store_new : TemplateStore := ∅.

Section store.
Context `{UnicodeTables} `{JsonText}.

Definition create (st : TemplateStore) (t : Template) : result TemplateError Template * TemplateStore :=
  match validate t with
  | Err e => (Err e, st)
  | Ok _ =>
    match st !! t_id t with
    | Some _ => (Err (AlreadyExists (t_id t)), st)
    | None => (Ok t, <[t_id t := t]> st)
    end
  end.

Definition get (st : TemplateStore) (id : string) : result TemplateError Template :=
  ok_or (st !! id) (NotFound id).

Definition list_all (st : TemplateStore) : list Template := (map_to_list st).*2.

Definition apply_updates (t : Template) (u : UpdateTemplateRequest) (now : Z) : Template :=
  {| t_id := t_id t; t_name := default (t_name t) (up_name u);
     t_event_type := default (t_event_type t) (up_event_type u);
     t_payload_template := default (t_payload_template t) (up_payload_template u);
     t_default_priority := default (t_default_priority t) (up_default_priority u);
     t_default_ttl := default (t_default_ttl t) (up_default_ttl u);
     t_description := default (t_description t) (up_description u);
     t_created_at := t_created_at t; t_updated_at := now |}.

Definition update (st : TemplateStore) (id : string) (u : UpdateTemplateRequest) (now : Z)
  : result TemplateError Template * TemplateStore :=
  match get st id with
  | Err e => (Err e, st)
  | Ok t =>
    let t' := apply_updates t u now in
    match validate t' with
    | Err e => (Err e, st)
    | Ok _ => (Ok t', <[id := t']> st)
    end
  end.

Definition delete_template_by_id (st : TemplateStore) (id : string) : result TemplateError unit * TemplateStore :=
  match st !! id with
  | Some _ => (Ok tt, delete id st)
  | None => (Err (NotFound id), st)
  end.

Definition exists_ (st : TemplateStore) (id : string) : bool := bool_decide (is_Some (st !! id)).
Definition count (st : TemplateStore) : nat := size st.

Definition render (st : TemplateStore) (id : string) (variables : json)
  : result TemplateError RenderedTemplate :=
  t <-? get st id ;;
  payload <-? substitute_variables (t_payload_template t) variables ;;
  Ok {| rt_event_type := t_event_type t; rt_payload := payload;
        rt_priority := t_default_priority t; rt_ttl := t_default_ttl t |}.
End store.

(** ** Endpoints

    The tenant context is the one the API-key middleware attached, if any. *)

Definition tenant_template_id (ctx : option TenantContext) (id : string) : string :=
  match ctx with
  | Some t => if ctx_is_default t then id else ctx_tenant_id t +:+ ":" +:+ id
  | None => id
  end.

Definition tenant_prefix (ctx : option TenantContext) : option string :=
  match ctx with
  | Some t => if ctx_is_default t then None else Some (ctx_tenant_id t +:+ ":")
  | None => None
  end.

Record TemplateErrorInfo := { code : string; message : string }.

Definition template_error_response (e : TemplateError) : Z * TemplateErrorInfo :=
  let r := match e with
           | NotFound _ => (404, "TEMPLATE_NOT_FOUND")
           | AlreadyExists _ => (409, "TEMPLATE_EXISTS")
           | InvalidId _ => (400, "INVALID_ID")
           | InvalidTemplate _ => (400, "INVALID_TEMPLATE")
           | SubstitutionFailed _ => (422, "SUBSTITUTION_FAILED")
           end in
  (r.1, {| code := r.2; message := template_error_display e |}).

Section endpoints.
Context `{UnicodeTables} `{JsonText}.

Definition set_id (id : string) (t : Template) : Template :=
  {| t_id := id; t_name := t_name t; t_event_type := t_event_type t;
     t_payload_template := t_payload_template t; t_default_priority := t_default_priority t;
     t_default_ttl := t_default_ttl t; t_description := t_description t;
     t_created_at := t_created_at t; t_updated_at := t_updated_at t |}.

Definition create_template (st : TemplateStore) (ctx : option TenantContext) (r : CreateTemplateRequest)
  (now : Z) : result (Z * TemplateErrorInfo) (Z * Template) * TemplateStore :=
  let t := template_of_request r now in
  match validate t with
  | Err e => (Err (template_error_response e), st)
  | Ok _ =>
    match create st (set_id (tenant_template_id ctx (t_id t)) t) with
    | (Ok created, st') => (Ok (201, created), st')
    | (Err e, st') => (Err (template_error_response e), st')
    end
  end.

Definition list_templates (st : TemplateStore) (multi_tenant : bool) (ctx : option TenantContext)
  : TemplateListResponse :=
  let ts := match tenant_prefix ctx with
            | Some p => List.filter (fun t => starts_with p (t_id t)) (list_all st)
            | None => if multi_tenant then List.filter (fun t => negb (str_has COLON (t_id t))) (list_all st)
                      else list_all st
            end in
  {| templates := ts; total := length ts |}.

Definition get_template (st : TemplateStore) (ctx : option TenantContext) (id : string)
  : result (Z * TemplateErrorInfo) Template :=
  map_err template_error_response (get st (tenant_template_id ctx id)).

Definition update_template (st : TemplateStore) (ctx : option TenantContext) (id : string)
  (r : UpdateTemplateRequest) (now : Z) : result (Z * TemplateErrorInfo) Template * TemplateStore :=
  let r := update st (tenant_template_id ctx id) r now in (map_err template_error_response r.1, r.2).

Definition delete_template (st : TemplateStore) (ctx : option TenantContext) (id : string)
  : result (Z * TemplateErrorInfo) Z * TemplateStore :=
  match delete_template_by_id st (tenant_template_id ctx id) with
  | (Ok _, st') => (Ok 204, st')
  | (Err e, st') => (Err (template_error_response e), st')
  end.
End endpoints.

(** ** Substitution replaces each declared placeholder by its value *)

Abbreviation LBRACE := "{"%char (only parsing).
Abbreviation RBRACE := "}"%char (only parsing).

(** A text cut into literals and placeholders. *)
Inductive segment := Lit (s : string) | Ph (key : string).

Definition seg_text (g : segment) : string := match g with Lit s => s | Ph k => placeholder k end.
Definition text (gs : list segment) : string := foldr (fun g acc => seg_text g +:+ acc) "" gs.

Definition plain_key (k : string) : Prop := str_has LBRACE k = false /\ str_has RBRACE k = false.
Definition seg_ok (g : segment) : Prop :=
  match g with Lit s => str_has LBRACE s = false | Ph k => plain_key k end.

Lemma starts_with_head c p d s : c <> d -> starts_with (String c p) (String d s) = false.
Proof. intros. unfold starts_with. simpl. by rewrite decide_False. Qed.

Lemma str_replace_literal k v s rest :
  str_has LBRACE s = false ->
  replace_from (placeholder k) v 0 (s +:+ rest) = s +:+ replace_from (placeholder k) v 0 rest.
Proof.
  induction s as [|c s IH]; simpl; [done|]. intros H. bool_to_prop.
  unfold placeholder at 1. simpl. rewrite starts_with_head by congruence. by rewrite IH.
Qed.

Lemma replace_skip p v s rest : replace_from p v (String.length s) (s +:+ rest) = replace_from p v 0 rest.
Proof. induction s as [|c s IH]; simpl; [done|apply IH]. Qed.

(** The first closing brace ends the key. *)
Lemma key_prefix_unique k k' x y :
  str_has RBRACE k = false -> str_has RBRACE k' = false ->
  k +:+ "}}" +:+ x = k' +:+ "}}" +:+ y -> k = k'.
Proof.
  revert k'. induction k as [|c k IH]; intros [|d k']; simpl; intros H1 H2 E; bool_to_prop; simplify_eq; try done.
  f_equal. by eapply IH.
Qed.

Lemma str_replace_placeholder k k' v rest :
  plain_key k -> plain_key k' ->
  replace_from (placeholder k) v 0 (placeholder k' +:+ rest) =
  (if decide (k = k') then v else placeholder k') +:+ replace_from (placeholder k) v 0 rest.
Proof.
  intros [L R] [L' R']. destruct (decide (k = k')) as [<-|Hne].
  - unfold placeholder at 2. cbn [append]. cbn [replace_from].
    replace (starts_with _ _) with true.
    + f_equal. exact (replace_skip (placeholder k) v (String "{" (k +:+ "}}")) rest).
    + symmetry. apply starts_with_spec. exists rest. unfold placeholder. cbn [append]. by rewrite !str_app_assoc.
  - unfold placeholder at 2 3. cbn [append]. cbn [replace_from].
    replace (starts_with _ _) with false.
    2: { symmetry. apply not_true_is_false. intros [r E]%starts_with_spec. unfold placeholder in E. cbn [append] in E.
         simplify_eq. rewrite !str_app_assoc in *. apply Hne. symmetry. by eapply key_prefix_unique. }
    f_equal. cbn [replace_from]. replace (starts_with _ _) with false.
    2: { symmetry. unfold placeholder. destruct k' as [|c k'']; unfold starts_with; simpl; [done|].
         simpl in L'. bool_to_prop. by rewrite decide_False by congruence. }
    f_equal. rewrite !str_app_assoc.
    rewrite (str_replace_literal k v k') by done. f_equal.
Qed.

Definition resolve1 (k v : string) (g : segment) : segment :=
  match g with Ph k' => if decide (k = k') then Lit v else g | Lit _ => g end.

Lemma str_replace_text k v gs :
  plain_key k -> Forall seg_ok gs -> str_replace (placeholder k) v (text gs) = text (map (resolve1 k v) gs).
Proof.
  unfold str_replace. intros Hk. induction 1 as [|g gs Hg _ IH]; [done|]. cbn [text foldr map] in *.
  destruct g as [s|k']; simpl in Hg; cbn [seg_text resolve1].
  - rewrite str_replace_literal by done. f_equal. apply IH.
  - rewrite str_replace_placeholder by done. unfold text in *. rewrite IH. by case_decide.
Qed.

Section substitution_spec.
Context `{JsonText}.

Definition var_ok (kv : string * json) : Prop := plain_key kv.1 /\ str_has LBRACE (replacement kv.2) = false.

Fixpoint resolve (vars : list (string * json)) (g : segment) : segment :=
  match g, vars with
  | Ph k, (k0, v) :: r => if decide (k0 = k) then Lit (replacement v) else resolve r g
  | _, _ => g
  end.

Lemma resolve_lit vars s : resolve vars (Lit s) = Lit s.
Proof. by destruct vars. Qed.

Lemma resolve_cons k v vars g : resolve ((k, v) :: vars) g = resolve vars (resolve1 k (replacement v) g).
Proof. destruct g as [s|k']; simpl; [by rewrite resolve_lit|]. case_decide; by rewrite ?resolve_lit. Qed.

(** C34: Substitution: when keys are free of braces, and values and the text
    between placeholders of opening braces, every placeholder of a declared variable is replaced by that
    variable's value, in every place it occurs and all at once, and all other
    text, placeholders of undeclared variables included, stays as it is. *)
Theorem substitute_string_spec vars gs :
  Forall var_ok vars -> Forall seg_ok gs ->
  substitute_string (text gs) vars = text (map (resolve vars) gs).
Proof.
  intros Hv. revert gs. unfold substitute_string.
  induction Hv as [|[k v] vars [Hk Hb] _ IH]; intros gs Hg; cbn [fold_left fst snd].
  - f_equal. rewrite <- (map_id gs) at 1. apply map_ext. by intros [].
  - rewrite str_replace_text by done. rewrite IH.
    + f_equal. rewrite map_map. apply map_ext. intros g. symmetry. apply resolve_cons.
    + rewrite Forall_forall in *. intros g [g' [-> Hg']]%list_elem_of_fmap. apply Hg in Hg'.
      destruct g' as [|k']; simpl in *; [done|]. by case_decide.
Qed.
End substitution_spec.

Definition no_json_text : JsonText := {| json_text := fun _ => "" |}.

Lemma substitute_string_spec_witness :
  @substitute_string no_json_text "Hi {{name}}, {{n}} of {{m}}" [("n", JNumber "3"); ("name", JString "Bo")]
  = "Hi Bo, 3 of {{m}}".
Proof.
  apply (@substitute_string_spec no_json_text [("n", JNumber "3"); ("name", JString "Bo")]
    [Lit "Hi "; Ph "name"; Lit ", "; Ph "n"; Lit " of "; Ph "m"]);
    repeat constructor.
Defined.

(** A value is scanned again for the variables that follow its own in key
    order: with braces in a value the result depends on the names. *)
Example substitution_reexpands :
  @substitute_string no_json_text "{{a}}" [("a", JString "{{b}}"); ("b", JString "x")] = "x" /\
  @substitute_string no_json_text "{{b}}" [("a", JString "x"); ("b", JString "{{a}}")] = "{{a}}".
Proof. split; reflexivity. Qed.

(** ** The store and the tenants that share it *)

Section store_spec.
Context `{UnicodeTables} `{JsonText}.

Definition store_wf (st : TemplateStore) : Prop :=
  forall id t, st !! id = Some t -> t_id t = id /\ validate t = Ok tt.

Lemma create_wf st t : store_wf st -> store_wf (create st t).2.
Proof.
  intros W. unfold create. destruct (validate t) as [[]|] eqn:V; [|done].
  destruct (st !! t_id t) eqn:E; [done|]. cbn [snd]. intros id t' [[<- <-]|[_ ?]]%lookup_insert_Some; [done|by apply W].
Qed.

Lemma update_wf st id u now : store_wf st -> store_wf (update st id u now).2.
Proof.
  intros W. unfold update, get. destruct (st !! id) as [t|] eqn:E; simpl; [|done].
  destruct (validate _) as [[]|] eqn:V; simpl; [|done].
  intros id' t' [[<- <-]|[_ ?]]%lookup_insert_Some; [|by apply W]. split; [exact (proj1 (W _ _ E))|exact V].
Qed.

Lemma delete_wf st id : store_wf st -> store_wf (delete_template_by_id st id).2.
Proof.
  intros W. unfold delete_template_by_id. destruct (st !! id); [|done]. cbn [snd].
  intros id' t' [_ ?]%lookup_delete_Some. by apply W.
Qed.

(** A request that changes the store. *)
Inductive request :=
| RCreate (r : CreateTemplateRequest) (now : Z)
| RUpdate (id : string) (u : UpdateTemplateRequest) (now : Z)
| RDelete (id : string).

Definition handle (ctx : option TenantContext) (st : TemplateStore) (q : request) : TemplateStore :=
  match q with
  | RCreate r now => (create_template st ctx r now).2
  | RUpdate id u now => (update_template st ctx id u now).2
  | RDelete id => (delete_template st ctx id).2
  end.

Definition request_id (q : request) : string :=
  match q with RCreate r _ => cr_id r | RUpdate id _ _ => id | RDelete id => id end.

Lemma handle_wf ctx st q : store_wf st -> store_wf (handle ctx st q).
Proof.
  destruct q as [r now|id u now|id]; simpl; intros W.
  - unfold create_template. destruct (validate _); [|done].
    pose proof (create_wf st (set_id (tenant_template_id ctx (cr_id r)) (template_of_request r now)) W) as C.
    simpl in *. by destruct (create _ _) as [[] ?].
  - unfold update_template. by apply update_wf.
  - unfold delete_template. pose proof (delete_wf st (tenant_template_id ctx id) W) as D.
    by destruct (delete_template_by_id _ _) as [[] ?].
Qed.

(** A request touches the scoped id only. *)
Lemma handle_frame ctx st q id :
  id <> tenant_template_id ctx (request_id q) -> handle ctx st q !! id = st !! id.
Proof.
  destruct q as [r now|i u now|i]; simpl; intros Hne.
  - unfold create_template, create. destruct (validate (template_of_request _ _)); [|done]. cbn zeta.
    destruct (validate (set_id _ _)); [|done]. destruct (st !! _); [done|]. cbn [snd]. by rewrite lookup_insert_ne.
  - unfold update_template, update, get. destruct (st !! _); simpl; [|done].
    destruct (validate _); simpl; [|done]. by rewrite lookup_insert_ne.
  - unfold delete_template, delete_template_by_id. destruct (st !! _); simpl; [|done].
    by rewrite lookup_delete_ne.
Qed.

(** Every template the endpoints have stored is stored under its own id
    and passes validation, whatever the requests were. *)
Theorem template_store_invariant (qs : list (option TenantContext * request)) :
  store_wf (foldl (fun st q => handle q.1 st q.2) store_new qs).
Proof.
  assert (W : store_wf store_new) by (intros id t; unfold store_new; by rewrite lookup_empty).
  revert W. generalize store_new. induction qs as [|[c q] qs IH]; simpl; intros st W; [done|].
  apply IH. by apply handle_wf.
Qed.

Lemma elem_of_list_all st t : t ∈ list_all st <-> exists id, st !! id = Some t.
Proof.
  unfold list_all. rewrite list_elem_of_fmap. split.
  - intros ([id t'] & -> & Hin). exists id. by apply elem_of_map_to_list.
  - intros [id E]. exists (id, t). split; [done|]. by apply elem_of_map_to_list.
Qed.

Lemma scoped_neq t1 t2 id1 id2 :
  str_has COLON (ctx_tenant_id t1) = false -> str_has COLON (ctx_tenant_id t2) = false ->
  ctx_is_default t1 = false -> ctx_is_default t2 = false -> ctx_tenant_id t1 <> ctx_tenant_id t2 ->
  tenant_template_id (Some t1) id1 <> tenant_template_id (Some t2) id2.
Proof. unfold tenant_template_id. intros C1 C2 -> -> Hne E. apply colon_split_unique in E as [? _]; auto. Qed.

(** C24: Template isolation: whatever one tenant creates, updates or deletes,
    another tenant reads each of its templates unchanged and lists the same
    ones, provided neither is the default tenant nor has an id with a colon
    (validated ids have none; see [default_scope_reaches_tenants] for the
    default one). *)
Theorem template_isolation st multi t1 t2 q id t :
  store_wf st -> str_has COLON (ctx_tenant_id t1) = false -> str_has COLON (ctx_tenant_id t2) = false ->
  ctx_is_default t1 = false -> ctx_is_default t2 = false -> ctx_tenant_id t1 <> ctx_tenant_id t2 ->
  get_template (handle (Some t1) st q) (Some t2) id = get_template st (Some t2) id /\
  (t ∈ templates (list_templates (handle (Some t1) st q) multi (Some t2)) <->
   t ∈ templates (list_templates st multi (Some t2))).
Proof.
  intros W C1 C2 D1 D2 Hne. split.
  - unfold get_template, get. f_equal. rewrite handle_frame; [done|]. by apply not_eq_sym, scoped_neq.
  - unfold list_templates, tenant_prefix. rewrite D2. cbn [templates].
    rewrite !list_elem_of_In, !filter_In, <- !list_elem_of_In, !elem_of_list_all.
    pose proof (handle_wf (Some t1) st q W) as W'.
    split; intros [[i E] P]; (split; [|done]); exists i; apply starts_with_spec in P as [r P];
      (rewrite <- E || rewrite E); [symmetry|]; (rewrite handle_frame; [done|]);
      [apply W' in E as [<- _]|apply W in E as [<- _]]; rewrite P, str_app_assoc;
      pose proof (scoped_neq t1 t2 (request_id q) r C1 C2 D1 D2 Hne) as S; unfold tenant_template_id in *;
      rewrite D1, D2 in *; congruence.
Qed.

(** Tenant templates are open to the default scope: a request of the
    default tenant, or one without a tenant context, that writes the prefix in
    the id itself reads, updates and deletes another tenant's template. *)
Theorem default_scope_reaches_tenants st t id u now :
  ctx_is_default t = false ->
  let spoofed := ctx_tenant_id t +:+ ":" +:+ id in
  get_template st None spoofed = get_template st (Some t) id /\
  get_template st (Some default_tenant) spoofed = get_template st (Some t) id /\
  update_template st None spoofed u now = update_template st (Some t) id u now /\
  delete_template st None spoofed = delete_template st (Some t) id.
Proof.
  intros D. unfold get_template, update_template, delete_template, tenant_template_id. rewrite D.
  split_and!; reflexivity.
Qed.
End store_spec.

Section witnesses.
#[local] Existing Instance ascii_only.
#[local] Existing Instance no_json_text.

Definition acme : TenantContext := TenantContext_new "acme".
Definition globex : TenantContext := TenantContext_new "globex".
Definition example_request : CreateTemplateRequest :=
  {| cr_id := "welcome"; cr_name := "Welcome"; cr_event_type := "user.welcome"; cr_payload_template := JNull;
     cr_default_priority := Normal; cr_default_ttl := None; cr_description := None |}.
Definition example_store : TemplateStore := handle (Some globex) store_new (RCreate example_request 0).

Lemma template_isolation_witness :
  is_ok (get_template example_store (Some globex) "welcome") = true /\
  get_template (handle (Some acme) example_store (RDelete "welcome")) (Some globex) "welcome" =
  get_template example_store (Some globex) "welcome".
Proof.
  split; [vm_compute; reflexivity|].
  apply (template_isolation example_store true acme globex (RDelete "welcome") "welcome"
           (template_of_request example_request 0)); try reflexivity; [|discriminate].
  apply (handle_wf (Some globex) store_new). intros id t; unfold store_new. by rewrite lookup_empty.
Defined.

Lemma default_scope_reaches_tenants_witness :
  is_ok (delete_template example_store None "globex:welcome").1 = true.
Proof.
  transitivity (is_ok (delete_template example_store (Some globex) "welcome").1); [|vm_compute; reflexivity].
  destruct (default_scope_reaches_tenants example_store globex "welcome"
    {| up_name := None; up_event_type := None; up_payload_template := None; up_default_priority := None;
       up_default_ttl := None; up_description := None |} 0) as (_ & _ & _ & E); [reflexivity|].
  exact (f_equal (fun x => is_ok x.1) E).
Defined.
End witnesses.
