(* ===== verification/Dispatcher.v ===== *)
(** * Dispatcher: delivery of notifications to connections

    Models [domain/notification/dispatcher.rs] with the two [send] functions
    of [ConnectionHandle] (domain/connection/types.rs).  The dispatcher is
    written against the queue and acknowledgement traits
    ([MessageQueueBackend], [AckTrackerBackend]).

    What the environment decides is an [Env]: whether a connection accepts a
    message within the send timeout, given everything delivered so far; which
    of the sends in flight completes next; and the clock and the fresh ids,
    read at successive [ticks].  Messages handed to connections are recorded
    in a log in the order of delivery. *)
From S2P Require Import Prelude Auth Tenant Notification Ack Queue Connection.

Definition MAX_CONCURRENT_SENDS : nat := 100.
Definition PRESERIALIZATION_THRESHOLD : nat := 4.
Definition USER_BATCH_SIZE : nat := 100.

(** ** Results and statistics *)

Record DeliveryResult := { dr_notification_id : uuid; delivered_to : nat; failed : nat; success : bool }.
Definition delivery_new (i : uuid) (delivered failed : nat) : DeliveryResult :=
  {| dr_notification_id := i; delivered_to := delivered; failed := failed; success := (0 <? delivered)%nat |}.

Record DispatcherStats := {
  total_sent : Z; total_delivered : Z; total_failed : Z; user_notifications : Z;
  broadcast_notifications : Z; channel_notifications : Z;
}.
Definition DispatcherStats_default : DispatcherStats :=
  {| total_sent := 0; total_delivered := 0; total_failed := 0; user_notifications := 0;
     broadcast_notifications := 0; channel_notifications := 0 |}.

Inductive category := ToUsers | ToAll | ToChannels.

(** The counters every operation adds to, [u64] atomics. *)
Definition count_sent (k : category) (d f : nat) (s : DispatcherStats) : DispatcherStats :=
  {| total_sent := u64 (total_sent s + 1);
     total_delivered := u64 (total_delivered s + Z.of_nat d);
     total_failed := u64 (total_failed s + Z.of_nat f);
     user_notifications := match k with ToUsers => u64 (user_notifications s + 1) | _ => user_notifications s end;
     broadcast_notifications :=
       match k with ToAll => u64 (broadcast_notifications s + 1) | _ => broadcast_notifications s end;
     channel_notifications :=
       match k with ToChannels => u64 (channel_notifications s + 1) | _ => channel_notifications s end |}.

(** A message queued for an offline user counts as sent, not as delivered. *)
Definition count_queued (s : DispatcherStats) : DispatcherStats :=
  {| total_sent := u64 (total_sent s + 1); total_delivered := total_delivered s;
     total_failed := total_failed s; user_notifications := u64 (user_notifications s + 1);
     broadcast_notifications := broadcast_notifications s; channel_notifications := channel_notifications s |}.

(** ** The dispatcher and its environment *)

Record NotificationDispatcher (Q A : Type) := mk_dispatcher {
  connection_manager : ConnectionManager;
  queue_backend : option Q;
  ack_backend : option A;
  d_stats : DispatcherStats;
}.
Arguments mk_dispatcher {Q A} _ _ _ _.
Arguments connection_manager {Q A} _.
Arguments queue_backend {Q A} _.
Arguments ack_backend {Q A} _.
Arguments d_stats {Q A} _.

Definition dispatcher_new {Q A} (m : ConnectionManager) : NotificationDispatcher Q A :=
  mk_dispatcher m None None DispatcherStats_default.
Definition with_queue {Q A} (m : ConnectionManager) (q : Q) : NotificationDispatcher Q A :=
  mk_dispatcher m (Some q) None DispatcherStats_default.
Definition with_backends {Q A} (m : ConnectionManager) (q : Q) (a : A) : NotificationDispatcher Q A :=
  mk_dispatcher m (Some q) (Some a) DispatcherStats_default.
Definition set_queue_backend {Q A} (d : NotificationDispatcher Q A) (q : Q) : NotificationDispatcher Q A :=
  mk_dispatcher (connection_manager d) (Some q) (ack_backend d) (d_stats d).
Definition set_ack_backend {Q A} (d : NotificationDispatcher Q A) (a : A) : NotificationDispatcher Q A :=
  mk_dispatcher (connection_manager d) (queue_backend d) (Some a) (d_stats d).
Definition set_stats {Q A} (s : DispatcherStats) (d : NotificationDispatcher Q A) : NotificationDispatcher Q A :=
  mk_dispatcher (connection_manager d) (queue_backend d) (ack_backend d) s.

Abbreviation delivery_log := (list (uuid * OutboundMessage)).

Record Env := {
  env_accepts : delivery_log -> uuid -> OutboundMessage -> bool;
  env_pick : delivery_log -> nat -> nat;
  env_clock : nat -> Z;
  env_fresh : nat -> uuid;
}.

Record World (Q A : Type) := mk_world {
  disp : NotificationDispatcher Q A; log : delivery_log; ticks : nat;
}.
Arguments mk_world {Q A} _ _ _.
Arguments disp {Q A} _.
Arguments log {Q A} _.
Arguments ticks {Q A} _.

Section dispatcher.
Context {Q A E : Type} `{MessageQueueBackend Q} `{AckTrackerBackend A}.
Context (to_string : ServerMessage -> result E string) (env : Env).
Implicit Types w : World Q A.

Definition upd_disp (f : NotificationDispatcher Q A -> NotificationDispatcher Q A) w : World Q A :=
  mk_world (f (disp w)) (log w) (ticks w).

(** ** Sending *)

(** [ConnectionHandle::send] and [send_preserialized]: the channel takes the
    message before the timeout, or the send fails. *)
Definition conn_send (c : ConnectionHandle) (msg : OutboundMessage) w : bool * World Q A :=
  if env_accepts env (log w) (conn_id c) msg
  then (true, mk_world (disp w) (log w ++ [(conn_id c, msg)]) (ticks w))
  else (false, w).

(** After a successful send: track the notification if the backend is set. *)
Definition track_ack (nid : option uuid) (c : ConnectionHandle) w : World Q A :=
  match nid, ack_backend (disp w) with
  | Some n, Some a =>
    mk_world (set_ack_backend (disp w) (a_track a n (user_id c) (conn_id c) (env_clock env (ticks w))))
             (log w) (S (ticks w))
  | _, _ => w
  end.

(** One send and its bookkeeping. *)
Definition send_one (msg : OutboundMessage) (nid : option uuid) (c : ConnectionHandle)
  (s : (nat * nat) * World Q A) : (nat * nat) * World Q A :=
  let r := conn_send c msg s.2 in
  if r.1 then ((S s.1.1, s.1.2), track_ack nid c r.2) else ((s.1.1, S s.1.2), r.2).

(** [FuturesUnordered::next]: some send in flight completes. *)
Definition take_nth (k : nat) (inflight : list ConnectionHandle) : option (ConnectionHandle * list ConnectionHandle) :=
  match inflight with
  | [] => None
  | c0 :: _ => let i := (k mod length inflight)%nat in
               Some (default c0 (inflight !! i), take i inflight ++ drop (S i) inflight)
  end.

(** Complete sends while at least [limit] are in flight. *)
Fixpoint complete_while (fuel limit : nat) (msg : OutboundMessage) (nid : option uuid)
  (inflight : list ConnectionHandle) (s : (nat * nat) * World Q A)
  : list ConnectionHandle * ((nat * nat) * World Q A) :=
  match fuel with
  | O => (inflight, s)
  | S fuel' =>
    if (limit <=? length inflight)%nat then
      match take_nth (env_pick env (log s.2) (length inflight)) inflight with
      | Some (c, rest) => complete_while fuel' limit msg nid rest (send_one msg nid c s)
      | None => (inflight, s)
      end
    else (inflight, s)
  end.

(** One turn of the loop that starts the sends. *)
Definition start_one (msg : OutboundMessage) (nid : option uuid)
  (st : list ConnectionHandle * ((nat * nat) * World Q A)) (c : ConnectionHandle)
  : list ConnectionHandle * ((nat * nat) * World Q A) :=
  let inflight := st.1 ++ [c] in
  complete_while (length inflight) MAX_CONCURRENT_SENDS msg nid inflight st.2.

Definition outbound_of (n : nat) (message : ServerMessage) : OutboundMessage :=
  if (PRESERIALIZATION_THRESHOLD <=? n)%nat
  then match preserialized to_string message with Ok m => m | Err _ => Raw message end
  else Raw message.

Definition send_to_connections (conns : list ConnectionHandle) (message : ServerMessage) (nid : option uuid) w
  : (nat * nat) * World Q A :=
  match conns with
  | [] => ((0, 0)%nat, w)
  | _ =>
    if (length conns <=? 3)%nat then
      fold_left (fun s c => send_one (Raw message) nid c s) conns ((0, 0)%nat, w)
    else
      let outbound := outbound_of (length conns) message in
      let st := fold_left (start_one outbound nid) conns ([], ((0, 0)%nat, w)) in
      (complete_while (length st.1) 1 outbound nid st.1 st.2).2
  end.

(** ** Targets *)

Definition tenant_queue_key (tenant : option string) (user : string) : string :=
  tenant_scoped_key (default DEFAULT_TENANT_ID tenant) user.

Definition get_user_connections_filtered (m : ConnectionManager) (user : string) (tenant : option string)
  : list ConnectionHandle :=
  match tenant with
  | Some t => List.filter (fun c => bool_decide (tenant_id c = t)) (get_user_connections m user)
  | None => get_user_connections m user
  end.

(** [queue.enqueue(..)] when a queue is set and enabled; [None] otherwise. *)
Definition try_enqueue (key : string) (e : NotificationEvent) w : option (bool * World Q A) :=
  match queue_backend (disp w) with
  | Some q =>
    if q_is_enabled q then
      let r := q_enqueue q key e (env_fresh env (ticks w)) (env_clock env (ticks w)) in
      Some (is_ok r.1, mk_world (set_queue_backend (disp w) r.2) (log w) (S (ticks w)))
    else None
  | None => None
  end.

Definition finish (k : category) (nid : uuid) (r : (nat * nat) * World Q A) : DeliveryResult * World Q A :=
  (delivery_new nid r.1.1 r.1.2, upd_disp (fun d => set_stats (count_sent k r.1.1 r.1.2 (d_stats d)) d) r.2).

Definition send_to_user_for_tenant (user : string) (e : NotificationEvent) (tenant : option string) w
  : DeliveryResult * World Q A :=
  let conns := get_user_connections_filtered (connection_manager (disp w)) user tenant in
  let attempt := match conns with [] => try_enqueue (tenant_queue_key tenant user) e w | _ => None end in
  match attempt with
  | Some (true, w1) =>
    (delivery_new (id e) 0 0, upd_disp (fun d => set_stats (count_queued (d_stats d)) d) w1)
  | Some (false, w1) => finish ToUsers (id e) (send_to_connections conns (Notification e) (Some (id e)) w1)
  | None => finish ToUsers (id e) (send_to_connections conns (Notification e) (Some (id e)) w)
  end.

Definition send_to_user (user : string) (e : NotificationEvent) w : DeliveryResult * World Q A :=
  send_to_user_for_tenant user e None w.

(** [slice::chunks] *)
Fixpoint chunks {B} (fuel n : nat) (l : list B) : list (list B) :=
  match fuel, l with
  | S fuel', _ :: _ => take n l :: chunks fuel' n (drop n l)
  | _, _ => []
  end.

Definition enqueue_offline (e : NotificationEvent) (tenant : option string) (users : list string) w : World Q A :=
  fold_left (fun w u => match try_enqueue (tenant_queue_key tenant u) e w with
                        | Some (_, w') => w'
                        | None => w
                        end) users w.

Definition batch_connections (m : ConnectionManager) (batch : list string) (tenant : option string)
  : list ConnectionHandle :=
  concat (map (fun u => get_user_connections_filtered m u tenant) batch).

Definition offline_users (m : ConnectionManager) (batch : list string) (tenant : option string) : list string :=
  List.filter (fun u => match get_user_connections_filtered m u tenant with [] => true | _ => false end) batch.

Definition send_batch (e : NotificationEvent) (tenant : option string)
  (s : (nat * nat) * World Q A) (batch : list string) : (nat * nat) * World Q A :=
  let m := connection_manager (disp s.2) in
  let w1 := enqueue_offline e tenant (offline_users m batch tenant) s.2 in
  match batch_connections m batch tenant with
  | [] => (s.1, w1)
  | conns => let r := send_to_connections conns (Notification e) (Some (id e)) w1 in
             ((s.1.1 + r.1.1, s.1.2 + r.1.2)%nat, r.2)
  end.

Definition send_to_users_for_tenant (users : list string) (e : NotificationEvent) (tenant : option string) w
  : DeliveryResult * World Q A :=
  finish ToUsers (id e)
    (fold_left (send_batch e tenant) (chunks (length users) USER_BATCH_SIZE users) ((0, 0)%nat, w)).

Definition send_to_users (users : list string) (e : NotificationEvent) w : DeliveryResult * World Q A :=
  send_to_users_for_tenant users e None w.

Definition broadcast_for_tenant (e : NotificationEvent) (tenant : option string) w : DeliveryResult * World Q A :=
  let m := connection_manager (disp w) in
  let conns := match tenant with Some t => get_tenant_connections m t | None => get_all_connections m end in
  finish ToAll (id e) (send_to_connections conns (Notification e) (Some (id e)) w).

Definition broadcast (e : NotificationEvent) w : DeliveryResult * World Q A := broadcast_for_tenant e None w.

Definition send_to_channel (channel : string) (e : NotificationEvent) w : DeliveryResult * World Q A :=
  let conns := get_channel_connections (connection_manager (disp w)) channel in
  finish ToChannels (id e) (send_to_connections conns (Notification e) (Some (id e)) w).

(** Connections of all channels, the first occurrence of each id. *)
Fixpoint first_occurrences (seen : gset uuid) (l : list ConnectionHandle) : list ConnectionHandle :=
  match l with
  | [] => []
  | c :: r => if decide (conn_id c ∈ seen) then first_occurrences seen r
              else c :: first_occurrences ({[conn_id c]} ∪ seen) r
  end.

Definition send_to_channels (channels : list string) (e : NotificationEvent) w : DeliveryResult * World Q A :=
  let m := connection_manager (disp w) in
  let conns := first_occurrences ∅ (concat (map (get_channel_connections m) channels)) in
  finish ToChannels (id e) (send_to_connections conns (Notification e) (Some (id e)) w).

Definition dispatch_for_tenant (target : NotificationTarget) (e : NotificationEvent) (tenant : option string) w
  : DeliveryResult * World Q A :=
  let now := env_clock env (ticks w) in
  let w := mk_world (disp w) (log w) (S (ticks w)) in
  if Notification.is_expired e now then (delivery_new (id e) 0 0, w)
  else match target with
  | User u => send_to_user_for_tenant u e tenant w
  | Users us => send_to_users_for_tenant us e tenant w
  | Broadcast => broadcast_for_tenant e tenant w
  | Channel c => send_to_channel c e w
  | Channels cs => send_to_channels cs e w
  end.

Definition dispatch (target : NotificationTarget) (e : NotificationEvent) w : DeliveryResult * World Q A :=
  dispatch_for_tenant target e None w.
End dispatcher.

(** ** What a round of sends does *)

Section spec.
Context {Q A E : Type} `{MessageQueueBackend Q} `{AckTrackerBackend A}.
Context (to_string : ServerMessage -> result E string) (env : Env).
Implicit Types w : World Q A.

(** The deliveries are tracked one after the other. *)
Inductive tracked (n : uuid) : A -> list ConnectionHandle -> A -> Prop :=
| tracked_nil a : tracked n a [] a
| tracked_cons a c t ds a' :
    tracked n (a_track a n (user_id c) (conn_id c) t) ds a' -> tracked n a (c :: ds) a'.

Lemma tracked_app n a ds a' ds' a'' : tracked n a ds a' -> tracked n a' ds' a'' -> tracked n a (ds ++ ds') a''.
Proof. induction 1; simpl; [done|]. intros. econstructor. eauto. Qed.

Definition acks (nid : option uuid) (oa : option A) (ds : list ConnectionHandle) (oa' : option A) : Prop :=
  match nid, oa with
  | Some n, Some a => exists a', oa' = Some a' /\ tracked n a ds a'
  | _, _ => oa' = oa
  end.

Definition entries (msg : OutboundMessage) (ds : list ConnectionHandle) : delivery_log :=
  map (fun c => (conn_id c, msg)) ds.

(** A round over [cs]: each connection is counted once, as delivered or as
    failed; the log and the tracker record the deliveries; nothing else of
    the dispatcher changes. *)
Definition round (msg : OutboundMessage) (nid : option uuid) (cs : list ConnectionHandle)
  (s s' : (nat * nat) * World Q A) : Prop :=
  exists ds fs, ds ++ fs ≡ₚ cs /\ s'.1 = (s.1.1 + length ds, s.1.2 + length fs)%nat /\
    log s'.2 = log s.2 ++ entries msg ds /\
    acks nid (ack_backend (disp s.2)) ds (ack_backend (disp s'.2)) /\
    connection_manager (disp s'.2) = connection_manager (disp s.2) /\
    queue_backend (disp s'.2) = queue_backend (disp s.2) /\
    d_stats (disp s'.2) = d_stats (disp s.2).

Lemma round_perm msg nid cs cs' s s' : cs ≡ₚ cs' -> round msg nid cs s s' -> round msg nid cs' s s'.
Proof. intros P (ds & fs & ? & R). exists ds, fs. split; [by etrans|done]. Qed.

Lemma round_refl msg nid s : round msg nid [] s s.
Proof.
  exists [], []. simpl. rewrite app_nil_r, !Nat.add_0_r. split_and!; try done; [by destruct s as [[] ?]|].
  unfold acks. destruct nid, (ack_backend (disp s.2)); try done. eexists. split; [done|constructor].
Qed.

Lemma acks_trans nid oa ds oa' ds' oa'' : acks nid oa ds oa' -> acks nid oa' ds' oa'' -> acks nid oa (ds ++ ds') oa''.
Proof.
  unfold acks. destruct nid as [n|], oa as [a|]; try congruence.
  - intros (a' & -> & T) (a'' & -> & T'). eexists. split; [done|]. by eapply tracked_app.
  - by intros -> ->.
Qed.

Lemma round_trans msg nid cs1 cs2 s1 s2 s3 :
  round msg nid cs1 s1 s2 -> round msg nid cs2 s2 s3 -> round msg nid (cs1 ++ cs2) s1 s3.
Proof.
  intros (d1 & f1 & P1 & C1 & L1 & A1 & M1 & Q1 & S1) (d2 & f2 & P2 & C2 & L2 & A2 & M2 & Q2 & S2).
  exists (d1 ++ d2), (f1 ++ f2). split_and!; try congruence.
  - rewrite <- P1, <- P2. solve_Permutation.
  - rewrite C2, C1, !length_app. simpl. f_equal; lia.
  - rewrite L2, L1. unfold entries. by rewrite map_app, app_assoc.
  - by eapply acks_trans.
Qed.

Lemma round_send_one msg nid c s : round msg nid [c] s (send_one env msg nid c s).
Proof.
  destruct s as [[d f] w]. unfold send_one, conn_send. simpl. destruct (env_accepts _ _ _ _); simpl.
  - exists [c], []. split_and!; try done; simpl; [f_equal; lia|..]; unfold track_ack, acks; simpl;
      destruct nid as [n|], (ack_backend (disp w)) as [a|] eqn:E0; simpl; try done.
    eexists. split; [done|]. econstructor. constructor.
  - exists [], [c]. simpl. rewrite app_nil_r. split_and!; try done; [f_equal; lia|].
    unfold acks. destruct nid, (ack_backend (disp w)); try done. eexists. split; [done|constructor].
Qed.

Lemma round_fold_send msg nid cs s :
  round msg nid cs s (fold_left (fun s c => send_one env msg nid c s) cs s).
Proof.
  revert s. induction cs as [|c cs IH]; intros s; simpl; [apply round_refl|].
  apply (round_trans _ _ [c] cs _ (send_one env msg nid c s)); [apply round_send_one|apply IH].
Qed.

Lemma take_nth_spec k inflight :
  match take_nth k inflight with
  | Some (c, rest) => c :: rest ≡ₚ inflight
  | None => inflight = []
  end.
Proof.
  unfold take_nth. destruct inflight as [|c0 l]; [done|]. set (q := c0 :: l).
  assert (L : (k mod length q < length q)%nat) by (apply Nat.mod_upper_bound; done).
  destruct (lookup_lt_is_Some_2 q _ L) as [x Hx]. rewrite Hx. cbn [default from_option].
  transitivity (take (k mod length q) q ++ x :: drop (S (k mod length q)) q); [solve_Permutation|].
  by rewrite take_drop_middle.
Qed.

(** The sends completed, those still in flight, and how many those are. *)
Lemma complete_while_spec fuel limit msg nid inflight s :
  let r := complete_while env fuel limit msg nid inflight s in
  exists done_, done_ ++ r.1 ≡ₚ inflight /\ round msg nid done_ s r.2 /\
    ((length inflight <= fuel)%nat -> (length r.1 < Nat.max 1 limit)%nat).
Proof.
  revert inflight s. induction fuel as [|fuel IH]; intros inflight s; simpl.
  { exists []. split_and!; [done|apply round_refl|lia]. }
  destruct (limit <=? length inflight)%nat eqn:E1; bool_to_prop.
  2: { exists []. split_and!; [done|apply round_refl|simpl; lia]. }
  pose proof (take_nth_spec (env_pick env (log s.2) (length inflight)) inflight) as T.
  destruct (take_nth _ _) as [[c rest]|].
  - destruct (IH rest (send_one env msg nid c s)) as (dn & P & R & B). cbn zeta in *.
    exists (c :: dn). split_and!.
    + simpl. by rewrite P.
    + apply (round_trans _ _ [c] dn _ (send_one env msg nid c s)); [apply round_send_one|done].
    + intros L. apply B. apply Permutation_length in T. simpl in T. lia.
  - exists []. split_and!; [done|apply round_refl|]. subst. simpl. lia.
Qed.

(** Back-pressure: however the sends complete, after every turn of the
    loop that starts them fewer than [MAX_CONCURRENT_SENDS] are in flight, so
    never more than that many run at once. *)
Theorem inflight_bounded msg nid conns (s : (nat * nat) * World Q A) n :
  (length (fold_left (start_one env msg nid) (take n conns) ([], s)).1 < MAX_CONCURRENT_SENDS)%nat.
Proof.
  assert (B : forall cs (st : list ConnectionHandle * ((nat * nat) * World Q A)), (length st.1 < MAX_CONCURRENT_SENDS)%nat ->
    (length (fold_left (start_one env msg nid) cs st).1 < MAX_CONCURRENT_SENDS)%nat).
  { induction cs as [|c cs IH]; simpl; intros st L; [done|]. apply IH. unfold start_one.
    destruct (complete_while_spec (length (st.1 ++ [c])) MAX_CONCURRENT_SENDS msg nid (st.1 ++ [c]) st.2)
      as (dn & _ & _ & B). specialize (B ltac:(done)). unfold MAX_CONCURRENT_SENDS in *. lia. }
  apply B. simpl. unfold MAX_CONCURRENT_SENDS. lia.
Qed.

Lemma start_fold_spec msg nid cs st :
  let r := fold_left (start_one env msg nid) cs st in
  exists done_, done_ ++ r.1 ≡ₚ st.1 ++ cs /\ round msg nid done_ st.2 r.2.
Proof.
  revert st. induction cs as [|c cs IH]; intros st; simpl.
  { exists []. split; [by rewrite app_nil_r|apply round_refl]. }
  destruct (complete_while_spec (length (st.1 ++ [c])) MAX_CONCURRENT_SENDS msg nid (st.1 ++ [c]) st.2)
    as (d1 & P1 & R1 & _). destruct (IH (start_one env msg nid st c)) as (d2 & P2 & R2). cbn zeta in *.
  exists (d1 ++ d2). split; [|by eapply round_trans].
  unfold start_one in *. rewrite <- app_assoc, P2, app_assoc, P1. solve_Permutation.
Qed.

(** The message a connection receives: the event itself, or its text. *)
Definition carries (m : ServerMessage) (o : OutboundMessage) : Prop :=
  o = Raw m \/ preserialized to_string m = Ok o.

Lemma outbound_of_carries n m : carries m (outbound_of to_string n m).
Proof.
  unfold outbound_of, carries. case_match; [|by left].
  destruct (preserialized to_string m) eqn:E0; [by right|by left].
Qed.

(** [send_to_connections] is a round over its connections, whatever their
    number and however the sends complete. *)
Lemma send_to_connections_round conns m nid w :
  exists msg, carries m msg /\
    round msg nid conns ((0, 0)%nat, w) (send_to_connections to_string env conns m nid w).
Proof.
  unfold send_to_connections. destruct conns as [|c0 l].
  { exists (Raw m). split; [by left|apply round_refl]. }
  set (conns := c0 :: l). destruct (length conns <=? 3)%nat.
  { exists (Raw m). split; [by left|apply round_fold_send]. }
  exists (outbound_of to_string (length conns) m). split; [apply outbound_of_carries|].
  set (msg := outbound_of _ _ _).
  destruct (start_fold_spec msg nid conns ([], ((0, 0)%nat, w))) as (d1 & P1 & R1). cbn zeta in *.
  set (st := fold_left _ _ _) in *.
  destruct (complete_while_spec (length st.1) 1 msg nid st.1 st.2) as (d2 & P2 & R2 & B). cbn zeta in *.
  specialize (B ltac:(done)). eapply round_perm; [|by eapply round_trans].
  destruct (complete_while env (length st.1) 1 msg nid st.1 st.2).1; [|simpl in B; lia].
  rewrite app_nil_r in P2. rewrite <- P1, P2. done.
Qed.
End spec.

(** ** Who is addressed *)

Definition tenant_matches (tenant : option string) (c : ConnectionHandle) : Prop :=
  match tenant with Some t => tenant_id c = t | None => True end.
#[global] Instance tenant_matches_dec tenant c : Decision (tenant_matches tenant c).
Proof. unfold tenant_matches. destruct tenant; apply _. Defined.

(** The abstract meaning of a target: which registered connections it names.
    The tenant scopes users and broadcasts; channel names carry their tenant
    themselves. *)
Definition addressed_by (target : NotificationTarget) (tenant : option string) (c : ConnectionHandle) : Prop :=
  match target with
  | User u => user_id c = u /\ tenant_matches tenant c
  | Users us => user_id c ∈ us /\ tenant_matches tenant c
  | Broadcast => tenant_matches tenant c
  | Channel ch => ch ∈ subscriptions c
  | Channels chs => exists ch, ch ∈ chs /\ ch ∈ subscriptions c
  end.

#[global] Instance addressed_by_dec target tenant c : Decision (addressed_by target tenant c).
Proof.
  destruct target as [u|us| |ch|chs]; simpl; try apply _.
  destruct (decide (Exists (fun ch => ch ∈ subscriptions c) chs)) as [D|D]; rewrite Exists_exists in D; [left|right]; naive_solver.
Defined.

(** How often a target names a connection: a user listed twice is named twice. *)
Definition times_named (target : NotificationTarget) (tenant : option string) (c : ConnectionHandle) : nat :=
  if decide (addressed_by target tenant c) then
    match target with Users us => length (filter (eq (user_id c)) us) | _ => 1%nat end
  else 0%nat.

(** How often a connection occurs among others. *)
Definition occurrences (c : ConnectionHandle) (cs : list ConnectionHandle) : nat :=
  length (filter (fun c' => conn_id c' = conn_id c) cs).

Lemma occurrences_app c cs cs' : occurrences c (cs ++ cs') = (occurrences c cs + occurrences c cs')%nat.
Proof. unfold occurrences. by rewrite filter_app, length_app. Qed.
#[global] Instance occurrences_perm c : Proper ((≡ₚ) ==> eq) (occurrences c).
Proof. intros cs cs' P. unfold occurrences. by rewrite P. Qed.
Lemma occurrences_zero c cs : (forall c', c' ∈ cs -> conn_id c' <> conn_id c) -> occurrences c cs = 0%nat.
Proof.
  intros Hn. unfold occurrences. induction cs as [|c' cs IH]; [done|]. rewrite filter_cons_False by (apply Hn; set_solver).
  apply IH. set_solver.
Qed.

(** Each registered connection as often as the target names it, and no other. *)
Definition exactly_addressed (m : ConnectionManager) (target : NotificationTarget) (tenant : option string)
  (cs : list ConnectionHandle) : Prop :=
  (forall c, c ∈ cs -> connections m !! conn_id c = Some c /\ addressed_by target tenant c) /\
  forall c, connections m !! conn_id c = Some c -> occurrences c cs = times_named target tenant c.

#[global] Instance exactly_addressed_perm m target tenant : Proper ((≡ₚ) ==> iff) (exactly_addressed m target tenant).
Proof.
  assert (X : forall cs cs', cs ≡ₚ cs' -> exactly_addressed m target tenant cs -> exactly_addressed m target tenant cs').
  { intros cs cs' P [H1 H2]. split; intros c; rewrite <- P; auto. }
  intros cs cs' P. split; by apply X.
Qed.

(** What a list of registered connections without repetition contains. *)
Lemma occurrences_NoDup m c cs :
  NoDup cs -> (forall c', c' ∈ cs -> connections m !! conn_id c' = Some c') ->
  connections m !! conn_id c = Some c -> c ∈ cs -> occurrences c cs = 1%nat.
Proof.
  intros Hn Hm Hc Hin. induction Hn as [|c0 cs H0 _ IH]; [set_solver|]. unfold occurrences in *. rewrite filter_cons.
  destruct (decide (conn_id c0 = conn_id c)) as [E|E].
  - pose proof (Hm c0 ltac:(set_solver)) as E0. rewrite E, Hc in E0. injection E0 as <-.
    simpl. fold (occurrences c cs). rewrite occurrences_zero; [done|]. intros c' Hc' E'.
    specialize (Hm c' ltac:(set_solver)). rewrite E', Hc in Hm. congruence.
  - apply IH; set_solver.
Qed.

Definition lists_users (target : NotificationTarget) : bool := match target with Users _ => true | _ => false end.

Lemma exactly_of_elem m target tenant cs :
  NoDup cs -> lists_users target = false ->
  (forall c, c ∈ cs <-> connections m !! conn_id c = Some c /\ addressed_by target tenant c) ->
  exactly_addressed m target tenant cs.
Proof.
  intros Hn Ht He. split; [naive_solver|]. intros c Hc. unfold times_named.
  destruct (decide (addressed_by target tenant c)) as [A|A].
  - rewrite (occurrences_NoDup m); [by destruct target|done|..]; naive_solver.
  - apply occurrences_zero. intros c' [Hc' A']%He E. rewrite E, Hc in Hc'. congruence.
Qed.

Lemma filtered_user m u tenant c :
  wf m -> c ∈ get_user_connections_filtered m u tenant <->
  connections m !! conn_id c = Some c /\ user_id c = u /\ tenant_matches tenant c.
Proof.
  intros W. unfold get_user_connections_filtered. destruct tenant as [t|]; simpl.
  - rewrite list_elem_of_In, filter_In, <- list_elem_of_In, elem_of_user_connections, bool_decide_eq_true by done.
    naive_solver.
  - rewrite elem_of_user_connections by done. naive_solver.
Qed.

Lemma NoDup_filtered m u tenant : wf m -> NoDup (get_user_connections_filtered m u tenant).
Proof.
  intros W. unfold get_user_connections_filtered. destruct tenant; [|auto with ara].
  eapply sublist_NoDup; [|apply filter_sublist]. auto with ara.
Qed.

Lemma addressed_user m u tenant :
  wf m -> exactly_addressed m (User u) tenant (get_user_connections_filtered m u tenant).
Proof. intros W. apply exactly_of_elem; [by apply NoDup_filtered|done|]. intros c. by apply filtered_user. Qed.

Lemma addressed_broadcast m tenant :
  wf m -> exactly_addressed m Broadcast tenant
    (match tenant with Some t => get_tenant_connections m t | None => get_all_connections m end).
Proof.
  intros W. apply exactly_of_elem; [destruct tenant; auto with ara|done|]. intros c. destruct tenant; simpl.
  - by apply elem_of_tenant_connections.
  - rewrite elem_of_all_connections by done. naive_solver.
Qed.

Lemma addressed_channel m ch tenant :
  wf m -> exactly_addressed m (Channel ch) tenant (get_channel_connections m ch).
Proof. intros W. apply exactly_of_elem; [auto with ara|done|]. intros c. by apply elem_of_channel_connections. Qed.

Lemma elem_of_concat_map {B} (f : string -> list B) ks x :
  x ∈ concat (map f ks) <-> exists k, k ∈ ks /\ x ∈ f k.
Proof.
  induction ks as [|k ks IH]; simpl; [set_solver|]. rewrite elem_of_app, IH. set_solver.
Qed.

Lemma elem_of_first_occurrences seen l c :
  (forall c1 c2, c1 ∈ l -> c2 ∈ l -> conn_id c1 = conn_id c2 -> c1 = c2) ->
  c ∈ first_occurrences seen l <-> c ∈ l /\ conn_id c ∉ seen.
Proof.
  revert seen. induction l as [|c0 l IH]; intros seen Hi; simpl; [set_solver|].
  assert (Hi' : forall c1 c2, c1 ∈ l -> c2 ∈ l -> conn_id c1 = conn_id c2 -> c1 = c2) by set_solver.
  case_decide as D.
  - rewrite IH by done. set_solver.
  - rewrite elem_of_cons, IH by done. rewrite elem_of_cons, not_elem_of_union, not_elem_of_singleton.
    destruct (decide (conn_id c = conn_id c0)) as [Ec|]; [|naive_solver].
    split; [naive_solver|]. intros [[->|Hin] ?]; [by left|]. left. apply Hi; set_solver.
Qed.

Lemma NoDup_first_occurrences seen l : NoDup (first_occurrences seen l).
Proof.
  cut (NoDup (first_occurrences seen l) /\ forall c, c ∈ first_occurrences seen l -> conn_id c ∉ seen); [tauto|].
  revert seen. induction l as [|c0 l IH]; intros seen; simpl; [split; [constructor|set_solver]|].
  case_decide as D; [apply IH|]. destruct (IH ({[conn_id c0]} ∪ seen)) as [IH1 IH2]. split.
  - constructor; [|done]. intros Hin%IH2. set_solver.
  - intros c [->|Hin%IH2]%elem_of_cons; set_solver.
Qed.

Lemma addressed_channels m chs tenant :
  wf m -> exactly_addressed m (Channels chs) tenant
    (first_occurrences ∅ (concat (map (get_channel_connections m) chs))).
Proof.
  intros W. apply exactly_of_elem; [apply NoDup_first_occurrences|done|]. intros c.
  assert (Hm : forall c1, c1 ∈ concat (map (get_channel_connections m) chs) ->
                          connections m !! conn_id c1 = Some c1).
  { intros c1 (ch & _ & Hc)%elem_of_concat_map. by apply elem_of_channel_connections in Hc as [? _]. }
  rewrite elem_of_first_occurrences.
  - rewrite elem_of_concat_map. setoid_rewrite elem_of_channel_connections; [|done]. simpl. set_solver.
  - intros c1 c2 H1%Hm H2%Hm Eq. rewrite Eq, H2 in H1. congruence.
Qed.

Lemma concat_chunks {B} fuel n (l : list B) : (0 < n)%nat -> (length l <= fuel)%nat -> concat (chunks fuel n l) = l.
Proof.
  intros Hn. revert l. induction fuel as [|fuel IH]; intros [|x l] L; try done; [simpl in L; lia|].
  cbn [chunks concat]. rewrite IH; [by rewrite take_drop|]. rewrite length_drop. simpl in *. lia.
Qed.

(** A user's connections are named once for each time the user is listed. *)
Lemma addressed_users m us tenant :
  wf m -> exactly_addressed m (Users us) tenant (batch_connections m us tenant).
Proof.
  intros W. unfold batch_connections. split.
  - intros c (u & Hu & Hc)%elem_of_concat_map. apply filtered_user in Hc; [|done]. simpl. naive_solver.
  - intros c Hc. induction us as [|u us IH]; simpl.
    { unfold times_named. by case_decide. }
    rewrite occurrences_app, IH. destruct (addressed_user m u tenant W) as [_ ->]; [|done]. clear IH.
    unfold times_named. simpl. rewrite filter_cons.
    destruct (decide (tenant_matches tenant c)) as [T|T]; [|by rewrite !decide_False by tauto].
    destruct (decide (user_id c = u)) as [E|E]; [rewrite (decide_True (P := user_id c ∈ u :: us /\ _)) by (split; [set_solver|done])|].
    + rewrite (decide_True (P := user_id c = u /\ _)) by done. simpl. case_decide as D; [done|].
      destruct (filter (eq (user_id c)) us) eqn:F; [done|]. exfalso. apply D. split; [|done].
      assert (Hx : s ∈ filter (eq (user_id c)) us) by (rewrite F; set_solver).
      apply list_elem_of_filter in Hx as [-> ?]. done.
    + rewrite (decide_False (P := user_id c = u /\ _)) by tauto. simpl.
      destruct (decide (user_id c ∈ us)) as [M|M].
      * rewrite !decide_True; [done|..]; split; set_solver.
      * rewrite !decide_False; [done|..]; set_solver.
Qed.

(** The connections a dispatch attempts, in order. *)
Definition target_connections (m : ConnectionManager) (target : NotificationTarget) (tenant : option string)
  : list ConnectionHandle :=
  match target with
  | User u => get_user_connections_filtered m u tenant
  | Users us => batch_connections m us tenant
  | Broadcast => match tenant with Some t => get_tenant_connections m t | None => get_all_connections m end
  | Channel ch => get_channel_connections m ch
  | Channels chs => first_occurrences ∅ (concat (map (get_channel_connections m) chs))
  end.

Lemma addressed_target m target tenant : wf m -> exactly_addressed m target tenant (target_connections m target tenant).
Proof.
  intros W. destruct target; simpl;
    [by apply addressed_user|by apply addressed_users|by apply addressed_broadcast|by apply addressed_channel|by apply addressed_channels].
Qed.

(** ** Dispatch *)

Section dispatch_spec.
Context {Q A E : Type} `{MessageQueueBackend Q} `{AckTrackerBackend A}.
Context (to_string : ServerMessage -> result E string) (env : Env).
Implicit Types w : World Q A.

(** Nothing but the queue and the clock moved. *)
Definition same_but_queue w w' : Prop :=
  connection_manager (disp w') = connection_manager (disp w) /\ ack_backend (disp w') = ack_backend (disp w) /\
  d_stats (disp w') = d_stats (disp w) /\ log w' = log w.

(** One or more rounds carrying the same notification. *)
Definition rounds (msg : ServerMessage) (nid : option uuid) (cs : list ConnectionHandle)
  (s s' : (nat * nat) * World Q A) : Prop :=
  exists ds fs ext, ds ++ fs ≡ₚ cs /\ s'.1 = (s.1.1 + length ds, s.1.2 + length fs)%nat /\
    log s'.2 = log s.2 ++ ext /\ ext.*1 = conn_id <$> ds /\ Forall (carries to_string msg) ext.*2 /\
    acks nid (ack_backend (disp s.2)) ds (ack_backend (disp s'.2)) /\
    connection_manager (disp s'.2) = connection_manager (disp s.2) /\
    d_stats (disp s'.2) = d_stats (disp s.2).

Lemma rounds_of_round m o nid cs s s' : carries to_string m o -> round o nid cs s s' -> rounds m nid cs s s'.
Proof.
  intros Hc (ds & fs & P & C & L & Ak & M & _ & S). exists ds, fs, (entries o ds).
  assert (F : (entries o ds).*1 = conn_id <$> ds /\ Forall (carries to_string m) (entries o ds).*2).
  { clear -Hc. induction ds as [|c ds [IH1 IH2]]; simpl; [done|]. split; [by f_equal|by constructor]. }
  destruct F. by split_and!.
Qed.

Lemma rounds_trans m nid cs1 cs2 s1 s2 s3 :
  rounds m nid cs1 s1 s2 -> rounds m nid cs2 s2 s3 -> rounds m nid (cs1 ++ cs2) s1 s3.
Proof.
  intros (d1 & f1 & x1 & P1 & C1 & L1 & X1 & F1 & A1 & M1 & S1) (d2 & f2 & x2 & P2 & C2 & L2 & X2 & F2 & A2 & M2 & S2).
  exists (d1 ++ d2), (f1 ++ f2), (x1 ++ x2). split_and!; try congruence.
  - rewrite <- P1, <- P2. solve_Permutation.
  - rewrite C2, C1, !length_app. simpl. f_equal; lia.
  - by rewrite L2, L1, app_assoc.
  - by rewrite !fmap_app, X1, X2.
  - rewrite fmap_app. by apply Forall_app.
  - by eapply acks_trans.
Qed.

Lemma rounds_frame m nid c w w' : same_but_queue w w' -> rounds m nid [] (c, w) (c, w').
Proof.
  intros (M & K & S & L). exists [], [], []. simpl. rewrite app_nil_r, !Nat.add_0_r.
  split_and!; try done; [by destruct c|]. unfold acks. rewrite K.
  destruct nid, (ack_backend (disp w)); try done. eexists. split; [done|constructor].
Qed.

Lemma send_to_connections_rounds conns m nid w :
  rounds m nid conns ((0, 0)%nat, w) (send_to_connections to_string env conns m nid w).
Proof.
  destruct (send_to_connections_round to_string env conns m nid w) as (o & Hc & R).
  by eapply rounds_of_round.
Qed.

Lemma try_enqueue_same key e w b w' : try_enqueue env key e w = Some (b, w') -> same_but_queue w w'.
Proof.
  unfold try_enqueue. destruct (queue_backend (disp w)) as [q|]; [|done].
  destruct (q_is_enabled q); [|done]. intros [= _ <-]. by unfold same_but_queue.
Qed.

Lemma same_but_queue_refl w : same_but_queue w w.
Proof. by unfold same_but_queue. Qed.
Lemma same_but_queue_trans w1 w2 w3 : same_but_queue w1 w2 -> same_but_queue w2 w3 -> same_but_queue w1 w3.
Proof. unfold same_but_queue. intros (?&?&?&?) (?&?&?&?). split_and!; congruence. Qed.

Lemma enqueue_offline_same e tenant us w : same_but_queue w (enqueue_offline env e tenant us w).
Proof.
  unfold enqueue_offline. revert w. induction us as [|u us IH]; simpl; intros w; [apply same_but_queue_refl|].
  eapply same_but_queue_trans; [|apply IH]. destruct (try_enqueue _ _ _ _) as [[b w']|] eqn:T; [|apply same_but_queue_refl].
  by eapply try_enqueue_same.
Qed.

Lemma send_batch_rounds e tenant batch s :
  rounds (Notification e) (Some (id e)) (batch_connections (connection_manager (disp s.2)) batch tenant) s
    (send_batch to_string env e tenant s batch).
Proof.
  destruct s as [[d f] w]. unfold send_batch. simpl.
  set (w1 := enqueue_offline _ _ _ _ _). assert (F : same_but_queue w w1) by apply enqueue_offline_same.
  assert (M : connection_manager (disp w1) = connection_manager (disp w)) by apply F.
  destruct (batch_connections _ _ _) as [|c cs] eqn:B; [by apply rounds_frame|].
  apply (rounds_trans _ _ [] (c :: cs) _ ((d, f), w1)); [by apply rounds_frame|].
  destruct (send_to_connections_rounds (c :: cs) (Notification e) (Some (id e)) w1)
    as (ds & fs & x & P & C & L & X & Fo & K & Mm & S).
  exists ds, fs, x. simpl in *. rewrite C. by split_and!.
Qed.

Lemma send_batches_rounds e tenant bs s :
  rounds (Notification e) (Some (id e))
    (concat (map (fun b => batch_connections (connection_manager (disp s.2)) b tenant) bs)) s
    (fold_left (send_batch to_string env e tenant) bs s).
Proof.
  revert s. induction bs as [|b bs IH]; intros s; simpl.
  { destruct s. apply rounds_frame, same_but_queue_refl. }
  pose proof (send_batch_rounds e tenant b s) as R.
  eapply rounds_trans; [exact R|]. destruct R as (_ & _ & _ & _ & _ & _ & _ & _ & _ & M & _).
  rewrite <- M. apply IH.
Qed.

Lemma batch_connections_chunks m bs tenant :
  concat (map (fun b => batch_connections m b tenant) bs) = batch_connections m (concat bs) tenant.
Proof.
  unfold batch_connections. induction bs as [|b bs IH]; simpl; [done|]. by rewrite IH, map_app, concat_app.
Qed.

(** What a dispatch leaves behind when the connections [cs] are addressed. *)
Definition outcome (k : category) (e : NotificationEvent) (cs : list ConnectionHandle) w
  (r : DeliveryResult * World Q A) : Prop :=
  exists ds fs ext, ds ++ fs ≡ₚ cs /\ r.1 = delivery_new (id e) (length ds) (length fs) /\
    log r.2 = log w ++ ext /\ ext.*1 = conn_id <$> ds /\
    Forall (carries to_string (Notification e)) ext.*2 /\
    acks (Some (id e)) (ack_backend (disp w)) ds (ack_backend (disp r.2)) /\
    connection_manager (disp r.2) = connection_manager (disp w) /\
    (d_stats (disp r.2) = count_sent k (length ds) (length fs) (d_stats (disp w)) \/
     cs = [] /\ d_stats (disp r.2) = count_queued (d_stats (disp w))).

Lemma outcome_finish k e cs w s :
  rounds (Notification e) (Some (id e)) cs ((0, 0)%nat, w) s -> outcome k e cs w (finish k (id e) s).
Proof.
  intros (ds & fs & x & P & C & L & X & F & K & M & S). simpl in *.
  exists ds, fs, x. unfold finish; simpl. rewrite C, S. simpl. split_and!; try done. by left.
Qed.

Lemma outcome_user u e tenant w :
  outcome ToUsers e (get_user_connections_filtered (connection_manager (disp w)) u tenant) w
    (send_to_user_for_tenant to_string env u e tenant w).
Proof.
  unfold send_to_user_for_tenant.
  destruct (get_user_connections_filtered _ u tenant) as [|c cs] eqn:G.
  2: { apply outcome_finish, send_to_connections_rounds. }
  destruct (try_enqueue _ _ _ _) as [[[] w1]|] eqn:T.
  - destruct (try_enqueue_same _ _ _ _ _ T) as (M & K & S & L). exists [], [], []. simpl.
    rewrite app_nil_r, K, S. split_and!; try done; [|by right].
    unfold acks. destruct (ack_backend (disp w)); [|done]. eexists. split; [done|constructor].
  - apply outcome_finish. simpl. apply rounds_frame. by eapply try_enqueue_same.
  - apply outcome_finish, send_to_connections_rounds.
Qed.

Definition category_of (t : NotificationTarget) : category :=
  match t with User _ | Users _ => ToUsers | Broadcast => ToAll | Channel _ | Channels _ => ToChannels end.

Lemma dispatch_sends target e tenant w :
  Notification.is_expired e (env_clock env (ticks w)) = false ->
  outcome (category_of target) e (target_connections (connection_manager (disp w)) target tenant) w
    (dispatch_for_tenant to_string env target e tenant w).
Proof.
  intros X. unfold dispatch_for_tenant. rewrite X.
  set (w1 := mk_world (disp w) (log w) (S (ticks w))).
  destruct target as [u|us| |ch|chs]; simpl.
  - apply (outcome_user u e tenant w1).
  - rewrite <- (concat_chunks (length us) USER_BATCH_SIZE us) at 1 by (unfold USER_BATCH_SIZE; lia).
    rewrite <- batch_connections_chunks. apply (outcome_finish ToUsers e _ w1), (send_batches_rounds e tenant _ (_, w1)).
  - apply (outcome_finish ToAll e _ w1), send_to_connections_rounds.
  - apply (outcome_finish ToChannels e _ w1), send_to_connections_rounds.
  - apply (outcome_finish ToChannels e _ w1), send_to_connections_rounds.
Qed.

(** The channel sends of the HTTP endpoints, which do not go through a
    dispatch. *)
Lemma send_to_channel_outcome ch e w :
  outcome ToChannels e (get_channel_connections (connection_manager (disp w)) ch) w (send_to_channel to_string env ch e w).
Proof. apply (outcome_finish ToChannels e _ w), send_to_connections_rounds. Qed.
Lemma send_to_channels_outcome chs e w :
  outcome ToChannels e (first_occurrences ∅ (concat (map (get_channel_connections (connection_manager (disp w))) chs))) w
    (send_to_channels to_string env chs e w).
Proof. apply (outcome_finish ToChannels e _ w), send_to_connections_rounds. Qed.

Lemma dispatch_outcome target e tenant w :
  wf (connection_manager (disp w)) -> Notification.is_expired e (env_clock env (ticks w)) = false ->
  exists cs, exactly_addressed (connection_manager (disp w)) target tenant cs /\
    outcome (category_of target) e cs w (dispatch_for_tenant to_string env target e tenant w).
Proof. intros W X. eexists. split; [by apply addressed_target|by apply dispatch_sends]. Qed.

(** A dispatch leaves the connections alone. *)
Lemma manager_dispatch target e tenant w :
  connection_manager (disp (dispatch_for_tenant to_string env target e tenant w).2) = connection_manager (disp w).
Proof.
  destruct (Notification.is_expired e (env_clock env (ticks w))) eqn:X.
  - unfold dispatch_for_tenant. by rewrite X.
  - destruct (dispatch_sends target e tenant w X) as (ds & fs & ext & _ & _ & _ & _ & _ & _ & M & _). done.
Qed.

(** C2: Dispatch refines its abstract meaning.  For every target, tenant
    scope, number of connections and completion order, an unexpired
    notification is attempted on each registered connection the target
    names, once - or, in a list of users, once for each time its user is
    listed - and on no other (tenant scope included); each attempt is counted
    as delivered or failed; the log grows by one entry carrying this very
    event for each delivery; and the connection manager is left alone. *)
Theorem dispatch_refines target e tenant w :
  wf (connection_manager (disp w)) ->
  Notification.is_expired e (env_clock env (ticks w)) = false ->
  let r := dispatch_for_tenant to_string env target e tenant w in
  exists ds fs ext,
    exactly_addressed (connection_manager (disp w)) target tenant (ds ++ fs) /\
    r.1 = delivery_new (id e) (length ds) (length fs) /\
    log r.2 = log w ++ ext /\ ext.*1 = conn_id <$> ds /\
    Forall (carries to_string (Notification e)) ext.*2 /\
    connection_manager (disp r.2) = connection_manager (disp w).
Proof.
  intros W X. destruct (dispatch_outcome target e tenant w W X)
    as (cs & Ad & ds & fs & ext & P & R & L & Ex & F & _ & M & _).
  exists ds, fs, ext. split_and!; try done. by rewrite P.
Qed.

(** The dispatcher's counters: a dispatch counts one notification sent in
    its category and its deliveries and failures; one queued for an offline
    user counts as sent with neither; an expired one is not counted at all
    and reaches nobody. *)
Theorem dispatch_counts target e tenant w :
  wf (connection_manager (disp w)) ->
  let r := dispatch_for_tenant to_string env target e tenant w in
  if Notification.is_expired e (env_clock env (ticks w))
  then r.1 = delivery_new (id e) 0 0 /\ disp r.2 = disp w /\ log r.2 = log w
  else d_stats (disp r.2) = count_sent (category_of target) (delivered_to r.1) (failed r.1) (d_stats (disp w)) \/
       (delivered_to r.1 = 0%nat /\ failed r.1 = 0%nat /\ d_stats (disp r.2) = count_queued (d_stats (disp w))).
Proof.
  intros W. destruct (Notification.is_expired e (env_clock env (ticks w))) eqn:X.
  - unfold dispatch_for_tenant. by rewrite X.
  - destruct (dispatch_outcome target e tenant w W X)
      as (cs & _ & ds & fs & ext & P & R & L & Ex & F & _ & M & S). cbn zeta. rewrite R. simpl.
    destruct S as [->|[-> ->]]; [by left|]. right.
    apply Permutation_nil_r in P. by apply app_nil in P as [-> ->].
Qed.
End dispatch_spec.

(** ** Whose queue a dispatch touches *)

Section queues.
Context {Q A E : Type} `{QueueLaws Q} `{AckTrackerBackend A}.
Context (to_string : ServerMessage -> result E string) (env : Env).
Implicit Types w : World Q A.

(** The messages waiting under a key. *)
Definition queue_at w (key : string) : list StoredMessage :=
  match queue_backend (disp w) with Some q => q_contents q key | None => [] end.

(** The queues of all keys but those of one tenant scope stay as they are. *)
Definition other_queues_kept (tenant : option string) w w' : Prop :=
  forall key, (forall u, key <> tenant_queue_key tenant u) -> queue_at w' key = queue_at w key.
#[global] Instance other_queues_preorder tenant : PreOrder (other_queues_kept tenant).
Proof. split; [done|]. intros w1 w2 w3 H12 H23 key Hk. by rewrite H23, H12. Qed.

Lemma same_queue_kept tenant w w' : queue_backend (disp w') = queue_backend (disp w) -> other_queues_kept tenant w w'.
Proof. intros Eq key _. unfold queue_at. by rewrite Eq. Qed.

Lemma send_to_connections_kept tenant conns m nid w :
  other_queues_kept tenant w (send_to_connections to_string env conns m nid w).2.
Proof.
  apply same_queue_kept.
  by destruct (send_to_connections_round to_string env conns m nid w) as (msg & _ & ds & fs & _ & _ & _ & _ & _ & -> & _).
Qed.

Lemma try_enqueue_kept tenant u e w b w' :
  try_enqueue env (tenant_queue_key tenant u) e w = Some (b, w') -> other_queues_kept tenant w w'.
Proof.
  unfold try_enqueue. destruct (queue_backend (disp w)) as [q|] eqn:Eq; [|done].
  destruct (q_is_enabled q); [|done]. intros [= _ <-] key Hk. unfold queue_at. simpl. rewrite Eq.
  apply q_enqueue_other. intros Ek. by apply (Hk u).
Qed.

Lemma enqueue_offline_kept e tenant us w : other_queues_kept tenant w (enqueue_offline env e tenant us w).
Proof.
  unfold enqueue_offline. revert w. induction us as [|u us IH]; simpl; intros w; [done|]. etrans; [|apply IH].
  destruct (try_enqueue _ _ _ _) as [[b w']|] eqn:T; [|done]. by eapply try_enqueue_kept.
Qed.

Lemma send_batches_kept e tenant bs (s : (nat * nat) * World Q A) :
  other_queues_kept tenant s.2 (fold_left (send_batch to_string env e tenant) bs s).2.
Proof.
  revert s. induction bs as [|b bs IH]; intros s; simpl; [done|]. etrans; [|apply IH].
  unfold send_batch. etrans; [apply (enqueue_offline_kept e tenant)|].
  destruct (batch_connections _ _ _); [done|apply send_to_connections_kept].
Qed.

(** A dispatch within a tenant scope queues under keys of that scope only. *)
Lemma dispatch_queues target e tenant w :
  other_queues_kept tenant w (dispatch_for_tenant to_string env target e tenant w).2.
Proof.
  unfold dispatch_for_tenant. destruct (Notification.is_expired _ _); [by apply same_queue_kept|].
  set (w1 := mk_world _ _ _). transitivity w1; [by apply same_queue_kept|].
  destruct target as [u|us| |ch|chs]; try apply send_to_connections_kept.
  - unfold send_to_user_for_tenant. destruct (get_user_connections_filtered _ _ _) as [|c cs].
    2: { apply send_to_connections_kept. }
    destruct (try_enqueue _ _ _ _) as [[[] w2]|] eqn:T; try apply send_to_connections_kept.
    + etrans; [by eapply try_enqueue_kept|]. by apply same_queue_kept.
    + etrans; [by eapply try_enqueue_kept|]. apply send_to_connections_kept.
  - apply (send_batches_kept e tenant _ (_, w1)).
Qed.
End queues.

(** ** Acknowledgements and offline users *)

Section effects.
Context {Q A E : Type} `{QueueLaws Q} `{AckLaws A}.
Context (to_string : ServerMessage -> result E string) (env : Env).
Implicit Types w : World Q A.

Lemma tracked_awaits n (a : A) ds a' :
  tracked n a ds a' -> a_is_enabled a = true ->
  a_awaits a' n = match last ds with Some c => Some (user_id c) | None => a_awaits a n end.
Proof.
  induction 1 as [a|a c t ds a' T IH]; intros En; [done|].
  rewrite IH by (by rewrite a_track_enabled). destruct ds as [|d ds]; simpl.
  - by rewrite a_track_awaits, decide_True.
  - by destruct (last (d :: ds)) eqn:L; [|apply last_None in L].
Qed.

(** Acknowledgement of a notification that reached several users: with
    tracking on, once a dispatch has delivered to anyone, exactly one user is
    awaited, the one delivered to last; the acknowledgement of any other
    recipient is refused. *)
Theorem only_last_recipient_awaited target e tenant w a :
  wf (connection_manager (disp w)) ->
  Notification.is_expired e (env_clock env (ticks w)) = false ->
  ack_backend (disp w) = Some a -> a_is_enabled a = true ->
  let r := dispatch_for_tenant to_string env target e tenant w in
  (0 < delivered_to r.1)%nat ->
  exists a' i c, ack_backend (disp r.2) = Some a' /\
    last (log r.2) = Some i /\ conn_id c = i.1 /\ connections (connection_manager (disp w)) !! i.1 = Some c /\
    forall u t, (a_acknowledge a' (id e) u t).1 = a_is_enabled a' && bool_decide (user_id c = u).
Proof.
  intros W X Ha He r D.
  destruct (dispatch_outcome to_string env target e tenant w W X)
    as (cs & [Ad _] & ds & fs & ext & P & R & L & Ex & _ & K & _). fold r in R, L, K.
  rewrite R in D. simpl in D. unfold acks in K. rewrite Ha in K. destruct K as (a' & Ka & T).
  destruct (last ds) as [c|] eqn:Lc; [|apply last_None in Lc; subst; simpl in D; lia].
  pose proof (tracked_awaits _ _ _ _ T He) as Aw. rewrite Lc in Aw.
  assert (Li : last (ext.*1) = Some (conn_id c)) by (rewrite Ex, fmap_last, Lc; done).
  rewrite fmap_last in Li. destruct (last ext) as [i|] eqn:Le; [|done]. simpl in Li. simplify_eq.
  assert (Hc : c ∈ cs) by (rewrite <- P; apply elem_of_app; left; by eapply last_Some_elem_of).
  exists a', i, c. split; [done|]. split; [by rewrite L, last_app, Le|]. split; [done|]. split.
  - rewrite Li. by apply Ad.
  - intros u t. rewrite a_ack_result, Aw. f_equal. apply bool_decide_ext. naive_solver.
Qed.

(** A notification for a user with no connection in the tenant scope is
    queued, when the queue accepts it, at the end of that user's queue for
    that tenant, with nothing delivered and every other queue unchanged. *)
Theorem offline_user_queued u e tenant w q :
  get_user_connections_filtered (connection_manager (disp w)) u tenant = [] ->
  Notification.is_expired e (env_clock env (ticks w)) = false ->
  queue_backend (disp w) = Some q -> q_is_enabled q = true ->
  let key := tenant_queue_key tenant u in
  let stored := stored_new e (env_fresh env (S (ticks w))) (env_clock env (S (ticks w))) in
  let r := dispatch_for_tenant to_string env (User u) e tenant w in
  r.1 = delivery_new (id e) 0 0 /\ log r.2 = log w /\
  exists q', queue_backend (disp r.2) = Some q' /\
    (forall other, key <> other -> q_contents q' other = q_contents q other) /\
    match (q_enqueue q key e (env_fresh env (S (ticks w))) (env_clock env (S (ticks w)))).1 with
    | Ok _ => exists k, q_contents q' key = drop k (q_contents q key) ++ [stored]
    | Err _ => q_contents q' key = q_contents q key
    end.
Proof.
  intros G X Hq He. cbn zeta. unfold dispatch_for_tenant. rewrite X. unfold send_to_user_for_tenant. simpl.
  rewrite G. unfold try_enqueue. simpl. rewrite Hq, He.
  set (en := q_enqueue q _ _ _ _). destruct en as [[[]|x] q'] eqn:En; simpl.
  - split; [done|]. split; [done|]. exists q'. split; [done|]. split.
    + intros other Hne. rewrite <- (q_enqueue_other q _ e (env_fresh env (S (ticks w))) (env_clock env (S (ticks w))) other Hne).
      fold en. by rewrite En.
    + by apply q_enqueue_ok.
  - split; [done|]. split; [done|]. exists q'. split; [done|]. split.
    + intros other _. by eapply q_enqueue_err.
    + by eapply q_enqueue_err.
Qed.

(** A dispatch without a tenant queues under the default tenant's key:
    the key of a user of another tenant is a different one, so a notification
    so queued for that user is not in the queue its next connection drains. *)
Theorem unscoped_queue_differs u t :
  t <> DEFAULT_TENANT_ID -> tenant_queue_key None u <> tenant_scoped_key t u.
Proof.
  intros Ht. unfold tenant_queue_key. simpl. rewrite tenant_scoped_key_default, tenant_scoped_key_other by done.
  intros Eq. apply (f_equal String.length) in Eq. rewrite !str_length_app in Eq. simpl in Eq. lia.
Qed.
End effects.

(** ** Concrete runs *)

Section witnesses.

Definition example_env : Env :=
  {| env_accepts := fun _ _ _ => true; env_pick := fun _ n => (n - 1)%nat; env_clock := fun _ => 0;
     env_fresh := fun k => N.of_nat k |}.
Definition example_manager : ConnectionManager :=
  (register (register (with_limits ConnectionLimits_default) "alice" "acme" [] 1%N 0).2 "bob" "acme" [] 2%N 0).2.
Definition example_ack : AckMemory.MemoryAckBackend :=
  AckMemory.new {| Ack.enabled := true; timeout_seconds := 30; Ack.cleanup_interval_seconds := 60 |}.
Definition example_world : World Memory.MemoryQueueBackend AckMemory.MemoryAckBackend :=
  mk_world (with_backends example_manager (Memory.new (Memory.example_config 5)) example_ack) [] 0.
Definition no_text (m : ServerMessage) : result string string := Err "".

Lemma example_manager_wf : wf example_manager.
Proof. apply wf_register; [apply wf_register; [apply wf_empty|reflexivity]|reflexivity]. Qed.

Lemma dispatch_refines_witness :
  let r := dispatch_for_tenant no_text example_env Broadcast (Memory.example_event 9%N) (Some "acme") example_world in
  delivered_to r.1 = 2%nat /\ exists ds fs, exactly_addressed example_manager Broadcast (Some "acme") (ds ++ fs).
Proof.
  cbn zeta. split; [vm_compute; reflexivity|].
  destruct (dispatch_refines no_text example_env Broadcast (Memory.example_event 9%N) (Some "acme") example_world)
    as (ds & fs & ext & H & _); [apply example_manager_wf|reflexivity|].
  exists ds, fs. exact H.
Defined.

Lemma dispatch_counts_witness :
  let r := dispatch_for_tenant no_text example_env (User "carol") (Memory.example_event 9%N) None example_world in
  d_stats (disp r.2) = count_sent ToUsers (delivered_to r.1) (failed r.1) DispatcherStats_default \/
  (delivered_to r.1 = 0%nat /\ failed r.1 = 0%nat /\ d_stats (disp r.2) = count_queued DispatcherStats_default).
Proof.
  exact (dispatch_counts no_text example_env (User "carol") (Memory.example_event 9%N) None example_world
    example_manager_wf).
Defined.

Lemma only_last_recipient_awaited_witness :
  exists a' c, (a_acknowledge (A := AckMemory.MemoryAckBackend) a' 9%N "carol" 0).1 =
               a_is_enabled a' && bool_decide (user_id c = "carol").
Proof.
  destruct (only_last_recipient_awaited no_text example_env Broadcast (Memory.example_event 9%N) (Some "acme")
    example_world example_ack) as (a' & i & c & _ & _ & _ & _ & H);
    [apply example_manager_wf|reflexivity..|vm_compute; lia|].
  exists a', c. apply H.
Defined.

Lemma offline_user_queued_witness :
  log (dispatch_for_tenant no_text example_env (User "carol") (Memory.example_event 9%N) None example_world).2 = [].
Proof.
  apply (offline_user_queued no_text example_env "carol" (Memory.example_event 9%N) None example_world
    (Memory.new (Memory.example_config 5))); reflexivity.
Defined.

Lemma unscoped_queue_differs_witness : tenant_queue_key None "alice" <> tenant_scoped_key "acme" "alice".
Proof. apply unscoped_queue_differs. discriminate. Defined.
End witnesses.
