(* ===== verification/Http.v ===== *)
(** * Http: the notification endpoints

    Models [domain/notification/triggers/http/] (content.rs, models.rs,
    handlers.rs, batch.rs) and the error type of [infrastructure/error/].
    A handler receives the decoded request and the tenant context attached by
    the API-key middleware, and works on the template store and the
    dispatcher. *)
From S2P Require Import Prelude Auth Tenant Notification Ack Queue Connection Template Dispatcher.

(** ** Errors *)

(** The wrapped errors of libraries are kept as their messages. *)
Inductive AppError :=
| AConfig (e : string) | AAuth (msg : string) | AValidation (msg : string) | ANotFound (msg : string)
| AInternal (e : string) | ARedis (e : string) | ARateLimitExceeded (msg : string)
| AConnectionLimitExceeded (msg : string) | AQueue (e : string) | ATimeout (msg : string)
| ACluster (e : string).

Definition app_error_display (e : AppError) : string :=
  match e with
  | AConfig s => "Configuration error: " +:+ s
  | AAuth s => "Authentication error: " +:+ s
  | AValidation s => "Validation error: " +:+ s
  | ANotFound s => "Not found: " +:+ s
  | AInternal s => "Internal error: " +:+ s
  | ARedis s => "Redis error: " +:+ s
  | ARateLimitExceeded s => "Rate limit exceeded: " +:+ s
  | AConnectionLimitExceeded s => "Connection limit exceeded: " +:+ s
  | AQueue s => "Queue error: " +:+ s
  | ATimeout s => "Timeout: " +:+ s
  | ACluster s => "Cluster error: " +:+ s
  end.

(** Status, code and the message shown to the client: an internal error keeps
    its detail to itself in production. *)
Definition error_response (production : bool) (e : AppError) : Z * string * string :=
  let hide generic detail := if production then generic else detail in
  match e with
  | AConfig d => (500, "CONFIG_ERROR", hide "Configuration error" d)
  | AAuth m => (401, "UNAUTHORIZED", m)
  | AValidation m => (400, "VALIDATION_ERROR", m)
  | ANotFound m => (404, "NOT_FOUND", m)
  | AInternal d => (500, "INTERNAL_ERROR", hide "Internal server error" d)
  | ARedis d => (500, "REDIS_ERROR", hide "Service temporarily unavailable" d)
  | ARateLimitExceeded m => (429, "RATE_LIMIT_EXCEEDED", m)
  | AConnectionLimitExceeded m => (429, "CONNECTION_LIMIT_EXCEEDED", m)
  | AQueue d => (503, "QUEUE_ERROR", hide "Message queue error" d)
  | ATimeout m => (504, "TIMEOUT", m)
  | ACluster d => (503, "CLUSTER_ERROR", hide "Cluster communication error" d)
  end.

(** ** Content *)

Inductive NotificationContent :=
| CTemplate (template_id : string) (variables : json)
| CDirect (event_type : string) (payload : json).

Definition default_empty_object : json := JObject [].

Record ResolvedContent := {
  rc_event_type : string; rc_payload : json; rc_priority : Priority; rc_ttl : option Z;
}.

Section resolve.
Context `{JsonText}.

Definition resolve_for_tenant (c : NotificationContent) (store : TemplateStore) (tenant : option string)
  (priority_override : option Priority) (ttl_override : option Z) : result AppError ResolvedContent :=
  match c with
  | CTemplate template_id variables =>
    let scoped_id := tenant_scoped_key (default DEFAULT_TENANT_ID tenant) template_id in
    t <-? map_err (fun e => AValidation (template_error_display e)) (get store scoped_id) ;;
    payload <-? map_err (fun e => AValidation (template_error_display e))
                  (substitute_variables (t_payload_template t) variables) ;;
    Ok {| rc_event_type := t_event_type t; rc_payload := payload;
          rc_priority := default (t_default_priority t) priority_override;
          rc_ttl := match ttl_override with Some x => Some x | None => t_default_ttl t end |}
  | CDirect event_type payload =>
    Ok {| rc_event_type := event_type; rc_payload := payload;
          rc_priority := default Priority_default priority_override; rc_ttl := ttl_override |}
  end.

Definition resolve (c : NotificationContent) (store : TemplateStore)
  (priority_override : option Priority) (ttl_override : option Z) : result AppError ResolvedContent :=
  resolve_for_tenant c store None priority_override ttl_override.
End resolve.

(** ** Requests and responses *)

Record SendNotificationRequest := {
  target_user_id : string; sn_content : NotificationContent; sn_priority : option Priority;
  sn_ttl : option Z; sn_correlation_id : option string;
}.
Record SendToUsersRequest := {
  target_user_ids : list string; su_content : NotificationContent; su_priority : option Priority;
  su_ttl : option Z; su_correlation_id : option string;
}.
Record BroadcastNotificationRequest := {
  bc_content : NotificationContent; bc_priority : option Priority; bc_ttl : option Z;
  bc_audience : option Audience; bc_correlation_id : option string;
}.
Record ChannelNotificationRequest := {
  cn_channel : string; cn_content : NotificationContent; cn_priority : option Priority;
  cn_ttl : option Z; cn_correlation_id : option string;
}.
Record MultiChannelNotificationRequest := {
  mc_channels : list string; mc_content : NotificationContent; mc_priority : option Priority;
  mc_ttl : option Z; mc_correlation_id : option string;
}.
Record SendNotificationResponse := {
  resp_success : bool; resp_notification_id : uuid; resp_delivered_to : nat; resp_failed : nat;
  resp_timestamp : Z;
}.

Definition SOURCE : string := "http-api".
Definition MAX_TARGET_USERS : nat := 10000.
Definition MAX_CHANNELS : nat := 100.

(** The builder calls every handler makes. *)
Definition event_of (r : ResolvedContent) (source : string) (audience : option Audience)
  (correlation_id : option string) (fresh : uuid) (now : Z) : NotificationEvent :=
  let b := with_priority (with_payload (builder_new (rc_event_type r) source) (rc_payload r)) (rc_priority r) in
  let b := match rc_ttl r with Some t => with_ttl b t | None => b end in
  let b := match audience with Some a => with_audience b a | None => b end in
  let b := match correlation_id with Some c => with_correlation_id b c | None => b end in
  build b fresh now.

Section handlers.
Context {Q A E : Type} `{MessageQueueBackend Q} `{AckTrackerBackend A} `{JsonText}.
Context (to_string : ServerMessage -> result E string) (env : Env) (store : TemplateStore).
Implicit Types w : World Q A.

(** One tick draws the event's id and time. *)
Definition fresh_event (r : ResolvedContent) (source : string) (audience : option Audience)
  (correlation_id : option string) w : NotificationEvent * World Q A :=
  (event_of r source audience correlation_id (env_fresh env (ticks w)) (env_clock env (ticks w)),
   mk_world (disp w) (log w) (S (ticks w))).

Definition response_of (r : DeliveryResult) (now : Z) : SendNotificationResponse :=
  {| resp_success := success r; resp_notification_id := dr_notification_id r;
     resp_delivered_to := delivered_to r; resp_failed := failed r; resp_timestamp := now |}.

(** Resolve, build, send, answer. *)
Definition send_resolved (c : NotificationContent) (tenant : option string) (p : option Priority) (ttl : option Z)
  (audience : option Audience) (correlation_id : option string)
  (send : NotificationEvent -> World Q A -> DeliveryResult * World Q A) w
  : result AppError SendNotificationResponse * World Q A :=
  match resolve_for_tenant c store tenant p ttl with
  | Err e => (Err e, w)
  | Ok r =>
    let ew := fresh_event r SOURCE audience correlation_id w in
    let s := send ew.1 ew.2 in
    (Ok (response_of s.1 (env_clock env (ticks s.2))), mk_world (disp s.2) (log s.2) (S (ticks s.2)))
  end.

Definition send_notification (ctx : option TenantContext) (r : SendNotificationRequest) w
  : result AppError SendNotificationResponse * World Q A :=
  let tenant := ctx_tenant_id <$> ctx in
  send_resolved (sn_content r) tenant (sn_priority r) (sn_ttl r) None (sn_correlation_id r)
    (fun e w => dispatch_for_tenant to_string env (User (target_user_id r)) e tenant w) w.

Definition send_to_users (ctx : option TenantContext) (r : SendToUsersRequest) w
  : result AppError SendNotificationResponse * World Q A :=
  let tenant := ctx_tenant_id <$> ctx in
  if (MAX_TARGET_USERS <? length (target_user_ids r))%nat then
    (Err (AValidation ("target_user_ids exceeds maximum of " +:+ pretty MAX_TARGET_USERS +:+ " (got " +:+
                       pretty (length (target_user_ids r)) +:+ ")")), w)
  else send_resolved (su_content r) tenant (su_priority r) (su_ttl r) None (su_correlation_id r)
         (fun e w => dispatch_for_tenant to_string env (Users (target_user_ids r)) e tenant w) w.

Definition broadcast_notification (ctx : option TenantContext) (r : BroadcastNotificationRequest) w
  : result AppError SendNotificationResponse * World Q A :=
  let tenant := ctx_tenant_id <$> ctx in
  send_resolved (bc_content r) tenant (bc_priority r) (bc_ttl r) (bc_audience r) (bc_correlation_id r)
    (fun e w => dispatch_for_tenant to_string env Broadcast e tenant w) w.

(** [map(namespace_channel).unwrap_or(name)] *)
Definition request_channel (ctx : option TenantContext) (name : string) : string :=
  match ctx with Some t => namespace_channel t name | None => name end.

Definition channel_notification (ctx : option TenantContext) (r : ChannelNotificationRequest) w
  : result AppError SendNotificationResponse * World Q A :=
  send_resolved (cn_content r) (ctx_tenant_id <$> ctx) (cn_priority r) (cn_ttl r) None (cn_correlation_id r)
    (fun e w => send_to_channel to_string env (request_channel ctx (cn_channel r)) e w) w.

Definition multi_channel_notification (ctx : option TenantContext) (r : MultiChannelNotificationRequest) w
  : result AppError SendNotificationResponse * World Q A :=
  if (MAX_CHANNELS <? length (mc_channels r))%nat then
    (Err (AValidation ("channels exceeds maximum of " +:+ pretty MAX_CHANNELS +:+ " (got " +:+
                       pretty (length (mc_channels r)) +:+ ")")), w)
  else send_resolved (mc_content r) (ctx_tenant_id <$> ctx) (mc_priority r) (mc_ttl r) None (mc_correlation_id r)
         (fun e w => send_to_channels to_string env (map (request_channel ctx) (mc_channels r)) e w) w.
End handlers.

(** ** Batch *)

Definition MAX_BATCH_SIZE : nat := 100.

Inductive BatchTarget :=
| BUser (id : string) | BUsers (ids : list string) | BBroadcast | BChannel (name : string)
| BChannels (names : list string).

Definition into_notification_target (t : BatchTarget) (ctx : option TenantContext) : NotificationTarget :=
  match t with
  | BUser i => User i
  | BUsers ids => Users ids
  | BBroadcast => Broadcast
  | BChannel n => Channel (request_channel ctx n)
  | BChannels ns => Channels (map (request_channel ctx) ns)
  end.

Definition dedup_key (t : BatchTarget) : string :=
  match t with
  | BUser i => "user:" +:+ i
  | BUsers ids => "users:" +:+ join "," (sort_strings ids)
  | BBroadcast => "broadcast"
  | BChannel n => "channel:" +:+ n
  | BChannels ns => "channels:" +:+ join "," (sort_strings ns)
  end.

Record BatchNotificationItem := {
  bi_target : BatchTarget; bi_content : NotificationContent; bi_priority : option Priority;
  bi_ttl : option Z; bi_correlation_id : option string;
}.
Record BatchOptions := { stop_on_error : bool; deduplicate : bool }.
Record BatchSendRequest := { notifications : list BatchNotificationItem; options : BatchOptions }.

Record BatchItemResult := {
  ir_index : nat; ir_notification_id : uuid; ir_delivered_to : nat; ir_failed : nat;
  ir_success : bool; ir_error : option string; ir_skipped : option bool;
}.
Record BatchSummary := { bs_total : nat; succeeded : nat; bs_failed : nat; skipped : nat; total_delivered_to : nat }.
Record BatchSendResponse := {
  batch_id : uuid; results : list BatchItemResult; summary : BatchSummary; br_timestamp : Z;
}.

Definition item_error (i : nat) (e : AppError) : BatchItemResult :=
  {| ir_index := i; ir_notification_id := uuid_nil; ir_delivered_to := 0; ir_failed := 0;
     ir_success := false; ir_error := Some (app_error_display e); ir_skipped := None |}.
Definition item_duplicate (i : nat) : BatchItemResult :=
  {| ir_index := i; ir_notification_id := uuid_nil; ir_delivered_to := 0; ir_failed := 0;
     ir_success := true; ir_error := None; ir_skipped := Some true |}.
Definition item_sent (i : nat) (r : DeliveryResult) : BatchItemResult :=
  {| ir_index := i; ir_notification_id := dr_notification_id r; ir_delivered_to := delivered_to r;
     ir_failed := failed r; ir_success := success r; ir_error := None; ir_skipped := None |}.
Definition item_stopped (i : nat) : BatchItemResult :=
  {| ir_index := i; ir_notification_id := uuid_nil; ir_delivered_to := 0; ir_failed := 0;
     ir_success := false; ir_error := Some "Skipped due to stop_on_error"; ir_skipped := Some true |}.

(** The accumulators of the loop. *)
Record Tally := { y_results : list BatchItemResult; y_succeeded : nat; y_failed : nat; y_skipped : nat;
                  y_delivered : nat; y_seen : gset string }.
Definition tally_start : Tally :=
  {| y_results := []; y_succeeded := 0; y_failed := 0; y_skipped := 0; y_delivered := 0; y_seen := ∅ |}.

Definition tally_add (r : BatchItemResult) (s f k d : nat) (seen : gset string) (y : Tally) : Tally :=
  {| y_results := y_results y ++ [r]; y_succeeded := y_succeeded y + s; y_failed := y_failed y + f;
     y_skipped := y_skipped y + k; y_delivered := y_delivered y + d; y_seen := seen |}.

(** Mark the items from [i] on, [n] of them, as skipped. *)
Definition tally_stop (i n : nat) (y : Tally) : Tally :=
  {| y_results := y_results y ++ map item_stopped (seq i n); y_succeeded := y_succeeded y; y_failed := y_failed y;
     y_skipped := y_skipped y + n; y_delivered := y_delivered y; y_seen := y_seen y |}.

Section batch.
Context {Q A E : Type} `{MessageQueueBackend Q} `{AckTrackerBackend A} `{JsonText}.
Context (to_string : ServerMessage -> result E string) (env : Env) (store : TemplateStore).
Implicit Types w : World Q A.

Fixpoint batch_loop (ctx : option TenantContext) (opts : BatchOptions) (index : nat)
  (items : list BatchNotificationItem) (y : Tally) w : Tally * World Q A :=
  match items with
  | [] => (y, w)
  | item :: rest =>
    let tenant := ctx_tenant_id <$> ctx in
    match resolve_for_tenant (bi_content item) store tenant (bi_priority item) (bi_ttl item) with
    | Err e =>
      let y' := tally_add (item_error index e) 0 1 0 0 (y_seen y) y in
      if stop_on_error opts then (y', w) else batch_loop ctx opts (S index) rest y' w
    | Ok r =>
      let key := dedup_key (bi_target item) +:+ ":" +:+ rc_event_type r in
      if deduplicate opts && bool_decide (key ∈ y_seen y) then
        batch_loop ctx opts (S index) rest (tally_add (item_duplicate index) 0 0 1 0 (y_seen y) y) w
      else
        let seen := if deduplicate opts then {[key]} ∪ y_seen y else y_seen y in
        let ew := fresh_event env r SOURCE None (bi_correlation_id item) w in
        let s := dispatch_for_tenant to_string env (into_notification_target (bi_target item) ctx) ew.1 tenant ew.2 in
        if success s.1 then
          batch_loop ctx opts (S index) rest
            (tally_add (item_sent index s.1) 1 0 0 (delivered_to s.1) seen y) s.2
        else
          let y' := tally_add (item_sent index s.1) 0 1 0 (delivered_to s.1) seen y in
          if stop_on_error opts then (tally_stop (S index) (length rest) y', s.2)
          else batch_loop ctx opts (S index) rest y' s.2
    end
  end.

Definition batch_send (ctx : option TenantContext) (r : BatchSendRequest) w
  : result AppError BatchSendResponse * World Q A :=
  let batch_id := env_fresh env (ticks w) in
  let w := mk_world (disp w) (log w) (S (ticks w)) in
  let total := length (notifications r) in
  if (MAX_BATCH_SIZE <? total)%nat then
    (Err (AValidation ("Batch size " +:+ pretty total +:+ " exceeds maximum of " +:+ pretty MAX_BATCH_SIZE)), w)
  else if (total =? 0)%nat then (Err (AValidation "Batch cannot be empty"), w)
  else
    let yw := batch_loop ctx (options r) 0 (notifications r) tally_start w in
    let y := yw.1 in
    (Ok {| batch_id := batch_id; results := y_results y;
           summary := {| bs_total := total; succeeded := y_succeeded y; bs_failed := y_failed y;
                         skipped := y_skipped y; total_delivered_to := y_delivered y |};
           br_timestamp := env_clock env (ticks yw.2) |},
     mk_world (disp yw.2) (log yw.2) (S (ticks yw.2))).

(** *** The report is consistent *)

Definition tally_wf (index : nat) (y : Tally) : Prop :=
  ir_index <$> y_results y = seq 0 index /\
  (y_succeeded y + y_failed y + y_skipped y = index)%nat /\
  y_delivered y = sum_list (ir_delivered_to <$> y_results y).

Lemma tally_add_wf index r s f k d seen y :
  tally_wf index y -> ir_index r = index -> (s + f + k = 1)%nat -> d = ir_delivered_to r ->
  tally_wf (S index) (tally_add r s f k d seen y).
Proof.
  intros (I & C & D) <- N ->. unfold tally_wf, tally_add;
  cbn [y_results y_succeeded y_failed y_skipped y_delivered]. rewrite !fmap_app, I, D, sum_list_with_app.
  split_and!; [by rewrite seq_S|lia|]. simpl. unfold Datatypes.id. lia.
Qed.

Lemma tally_stop_wf index n y : tally_wf index y -> tally_wf (index + n) (tally_stop index n y).
Proof.
  intros (I & C & D). unfold tally_wf, tally_stop; cbn [y_results y_succeeded y_failed y_skipped y_delivered].
  rewrite !fmap_app, I, D, sum_list_with_app. split_and!; [|lia|].
  - rewrite seq_app. f_equal. rewrite <- list_fmap_compose. by rewrite list_fmap_id.
  - assert (Z0 : sum_list_with Datatypes.id (ir_delivered_to <$> map item_stopped (seq index n)) = 0%nat).
    { clear. generalize index. induction n as [|n IH]; intros i; simpl; [done|apply IH]. }
    lia.
Qed.

(** How far the loop got: every item is reported, unless it stopped at an
    item whose content could not be resolved. *)
Lemma batch_loop_wf ctx opts index items y w :
  tally_wf index y ->
  let y' := (batch_loop ctx opts index items y w).1 in
  exists n, tally_wf (index + n) y' /\ (n <= length items)%nat /\
    (n = length items \/
     stop_on_error opts = true /\ exists r, last (y_results y') = Some r /\ ir_notification_id r = uuid_nil /\
       ir_success r = false /\ ir_skipped r = None).
Proof.
  revert index y w. induction items as [|item rest IH]; intros index y w W; simpl.
  { exists 0%nat. rewrite Nat.add_0_r. auto. }
  assert (Next : forall y1 w1, tally_wf (S index) y1 ->
    exists n, tally_wf (index + n) (batch_loop ctx opts (S index) rest y1 w1).1 /\ (n <= S (length rest))%nat /\
      (n = S (length rest) \/ stop_on_error opts = true /\
       exists r, last (y_results (batch_loop ctx opts (S index) rest y1 w1).1) = Some r /\
         ir_notification_id r = uuid_nil /\ ir_success r = false /\ ir_skipped r = None)).
  { intros y1 w1 W1. destruct (IH (S index) y1 w1 W1) as (n & Wn & L & R). exists (S n).
    rewrite Nat.add_succ_r. split; [done|]. split; [lia|]. destruct R; [left; lia|by right]. }
  destruct (resolve_for_tenant _ _ _ _ _) as [r|e].
  - destruct (_ && _)%bool; [apply Next; by apply tally_add_wf|].
    destruct (success _); [apply Next; by apply tally_add_wf|].
    destruct (stop_on_error opts) eqn:St; [|apply Next; by apply tally_add_wf].
    exists (S (length rest)). rewrite Nat.add_succ_r. split; [|split; [done|by left]].
    apply (tally_stop_wf (S index) (length rest)). by apply tally_add_wf.
  - destruct (stop_on_error opts) eqn:St; [|apply Next; by apply tally_add_wf].
    exists 1%nat. rewrite Nat.add_1_r. split; [by apply tally_add_wf|]. split; [lia|]. right. split; [done|].
    exists (item_error index e). simpl. by rewrite last_snoc.
Qed.

(** C35: A batch answers with one result per notification, in order, whose
    counts add up: succeeded, failed and skipped together are all of them and
    the connections reached are the sum over the results.  The one exception
    is a batch stopped, with [stop_on_error], by content that could not be
    resolved: its results then end at that item. *)
Theorem batch_report ctx req w resp w' :
  batch_send ctx req w = (Ok resp, w') ->
  let s := summary resp in
  let n := length (results resp) in
  ir_index <$> results resp = seq 0 n /\ (succeeded s + bs_failed s + skipped s = n)%nat /\
  total_delivered_to s = sum_list (ir_delivered_to <$> results resp) /\
  bs_total s = length (notifications req) /\ (1 <= bs_total s <= MAX_BATCH_SIZE)%nat /\ (n <= bs_total s)%nat /\
  (stop_on_error (options req) = false \/ Forall (fun r => ir_skipped r <> None \/ ir_notification_id r <> uuid_nil)
                                             (results resp) -> n = bs_total s).
Proof.
  unfold batch_send. destruct (_ <? _)%nat eqn:E1; [done|]. destruct (_ =? _)%nat eqn:E2; [done|]. bool_to_prop.
  set (w1 := mk_world _ _ _). intros [= <- <-]. cbn [summary results succeeded bs_failed skipped bs_total total_delivered_to].
  assert (W0 : tally_wf 0 tally_start) by done.
  destruct (batch_loop_wf ctx (options req) 0 (notifications req) tally_start w1 W0) as (n & (I & C & D) & L & R).
  cbn zeta in *. set (y := (batch_loop _ _ _ _ _ _).1) in *. simpl in I, C.
  assert (N : length (y_results y) = n) by (apply (f_equal length) in I; by rewrite length_fmap, length_seq in I).
  rewrite N. split_and!; try done; try lia. intros X. destruct R as [|(St & r & Lr & Ni & _ & Sk)]; [done|].
  destruct X as [X|X]; [congruence|]. apply last_Some in Lr as [l Hl]. rewrite Hl in X.
  apply Forall_app in X as [_ [X _]%Forall_cons]. naive_solver.
Qed.
End batch.

(** Deduplication confuses different notifications: a user id with a colon
    and an event type, or user ids with commas, give the key of other ones,
    so the second notification, for another recipient, is skipped. *)
Theorem dedup_key_clash u v event :
  dedup_key (BUser (u +:+ ":" +:+ v)) +:+ ":" +:+ event = dedup_key (BUser u) +:+ ":" +:+ (v +:+ ":" +:+ event) /\
  dedup_key (BUsers ["a,b"]) = dedup_key (BUsers ["a"; "b"]).
Proof. split; [|reflexivity]. simpl. by rewrite !str_app_assoc. Qed.

(** The endpoints do not check channel names: with the default tenant's
    context, or none, a channel name that begins with a tenant's prefix is
    the channel that tenant's own requests and subscriptions use. *)
Theorem default_scope_reaches_channels t name :
  ctx_is_default t = false ->
  let spoofed := ctx_tenant_id t +:+ ":" +:+ name in
  request_channel None spoofed = request_channel (Some t) name /\
  request_channel (Some default_tenant) spoofed = request_channel (Some t) name.
Proof. intros D. unfold request_channel, namespace_channel. rewrite D. split; reflexivity. Qed.

Section witnesses.
#[local] Existing Instance no_json_text.

Definition example_item (u ty : string) : BatchNotificationItem :=
  {| bi_target := BUser u; bi_content := CDirect ty JNull; bi_priority := None; bi_ttl := None;
     bi_correlation_id := None |}.
Definition example_batch : BatchSendRequest :=
  {| notifications := [example_item "alice" "b:c"; example_item "alice:b" "c"];
     options := {| stop_on_error := false; deduplicate := true |} |}.

Lemma batch_report_witness :
  exists resp w', batch_send no_text example_env ∅ None example_batch example_world = (Ok resp, w') /\
    (succeeded (summary resp) + bs_failed (summary resp) + skipped (summary resp))%nat = 2%nat /\
    skipped (summary resp) = 1%nat.
Proof.
  eexists _, _. split; [vm_compute; reflexivity|]. split; [|reflexivity].
  eapply eq_trans; [|reflexivity].
  eapply (proj1 (proj2 (batch_report no_text example_env ∅ None example_batch example_world _ _
    ltac:(vm_compute; reflexivity)))).
Defined.

Lemma default_scope_reaches_channels_witness :
  request_channel None "acme:orders" = request_channel (Some acme) "orders".
Proof. apply (default_scope_reaches_channels acme "orders"). reflexivity. Defined.
End witnesses.
