(* ===== verification/RedisTrigger.v ===== *)
(** * RedisTrigger: notifications received over Redis Pub/Sub

    Models [domain/notification/triggers/redis.rs].  The [redis] client and
    [serde_json] are outside the repository: what they answer (a connection
    that fails or is established, the messages it then yields, the decoded
    message) is an input of the subscriber.  One turn of [start]'s loop takes
    one [Turn] of inputs. *)
From S2P Require Import Prelude Auth Tenant Resilience Notification Ack Queue Connection Template Dispatcher Http.

(** ** Messages *)

Inductive RedisTarget := Single (s : string) | Multiple (l : list string).

Record RedisEventData := {
  re_event_type : string; re_payload : json; re_priority : Priority; re_ttl : option Z;
  re_correlation_id : option string;
}.
Record RedisNotificationMessage := {
  target_type : string; rm_target : option RedisTarget; rm_event : RedisEventData;
  rm_tenant_id : option string;
}.

(** Channels of the default tenant, or of none, keep their name. *)
Definition redis_namespace_channel (channel : string) (tenant : option string) : string :=
  match tenant with
  | Some t => if decide (t = DEFAULT_TENANT_ID) then channel else t +:+ ":" +:+ channel
  | None => channel
  end.

Definition parse_target (m : RedisNotificationMessage) (tenant : option string) : option NotificationTarget :=
  if decide (target_type m = "user") then
    match rm_target m with Some (Single u) => Some (User u) | _ => None end
  else if decide (target_type m = "users") then
    match rm_target m with
    | Some (Multiple us) => Some (Users us)
    | Some (Single u) => Some (Users [u])
    | None => None
    end
  else if decide (target_type m = "broadcast") then Some Broadcast
  else if decide (target_type m = "channel") then
    match rm_target m with
    | Some (Single c) => Some (Channel (redis_namespace_channel c tenant))
    | _ => None
    end
  else if decide (target_type m = "channels") then
    match rm_target m with
    | Some (Multiple cs) => Some (Channels (map (fun c => redis_namespace_channel c tenant) cs))
    | Some (Single c) => Some (Channels [redis_namespace_channel c tenant])
    | None => None
    end
  else None.

(** ** Configuration *)

Record RedisConfig := {
  channels : list string;
  circuit_breaker_failure_threshold : Z;
  circuit_breaker_success_threshold : Z;
  circuit_breaker_reset_timeout_seconds : Z;
  backoff_initial_delay_ms : Z;
  backoff_max_delay_ms : Z;
}.

Definition get_channels (c : RedisConfig) : list string :=
  match channels c with
  | [] => ["notification:user:*"; "notification:broadcast"; "notification:channel:*"]
  | l => l
  end.

Definition breaker_config (c : RedisConfig) : CircuitBreaker.CircuitBreakerConfig :=
  {| CircuitBreaker.failure_threshold := circuit_breaker_failure_threshold c;
     CircuitBreaker.success_threshold := circuit_breaker_success_threshold c;
     CircuitBreaker.reset_timeout_ms := u64 (circuit_breaker_reset_timeout_seconds c * 1000) |}.

Definition backoff_config (c : RedisConfig) : Backoff.BackoffConfig :=
  {| Backoff.initial_delay_ms := backoff_initial_delay_ms c; Backoff.max_delay_ms := backoff_max_delay_ms c;
     Backoff.multiplier := Backoff.two; Backoff.jitter_factor := Backoff.one_tenth |}.

(** ** The subscriber *)

Section subscriber.
Context {Q A E : Type} `{MessageQueueBackend Q} `{AckTrackerBackend A} `{JsonText}.
Context (to_string : ServerMessage -> result E string) (env : Env).
(** [serde_json::from_str] of a payload. *)
Context (decode : string -> result string RedisNotificationMessage).
(** The generator behind the jitter. *)
Context (draw : f64 -> f64 -> f64).
Implicit Types w : World Q A.

Definition resolved_of (d : RedisEventData) : ResolvedContent :=
  {| rc_event_type := re_event_type d; rc_payload := re_payload d; rc_priority := re_priority d;
     rc_ttl := re_ttl d |}.

(** A payload that does not decode, or names no target, is dropped. *)
Definition handle_message (channel payload : string) w : option DeliveryResult * World Q A :=
  match decode payload with
  | Err _ => (None, w)
  | Ok m =>
    match parse_target m (rm_tenant_id m) with
    | None => (None, w)
    | Some target =>
      let ew := fresh_event env (resolved_of (rm_event m)) ("redis:" +:+ channel) None
                  (re_correlation_id (rm_event m)) w in
      let r := dispatch_for_tenant to_string env target ew.1 (rm_tenant_id m) ew.2 in
      (Some r.1, r.2)
    end
  end.

Record RedisSubscriber := mk_sub {
  circuit_breaker : CircuitBreaker.CircuitBreaker;
  health : Health.RedisHealth;
  backoff : Backoff.ExponentialBackoff;
  world : World Q A;
}.

Definition on_breaker (f : CircuitBreaker.CircuitBreaker -> CircuitBreaker.CircuitBreaker) (s : RedisSubscriber) :=
  mk_sub (f (circuit_breaker s)) (health s) (backoff s) (world s).
Definition on_health (f : Health.RedisHealth -> Health.RedisHealth) (s : RedisSubscriber) :=
  mk_sub (circuit_breaker s) (f (health s)) (backoff s) (world s).
Definition on_world (f : World Q A -> World Q A) (s : RedisSubscriber) :=
  mk_sub (circuit_breaker s) (health s) (backoff s) (f (world s)).

(** What the subscription yields next: the shutdown signal, a message (its
    payload may not be text), or the end of the stream. *)
Inductive SubEvent :=
| EvShutdown
| EvMessage (channel : string) (payload : option string) (now : Z)
| EvEnd.

(** The loop of [run_subscription_loop]: [true] when it has ended, [false]
    while it waits for more. *)
Fixpoint event_loop (events : list SubEvent) (s : RedisSubscriber) : bool * RedisSubscriber :=
  match events with
  | [] => (false, s)
  | EvShutdown :: _ => (true, s)
  | EvEnd :: _ => (true, s)
  | EvMessage channel payload now :: rest =>
    let s1 := on_breaker (fun b => CircuitBreaker.record_success b now) s in
    match payload with
    | None => event_loop rest s1
    | Some p => event_loop rest (on_world (fun w => (handle_message channel p w).2) s1)
    end
  end.

(** A connection attempt: an error on the way to the subscription, or an
    established subscription and what it yields. *)
Inductive Attempt := ConnectFails (error : string) | Established (now : Z) (events : list SubEvent).

(** The readings and events of one turn of the loop of [start]. *)
Record Turn := {
  tn_now : Z; tn_now' : Z;             (* the breaker's clock at the top *)
  tn_attempt : Attempt;
  tn_failed_at : Z;                    (* the breaker's clock after an error *)
  tn_logged_at : Z * Z;                (* and in the log line *)
  tn_shutdown : bool;                  (* shutdown while waiting *)
}.

Inductive TurnResult := Again (s : RedisSubscriber) | Stopped (s : RedisSubscriber) | Waiting (s : RedisSubscriber)
                    | Panicked.

Definition run_subscription_loop (a : Attempt) (s : RedisSubscriber) : result string bool * RedisSubscriber :=
  match a with
  | ConnectFails e => (Err e, s)
  | Established now events =>
    let s1 := on_health (fun h => Health.set_connected h now)
                (on_breaker (fun b => CircuitBreaker.record_success b now) s) in
    let r := event_loop events s1 in (Ok r.1, r.2)
  end.

Definition start_turn (t : Turn) (s : RedisSubscriber) : TurnResult :=
  let sb := CircuitBreaker.state (circuit_breaker s) (tn_now t) (tn_now' t) in
  let s := on_breaker (fun _ => sb.2) s in
  match sb.1 with
  | CircuitBreaker.Open => Again (on_health Health.set_circuit_open s)
  | _ =>
    let s := on_health Health.set_reconnecting s in
    match run_subscription_loop (tn_attempt t) s with
    | (Ok true, s') => Stopped s'
    | (Ok false, s') => Waiting s'
    | (Err _, s') =>
      let s1 := on_breaker (fun b => CircuitBreaker.record_failure b (tn_failed_at t)) s' in
      match Backoff.next_delay draw (backoff s1) with
      | None => Panicked
      | Some (_, bo) =>
        let s2 := on_breaker (fun b => (CircuitBreaker.state b (tn_logged_at t).1 (tn_logged_at t).2).2)
                    (mk_sub (circuit_breaker s1) (health s1) bo (world s1)) in
        if tn_shutdown t then Stopped s2 else Again s2
      end
    end
  end.

(** [start]: turns until the subscriber stops, waits or panics; [Again] when
    the given turns are used up. *)
Fixpoint start_loop (turns : list Turn) (s : RedisSubscriber) : TurnResult :=
  match turns with
  | [] => Again s
  | t :: rest => match start_turn t s with Again s' => start_loop rest s' | o => o end
  end.

Definition start (c : RedisConfig) (turns : list Turn) (cb : CircuitBreaker.CircuitBreaker)
  (h : Health.RedisHealth) w : TurnResult :=
  match get_channels c with
  | [] => Stopped (mk_sub cb h (Backoff.with_config (backoff_config c)) w)
  | _ => start_loop turns (mk_sub cb h (Backoff.with_config (backoff_config c)) w)
  end.
End subscriber.
Arguments RedisSubscriber : clear implicits.
Arguments TurnResult : clear implicits.

(** ** Properties *)

(** A message received over Redis for a tenant names the same channel as
    the same request over HTTP with that tenant's context. *)
Theorem redis_http_same_channel t name :
  redis_namespace_channel name (Some t) = request_channel (Some (TenantContext_new t)) name.
Proof.
  unfold redis_namespace_channel, request_channel, namespace_channel, TenantContext_new; simpl.
  case_decide as D; case_bool_decide; done.
Qed.

Section properties.
Context {Q A E : Type} `{MessageQueueBackend Q} `{AckTrackerBackend A} `{JsonText}.
Context (to_string : ServerMessage -> result E string) (env : Env).
Context (decode : string -> result string RedisNotificationMessage) (draw : f64 -> f64 -> f64).
Implicit Types w : World Q A.
Implicit Types s : RedisSubscriber Q A.

Abbreviation turn_of := (start_turn to_string env decode draw).
Abbreviation loop_of := (start_loop to_string env decode draw).

(** The end of the message stream (a lost connection) stops the
    subscriber for good: [start] returns as after a shutdown, whatever turns
    would follow, with the health it last recorded. *)
Theorem stream_end_stops turns t now before_ s :
  (CircuitBreaker.state (circuit_breaker s) (tn_now t) (tn_now' t)).1 <> CircuitBreaker.Open ->
  tn_attempt t = Established now (before_ ++ [EvEnd]) -> ~ EvShutdown ∈ before_ -> ~ EvEnd ∈ before_ ->
  exists s', loop_of (t :: turns) s = Stopped s' /\ Health.is_healthy (health s') = true.
Proof.
  intros St At Ns Ne. simpl. unfold start_turn. rewrite At.
  set (sb := CircuitBreaker.state _ _ _) in *.
  assert (L : forall es s0, ~ EvShutdown ∈ es -> ~ EvEnd ∈ es ->
    exists s', event_loop to_string env decode (es ++ [EvEnd]) s0 = (true, s') /\ health s' = health s0).
  { induction es as [|[|ch p n|] es IH]; intros s0 H1' H2'; simpl; [by eexists|set_solver| |set_solver].
    destruct p as [p|]; (edestruct IH as (s' & -> & Hh); [set_solver..|]); eexists; (split; [done|]);
      by rewrite Hh. }
  edestruct L as (s' & Es & Hh); [exact Ns|exact Ne|].
  exists s'. destruct sb.1; [|done|]; simpl; rewrite Es; (split; [done|]); by rewrite Hh.
Qed.

(** While the breaker is open no connection is attempted and no message
    is handled: the turn only marks the health as circuit-open, and the next
    turn asks the breaker again. *)
Theorem open_breaker_waits t s :
  (CircuitBreaker.state (circuit_breaker s) (tn_now t) (tn_now' t)).1 = CircuitBreaker.Open ->
  exists s', turn_of t s = Again s' /\ world s' = world s /\ backoff s' = backoff s /\
    Health.status (health s') = Health.CircuitOpen /\
    forall a, turn_of {| tn_now := tn_now t; tn_now' := tn_now' t; tn_attempt := a;
                         tn_failed_at := tn_failed_at t; tn_logged_at := tn_logged_at t;
                         tn_shutdown := tn_shutdown t |} s = Again s'.
Proof.
  intros Ho. unfold start_turn. cbn [tn_now tn_now' tn_attempt]. rewrite Ho.
  eexists. split_and!; try done.
Qed.

(** Each message received is handled in order and on its own: one that
    does not decode or names no known target changes nothing, any other is
    dispatched once to the target it names in the scope of its own tenant. *)
Theorem handle_message_spec channel text w :
  let r := handle_message to_string env decode channel text w in
  match decode text with
  | Err _ => r = (None, w)
  | Ok m =>
    match parse_target m (rm_tenant_id m) with
    | None => r = (None, w)
    | Some target => exists e,
        event_type e = re_event_type (rm_event m) /\ payload e = re_payload (rm_event m) /\
        priority (metadata e) = re_priority (rm_event m) /\ ttl (metadata e) = re_ttl (rm_event m) /\
        correlation_id (metadata e) = re_correlation_id (rm_event m) /\
        source (metadata e) = "redis:" +:+ channel /\
        r = (let d := dispatch_for_tenant to_string env target e (rm_tenant_id m)
                        (mk_world (disp w) (log w) (S (ticks w))) in (Some d.1, d.2))
    end
  end.
Proof.
  cbn zeta. unfold handle_message. destruct (decode text) as [m|]; [|done].
  destruct (parse_target _ _) as [target|]; [|done]. eexists. split_and!; [..|reflexivity];
    unfold fresh_event, event_of, resolved_of; simpl; by destruct (re_ttl _), (re_correlation_id _).
Qed.
End properties.

Section witnesses.
#[local] Existing Instance no_json_text.

Definition example_config : RedisConfig :=
  {| channels := []; circuit_breaker_failure_threshold := 5; circuit_breaker_success_threshold := 2;
     circuit_breaker_reset_timeout_seconds := 30; backoff_initial_delay_ms := 100;
     backoff_max_delay_ms := 30000 |}.
Definition example_subscriber : RedisSubscriber Memory.MemoryQueueBackend AckMemory.MemoryAckBackend :=
  mk_sub (CircuitBreaker.with_config (breaker_config example_config) 0) Health.new
         (Backoff.with_config (backoff_config example_config)) example_world.
Definition no_decode (s : string) : result string RedisNotificationMessage := Err "".
Definition example_turn (a : Attempt) : Turn :=
  {| tn_now := 0; tn_now' := 0; tn_attempt := a; tn_failed_at := 0; tn_logged_at := (0, 0); tn_shutdown := false |}.

Lemma stream_end_stops_witness :
  exists s', start_loop no_text example_env no_decode (fun lo _ => lo)
               [example_turn (Established 1 ([EvMessage "c" (Some "x") 2] ++ [EvEnd]));
                example_turn (Established 3 [])] example_subscriber = Stopped s' /\
             Health.is_healthy (health s') = true.
Proof.
  apply (stream_end_stops no_text example_env no_decode (fun lo _ => lo) [example_turn (Established 3 [])]
           (example_turn (Established 1 ([EvMessage "c" (Some "x") 2] ++ [EvEnd]))) 1
           [EvMessage "c" (Some "x") 2] example_subscriber);
    [vm_compute; discriminate|reflexivity|set_solver|set_solver].
Defined.

Definition open_subscriber : RedisSubscriber Memory.MemoryQueueBackend AckMemory.MemoryAckBackend :=
  on_breaker (fun b => CircuitBreaker.transition_to b CircuitBreaker.Open 0) example_subscriber.

Lemma open_breaker_waits_witness :
  exists s', start_turn no_text example_env no_decode (fun lo _ => lo) (example_turn (Established 3 []))
               open_subscriber = Again s' /\ Health.status (health s') = Health.CircuitOpen.
Proof.
  destruct (open_breaker_waits no_text example_env no_decode (fun lo _ => lo) (example_turn (Established 3 []))
              open_subscriber) as (s' & E1 & _ & _ & E2 & _); [vm_compute; reflexivity|].
  exists s'. split; [exact E1|exact E2].
Defined.
End witnesses.
