(* ===== verification/Realtime.v ===== *)
(** * Realtime: the WebSocket and SSE connections

    Models [domain/realtime/websocket/handler.rs] and
    [domain/realtime/sse/handler.rs].  A connection's message channel holds
    [CHANNEL_BUFFER_SIZE] messages; until the handler has spawned the task
    that empties it, a send that finds it full waits.

    The queue and acknowledgement backends of the application state are the
    ones given to the dispatcher, so they are reached through it here.  The
    session store of the cluster is outside this file: the calls a handler
    makes to it, when it is enabled, are recorded in order. *)
From S2P Require Import Prelude Auth Tenant Notification Ack Queue Connection Template Dispatcher.

Definition CHANNEL_BUFFER_SIZE : nat := 32.

Record SessionInfo := {
  si_connection_id : uuid; si_user_id : string; si_tenant_id : string; si_server_id : string;
  si_connected_at : Z; si_channels : list string;
}.
Inductive SessionCall :=
| RegisterSession (i : SessionInfo)
| UpdateSessionChannels (connection : uuid) (channels : list string)
| UnregisterSession (connection : uuid).

Record AppState (Q A : Type) := mk_state {
  core : World Q A;
  tenant_manager : TenantManager;
  session_enabled : bool;
  server_id : string;
  session_calls : list SessionCall;
}.
Arguments mk_state {Q A} _ _ _ _ _.
Arguments core {Q A} _.
Arguments tenant_manager {Q A} _.
Arguments session_enabled {Q A} _.
Arguments server_id {Q A} _.
Arguments session_calls {Q A} _.

(** A frame of the socket. *)
Inductive Message := MText (text : string) | MBinary | MPing | MPong | MClose.

(** [sender.send(msg).await] for each message while nobody receives: the
    buffer, and the messages that do not fit, the first of which is waited
    for without end. *)
Fixpoint fill (cap : nat) (buffer msgs : list OutboundMessage) : list OutboundMessage * list OutboundMessage :=
  match msgs with
  | [] => (buffer, [])
  | m :: r => if (length buffer <? cap)%nat then fill cap (buffer ++ [m]) r else (buffer, msgs)
  end.

(** A double quote. *)
Definition DQ : string := String (Ascii.ascii_of_nat 34) "".

Section handlers.
Context {Q A E : Type} `{MessageQueueBackend Q} `{AckTrackerBackend A} `{UnicodeTables}.
Context (to_string : ServerMessage -> result E string) (env : Env).
(** The printers of [uuid] and of serialization errors; [serde_json::from_str]
    of a frame; [jwt_validator.validate] of a token. *)
Context (uuid_text : uuid -> string) (err_text : E -> string).
Context (decode : string -> result string ClientMessage) (validate : string -> result string Claims).
Implicit Types st : AppState Q A.

Abbreviation manager st := (connection_manager (disp (core st))).

Definition set_core (w : World Q A) st : AppState Q A :=
  mk_state w (tenant_manager st) (session_enabled st) (server_id st) (session_calls st).
Definition set_manager (m : ConnectionManager) st : AppState Q A :=
  let w := core st in
  set_core (mk_world (mk_dispatcher m (queue_backend (disp w)) (ack_backend (disp w)) (d_stats (disp w)))
              (log w) (ticks w)) st.
Definition tick st : AppState Q A :=
  set_core (mk_world (disp (core st)) (log (core st)) (S (ticks (core st)))) st.
Definition now_of st : Z := env_clock env (ticks (core st)).
Definition session_call (c : SessionCall) st : AppState Q A :=
  if session_enabled st
  then mk_state (core st) (tenant_manager st) (session_enabled st) (server_id st) (session_calls st ++ [c])
  else st.

(** [let _ = handle.send(message).await] *)
Definition reply (h : ConnectionHandle) (m : ServerMessage) st : AppState Q A :=
  set_core (conn_send env h (Raw m) (core st)).2 st.

Definition msg_error (code message : string) : ServerMessage := Error code message.

(** ** Opening *)

(** Drain the user's queue: the messages to replay. *)
Definition drain_for_replay (key : string) st : list OutboundMessage * AppState Q A :=
  let w := core st in
  match queue_backend (disp w) with
  | Some q =>
    if q_is_enabled q then
      let r := q_drain q key (fun k => env_clock env (ticks w + k)) in
      (match r.1 with
       | Ok d => map (fun m => Raw (Notification (sm_event m))) (messages d)
       | Err _ => []
       end, set_core (mk_world (set_queue_backend (disp w) r.2) (log w) (S (ticks w))) st)
    else ([], st)
  | None => ([], st)
  end.

Inductive Opened :=
| Rejected (e : ConnectionError)             (* the limit error is reported, the socket closed *)
| ReplayBlocked (h : ConnectionHandle) (buffer waiting : list OutboundMessage)
| OpenedConnection (h : ConnectionHandle) (buffer : list OutboundMessage).

(** What a refused client is told before the socket closes. *)
Definition rejection (e : ConnectionError) : ServerMessage := msg_error "CONNECTION_LIMIT" (error_display e).

(** [handle_socket] up to the spawning of its tasks. *)
Definition open_socket (claims : Claims) st : Opened * AppState Q A :=
  let user := claims_user_id claims in
  let tenant := claims_tenant_id claims in
  match register (manager st) user tenant (Auth.roles claims) (env_fresh env (ticks (core st))) (now_of st) with
  | (Err e, m) => (Rejected e, tick (set_manager m st))
  | (Ok h, m) =>
    let st1 := tick (set_manager m st) in
    let info := {| si_connection_id := conn_id h; si_user_id := user; si_tenant_id := tenant;
                   si_server_id := server_id st1; si_connected_at := timestamp (now_of st1); si_channels := [] |} in
    let st2 := session_call (RegisterSession info) st1 in
    let d := drain_for_replay (tenant_scoped_key tenant user) st2 in
    let b := fill CHANNEL_BUFFER_SIZE [] d.1 in
    (match b.2 with [] => OpenedConnection h b.1 | waiting => ReplayBlocked h b.1 waiting end, d.2)
  end.

(** ** Frames *)

Definition handle_ack (n : uuid) (h : ConnectionHandle) st : AppState Q A :=
  match ack_backend (disp (core st)) with
  | Some a =>
    if negb (a_is_enabled a) then st
    else
      let r := a_acknowledge a n (user_id h) (now_of st) in
      let st1 := set_core (mk_world (set_ack_backend (disp (core st)) r.2) (log (core st)) (S (ticks (core st)))) st in
      if r.1 then reply h (Acked n) st1
      else reply h (msg_error "INVALID_ACK" ("Unknown or invalid notification: " +:+ uuid_text n)) st1
  | None => st
  end.

(** The loop of [handle_subscribe]: the channels subscribed to and the errors. *)
Fixpoint subscribe_loop (ctx : TenantContext) (i : uuid) (channels : list string)
  (m : ConnectionManager) : (list string * list string) * ConnectionManager :=
  match channels with
  | [] => (([], []), m)
  | c :: r =>
    if negb (is_valid_channel_name c) then
      let s := subscribe_loop ctx i r m in ((s.1.1, ("Invalid channel name: " +:+ c) :: s.1.2), s.2)
    else
      match subscribe_to_channel m i (namespace_channel ctx c) with
      | (Ok _, m') => let s := subscribe_loop ctx i r m' in ((c :: s.1.1, s.1.2), s.2)
      | (Err e, m') => let s := subscribe_loop ctx i r m' in ((s.1.1, e :: s.1.2), s.2)
      end
  end.

(** The channels in the shared handle, for the cluster's session. *)
Definition current_channels (h : ConnectionHandle) st : list string :=
  elements (subscriptions (default h (connections (manager st) !! conn_id h))).

Definition handle_subscribe (channels : list string) (h : ConnectionHandle) st : AppState Q A :=
  let ctx := create_context (tenant_manager st) (tenant_id h) in
  let s := subscribe_loop ctx (conn_id h) channels (manager st) in
  let st1 := set_manager s.2 st in
  let st2 := match s.1.1 with
             | [] => st1
             | subscribed => let st' := reply h (Subscribed subscribed) st1 in
                             session_call (UpdateSessionChannels (conn_id h) (current_channels h st')) st'
             end in
  match s.1.2 with
  | [] => st2
  | errors => reply h (msg_error "SUBSCRIPTION_ERROR" (join "; " errors)) st2
  end.

Definition unsubscribe_loop (ctx : TenantContext) (i : uuid) (channels : list string) (m : ConnectionManager)
  : ConnectionManager :=
  fold_left (fun m c => unsubscribe_from_channel m i (namespace_channel ctx c)) channels m.

Definition handle_unsubscribe (channels : list string) (h : ConnectionHandle) st : AppState Q A :=
  let ctx := create_context (tenant_manager st) (tenant_id h) in
  let st1 := set_manager (unsubscribe_loop ctx (conn_id h) channels (manager st)) st in
  match channels with
  | [] => st1
  | _ => let st' := reply h (Unsubscribed channels) st1 in
         session_call (UpdateSessionChannels (conn_id h) (current_channels h st')) st'
  end.

Definition handle_client_message (m : ClientMessage) (h : ConnectionHandle) st : AppState Q A :=
  match m with
  | Subscribe cs => handle_subscribe cs h st
  | Unsubscribe cs => handle_unsubscribe cs h st
  | Ping => reply h Pong st
  | Notification.Ack n => handle_ack n h st
  end.

Definition touch_handle (h : ConnectionHandle) st : AppState Q A :=
  tick (set_manager (touch (manager st) (conn_id h) (now_of st)) st).

(** [process_message]: [false] closes the connection. *)
Definition process_message (msg : Message) (h : ConnectionHandle) st : bool * AppState Q A :=
  match msg with
  | MText text =>
    let st1 := touch_handle h st in
    match decode text with
    | Err e => (true, reply h (msg_error "INVALID_MESSAGE" e) st1)
    | Ok m => (true, handle_client_message m h st1)
    end
  | MBinary => (true, reply h (msg_error "UNSUPPORTED_FORMAT" "Binary messages are not supported") st)
  | MPing | MPong => (true, touch_handle h st)
  | MClose => (false, st)
  end.

(** The receive task: frames until a close or a receive error. *)
Fixpoint receive_loop (frames : list (option Message)) (h : ConnectionHandle) st : AppState Q A :=
  match frames with
  | [] => st
  | None :: _ => st
  | Some f :: r => let s := process_message f h st in if s.1 then receive_loop r h s.2 else s.2
  end.

(** ** Closing *)

Definition close_socket (i : uuid) st : AppState Q A :=
  session_call (UnregisterSession i) (set_manager (unregister (manager st) i) st).

(** [handle_socket].  The connection is closed when either task ends; when
    it is the sending task, the receiving one is not stopped and handles the
    [late] frames afterwards. *)
Definition handle_socket (claims : Claims) (frames late : list (option Message)) st : Opened * AppState Q A :=
  match open_socket claims st with
  | (OpenedConnection h buffer, st1) =>
    (OpenedConnection h buffer, receive_loop late h (close_socket (conn_id h) (receive_loop frames h st1)))
  | r => r
  end.

(** [ws_handler]: the response status when the upgrade is refused. *)
Definition ws_handler (query_token auth_header : option string) : result (Z * string) Claims :=
  match extract_token query_token auth_header with
  | None => Err (401, "Missing authentication token")
  | Some t => match validate t with
              | Err _ => Err (401, "Invalid token")
              | Ok c => Ok c
              end
  end.

(** [sse_handler]: the same opening, its outcome told by the response. *)
Inductive SseResponse :=
| SseStatus (status : Z) (body : string)
| SseHangs (buffer waiting : list OutboundMessage)
| SseStream (h : ConnectionHandle) (buffer : list OutboundMessage).

Definition sse_handler (query_token auth_header : option string) st : SseResponse * AppState Q A :=
  match sse_extract_token query_token auth_header with
  | None => (SseStatus 401 "Missing authentication token", st)
  | Some t =>
    match validate t with
    | Err _ => (SseStatus 401 "Invalid token", st)
    | Ok claims =>
      match open_socket claims st with
      | (Rejected e, st') => (SseStatus 429 ("Connection limit exceeded: " +:+ error_display e), st')
      | (ReplayBlocked _ b w, st') => (SseHangs b w, st')
      | (OpenedConnection h b, st') => (SseStream h b, st')
      end
    end
  end.

(** The drop of the stream's [CleanupGuard]. *)
Definition cleanup_guard_drop (i : uuid) st : AppState Q A := close_socket i st.

(** The event of a message on an SSE stream. *)
Definition sse_event (m : OutboundMessage) : string * string :=
  match to_json to_string m with
  | Ok json =>
    (match m with
     | Raw (Notification _) => "notification"
     | Raw Heartbeat => "heartbeat"
     | Raw (Error _ _) => "error"
     | Raw _ => "message"
     | Serialized _ => "notification"
     end, json)
  | Err e => ("error", "{" +:+ DQ +:+ "code" +:+ DQ +:+ ":" +:+ DQ +:+ "SERIALIZATION_ERROR" +:+ DQ +:+ "," +:+
                       DQ +:+ "message" +:+ DQ +:+ ":" +:+ DQ +:+ err_text e +:+ DQ +:+ "}")
  end.
End handlers.

(** ** Subscriptions *)

Section subscriptions.
Context `{UnicodeTables}.

(** The loop splits the request in two: what it reports as subscribed is
    valid and joined under its tenant's name, and nothing else changes. *)
Lemma subscribe_loop_spec ctx i channels m h :
  connections m !! i = Some h ->
  let s := subscribe_loop ctx i channels m in
  (length s.1.1 + length s.1.2 = length channels)%nat /\
  sublist s.1.1 channels /\ Forall (fun c => is_valid_channel_name c = true) s.1.1 /\
  exists h', connections s.2 !! i = Some h' /\ conn_id h' = conn_id h /\ user_id h' = user_id h /\
    tenant_id h' = tenant_id h /\
    subscriptions h' = list_to_set (namespace_channel ctx <$> s.1.1) ∪ subscriptions h.
Proof.
  revert m h. induction channels as [|c r IH]; intros m h Hh; simpl.
  { split_and!; auto. exists h. split_and!; auto. set_solver. }
  destruct (is_valid_channel_name c) eqn:V; simpl.
  - unfold subscribe_to_channel. rewrite Hh. cbn zeta. destruct (_ && _)%bool; simpl.
    + destruct (IH m h Hh) as (L & S & F & X). split_and!; try done; [lia|by constructor].
    + set (h1 := set_subscriptions _ h). set (m1 := mk _ _ _ _ _).
      destruct (IH m1 h1) as (L & S & F & h' & E1 & E2 & E3 & E4 & E5); [apply lookup_insert_eq|].
      split_and!; [lia|by constructor|by constructor|]. exists h'. split_and!; try done.
      rewrite E5. unfold h1; simpl. set_solver.
  - destruct (IH m h Hh) as (L & S & F & X). split_and!; try done; [lia|by constructor].
Qed.

Lemma wf_subscribe_loop ctx i channels m : wf m -> wf (subscribe_loop ctx i channels m).2.
Proof.
  revert m. induction channels as [|c r IH]; intros m W; simpl; [done|].
  destruct (is_valid_channel_name c); simpl; [|auto].
  pose proof (wf_subscribe m i (namespace_channel ctx c) W) as W'.
  destruct (subscribe_to_channel _ _ _) as [[] m']; simpl in *; auto.
Qed.

Lemma wf_unsubscribe_loop ctx i channels m : wf m -> wf (unsubscribe_loop ctx i channels m).
Proof.
  unfold unsubscribe_loop. revert m. induction channels as [|c r IH]; intros m W; simpl; [done|].
  apply IH. auto with ara.
Qed.

(** A connection that is gone cannot subscribe, nor come back. *)
Lemma subscribe_loop_gone ctx i channels m :
  connections m !! i = None -> (subscribe_loop ctx i channels m).2 = m.
Proof.
  intros N. induction channels as [|c r IH]; simpl; [done|].
  destruct (is_valid_channel_name c); simpl; [|done].
  assert (Eq : subscribe_to_channel m i (namespace_channel ctx c) = (Err "Connection not found", m))
    by (unfold subscribe_to_channel; by rewrite N).
  by rewrite Eq.
Qed.

Lemma unsubscribe_loop_gone ctx i channels m :
  connections m !! i = None -> unsubscribe_loop ctx i channels m = m.
Proof.
  intros N. unfold unsubscribe_loop. induction channels as [|c r IH]; simpl; [done|].
  assert (Eq : unsubscribe_from_channel m i (namespace_channel ctx c) = m)
    by (unfold unsubscribe_from_channel; by rewrite N).
  by rewrite Eq.
Qed.

Lemma unsubscribe_loop_subs ctx i channels m h :
  connections m !! i = Some h ->
  exists h', connections (unsubscribe_loop ctx i channels m) !! i = Some h' /\
    subscriptions h' = subscriptions h ∖ list_to_set (namespace_channel ctx <$> channels).
Proof.
  unfold unsubscribe_loop. revert m h. induction channels as [|c r IH]; intros m h Hh; simpl.
  { exists h. split; [done|]. set_solver. }
  destruct (IH (unsubscribe_from_channel m i (namespace_channel ctx c))
              (set_subscriptions (fun s => s ∖ {[namespace_channel ctx c]}) h)) as (h' & E1 & E2).
  { unfold unsubscribe_from_channel. rewrite Hh. apply lookup_insert_eq. }
  exists h'. split; [done|]. rewrite E2. simpl. set_solver.
Qed.
End subscriptions.

Lemma fill_spec cap buffer msgs :
  (length buffer <= cap)%nat ->
  fill cap buffer msgs = (buffer ++ take (cap - length buffer) msgs, drop (cap - length buffer) msgs).
Proof.
  revert buffer. induction msgs as [|m r IH]; intros buffer L; simpl.
  { by rewrite take_nil, drop_nil, app_nil_r. }
  destruct (length buffer <? cap)%nat eqn:E; bool_to_prop.
  - rewrite IH by (rewrite length_app; simpl; lia). rewrite length_app; simpl.
    replace (cap - length buffer)%nat with (S (cap - (length buffer + 1)))%nat by lia. simpl.
    by rewrite <- app_assoc.
  - replace (cap - length buffer)%nat with 0%nat by lia. simpl. by rewrite app_nil_r.
Qed.

Section lifecycle.
Context {Q A E : Type} `{QueueLaws Q} `{AckTrackerBackend A} `{UnicodeTables}.
Context (to_string : ServerMessage -> result E string) (env : Env).
Implicit Types st : AppState Q A.

Abbreviation manager st := (connection_manager (disp (core st))).
Abbreviation opened := (open_socket env).

Lemma manager_reply h m st : manager (reply env h m st) = manager st.
Proof. unfold reply, conn_send. by destruct (env_accepts _ _ _ _). Qed.
Lemma manager_session_call c st : manager (session_call c st) = manager st.
Proof. unfold session_call. by case_match. Qed.

Lemma manager_handle_subscribe cs h st :
  manager (handle_subscribe env cs h st) =
  (subscribe_loop (create_context (tenant_manager st) (tenant_id h)) (conn_id h) cs (manager st)).2.
Proof.
  unfold handle_subscribe. destruct (subscribe_loop _ _ _ _) as [[sub errs] m']. cbn [fst snd].
  destruct errs; destruct sub; rewrite ?manager_reply, ?manager_session_call, ?manager_reply; done.
Qed.

Lemma manager_handle_unsubscribe cs h st :
  manager (handle_unsubscribe env cs h st) =
  unsubscribe_loop (create_context (tenant_manager st) (tenant_id h)) (conn_id h) cs (manager st).
Proof.
  unfold handle_unsubscribe. destruct cs; [done|]. by rewrite manager_session_call, manager_reply.
Qed.

Lemma manager_drain key st : manager (drain_for_replay env key st).2 = manager st.
Proof.
  unfold drain_for_replay. destruct (queue_backend _); [|done]. by destruct (q_is_enabled _).
Qed.

(** The connection an opening leaves in the manager. *)
Lemma open_socket_manager claims st o st' :
  wf (manager st) -> connections (manager st) !! env_fresh env (ticks (core st)) = None ->
  opened claims st = (o, st') ->
  match o with
  | Rejected _ => manager st' = manager st
  | ReplayBlocked h _ _ | OpenedConnection h _ =>
    wf (manager st') /\ connections (manager st') !! conn_id h = Some h /\
    user_id h = claims_user_id claims /\ tenant_id h = claims_tenant_id claims /\
    (forall j, j <> conn_id h -> connections (manager st') !! j = connections (manager st) !! j) /\
    connections (manager st) !! conn_id h = None
  end.
Proof.
  intros W F. unfold opened, open_socket. unfold register.
  pose proof (wf_register (manager st) (claims_user_id claims) (claims_tenant_id claims) (Auth.roles claims)
    (limits (manager st)) (env_fresh env (ticks (core st))) (now_of env st) W F) as W'.
  unfold register_with_limits in *. destruct (check_limits _ _ _) as [?|e]; simpl.
  2: { by intros [= <- <-]. }
  match goal with |- context [drain_for_replay env ?k ?s] => pose proof (manager_drain k s) as D;
    destruct (drain_for_replay env k s) as [ms st2] end.
  simpl in *. rewrite manager_session_call in D. simpl in D.
  destruct (fill CHANNEL_BUFFER_SIZE [] ms).2; intros [= <- <-]; rewrite D; simpl;
    (split_and!; [done|apply lookup_insert_eq|done|done| |done]); intros j Hj; by rewrite lookup_insert_ne.
Qed.

(** Subscribing: on a registered connection, the channels that are
    reported as subscribed are those with a valid name that the limit let
    in, the handle is subscribed to exactly these under its tenant's name
    besides what it had, and unsubscribing from the same list leaves none. *)
Theorem subscribe_unsubscribe cs h st :
  connections (manager st) !! conn_id h = Some h ->
  let ctx := create_context (tenant_manager st) (tenant_id h) in
  exists subscribed errors h',
    (subscribe_loop ctx (conn_id h) cs (manager st)).1 = (subscribed, errors) /\
    (length subscribed + length errors = length cs)%nat /\ sublist subscribed cs /\
    Forall (fun c => is_valid_channel_name c = true) subscribed /\
    connections (manager (handle_subscribe env cs h st)) !! conn_id h = Some h' /\
    subscriptions h' = list_to_set (namespace_channel ctx <$> subscribed) ∪ subscriptions h /\
    exists h'', connections (unsubscribe_loop ctx (conn_id h) cs (manager (handle_subscribe env cs h st)))
                  !! conn_id h = Some h'' /\
      subscriptions h'' = subscriptions h ∖ list_to_set (namespace_channel ctx <$> cs).
Proof.
  intros Hh ctx. rewrite manager_handle_subscribe. fold ctx.
  destruct (subscribe_loop_spec ctx (conn_id h) cs (manager st) h Hh) as (L & S & F & h' & E1 & E2 & E3 & E4 & E5).
  destruct (subscribe_loop ctx (conn_id h) cs (manager st)) as [[sub errs] m']. simpl in *.
  exists sub, errs, h'. split_and!; try done.
  destruct (unsubscribe_loop_subs ctx (conn_id h) cs m' h' E1) as (h'' & X1 & X2).
  exists h''. split; [done|]. rewrite X2, E5. apply set_eq. intros x.
  rewrite !elem_of_difference, elem_of_union, !elem_of_list_to_set.
  assert (namespace_channel ctx <$> sub ⊆ namespace_channel ctx <$> cs).
  { intros y (c & -> & Hc)%list_elem_of_fmap. apply list_elem_of_fmap_2.
    eapply elem_of_submseteq; [done|by apply sublist_submseteq]. }
  set_solver.
Qed.

(** What an opening replays: the drained messages, in order, as many as the
    channel holds. *)
Lemma open_socket_replays claims st q d q' :
  let key := tenant_scoped_key (claims_tenant_id claims) (claims_user_id claims) in
  is_ok (check_limits (manager st) (claims_user_id claims) (limits (manager st))) = true ->
  queue_backend (disp (core st)) = Some q -> q_is_enabled q = true ->
  q_drain q key (fun k => env_clock env (S (ticks (core st)) + k)) = (Ok d, q') ->
  (length (messages d) <= CHANNEL_BUFFER_SIZE)%nat ->
  exists h, (opened claims st).1 = OpenedConnection h (map (fun m => Raw (Notification (sm_event m))) (messages d)).
Proof.
  intros key Hl Hq He Hd Hn. unfold open_socket, register, register_with_limits.
  destruct (check_limits _ _ _) as [?|e]; [|done]. cbn [fst snd].
  match goal with |- context [drain_for_replay env ?k ?s] => set (s2 := s); fold key end.
  assert (Q2 : queue_backend (disp (core s2)) = Some q)
    by (unfold s2, session_call; simpl; by destruct (session_enabled st)).
  assert (T2 : ticks (core s2) = S (ticks (core st)))
    by (unfold s2, session_call; simpl; by destruct (session_enabled st)).
  unfold drain_for_replay. rewrite Q2, He, T2, Hd. cbn [fst snd].
  rewrite fill_spec by (simpl; lia). simpl. rewrite drop_ge by (rewrite length_map; done).
  rewrite take_ge by (rewrite length_map; done). by eexists.
Qed.

(** Offline delivery: a notification dispatched to a user of a tenant with no
    connection there is queued, and the next connection that user opens with a
    token of that tenant receives it, if the queue accepted it, it has not
    outlived the queue's time to live, and the channel holds what is replayed:
    the stream begins with what the drain returns, this notification included.
    The dispatcher is still as the dispatch left it then. *)
Lemma offline_delivery claims e st st1 q d q' hi :
  let u := claims_user_id claims in
  let t := claims_tenant_id claims in
  let key := tenant_scoped_key t u in
  let sent := dispatch_for_tenant to_string env (User u) e (Some t) (core st) in
  get_user_connections_filtered (manager st) u (Some t) = [] ->
  Notification.is_expired e (env_clock env (ticks (core st))) = false ->
  queue_backend (disp (core st)) = Some q -> q_is_enabled q = true ->
  let en := q_enqueue q key e (env_fresh env (S (ticks (core st)))) (env_clock env (S (ticks (core st)))) in
  en.1 = Ok tt ->
  is_ok (check_limits (manager st) u (limits (manager st))) = true ->
  disp (core st1) = disp sent.2 ->
  q_drain en.2 key (fun k => env_clock env (S (ticks (core st1)) + k)) = (Ok d, q') ->
  (exists lo, forall k, lo <= env_clock env (S (ticks (core st1)) + k) <= hi) ->
  age_expired (env_clock env (S (ticks (core st)))) (q_message_ttl_seconds en.2) hi = false ->
  (length (messages d) <= CHANNEL_BUFFER_SIZE)%nat ->
  sent.1 = delivery_new (id e) 0 0 /\
  let replay := map (fun m => Raw (Notification (sm_event m))) (messages d) in
  exists h, (opened claims st1).1 = OpenedConnection h replay /\ Raw (Notification e) ∈ replay.
Proof.
  intros u t key sent G X Hq He en Hen Hl Es Hd (lo & Hc) Ha Hn.
  assert (C1 : sent = (delivery_new (id e) 0 0, upd_disp (fun d => set_stats (count_queued (d_stats d)) d)
    (mk_world (set_queue_backend (disp (core st)) en.2) (log (core st)) (S (S (ticks (core st))))))).
  { unfold sent, dispatch_for_tenant. rewrite X. unfold send_to_user_for_tenant. cbn [disp]. rewrite G.
    unfold try_enqueue. cbn [disp log ticks]. rewrite Hq, He. unfold tenant_queue_key. cbn [default from_option].
    change (Datatypes.id t) with t. fold key. fold en. by rewrite Hen. }
  rewrite C1 in *. split; [done|]. simpl in Es.
  assert (Ee : q_is_enabled en.2 = true) by (unfold en; by rewrite q_enabled_enqueue).
  destruct (open_socket_replays claims st1 en.2 d q') as [h O]; rewrite ?Es; try done.
  eexists h. split; [exact O|].
  destruct (q_drain_ok en.2 key _ lo hi d q' Ee Hc Hd) as (_ & (_ & _ & K) & _).
  destruct (q_enqueue_ok q key e (env_fresh env (S (ticks (core st)))) (env_clock env (S (ticks (core st)))) en.2)
    as [k Hk]; [rewrite <- Hen; unfold en; by destruct (q_enqueue _ _ _ _ _)|].
  apply list_elem_of_fmap. exists (stored_new e (env_fresh env (S (ticks (core st)))) (env_clock env (S (ticks (core st))))).
  split; [done|]. apply K; [|exact Ha]. rewrite Hk. set_solver.
Qed.

(** *** With frames *)

Context (uuid_text : uuid -> string) (decode : string -> result string ClientMessage).
Abbreviation frame := (process_message env uuid_text decode).
Abbreviation frames_of := (receive_loop env uuid_text decode).

Lemma manager_handle_ack n h st : manager (handle_ack env uuid_text n h st) = manager st.
Proof.
  unfold handle_ack. destruct (ack_backend _) as [a|]; [|done]. destruct (negb (a_is_enabled a)); [done|]. cbn zeta.
  destruct (a_acknowledge a n (user_id h) _) as [[] ?]; cbn [fst snd]; by rewrite manager_reply.
Qed.

Lemma wf_frame msg h st : wf (manager st) -> wf (manager (frame msg h st).2).
Proof.
  intros W. assert (T : wf (manager (touch_handle env h st))) by (apply wf_touch; done).
  destruct msg as [text| | | |]; cbn [process_message fst snd]; try done; [|by rewrite manager_reply].
  destruct (decode text) as [m|e]; cbn [fst snd]; [|by rewrite manager_reply].
  destruct m; cbn [handle_client_message]; rewrite ?manager_handle_subscribe, ?manager_handle_unsubscribe, ?manager_reply, ?manager_handle_ack;
    auto using wf_subscribe_loop, wf_unsubscribe_loop.
Qed.

Lemma frame_gone msg h st :
  connections (manager st) !! conn_id h = None -> manager (frame msg h st).2 = manager st.
Proof.
  intros N. assert (T : manager (touch_handle env h st) = manager st) by (unfold touch_handle, touch; simpl; by rewrite N).
  destruct msg as [text| | | |]; cbn [process_message fst snd]; try done; [|by rewrite manager_reply].
  destruct (decode text) as [m|e]; cbn [fst snd]; [|by rewrite manager_reply].
  destruct m; cbn [handle_client_message];
    rewrite ?manager_handle_subscribe, ?manager_handle_unsubscribe, ?manager_reply, ?manager_handle_ack, T;
    auto using subscribe_loop_gone, unsubscribe_loop_gone.
Qed.

Lemma frames_gone fs h st :
  connections (manager st) !! conn_id h = None -> manager (frames_of fs h st) = manager st.
Proof.
  revert st. induction fs as [|[f|] fs IH]; intros st N; simpl; [done| |done].
  pose proof (frame_gone f h st N) as G. destruct (frame f h st) as [[] st']; simpl in *; [|done].
  rewrite IH; congruence.
Qed.

Lemma wf_frames fs h st : wf (manager st) -> wf (manager (frames_of fs h st)).
Proof.
  revert st. induction fs as [|[f|] fs IH]; intros st W; simpl; [done| |done].
  pose proof (wf_frame f h st W) as W'. destruct (frame f h st) as [[] st']; simpl in *; auto.
Qed.

(** C10: A whole WebSocket session, whatever its frames, late ones
    included: the manager stays consistent, and when the session is over its connection is gone from the
    manager, from every index and so from every later delivery. *)
Theorem session_leaves_no_trace claims fs late st h b st' user :
  wf (manager st) -> connections (manager st) !! env_fresh env (ticks (core st)) = None ->
  handle_socket env uuid_text decode claims fs late st = (OpenedConnection h b, st') ->
  wf (manager st') /\ connections (manager st') !! conn_id h = None /\
  (h ∉ get_user_connections (manager st') user) /\ (h ∉ get_tenant_connections (manager st') user) /\
  (h ∉ get_channel_connections (manager st') user).
Proof.
  intros W F. unfold handle_socket. destruct (opened claims st) as [o st1] eqn:O.
  pose proof (open_socket_manager _ _ _ _ W F O) as M. destruct o as [| |h1 b1]; [done..|].
  intros [= <- <- <-]. destruct M as (W1 & _).
  set (m2 := manager (receive_loop env uuid_text decode fs h1 st1)).
  assert (W2 : wf m2) by (by apply wf_frames).
  assert (W3 : wf (unregister m2 (conn_id h1))) by auto with ara.
  assert (N : connections (unregister m2 (conn_id h1)) !! conn_id h1 = None)
    by (rewrite connections_unregister; apply lookup_delete_eq).
  assert (C : manager (close_socket (conn_id h1) (receive_loop env uuid_text decode fs h1 st1)) =
              unregister m2 (conn_id h1)) by (unfold close_socket; by rewrite manager_session_call).
  rewrite frames_gone by (by rewrite C). rewrite C.
  rewrite elem_of_user_connections, elem_of_tenant_connections, elem_of_channel_connections, N by done.
  split_and!; naive_solver.
Qed.

(** Replay of a long queue never ends: when more messages wait for a user
    than the channel holds, the opening handler fills the channel before
    anything reads from it and stays there.  The connection is registered,
    no frame of it is ever handled, and the messages are gone from the
    queue. *)
Theorem long_replay_blocks claims fs late st q d q' :
  let key := tenant_scoped_key (claims_tenant_id claims) (claims_user_id claims) in
  let clock k := env_clock env (S (ticks (core st)) + k) in
  wf (manager st) -> connections (manager st) !! env_fresh env (ticks (core st)) = None ->
  is_ok (check_limits (manager st) (claims_user_id claims) (limits (manager st))) = true ->
  queue_backend (disp (core st)) = Some q -> q_is_enabled q = true ->
  (exists lo hi, forall k, lo <= clock k <= hi) ->
  q_drain q key clock = (Ok d, q') -> (CHANNEL_BUFFER_SIZE < length (messages d))%nat ->
  exists h buffer waiting st',
    handle_socket env uuid_text decode claims fs late st = (ReplayBlocked h buffer waiting, st') /\
    buffer ++ waiting = map (fun m => Raw (Notification (sm_event m))) (messages d) /\
    length buffer = CHANNEL_BUFFER_SIZE /\
    connections (manager st') !! conn_id h = Some h /\
    queue_backend (disp (core st')) = Some q' /\ q_contents q' key = [].
Proof.
  intros key clock W F Hl Hq He (lo & hi & Hc) Hd Hn.
  destruct (opened claims st) as [o st1] eqn:O.
  pose proof (open_socket_manager _ _ _ _ W F O) as M. unfold handle_socket. rewrite O.
  unfold opened, open_socket, register, register_with_limits in O.
  destruct (check_limits _ _ _) as [?|e]; [|done]. cbn [fst snd] in O.
  match type of O with context [drain_for_replay env ?k ?s] => set (s2 := s) in *; fold key in O end.
  assert (D : drain_for_replay env key s2 =
    (map (fun m => Raw (Notification (sm_event m))) (messages d),
     set_core (mk_world (set_queue_backend (disp (core s2)) q') (log (core s2)) (S (ticks (core s2)))) s2)).
  { unfold drain_for_replay.
    assert (Q2 : queue_backend (disp (core s2)) = Some q) by (unfold s2, session_call; simpl; by destruct (session_enabled st)).
    assert (T2 : ticks (core s2) = S (ticks (core st))) by (unfold s2, session_call; simpl; by destruct (session_enabled st)).
    rewrite Q2, He, T2. fold clock. by rewrite Hd. }
  rewrite D in O. cbn [fst snd] in O. rewrite fill_spec in O by (simpl; lia). simpl in O.
  set (ms := map _ _) in *.
  assert (Hlen : (CHANNEL_BUFFER_SIZE < length ms)%nat) by (unfold ms; by rewrite length_map).
  unfold CHANNEL_BUFFER_SIZE in *.
  destruct (drop 32 ms) as [|x rest] eqn:Dr.
  { apply (f_equal length) in Dr. rewrite length_drop in Dr. simpl in Dr. lia. }
  simplify_eq. eexists _, _, _, _. split; [reflexivity|]. destruct M as (_ & M & _).
  split_and!; try done.
  - rewrite <- Dr. apply take_drop.
  - rewrite length_take. lia.
  - by eapply q_drain_ok.
Qed.
End lifecycle.

(** ** Concrete sessions *)

Section witnesses.
#[local] Existing Instance ascii_only.

Definition example_claims (u t : string) : Claims :=
  {| sub := u; exp := 0; iat := 0; Auth.roles := []; Auth.tenant_id := Some t; extra := ∅ |}.
Definition example_state : AppState Memory.MemoryQueueBackend AckMemory.MemoryAckBackend :=
  mk_state example_world (TenantManager_new TenantConfig_default) false "s1" [].
(** Forty messages wait for carol. *)
Definition crowded_queue : Memory.MemoryQueueBackend :=
  (enqueue_all (Memory.new (Memory.example_config 100)) "acme:carol"
     (map (fun k => (Memory.example_event (N.of_nat k), N.of_nat k, 0)) (seq 0 40))).2.
Definition crowded_world : World Memory.MemoryQueueBackend AckMemory.MemoryAckBackend :=
  mk_world (with_backends example_manager crowded_queue example_ack) [] 5.
Definition crowded_state : AppState Memory.MemoryQueueBackend AckMemory.MemoryAckBackend :=
  mk_state crowded_world (TenantManager_new TenantConfig_default) false "s1" [].
Definition busy_state : AppState Memory.MemoryQueueBackend AckMemory.MemoryAckBackend :=
  mk_state (mk_world (disp example_world) [] 5) (TenantManager_new TenantConfig_default) false "s1" [].
Definition ping_only (s : string) : result string ClientMessage := Ok Ping.
Definition no_uuid_text (i : uuid) : string := "".

Lemma session_leaves_no_trace_witness :
  exists h b st', handle_socket example_env no_uuid_text ping_only (example_claims "carol" "acme")
      [Some (MText "x"); Some MClose] [] busy_state = (OpenedConnection h b, st') /\
    connections (connection_manager (disp (core st'))) !! conn_id h = None.
Proof.
  eexists _, _, _. split; [vm_compute; reflexivity|].
  eapply (session_leaves_no_trace example_env no_uuid_text ping_only (example_claims "carol" "acme")
    [Some (MText "x"); Some MClose] [] busy_state _ _ _ "carol");
    [apply example_manager_wf|vm_compute; reflexivity|vm_compute; reflexivity].
Defined.

Lemma subscribe_unsubscribe_witness :
  exists h subscribed : list string, (length h + length subscribed)%nat = 2%nat.
Proof.
  destruct (subscribe_unsubscribe example_env ["orders"; "a:b"] (handle_new "alice" "acme" [] 1%N 0) busy_state)
    as (sub & errs & h' & _ & L & _); [vm_compute; reflexivity|].
  exists sub, errs. exact L.
Defined.

Lemma long_replay_blocks_witness :
  exists h buffer waiting st',
    handle_socket example_env no_uuid_text ping_only (example_claims "carol" "acme") [] [] crowded_state =
      (ReplayBlocked h buffer waiting, st') /\ length buffer = 32%nat.
Proof.
  destruct (long_replay_blocks example_env no_uuid_text ping_only (example_claims "carol" "acme") [] [] crowded_state
    crowded_queue (default DrainResult_default (match (Memory.drain crowded_queue "acme:carol" (fun _ => 0)).1 with
                                                | Ok d => Some d | Err _ => None end))
    (Memory.drain crowded_queue "acme:carol" (fun _ => 0)).2) as (h & b & w & st' & H1 & _ & H2 & _).
  - apply example_manager_wf.
  - vm_compute. reflexivity.
  - vm_compute. reflexivity.
  - reflexivity.
  - vm_compute. reflexivity.
  - exists 0, 0. simpl. lia.
  - vm_compute. reflexivity.
  - vm_compute. lia.
  - exists h, b, w, st'. split; [exact H1|exact H2].
Defined.

End witnesses.
