(* ===== verification/Cluster.v ===== *)
(** * Cluster: sessions shared between servers, and routing

    Models [domain/cluster/]: types.rs, traits.rs ([Class SessionStore]),
    local.rs ([Module Local]), redis_store.rs ([Module RedisStore]),
    factory.rs and router.rs ([Module Router]).  The Redis store uses the pool only to obtain a
    connection: its commands are not recorded by the breaker. *)
From S2P Require Import Prelude Auth Tenant Resilience Redis Notification Queue Ack Connection Template Dispatcher Realtime.

(** ** Types *)

Record ClusterConfig := {
  cc_enabled : bool; cc_server_id : string; session_prefix : string; session_ttl_seconds : Z; routing_channel : string;
}.
(** The generated server id is an argument. *)
Definition ClusterConfig_default (generated : string) : ClusterConfig :=
  {| cc_enabled := false; cc_server_id := "ara-" +:+ generated; session_prefix := "ara:cluster:sessions";
     session_ttl_seconds := 60; routing_channel := "ara:cluster:route" |}.

Record RoutedMessage := {
  rm_user_id : string; rm_tenant_id : string; rm_connection_id : option uuid; rm_payload : string;
  rm_from_server : string; rm_to_server : option string;
}.

Inductive SessionStoreError := StoreRedis (msg : string) | StoreSerialization (msg : string) | StoreDisabled.

Definition store_error_display (e : SessionStoreError) : string :=
  match e with
  | StoreRedis msg => "Redis error: " +:+ msg
  | StoreSerialization msg => "Serialization error: " +:+ msg
  | StoreDisabled => "Session store is disabled"
  end.

Inductive SessionStoreBackend := LocalBackend | RedisSessionBackend.

(** A refresh either returns or stops for good on a lock it holds. *)
Inductive Refreshed := Returned (r : result SessionStoreError nat) | Deadlocked.

(** The trait.  An operation that scans takes the number of turns its scan
    may have, and answers [None] when these were too few. *)
Class SessionStore (S : Type) := {
  s_server_id : S -> string;
  s_is_enabled : S -> bool;
  s_backend_type : S -> SessionStoreBackend;
  s_register_session : S -> SessionInfo -> result SessionStoreError unit * S;
  s_unregister_session : S -> uuid -> result SessionStoreError unit * S;
  s_update_session_channels : S -> uuid -> list string -> result SessionStoreError unit * S;
  s_refresh_sessions : S -> Refreshed * S;
  s_find_user_servers : S -> string -> result SessionStoreError (list string) * S;
  s_find_channel_servers : S -> string -> result SessionStoreError (list string) * S;
  s_publish_routed_message : S -> RoutedMessage -> result SessionStoreError unit * S;
  s_get_all_sessions : nat -> S -> result SessionStoreError (option (list SessionInfo)) * S;
  s_get_user_sessions : nat -> S -> string -> result SessionStoreError (option (list SessionInfo)) * S;
  s_cluster_connection_count : nat -> S -> result SessionStoreError (option Z) * S;
  s_cluster_user_count : S -> result SessionStoreError nat * S;
}.

(** ** Without a cluster *)
Module Local.

Record LocalSessionStore := { server_id : string }.

#[global] Instance store : SessionStore LocalSessionStore := {|
  s_server_id := server_id; s_is_enabled _ := false; s_backend_type _ := LocalBackend;
  s_register_session s _ := (Ok tt, s); s_unregister_session s _ := (Ok tt, s);
  s_update_session_channels s _ _ := (Ok tt, s); s_refresh_sessions s := (Returned (Ok 0%nat), s);
  s_find_user_servers s _ := (Ok [server_id s], s); s_find_channel_servers s _ := (Ok [server_id s], s);
  s_publish_routed_message s _ := (Err StoreDisabled, s);
  s_get_all_sessions _ s := (Ok (Some []), s); s_get_user_sessions _ s _ := (Ok (Some []), s);
  s_cluster_connection_count _ s := (Err StoreDisabled, s); s_cluster_user_count s := (Err StoreDisabled, s) |}.
End Local.

(** ** Over Redis *)
Module RedisStore.

Record RedisSessionStore (R : Type) := mk {
  pool : Pool.RedisPool R;
  config : ClusterConfig;
  local_connections : gmap uuid string;
}.
Arguments mk {R} _ _ _.
Arguments pool {R} _.
Arguments config {R} _.
Arguments local_connections {R} _.

Section store.
Context {R : Type} `{RedisServer R} `{JsonCodec SessionInfo} `{JsonCodec RoutedMessage} `{UuidText} (clock : nat -> Z).
Implicit Types s : RedisSessionStore R.

Definition new (p : Pool.RedisPool R) (c : ClusterConfig) : RedisSessionStore R := mk p c ∅.
Definition server_id s : string := cc_server_id (config s).

Definition session_key (c : ClusterConfig) (i : uuid) : string := session_prefix c +:+ ":conn:" +:+ uuid_text i.
Definition user_servers_key (c : ClusterConfig) (user : string) : string := session_prefix c +:+ ":user:" +:+ user.
Definition channel_servers_key (c : ClusterConfig) (channel : string) : string := session_prefix c +:+ ":channel:" +:+ channel.
Definition server_connections_key (c : ClusterConfig) (server : string) : string := session_prefix c +:+ ":server:" +:+ server.
Definition all_users_key (c : ClusterConfig) : string := session_prefix c +:+ ":users".

Definition set_pool (p : Pool.RedisPool R) s : RedisSessionStore R := mk p (config s) (local_connections s).
Definition set_local (l : gmap uuid string) s : RedisSessionStore R := mk (pool s) (config s) l.

(** A store operation: its result and the store after it. *)
Definition M (X : Type) : Type := RedisSessionStore R -> result SessionStoreError X * RedisSessionStore R.
Definition bind {X Y} (op : M X) (f : X -> M Y) : M Y := fun s =>
  match op s with (Ok x, s') => f x s' | (Err e, s') => (Err e, s') end.
Definition ret {X} (x : X) : M X := fun s => (Ok x, s).
Definition lift {X} (r : result SessionStoreError X) : M X := fun s => (r, s).
Notation "'do!' x <- op ;; f" := (bind op (fun x => f)) (at level 100, x name, op at next level, right associativity).

(** [pool.get_connection()], and a command on the connection. *)
Definition get_connection : M unit := fun s =>
  let r := Pool.get_connection clock (pool s) in
  (map_err (fun e => StoreRedis ("Failed to get connection: " +:+ Pool.pool_error_display e)) r.1, set_pool r.2 s).
Definition raw {X} (c : Cmd X) : M X := fun s =>
  let r := r_exec c (Pool.server (pool s)) in
  (map_err (fun e => StoreRedis (re_text e)) r.1, set_pool (Pool.set_server r.2 (pool s)) s).

(** A pipeline sends every command and answers with the first error. *)
Fixpoint pipeline (cs : list {X & Cmd X}) s : result SessionStoreError unit * RedisSessionStore R :=
  match cs with
  | [] => (Ok tt, s)
  | c :: rest =>
    let r := raw (projT2 c) s in
    let rest_r := pipeline rest r.2 in
    (match r.1 with Ok _ => rest_r.1 | Err e => Err e end, rest_r.2)
  end.
Abbreviation cmd c := (existT _ c).

(** Commands sent one at a time, stopping at the first error. *)
Fixpoint each {X Y} (f : X -> M Y) (l : list X) : M unit :=
  match l with [] => ret tt | x :: rest => do! _ <- f x ;; each f rest end.

Definition ttl_of (c : ClusterConfig) : Z := i64 (session_ttl_seconds c).

Definition register_cmds (c : ClusterConfig) (session : SessionInfo) (session_json : string) : list {X & Cmd X} :=
  [ cmd (SET_EX (session_key c (si_connection_id session)) session_json (ttl_of c));
    cmd (SADD (user_servers_key c (si_user_id session)) (cc_server_id c));
    cmd (EXPIRE (user_servers_key c (si_user_id session)) (ttl_of c));
    cmd (SADD (all_users_key c) (si_user_id session));
    cmd (EXPIRE (all_users_key c) (i64 (ttl_of c * 2)));
    cmd (INCRBY (server_connections_key c (cc_server_id c)) 1);
    cmd (EXPIRE (server_connections_key c (cc_server_id c)) (ttl_of c)) ].

Definition register_session (session : SessionInfo) : M unit :=
  do! _ <- get_connection ;;
  do! session_json <- lift (map_err StoreSerialization (json_print session)) ;;
  do! _ <- (fun s => pipeline (register_cmds (config s) session session_json) s) ;;
  fun s => (Ok tt, set_local (<[si_connection_id session := si_user_id session]> (local_connections s)) s).

(** Another local connection of the user. *)
Definition user_has_other_connections (l : gmap uuid string) (i : uuid) (user : string) : bool :=
  existsb (fun kv => negb (bool_decide (kv.1 = i)) && bool_decide (kv.2 = user)) (map_to_list l).

Definition unregister_cmds (c : ClusterConfig) (i : uuid) (user : string) (others : bool) : list {X & Cmd X} :=
  [ cmd (DEL (session_key c i)); cmd (INCRBY (server_connections_key c (cc_server_id c)) (-1)) ] ++
  if others then [] else [ cmd (SREM (user_servers_key c user) (cc_server_id c)) ].

Definition unregister_session (i : uuid) : M unit := fun s =>
  (do! _ <- get_connection ;;
   do! session_json <- (fun s => raw (GET (session_key (config s) i)) s) ;;
   match session_json with
   | None => ret tt
   | Some json =>
     match json_parse json with
     | Err _ => ret tt
     | Ok session => fun s =>
       let c := config s in
       let others := user_has_other_connections (local_connections s) i (si_user_id session) in
       (do! _ <- pipeline (unregister_cmds c i (si_user_id session) others) ;;
        each (fun channel => raw (SREM (channel_servers_key c channel) (cc_server_id c))) (si_channels session)) s
     end
   end) (set_local (delete i (local_connections s)) s).

Definition set_channels (channels : list string) (si : SessionInfo) : SessionInfo :=
  {| si_connection_id := si_connection_id si; si_user_id := si_user_id si; si_tenant_id := si_tenant_id si;
     si_server_id := si_server_id si; si_connected_at := si_connected_at si; si_channels := channels |}.

Definition update_session_channels (i : uuid) (channels : list string) : M unit :=
  do! _ <- get_connection ;;
  do! session_json <- (fun s => raw (GET (session_key (config s) i)) s) ;;
  match session_json with
  | None => ret tt
  | Some json =>
    match json_parse json with
    | Err _ => ret tt
    | Ok session =>
      do! updated_json <- lift (map_err StoreSerialization (json_print (set_channels channels session))) ;;
      fun s =>
        let c := config s in
        let gone := List.filter (fun ch => negb (bool_decide (ch ∈ channels))) (si_channels session) in
        (do! _ <- raw (SET_EX (session_key c i) updated_json (u64 (ttl_of c))) ;;
         do! _ <- each (fun ch => raw (SREM (channel_servers_key c ch) (cc_server_id c))) gone ;;
         each (fun ch => pipeline [ cmd (SADD (channel_servers_key c ch) (cc_server_id c));
                                    cmd (EXPIRE (channel_servers_key c ch) (ttl_of c)) ]) channels) s
    end
  end.

(** The loop of [refresh_sessions] over the local connections.  It removes
    the entry of a session that is gone while the iterator still holds the
    shard of that entry. *)
Fixpoint refresh_loop (ids : list uuid) (refreshed : nat) s : Refreshed * RedisSessionStore R :=
  match ids with
  | [] => (Returned (Ok refreshed), s)
  | i :: rest =>
    match raw (EXPIRE (session_key (config s) i) (ttl_of (config s))) s with
    | (Err e, s') => (Returned (Err e), s')
    | (Ok true, s') => refresh_loop rest (S refreshed) s'
    | (Ok false, s') => (Deadlocked, s')
    end
  end.

Definition refresh_sessions s : Refreshed * RedisSessionStore R :=
  match get_connection s with
  | (Err e, s') => (Returned (Err e), s')
  | (Ok _, s') =>
    match refresh_loop (map_to_list (local_connections s')).*1 0 s' with
    | (Returned (Ok n), s'') =>
      let r := raw (EXPIRE (server_connections_key (config s'') (server_id s'')) (ttl_of (config s''))) s'' in
      (Returned (match r.1 with Ok _ => Ok n | Err e => Err e end), r.2)
    | r => r
    end
  end.

Definition find_user_servers (user : string) : M (list string) :=
  do! _ <- get_connection ;; fun s => raw (SMEMBERS (user_servers_key (config s) user)) s.
Definition find_channel_servers (channel : string) : M (list string) :=
  do! _ <- get_connection ;; fun s => raw (SMEMBERS (channel_servers_key (config s) channel)) s.

Definition publish_routed_message (m : RoutedMessage) : M unit :=
  do! _ <- get_connection ;;
  do! message_json <- lift (map_err StoreSerialization (json_print m)) ;;
  fun s =>
    let channel := match rm_to_server m with
                   | Some target => routing_channel (config s) +:+ ":" +:+ target
                   | None => routing_channel (config s)
                   end in
    raw (PUBLISH channel message_json) s.

(** *** Cluster-wide queries *)

(** The cursor loop of [scan_keys], for at most [fuel] turns; the server
    decides when the cursor comes back to 0. *)
Fixpoint scan_loop (fuel : nat) (pattern : string) (cursor : Z) (keys : list string) : M (option (list string)) :=
  match fuel with
  | O => ret None
  | S fuel' =>
    do! batch <- raw (SCAN cursor pattern 100) ;;
    if batch.1 =? 0 then ret (Some (keys ++ batch.2)) else scan_loop fuel' pattern batch.1 (keys ++ batch.2)
  end.
Definition scan_keys (fuel : nat) (pattern : string) : M (option (list string)) := scan_loop fuel pattern 0 [].

(** The sessions stored under the keys, those that parse. *)
Fixpoint read_sessions (keys : list string) : M (list SessionInfo) :=
  match keys with
  | [] => ret []
  | key :: rest =>
    do! json <- raw (GET key) ;;
    do! sessions <- read_sessions rest ;;
    ret match json with
        | Some data => match json_parse data with Ok session => session :: sessions | Err _ => sessions end
        | None => sessions
        end
  end.

Definition get_all_sessions (fuel : nat) : M (option (list SessionInfo)) :=
  do! _ <- get_connection ;;
  do! keys <- (fun s => scan_keys fuel (session_prefix (config s) +:+ ":conn:*") s) ;;
  match keys with None => ret None | Some keys => do! sessions <- read_sessions keys ;; ret (Some sessions) end.

Definition get_user_sessions (fuel : nat) (user : string) : M (option (list SessionInfo)) :=
  do! sessions <- get_all_sessions fuel ;;
  ret (List.filter (fun si => bool_decide (si_user_id si = user)) <$> sessions).

Fixpoint sum_counts (keys : list string) : M Z :=
  match keys with
  | [] => ret 0
  | key :: rest =>
    do! v <- raw (GET key) ;;
    do! count <- lift (match v with
                       | None => Ok 0
                       | Some t => ok_or (int_of_text t) (StoreRedis "Response was of incompatible type")
                       end) ;;
    do! total <- sum_counts rest ;;
    ret (if 0 <? count then count + total else total)
  end.

Definition cluster_connection_count (fuel : nat) : M (option Z) :=
  do! _ <- get_connection ;;
  do! keys <- (fun s => scan_keys fuel (session_prefix (config s) +:+ ":server:*") s) ;;
  match keys with None => ret None | Some keys => do! total <- sum_counts keys ;; ret (Some total) end.

Definition cluster_user_count : M nat :=
  do! _ <- get_connection ;; fun s => raw (SCARD (all_users_key (config s))) s.

#[local] Instance store : SessionStore (RedisSessionStore R) := {|
  s_server_id := server_id; s_is_enabled _ := true; s_backend_type _ := RedisSessionBackend;
  s_register_session s i := register_session i s; s_unregister_session s i := unregister_session i s;
  s_update_session_channels s i cs := update_session_channels i cs s; s_refresh_sessions := refresh_sessions;
  s_find_user_servers s u := find_user_servers u s; s_find_channel_servers s c := find_channel_servers c s;
  s_publish_routed_message s m := publish_routed_message m s;
  s_get_all_sessions fuel s := get_all_sessions fuel s; s_get_user_sessions fuel s u := get_user_sessions fuel u s;
  s_cluster_connection_count fuel s := cluster_connection_count fuel s; s_cluster_user_count s := cluster_user_count s |}.
End store.
(** *** Against a Redis that is up *)

Section laws.
Context {R : Type} `{RedisLaws R} `{JsonLaws SessionInfo} `{JsonLaws RoutedMessage} `{UuidText} (clock : nat -> Z).
Implicit Types s : RedisSessionStore R.

Definition live s : Keyspace := Pool.live (pool s).
Definition ready s : Prop := Pool.ready (pool s).
(** [d] seconds go by on the server. *)
Definition pass (d : Z) s : RedisSessionStore R :=
  set_pool (Pool.set_server (r_elapse d (Pool.server (pool s))) (pool s)) s.

Lemma live_pass d s : live (pass d s) = elapse d (live s).
Proof. unfold live, pass, Pool.live. simpl. apply r_elapse_live. Qed.
Lemma ready_pass d s : ready s -> ready (pass d s).
Proof. unfold ready, pass, Pool.ready. simpl. by rewrite r_elapse_up. Qed.

(** What an operation leaves of the store beside the keyspace. *)
Definition frame s s' : Prop := ready s' /\ config s' = config s /\ local_connections s' = local_connections s.

Lemma get_connection_ready s :
  ready s -> exists s', get_connection clock s = (Ok tt, s') /\ frame s s' /\ live s' = live s.
Proof.
  intros Rd. destruct (Pool.ready_get_connection clock (pool s) Rd) as (p' & E & Rd' & L).
  unfold get_connection. rewrite E. simpl. eexists. split; [reflexivity|]. by split_and!.
Qed.

Lemma raw_ready {X} (c : Cmd X) s y :
  ready s -> Store.trims c = false -> Store.exec c (live s) = Some y ->
  exists x s', raw c s = (Ok x, s') /\ frame s s' /\ live s' = y.2 /\ redis_spec c (live s) x (live s').
Proof.
  intros [E U] T Ex. assert (Sp : exists x k', redis_spec c (live s) x k').
  { exists y.1, y.2. apply Store.exec_sound. by destruct y. }
  destruct (r_exec_up X c (Pool.server (pool s)) U Sp) as (x & r' & Er & U').
  pose proof (r_exec_ok X c _ _ _ Er) as Sp'. unfold raw. rewrite Er. simpl. eexists x, _.
  split; [reflexivity|]. split; [by split_and!|]. split; [|exact Sp'].
  by eapply Store.exec_same_keyspace.
Qed.

Lemma pipeline_ready cs s k :
  ready s -> Forall (fun c => Store.trims (projT2 c) = false) cs -> Store.exec_all cs (live s) = Some k ->
  exists s', pipeline cs s = (Ok tt, s') /\ frame s s' /\ live s' = k.
Proof.
  revert s. induction cs as [|[X c] cs IH]; intros s Rd F E; cbn [pipeline Store.exec_all projT1 projT2] in *.
  { simplify_eq. exists s. by split_and!. }
  apply Forall_cons in F as [Fc F]. cbn [projT1 projT2] in Fc. destruct (Store.exec c (live s)) as [[x0 k0]|] eqn:E0; [|done].
  destruct (raw_ready c s _ Rd Fc E0) as (x & s1 & E1 & (R1 & C1 & L1) & K1 & _). simpl in K1.
  destruct (IH s1 R1 F) as (s2 & E2 & (R2 & C2 & L2) & K2); [rewrite K1; exact E|].
  rewrite E1. cbn [fst snd]. rewrite E2. cbn [fst snd]. exists s2. split; [done|]. split; [|done]. split_and!; [done|congruence..].
Qed.

(** The four keys a registration writes. *)
Lemma register_keys_distinct c i u srv :
  NoDup [session_key c i; user_servers_key c u; all_users_key c; server_connections_key c srv].
Proof.
  unfold session_key, user_servers_key, all_users_key, server_connections_key.
  rewrite !NoDup_cons, !not_elem_of_cons.
  split_and!; first [ apply not_elem_of_nil | apply NoDup_nil_2 | apply str_app_neq; by intros [=] ].
Qed.

Lemma register_keyspace c si json k us au v n :
  let sk := session_key c (si_connection_id si) in
  let uk := user_servers_key c (si_user_id si) in
  let ck := server_connections_key c (cc_server_id c) in
  0 < ttl_of c -> 0 < i64 (ttl_of c * 2) ->
  set_at k uk = Some us -> set_at k (all_users_key c) = Some au ->
  str_at k ck = Some v -> counter v = Some n -> is_i64 (n + 1) ->
  exists k', Store.exec_all (register_cmds c si json) k = Some k' /\
    k' !! sk = Some (VStr json, Some (ttl_of c)) /\
    k' !! uk = Some (VSet ({[cc_server_id c]} ∪ us), Some (ttl_of c)) /\
    k' !! ck = Some (VStr (text_of_int (n + 1)), Some (ttl_of c)).
Proof.
  intros sk uk ck Ht Ht2 Hu Ha Hv Hn Hi. set (ak := all_users_key c) in *.
  pose proof (register_keys_distinct c (si_connection_id si) (si_user_id si) (cc_server_id c)) as Nd.
  fold sk uk ak ck in Nd. rewrite !NoDup_cons, !not_elem_of_cons in Nd. destruct_and!.
  unfold register_cmds. fold sk uk ak ck. cbn [Store.exec_all projT1 projT2]. cbn [Store.exec Store.on].
  assert (T1 : (0 <? ttl_of c) = true) by (by apply Z.ltb_lt). assert (T2 : (ttl_of c <=? 0) = false) by (by apply Z.leb_gt).
  assert (T3 : (i64 (ttl_of c * 2) <=? 0) = false) by (by apply Z.leb_gt). rewrite T1.
  set (k1 := <[sk := _]> k).
  rewrite (set_at_same k k1 uk), Hu by (by apply lookup_insert_ne). cbn [Store.on].
  set (k2 := put_set uk _ k1).
  assert (K2 : exists o, k2 !! uk = Some (VSet ({[cc_server_id c]} ∪ us), o)).
  { unfold k2, put_set. rewrite decide_False by set_solver. unfold put. rewrite lookup_insert_eq. by eexists. }
  destruct K2 as [o K2]. rewrite K2, T2. set (k3 := <[uk := _]> k2).
  assert (F3 : forall key, key <> sk -> key <> uk -> k3 !! key = k !! key).
  { intros key ? ?. unfold k3, k2, k1. rewrite lookup_insert_ne, lookup_put_set_ne, lookup_insert_ne by done. done. }
  rewrite (set_at_same k k3 ak), Ha by (by apply F3). cbn [Store.on]. set (k4 := put_set ak _ k3).
  assert (K4 : exists o, k4 !! ak = Some (VSet ({[si_user_id si]} ∪ au), o)).
  { unfold k4, put_set. rewrite decide_False by set_solver. unfold put. rewrite lookup_insert_eq. by eexists. }
  destruct K4 as [o4 K4]. rewrite K4, T3. set (k5 := <[ak := _]> k4).
  assert (F5 : forall key, key <> ak -> k5 !! key = k3 !! key).
  { intros key ?. unfold k5, k4. rewrite lookup_insert_ne, lookup_put_set_ne by done. done. }
  assert (Hv5 : str_at k5 ck = Some v).
  { unfold str_at. rewrite F5, F3 by done. exact Hv. }
  rewrite Hv5. cbn [Store.on]. rewrite (proj2 (Store.add_int_Some (counter v) 1 (n + 1))) by (by exists n).
  cbn [Store.on]. set (k6 := put ck _ k5).
  assert (K6 : exists o, k6 !! ck = Some (VStr (text_of_int (n + 1)), o)).
  { unfold k6, put. rewrite lookup_insert_eq. by eexists. }
  destruct K6 as [o6 K6]. rewrite K6. eexists. split; [reflexivity|]. rewrite lookup_insert_eq.
  rewrite !lookup_insert_ne by done. unfold k6. rewrite !lookup_put_ne, !F5 by done. unfold k3.
  rewrite lookup_insert_eq, lookup_insert_ne by done. unfold k2. rewrite lookup_put_set_ne by done.
  unfold k1. by rewrite lookup_insert_eq.
Qed.
Lemma find_effect user us s :
  ready s -> set_at (live s) (user_servers_key (config s) user) = Some us ->
  exists l s', find_user_servers clock user s = (Ok l, s') /\ l ≡ₚ elements us /\ frame s s' /\ live s' = live s.
Proof.
  intros Rd Hu. destruct (get_connection_ready s Rd) as (s1 & E1 & (R1 & C1 & L1) & K1).
  unfold find_user_servers, bind. rewrite E1, C1. rewrite <- K1 in *.
  destruct (raw_ready (SMEMBERS (user_servers_key (config s) user)) s1 (elements us, live s1)) as
    (l & s2 & E2 & (R2 & C2 & L2) & K2 & Sp); [done|done|cbn [Store.exec]; by rewrite Hu|].
  destruct Sp as (us' & Hu' & P & _). rewrite Hu in Hu'. simplify_eq.
  simpl in K2. exists l, s2. split_and!; try done; try congruence. split_and!; [done|congruence..].
Qed.

Lemma register_effect si json s us au v n :
  let c := config s in
  ready s -> json_print si = Ok json -> 0 < ttl_of c -> 0 < i64 (ttl_of c * 2) ->
  set_at (live s) (user_servers_key c (si_user_id si)) = Some us -> set_at (live s) (all_users_key c) = Some au ->
  str_at (live s) (server_connections_key c (cc_server_id c)) = Some v -> counter v = Some n -> is_i64 (n + 1) ->
  exists s', register_session clock si s = (Ok tt, s') /\ ready s' /\ config s' = c /\
    local_connections s' = <[si_connection_id si := si_user_id si]> (local_connections s) /\
    live s' !! session_key c (si_connection_id si) = Some (VStr json, Some (ttl_of c)) /\
    live s' !! user_servers_key c (si_user_id si) = Some (VSet ({[cc_server_id c]} ∪ us), Some (ttl_of c)) /\
    live s' !! server_connections_key c (cc_server_id c) = Some (VStr (text_of_int (n + 1)), Some (ttl_of c)).
Proof.
  intros c Rd Hp Ht Ht2 Hu Ha Hv Hn Hi. destruct (get_connection_ready s Rd) as (s1 & E1 & (R1 & C1 & L1) & K1).
  destruct (register_keyspace c si json (live s) us au v n Ht Ht2 Hu Ha Hv Hn Hi) as (k & Ek & Hk).
  destruct (pipeline_ready (register_cmds c si json) s1 k R1) as (s2 & E2 & (R2 & C2 & L2) & K2);
    [by repeat constructor|by rewrite K1|].
  unfold register_session, bind. rewrite E1, Hp. cbn [map_err lift]. rewrite C1. fold c. rewrite E2.
  eexists. split; [reflexivity|]. rewrite <- K2 in Hk. split_and!; try apply Hk; [done|cbn; by rewrite C2, C1|].
  cbn. by rewrite L2, L1.
Qed.

Lemma forallb_ext {X} (f g : X -> bool) l : (forall x, f x = g x) -> forallb f l = forallb g l.
Proof. intros E. induction l as [|x l IH]; simpl; [done|]. by rewrite E, IH. Qed.
(** One [EXPIRE] on a live connection. *)
Lemma expire_effect key t s :
  ready s -> 0 < t ->
  exists s', raw (EXPIRE key t) s = (Ok (bool_decide (is_Some (live s !! key))), s') /\ frame s s' /\
    live s' = match live s !! key with Some (v, _) => <[key := (v, Some t)]> (live s) | None => live s end.
Proof.
  intros Rd Ht. assert (T : (t <=? 0) = false) by lia.
  destruct (live s !! key) as [[v o]|] eqn:E.
  - destruct (raw_ready (EXPIRE key t) s (true, <[key := (v, Some t)]> (live s)) Rd) as (x & s' & Er & F & K & Sp);
      [done|cbn [Store.exec]; by rewrite E, T|].
    simpl in Sp. rewrite E in Sp. destruct Sp as [-> _]. exists s'. rewrite bool_decide_true by done. done.
  - destruct (raw_ready (EXPIRE key t) s (false, live s) Rd) as (x & s' & Er & F & K & Sp);
      [done|cbn [Store.exec]; by rewrite E|].
    simpl in Sp. rewrite E in Sp. destruct Sp as [-> _]. exists s'. rewrite bool_decide_false by (by intros [? ?]). done.
Qed.
Lemma expire_same_keys key t s s' key' :
  live s' = match live s !! key with Some (v, _) => <[key := (v, Some t)]> (live s) | None => live s end ->
  is_Some (live s' !! key') <-> is_Some (live s !! key').
Proof.
  intros ->. destruct (live s !! key) as [[v o]|] eqn:E; [|done].
  destruct (decide (key = key')) as [<-|]; [rewrite lookup_insert_eq, E; split; by eexists|by rewrite lookup_insert_ne].
Qed.
Lemma expire_other_key key t s s' key' :
  live s' = match live s !! key with Some (v, _) => <[key := (v, Some t)]> (live s) | None => live s end ->
  key <> key' -> live s' !! key' = live s !! key'.
Proof. intros -> N. destruct (live s !! key) as [[v o]|]; [by rewrite lookup_insert_ne|done]. Qed.

Definition session_alive s (i : uuid) : bool := bool_decide (is_Some (live s !! session_key (config s) i)).

Lemma refresh_loop_outcome ids n s :
  ready s -> 0 < ttl_of (config s) ->
  let r := refresh_loop ids n s in
  r.1 = (if forallb (session_alive s) ids then Returned (Ok (n + length ids)%nat) else Deadlocked) /\ frame s r.2 /\
  (forall key, (forall i, i ∈ ids -> session_key (config s) i <> key) -> live r.2 !! key = live s !! key).
Proof.
  revert n s. induction ids as [|i ids IH]; intros n s Rd Ht; cbv zeta; cbn [refresh_loop forallb length fst snd].
  { rewrite Nat.add_0_r. by split_and!. }
  destruct (expire_effect (session_key (config s) i) (ttl_of (config s)) s Rd Ht) as (s' & E & (R' & C' & L') & K).
  rewrite E. fold (session_alive s i).
  assert (Hk : forall key, session_key (config s) i <> key -> live s' !! key = live s !! key).
  { intros key. by apply (expire_other_key _ (ttl_of (config s))). }
  destruct (session_alive s i); cbn [andb fst snd].
  - destruct (IH (S n) s' R') as (E2 & (R2 & C2 & L2) & K2); [by rewrite C'|].
    rewrite E2. split; [|split; [by split_and!; congruence|]].
    + replace (S n + length ids)%nat with (n + S (length ids))%nat by lia.
      rewrite (forallb_ext (session_alive s') (session_alive s)); [done|].
      intros j. unfold session_alive. rewrite C'. apply bool_decide_ext. by eapply expire_same_keys.
    + intros key Hn. rewrite K2, Hk; [done|apply Hn; set_solver|intros j Hj; rewrite C'; apply Hn; set_solver].
  - split; [done|]. split; [by split_and!|]. intros key Hn. apply Hk, Hn. set_solver.
Qed.

(** Refreshing the sessions answers with the number of local connections
    when the session of every one of them is still stored; when one of them
    has expired, the removal of its entry during the iteration never
    returns. *)
Theorem refresh_outcome s :
  ready s -> 0 < ttl_of (config s) ->
  (refresh_sessions clock s).1 =
    if forallb (session_alive s) (map_to_list (local_connections s)).*1
    then Returned (Ok (size (local_connections s))) else Deadlocked.
Proof.
  intros Rd Ht. destruct (get_connection_ready s Rd) as (s1 & E1 & (R1 & C1 & L1) & K1).
  unfold refresh_sessions. rewrite E1, L1.
  destruct (refresh_loop_outcome (map_to_list (local_connections s)).*1 0 s1 R1) as (E2 & (R2 & C2 & L2) & _);
    [by rewrite C1|].
  replace (forallb (session_alive s1)) with (forallb (session_alive s)) in E2
    by (unfold session_alive; by rewrite C1, K1).
  destruct (refresh_loop _ _ s1) as [o s2]. cbn [fst snd] in *. subst o.
  destruct (forallb _ _); [|done].
  destruct (expire_effect (server_connections_key (config s2) (server_id s2)) (ttl_of (config s2)) s2 R2)
    as (s3 & E3 & _); [by rewrite C2, C1|].
  rewrite E3. cbn [fst Nat.add]. by rewrite length_fmap, length_map_to_list.
Qed.
(** A refresh of the only session of a server: the session lives on, the
    routing entry of its user is as it was. *)
Lemma refresh_single s i u :
  ready s -> 0 < ttl_of (config s) -> local_connections s = {[i := u]} -> session_alive s i = true ->
  exists s' v o, refresh_sessions clock s = (Returned (Ok 1%nat), s') /\ ready s' /\ config s' = config s /\
    live s !! session_key (config s) i = Some (v, o) /\
    live s' !! session_key (config s) i = Some (v, Some (ttl_of (config s))) /\
    forall user, live s' !! user_servers_key (config s) user = live s !! user_servers_key (config s) user.
Proof.
  intros Rd Ht L Al. pose proof (refresh_outcome s Rd Ht) as O.
  rewrite L, map_to_list_singleton in O. cbn [fmap list_fmap forallb fst] in O. rewrite Al in O. cbn [andb] in O.
  rewrite map_size_singleton in O. destruct (get_connection_ready s Rd) as (s1 & E1 & (R1 & C1 & L1) & K1).
  revert O. unfold refresh_sessions. rewrite E1, L1, L, map_to_list_singleton. cbn [fmap list_fmap fst refresh_loop].
  destruct (expire_effect (session_key (config s1) i) (ttl_of (config s1)) s1 R1) as (s2 & E2 & (R2 & C2 & L2) & K2);
    [by rewrite C1|].
  rewrite E2. unfold session_alive in Al. rewrite C1, K1 in *. rewrite Al in *. cbn [fst].
  destruct (expire_effect (server_connections_key (config s2) (server_id s2)) (ttl_of (config s2)) s2 R2)
    as (s3 & E3 & (R3 & C3 & L3) & K3); [by rewrite C2|].
  rewrite E3. cbn [fst snd]. intros _. apply bool_decide_eq_true in Al as [[v o] Hv]. rewrite Hv in K2.
  rewrite C2 in *. exists s3, v, o. split_and!; try done.
  - rewrite (expire_other_key _ _ _ _ _ K3), K2, lookup_insert_eq; [done|]. unfold server_connections_key, session_key. by apply str_app_neq.
  - intros user. rewrite (expire_other_key _ _ _ _ _ K3), K2, lookup_insert_ne; [done|..];
      unfold server_connections_key, session_key, user_servers_key; by apply str_app_neq.
Qed.

(** C40: A user registered on this server is found there until the session's
    time to live has passed; but a refresh renews the stored session and not
    the user's routing entry, so a connection older than the time to live is
    no longer found although its session is alive and refreshed. *)
Theorem session_route_expires si json s us au v n d1 d2 :
  let c := config s in
  ready s -> local_connections s = ∅ -> json_print si = Ok json -> 0 < ttl_of c -> 0 < i64 (ttl_of c * 2) ->
  set_at (live s) (user_servers_key c (si_user_id si)) = Some us -> set_at (live s) (all_users_key c) = Some au ->
  str_at (live s) (server_connections_key c (cc_server_id c)) = Some v -> counter v = Some n -> is_i64 (n + 1) ->
  0 <= d1 < ttl_of c -> 0 <= d2 < ttl_of c -> ttl_of c <= d1 + d2 ->
  exists s1 l s2 s3 s4,
    register_session clock si s = (Ok tt, s1) /\
    find_user_servers clock (si_user_id si) (pass d1 s1) = (Ok l, s2) /\ cc_server_id c ∈ l /\
    refresh_sessions clock s2 = (Returned (Ok 1%nat), s3) /\
    find_user_servers clock (si_user_id si) (pass d2 s3) = (Ok [], s4) /\
    live s4 !! session_key c (si_connection_id si) = Some (VStr json, Some (ttl_of c - d2)).
Proof.
  intros c Rd L Hp Ht Ht2 Hu Ha Hv Hn Hi Hd1 Hd2 Hd.
  destruct (register_effect si json s us au v n Rd Hp Ht Ht2 Hu Ha Hv Hn Hi) as (s1 & E1 & R1 & C1 & L1 & Ks & Ku & _).
  fold c in C1, Ks, Ku. assert (T1 : (ttl_of c <=? d1) = false) by lia. assert (T2 : (ttl_of c <=? d2) = false) by lia.
  destruct (find_effect (si_user_id si) ({[cc_server_id c]} ∪ us) (pass d1 s1)) as (l & s2 & E2 & P & (R2 & C2 & L2) & K2).
  { by apply ready_pass. }
  { rewrite live_pass. cbn [pass set_pool config]. rewrite C1. unfold set_at. by rewrite lookup_elapse, Ku, T1. }
  rewrite live_pass in K2. cbn [pass set_pool config local_connections] in C2, L2. rewrite C1 in C2.
  rewrite L1, L in L2. fold (pass d1 s1) in E2.
  destruct (refresh_single s2 (si_connection_id si) (si_user_id si) R2) as (s3 & w & o & E3 & R3 & C3 & Kw & Kw' & Kf).
  { by rewrite C2. } { by rewrite L2, insert_empty. }
  { unfold session_alive. rewrite C2, K2, lookup_elapse, Ks, T1. done. }
  rewrite C2 in *. rewrite K2, lookup_elapse, Ks, T1 in Kw. injection Kw as <- <-.
  specialize (Kf (si_user_id si)). rewrite K2, lookup_elapse, Ku, T1 in Kf.
  assert (T3 : (ttl_of c - d1 <=? d2) = true) by lia.
  destruct (find_effect (si_user_id si) ∅ (pass d2 s3)) as (l' & s4 & E4 & P' & _ & K4).
  { by apply ready_pass. }
  { rewrite live_pass. cbn [pass set_pool config]. rewrite C3. unfold set_at. by rewrite lookup_elapse, Kf, T3. }
  rewrite elements_empty in P'. apply Permutation_nil_r in P' as ->.
  exists s1, l, s2, s3, s4. split_and!; try done.
  - rewrite P. apply elem_of_elements. set_solver.
  - by rewrite K4, live_pass, lookup_elapse, Kw', T2.
Qed.
End laws.
End RedisStore.

(** ** The factory *)

Inductive StoreChoice := UseLocalStore (server : string) | UseRedisStore (c : ClusterConfig).

Definition create_session_store (c : ClusterConfig) (redis_pool : bool) : StoreChoice :=
  if cc_enabled c then if redis_pool then UseRedisStore c else UseLocalStore (cc_server_id c)
  else UseLocalStore (cc_server_id c).

(** ** Routing *)
Module Router.

Record RouteResult := { local_delivered : nat; routed_to_servers : nat }.

Section router.
Context {Q A S : Type} `{MessageQueueBackend Q} `{AckTrackerBackend A} `{SessionStore S}.
Context `{JsonCodec RoutedMessage} `{JsonCodec ServerMessage} (env : Env).
Implicit Types w : World Q A.

Definition tenant_connections (m : ConnectionManager) (user tenant : string) : list ConnectionHandle :=
  List.filter (fun c => bool_decide (tenant_id c = tenant)) (get_user_connections m user).

Definition is_user_local (m : ConnectionManager) (user tenant : string) : bool :=
  existsb (fun c => bool_decide (tenant_id c = tenant)) (get_user_connections m user).

(** Send to each connection in turn, counting the successes. *)
Fixpoint deliver (msg : OutboundMessage) (conns : list ConnectionHandle) w : nat * World Q A :=
  match conns with
  | [] => (0%nat, w)
  | c :: rest => let r := conn_send env c msg w in
                 let d := deliver msg rest r.2 in
                 ((if r.1 then Datatypes.S d.1 else d.1), d.2)
  end.

(** A publication that fails is logged and the others go on. *)
Fixpoint publish_all (msgs : list RoutedMessage) (s : S) : S :=
  match msgs with [] => s | m :: rest => publish_all rest (s_publish_routed_message s m).2 end.

Definition routed_message (user tenant payload from target : string) : RoutedMessage :=
  {| rm_user_id := user; rm_tenant_id := tenant; rm_connection_id := None; rm_payload := payload;
     rm_from_server := from; rm_to_server := Some target |}.

Definition route_to_user (user tenant : string) (message : ServerMessage) (s : S) w
  : result SessionStoreError RouteResult * S * World Q A :=
  let local := tenant_connections (connection_manager (disp w)) user tenant in
  let d := match local with [] => (0%nat, w) | _ => deliver (Raw message) local w end in
  let done n s' := (Ok {| local_delivered := d.1; routed_to_servers := n |}, s', d.2) in
  if s_is_enabled s then
    match s_find_user_servers s user with
    | (Ok servers, s1) =>
      match List.filter (fun x => negb (bool_decide (x = s_server_id s1))) servers with
      | [] => done 0%nat s1
      | others =>
        match json_print message with
        | Err e => (Err (StoreSerialization e), s1, d.2)
        | Ok payload =>
          done (length others)
            (publish_all (map (routed_message user tenant payload (s_server_id s1)) others) s1)
        end
      end
    | (Err _, s1) => done 0%nat s1
    end
  else done 0%nat s.

Definition handle_routed_message (server : string) (m : RoutedMessage) w : nat * World Q A :=
  if match rm_to_server m with Some target => negb (bool_decide (target = server)) | None => false end then (0%nat, w)
  else
    match json_parse (rm_payload m) with
    | Err _ => (0%nat, w)
    | Ok server_message =>
      deliver (Raw server_message)
        (tenant_connections (connection_manager (disp w)) (rm_user_id m) (rm_tenant_id m)) w
    end.

(** [RoutedMessageSubscriber::handle_routed_message] *)
Definition subscriber_handle (server : string) (payload : string) w : nat * World Q A :=
  match json_parse payload with
  | Err _ => (0%nat, w)
  | Ok m =>
    if bool_decide (rm_from_server m = server) then (0%nat, w)
    else if match rm_to_server m with Some target => negb (bool_decide (target = server)) | None => false end
    then (0%nat, w)
    else handle_routed_message server m w
  end.

(** The subscriber's loop: what each subscription attempt ends with, and
    whether the shutdown comes during the wait that follows.  The delays
    waited, in milliseconds, and whether the loop has stopped. *)
Inductive Attempt := Graceful | Failed (shutdown_while_waiting : bool).

Fixpoint subscriber_run (attempts : list Attempt) (retry_delay : Z) : list Z * bool :=
  match attempts with
  | [] => ([], false)
  | Graceful :: _ => ([], true)
  | Failed true :: _ => ([], true)
  | Failed false :: rest => let r := subscriber_run rest (Z.min (retry_delay * 2) 30000) in (retry_delay :: r.1, r.2)
  end.
Definition run (enabled : bool) (attempts : list Attempt) : list Z * bool :=
  if enabled then subscriber_run attempts 100 else ([], true).
End router.

(** ** Delivery of routed messages *)

Section laws.
Context {Q A : Type} `{MessageQueueBackend Q} `{AckTrackerBackend A}.
Context `{JsonLaws RoutedMessage} `{JsonLaws ServerMessage} (env : Env).
Implicit Types w : World Q A.

(** The sends that succeed, in order; nothing but the log changes. *)
Lemma deliver_spec msg cs w :
  exists ds, ds `sublist_of` cs /\ deliver env msg cs w = (length ds, mk_world (disp w) (log w ++ entries msg ds) (ticks w)).
Proof.
  revert w. induction cs as [|c cs IH]; intros w; cbn [deliver].
  { exists []. split; [done|]. cbn. rewrite app_nil_r. by destruct w. }
  destruct (IH (conn_send env c msg w).2) as (ds & S & E). rewrite E.
  unfold conn_send in *. destruct (env_accepts _ _ _ _); cbn [fst snd disp log ticks length].
  - exists (c :: ds). split; [by constructor|]. unfold entries. cbn. by rewrite <- app_assoc.
  - exists ds. split; [by constructor|]. done.
Qed.

Lemma manager_subscriber_handle server payload w :
  connection_manager (disp (subscriber_handle env server payload w).2) = connection_manager (disp w).
Proof.
  unfold subscriber_handle, handle_routed_message. repeat (case_match; try done);
    by edestruct deliver_spec as (ds & _ & ->).
Qed.

Lemma tenant_connections_spec m u t c :
  wf m -> c ∈ tenant_connections m u t <-> connections m !! conn_id c = Some c /\ user_id c = u /\ tenant_id c = t.
Proof.
  intros W. unfold tenant_connections. rewrite list_elem_of_In, filter_In, <- list_elem_of_In, bool_decide_eq_true.
  rewrite elem_of_user_connections by done. tauto.
Qed.

(** C26: A message routed to a server carries the sender's message through the
    encoding unchanged; the target server alone delivers it, and only to the
    user's connections of the message's tenant; any other server, the sender
    included, leaves its state as it was. *)
Theorem routed_to_target_only message payload routed user tenant from target server w :
  json_print message = Ok payload -> json_print (routed_message user tenant payload from target) = Ok routed ->
  from <> target -> wf (connection_manager (disp w)) ->
  let r := subscriber_handle env server routed w in
  if bool_decide (server = target)
  then exists ds, r = (length ds, mk_world (disp w) (log w ++ entries (Raw message) ds) (ticks w)) /\
         Forall (fun c => connections (connection_manager (disp w)) !! conn_id c = Some c /\
                          user_id c = user /\ tenant_id c = tenant) ds
  else r = (0%nat, w).
Proof.
  intros Hp Hr Nf W r. unfold r, subscriber_handle. rewrite (json_roundtrip _ _ Hr). cbn [routed_message rm_from_server rm_to_server].
  case_bool_decide as Es; subst.
  - rewrite bool_decide_false, (bool_decide_true (target = target)) by done. cbn [negb].
    unfold handle_routed_message. cbn [routed_message rm_to_server rm_payload rm_user_id rm_tenant_id].
    rewrite (bool_decide_true (target = target)), (json_roundtrip _ _ Hp) by done. cbn [negb].
    destruct (deliver_spec (Raw message) (tenant_connections (connection_manager (disp w)) user tenant) w) as (ds & S & E).
    exists ds. split; [done|]. apply Forall_forall. intros c Hc. apply tenant_connections_spec; [done|].
    eapply sublist_subseteq; eauto.
  - destruct (bool_decide (from = server)); [done|]. by rewrite bool_decide_false by congruence.
Qed.
End laws.
End Router.


(** ** Two servers, one user *)

Section witnesses.
#[local] Existing Instances Store.keyspace_server Store.keyspace_laws decimal_uuids.

#[local] Instance SessionInfo_eq_dec : EqDecision SessionInfo.
Proof. solve_decision. Defined.
#[local] Instance RoutedMessage_eq_dec : EqDecision RoutedMessage.
Proof. solve_decision. Defined.
#[local] Instance ServerMessage_eq_dec : EqDecision ServerMessage.
Proof. solve_decision. Defined.

Definition east : ClusterConfig :=
  {| cc_enabled := true; cc_server_id := "east"; session_prefix := "ara:cluster:sessions";
     session_ttl_seconds := 60; routing_channel := "ara:cluster:route" |}.
Definition alice_session : SessionInfo :=
  {| si_connection_id := 7%N; si_user_id := "alice"; si_tenant_id := "acme"; si_server_id := "east";
     si_connected_at := 0; si_channels := [] |}.
Definition to_alice : RoutedMessage := Router.routed_message "alice" "acme" "0" "east" "west".

#[local] Instance session_codec : JsonCodec SessionInfo := table_codec [alice_session].
#[local] Instance session_laws : JsonLaws SessionInfo := table_laws [alice_session].
#[local] Instance routed_codec : JsonCodec RoutedMessage := table_codec [to_alice].
#[local] Instance routed_laws : JsonLaws RoutedMessage := table_laws [to_alice].
#[local] Instance server_codec : JsonCodec ServerMessage := table_codec [Pong].
#[local] Instance server_laws : JsonLaws ServerMessage := table_laws [Pong].

Definition east_store : RedisStore.RedisSessionStore Keyspace :=
  RedisStore.new (Pool.new (CircuitBreaker.with_config CircuitBreaker.CircuitBreakerConfig_default 0) Health.new ∅) east.
Definition stopped (k : nat) : Z := 0.
(** Alice's session was registered, and its key has expired. *)
Definition expired_store : RedisStore.RedisSessionStore Keyspace :=
  RedisStore.pass 60 (RedisStore.register_session stopped alice_session east_store).2.

Lemma east_ready : RedisStore.ready east_store /\ RedisStore.ready expired_store.
Proof. split; split; vm_compute; reflexivity. Qed.

Lemma session_route_expires_witness :
  exists s1 l s2 s3 s4,
    RedisStore.register_session stopped alice_session east_store = (Ok tt, s1) /\
    RedisStore.find_user_servers stopped "alice" (RedisStore.pass 40 s1) = (Ok l, s2) /\ "east" ∈ l /\
    RedisStore.refresh_sessions stopped s2 = (Returned (Ok 1%nat), s3) /\
    RedisStore.find_user_servers stopped "alice" (RedisStore.pass 40 s3) = (Ok [], s4).
Proof.
  destruct (RedisStore.session_route_expires stopped alice_session "0" east_store ∅ ∅ None 0 40 40)
    as (s1 & l & s2 & s3 & s4 & E1 & E2 & L & E3 & E4 & _);
    [apply east_ready|reflexivity|reflexivity|reflexivity|reflexivity|reflexivity|reflexivity|reflexivity|reflexivity|
     unfold is_i64; lia|vm_compute; split; [discriminate|reflexivity]..|vm_compute; discriminate|].
  exists s1, l, s2, s3, s4. split; [exact E1|]. split; [exact E2|]. split; [exact L|]. split; [exact E3|exact E4].
Defined.

Lemma routed_to_target_only_witness :
  exists ds, Router.subscriber_handle example_env "west" "0" example_world =
    (length ds, mk_world (disp example_world) (entries (Raw Pong) ds) 0%nat) /\
  Router.subscriber_handle example_env "north" "0" example_world = (0%nat, example_world).
Proof.
  destruct (Router.routed_to_target_only example_env Pong "0" "0" "alice" "acme" "east" "west" "west" example_world)
    as (ds & E & _); [reflexivity|reflexivity|discriminate|apply example_manager_wf|].
  exists ds. split; [exact E|].
  apply (Router.routed_to_target_only example_env Pong "0" "0" "alice" "acme" "east" "west" "north" example_world);
    [reflexivity|reflexivity|discriminate|apply example_manager_wf].
Defined.
End witnesses.
