(* ===== verification/Settings.v ===== *)
(** * Settings: configuration, its defaults and its validation

    Models [infrastructure/config/settings.rs].  Reading the sources is the
    [config] library's; what it deserialised is the argument of [Settings_new].
    The records of the queue and acknowledgement settings are those of the
    factories ([QueueSettings], [AckSettings]). *)
From S2P Require Import Prelude Tenant Queue Ack Realtime Cluster.

(** ** Comma-separated lists *)

Definition bytes_string (bs : list nat) : string := String.string_of_list_ascii (map Ascii.ascii_of_nat bs).

(** The characters of the Unicode property [White_Space], in UTF-8. *)
Definition WHITE_SPACE : list string :=
  map bytes_string
    ([[9]; [10]; [11]; [12]; [13]; [32]; [194; 133]; [194; 160]; [225; 154; 128];
      [226; 128; 168]; [226; 128; 169]; [226; 128; 175]; [226; 129; 159]; [227; 128; 128]] ++
     map (fun k => [226; 128; k]) (seq 128 11))%nat.

Fixpoint strip_any (ps : list string) (s : string) : option string :=
  match ps with
  | [] => None
  | p :: r => match strip_prefix p s with Some s' => Some s' | None => strip_any r s end
  end.
Fixpoint strip_all (fuel : nat) (ps : list string) (s : string) : string :=
  match fuel with
  | O => s
  | S n => match strip_any ps s with Some s' => strip_all n ps s' | None => s end
  end.
Definition str_rev (s : string) : string := String.string_of_list_ascii (rev (String.list_ascii_of_string s)).

(** [str::trim] *)
Definition trim_ws (s : string) : string :=
  let t := strip_all (String.length s) WHITE_SPACE s in
  str_rev (strip_all (String.length t) (map str_rev WHITE_SPACE) (str_rev t)).

(** [str::split] at a character *)
Fixpoint split_on (c : Ascii.ascii) (s : string) : list string :=
  match s with
  | EmptyString => [""]
  | String a r =>
    if decide (a = c) then "" :: split_on c r
    else match split_on c r with x :: l => String a x :: l | [] => [String a ""] end
  end.

Definition deserialize_comma_separated (s : option string) : list string :=
  match s with
  | Some s => List.filter (fun x => negb (bool_decide (x = ""))) (map trim_ws (split_on ","%char s))
  | None => []
  end.

(** ** The records *)

(** What serde puts in for an absent field. *)
Definition default_ratelimit_backend : string := "local".
Definition default_ratelimit_redis_prefix : string := "ara:ratelimit".
Definition default_http_requests_per_second : Z := 100.
Definition default_http_burst_size : Z := 200.
Definition default_ws_connections_per_minute : Z := 10.
Definition default_ws_messages_per_second : Z := 50.
Definition default_ratelimit_cleanup_interval : Z := 60.
Definition default_ack_timeout : Z := 30.
Definition default_ack_cleanup_interval : Z := 60.
Definition default_ack_backend : string := "memory".
Definition default_ack_redis_prefix : string := "ara:ack".
Definition default_otel_endpoint : string := "http://localhost:4317".
Definition default_otel_service_name : string := "ara-notification-service".
Definition default_otel_sampling_ratio : f64 := f64_of_Z 1.
Definition default_heartbeat_interval : Z := 30.
Definition default_connection_timeout : Z := 120.
Definition default_cleanup_interval : Z := 60.
Definition default_max_connections : nat := N.to_nat 10000.
Definition default_max_connections_per_user : nat := 5.
Definition default_max_subscriptions : nat := 50.
Definition default_queue_max_size : nat := 100.
Definition default_queue_ttl : Z := 3600.
Definition default_queue_cleanup_interval : Z := 300.
Definition default_queue_backend : string := "memory".
Definition default_queue_redis_prefix : string := "ara:queue".
Definition default_circuit_breaker_failure_threshold : Z := 5.
Definition default_circuit_breaker_success_threshold : Z := 2.
Definition default_circuit_breaker_reset_timeout : Z := 30.
Definition default_backoff_initial_delay : Z := 100.
Definition default_backoff_max_delay : Z := 30000.
Definition default_database_url : string := "postgres://localhost:5432/ara_notification".
Definition default_pool_size : Z := 10.
Definition default_connect_timeout : Z := 30.
Definition default_idle_timeout : Z := 600.
Definition default_host : string := "0.0.0.0".
Definition default_port : Z := 8081.
Definition default_redis_url : string := "redis://localhost:6379".

Record ServerConfig := { sv_host : string; sv_port : Z; sv_cors_origins : list string }.
Definition ServerConfig_default : ServerConfig :=
  {| sv_host := default_host; sv_port := default_port; sv_cors_origins := [] |}.

Record JwtConfig := {
  jwt_algorithm : option string; jwt_publickey : option string; jwt_secret : string;
  jwt_issuer : option string; jwt_audience : option string;
}.

(** [f.debug_struct(name).field(..).finish()]: the name and what each field
    is written as. *)
Inductive DebugField := DebugStr (s : string) | DebugOption (o : option string).
Definition JwtConfig_fmt (c : JwtConfig) : string * list (string * DebugField) :=
  ("JwtConfig", [("secret", DebugStr "[REDACTED]"); ("issuer", DebugOption (jwt_issuer c));
                 ("audience", DebugOption (jwt_audience c))]).

(** Printed configurations tell nothing of the secret, nor of the public key. *)
Lemma jwt_secret_not_printed c c' :
  JwtConfig_fmt c = JwtConfig_fmt c' <-> jwt_issuer c = jwt_issuer c' /\ jwt_audience c = jwt_audience c'.
Proof. unfold JwtConfig_fmt. split; [by intros [= -> ->]|by intros [-> ->]]. Qed.

Record RedisConfig := {
  rd_url : string; rd_channels : list string;
  circuit_breaker_failure_threshold : Z; circuit_breaker_success_threshold : Z;
  circuit_breaker_reset_timeout_seconds : Z; backoff_initial_delay_ms : Z; backoff_max_delay_ms : Z;
}.
Definition RedisConfig_default : RedisConfig :=
  {| rd_url := default_redis_url; rd_channels := [];
     circuit_breaker_failure_threshold := default_circuit_breaker_failure_threshold;
     circuit_breaker_success_threshold := default_circuit_breaker_success_threshold;
     circuit_breaker_reset_timeout_seconds := default_circuit_breaker_reset_timeout;
     backoff_initial_delay_ms := default_backoff_initial_delay; backoff_max_delay_ms := default_backoff_max_delay |}.

Record ApiConfig := { api_config_key : option string }.
Definition ApiConfig_default : ApiConfig := {| api_config_key := None |}.

Record WebSocketConfig := {
  heartbeat_interval : Z; connection_timeout : Z; cleanup_interval : Z;
  wsc_max_connections : nat; wsc_max_connections_per_user : nat; wsc_max_subscriptions_per_connection : nat;
}.
Definition WebSocketConfig_default : WebSocketConfig :=
  {| heartbeat_interval := default_heartbeat_interval; connection_timeout := default_connection_timeout;
     cleanup_interval := default_cleanup_interval; wsc_max_connections := default_max_connections;
     wsc_max_connections_per_user := default_max_connections_per_user;
     wsc_max_subscriptions_per_connection := default_max_subscriptions |}.

Definition QueueSettings_default : QueueSettings :=
  {| set_enabled := false; set_backend := default_queue_backend; set_max_size_per_user := default_queue_max_size;
     set_message_ttl_seconds := default_queue_ttl; set_cleanup_interval_seconds := default_queue_cleanup_interval;
     set_redis_prefix := default_queue_redis_prefix |}.

Record RateLimitSettings := {
  rl_enabled : bool; rl_http_requests_per_second : Z; rl_http_burst_size : Z; rl_ws_connections_per_minute : Z;
  rl_ws_messages_per_second : Z; rl_cleanup_interval_seconds : Z; rl_backend : string; rl_redis_prefix : string;
}.
Definition RateLimitSettings_default : RateLimitSettings :=
  {| rl_enabled := false; rl_http_requests_per_second := default_http_requests_per_second;
     rl_http_burst_size := default_http_burst_size; rl_ws_connections_per_minute := default_ws_connections_per_minute;
     rl_ws_messages_per_second := default_ws_messages_per_second;
     rl_cleanup_interval_seconds := default_ratelimit_cleanup_interval;
     rl_backend := default_ratelimit_backend; rl_redis_prefix := default_ratelimit_redis_prefix |}.

Definition AckSettings_default : AckSettings :=
  {| as_enabled := false; as_backend := default_ack_backend; as_timeout_seconds := default_ack_timeout;
     as_cleanup_interval_seconds := default_ack_cleanup_interval; as_redis_prefix := default_ack_redis_prefix |}.

Record OtelConfig := { otel_enabled : bool; otel_endpoint : string; otel_service_name : string; sampling_ratio : f64 }.
Definition OtelConfig_default : OtelConfig :=
  {| otel_enabled := false; otel_endpoint := default_otel_endpoint; otel_service_name := default_otel_service_name;
     sampling_ratio := default_otel_sampling_ratio |}.

Record DatabaseConfig := { db_url : string; pool_size : Z; connect_timeout_seconds : Z; idle_timeout_seconds : Z }.
Definition DatabaseConfig_default : DatabaseConfig :=
  {| db_url := default_database_url; pool_size := default_pool_size;
     connect_timeout_seconds := default_connect_timeout; idle_timeout_seconds := default_idle_timeout |}.

Record Settings := {
  server : ServerConfig; jwt : JwtConfig; redis : RedisConfig; api : ApiConfig; websocket : WebSocketConfig;
  queue : QueueSettings; ratelimit : RateLimitSettings; ack : AckSettings; otel : OtelConfig; tenant : TenantConfig;
  database : DatabaseConfig; cluster : ClusterConfig; in_production : bool;
}.

(** Every section but [jwt] has its default. *)
Definition default_settings (j : JwtConfig) (generated_server_id : string) : Settings :=
  {| server := ServerConfig_default; jwt := j; redis := RedisConfig_default; api := ApiConfig_default;
     websocket := WebSocketConfig_default; queue := QueueSettings_default; ratelimit := RateLimitSettings_default;
     ack := AckSettings_default; otel := OtelConfig_default; tenant := TenantConfig_default;
     database := DatabaseConfig_default; cluster := ClusterConfig_default generated_server_id; in_production := false |}.

(** ** Validation *)

Definition VALID_BACKENDS : list string := ["memory"; "redis"; "postgres"].
Definition VALID_RATELIMIT_BACKENDS : list string := ["local"; "redis"].
Definition MIN_API_KEY_LENGTH : nat := 16.

Inductive SettingsError :=
| JwtSecretTooShort (len : nat)
| ApiKeyTooShort (len : nat)
| ApiKeyMissing
| BadRedisUrl (url : string)
| PortZero
| HeartbeatZero
| TimeoutZero
| AckTimeoutZero
| QueueTtlZero
| BadQueueBackend (backend : string)
| BadAckBackend (backend : string)
| BadRateLimitBackend (backend : string)
| BadSamplingRatio (ratio : f64)
| PoolSizeZero
| TimeoutNotAboveHeartbeat (timeout heartbeat : Z)
| SessionTtlNotAboveHeartbeat (ttl heartbeat : Z)
| CorsMissing.

Definition f64_leb (x y : f64) : bool := SpecFloat.SFleb x y.
Definition listed (s : string) (l : list string) : bool := existsb (String.eqb s) l.

(** [errors.push(e)] when the test fails, in the order of the tests. *)
Definition check (bad : bool) (e : SettingsError) : list SettingsError := if bad then [e] else [].

Definition check_api_key (production : bool) (key : option string) : list SettingsError :=
  if production then
    match key with
    | Some k => let len := String.length (trim_ws k) in
                if (MIN_API_KEY_LENGTH <=? len)%nat then [] else [ApiKeyTooShort len]
    | None => [ApiKeyMissing]
    end
  else [].

Definition validation_errors (s : Settings) (production : bool) : list SettingsError :=
  let hb := heartbeat_interval (websocket s) in
  let timeout := connection_timeout (websocket s) in
  let ttl := session_ttl_seconds (cluster s) in
  check (String.length (jwt_secret (jwt s)) <? 32)%nat (JwtSecretTooShort (String.length (jwt_secret (jwt s)))) ++
  check_api_key production (api_config_key (api s)) ++
  check (negb (starts_with "redis://" (rd_url (redis s))) && negb (starts_with "rediss://" (rd_url (redis s))))
    (BadRedisUrl (rd_url (redis s))) ++
  check (sv_port (server s) =? 0) PortZero ++
  check (hb =? 0) HeartbeatZero ++
  check (timeout =? 0) TimeoutZero ++
  check (as_enabled (ack s) && (as_timeout_seconds (ack s) =? 0)) AckTimeoutZero ++
  check (set_enabled (queue s) && (set_message_ttl_seconds (queue s) =? 0)) QueueTtlZero ++
  check (negb (listed (set_backend (queue s)) VALID_BACKENDS)) (BadQueueBackend (set_backend (queue s))) ++
  check (negb (listed (as_backend (ack s)) VALID_BACKENDS)) (BadAckBackend (as_backend (ack s))) ++
  check (negb (listed (rl_backend (ratelimit s)) VALID_RATELIMIT_BACKENDS)) (BadRateLimitBackend (rl_backend (ratelimit s))) ++
  check (otel_enabled (otel s) &&
         negb (f64_leb (f64_of_Z 0) (sampling_ratio (otel s)) && f64_leb (sampling_ratio (otel s)) (f64_of_Z 1)))
    (BadSamplingRatio (sampling_ratio (otel s))) ++
  check (pool_size (database s) =? 0) PoolSizeZero ++
  check ((0 <? hb) && (0 <? timeout) && (timeout <=? hb)) (TimeoutNotAboveHeartbeat timeout hb) ++
  check (cc_enabled (cluster s) && (0 <? hb) && (0 <? ttl) && (ttl <=? hb)) (SessionTtlNotAboveHeartbeat ttl hb) ++
  check (production && bool_decide (sv_cors_origins (server s) = [])) CorsMissing.

(** [Display] of a double is the standard library's. *)
Class FloatText := { f64_text : f64 -> string }.

Definition QUOTE : string := bytes_string [34%nat].
(** [{:?}] of a list of plain words *)
Definition debug_list (l : list string) : string :=
  "[" +:+ join ", " (map (fun x => QUOTE +:+ x +:+ QUOTE) l) +:+ "]".

Definition settings_error_text `{FloatText} (e : SettingsError) : string :=
  match e with
  | JwtSecretTooShort n => "JWT_SECRET must be at least 32 characters (current: " +:+ pretty n +:+ " characters)"
  | ApiKeyTooShort n =>
    "API_KEY must be at least " +:+ pretty MIN_API_KEY_LENGTH +:+ " characters in production mode (current: " +:+
    pretty n +:+ " characters)"
  | ApiKeyMissing =>
    "API_KEY is required in production mode and must be at least " +:+ pretty MIN_API_KEY_LENGTH +:+ " characters"
  | BadRedisUrl u => "Invalid Redis URL format: '" +:+ u +:+ "'. Must start with 'redis://' or 'rediss://'"
  | PortZero => "Server port must be between 1 and 65535"
  | HeartbeatZero => "websocket.heartbeat_interval must be greater than 0"
  | TimeoutZero => "websocket.connection_timeout must be greater than 0"
  | AckTimeoutZero => "ack.timeout_seconds must be greater than 0 when ACK is enabled"
  | QueueTtlZero => "queue.message_ttl_seconds must be greater than 0 when queue is enabled"
  | BadQueueBackend b =>
    "Invalid queue.backend: '" +:+ b +:+ "'. Must be one of: " +:+ debug_list VALID_BACKENDS
  | BadAckBackend b => "Invalid ack.backend: '" +:+ b +:+ "'. Must be one of: " +:+ debug_list VALID_BACKENDS
  | BadRateLimitBackend b =>
    "Invalid ratelimit.backend: '" +:+ b +:+ "'. Must be one of: " +:+ debug_list VALID_RATELIMIT_BACKENDS
  | BadSamplingRatio r => "otel.sampling_ratio must be between 0.0 and 1.0 (current: " +:+ f64_text r +:+ ")"
  | PoolSizeZero => "database.pool_size must be greater than 0"
  | TimeoutNotAboveHeartbeat t h =>
    "websocket.connection_timeout (" +:+ pretty t +:+ ") must be greater than heartbeat_interval (" +:+ pretty h +:+ ")"
  | SessionTtlNotAboveHeartbeat t h =>
    "cluster.session_ttl_seconds (" +:+ pretty t +:+ ") must be greater than websocket.heartbeat_interval (" +:+
    pretty h +:+ ")"
  | CorsMissing => "CORS_ORIGINS must be configured in production mode (empty origins allows any origin)"
  end.

Definition NEWLINE : string := bytes_string [10%nat].

Definition validate_with_production_flag `{FloatText} (s : Settings) (production : bool) : result string unit :=
  match validation_errors s production with
  | [] => Ok tt
  | errors => Err ("Configuration validation failed:" +:+ NEWLINE +:+ "  - " +:+
                   join (NEWLINE +:+ "  - ") (map settings_error_text errors))
  end.
Definition validate `{FloatText} (s : Settings) : result string unit :=
  validate_with_production_flag s (in_production s).

Definition lower (c : Ascii.ascii) : Ascii.ascii :=
  let n := Ascii.nat_of_ascii c in
  if ((65 <=? n) && (n <=? 90))%nat then Ascii.ascii_of_nat (n + 32) else c.
Fixpoint eq_ignore_ascii_case (a b : string) : bool :=
  match a, b with
  | EmptyString, EmptyString => true
  | String x a', String y b' => Ascii.eqb (lower x) (lower y) && eq_ignore_ascii_case a' b'
  | _, _ => false
  end.
Definition production_mode (run_mode : string) : bool :=
  eq_ignore_ascii_case run_mode "production" || eq_ignore_ascii_case run_mode "prod".

Definition set_production (p : bool) (s : Settings) : Settings :=
  {| server := server s; jwt := jwt s; redis := redis s; api := api s; websocket := websocket s; queue := queue s;
     ratelimit := ratelimit s; ack := ack s; otel := otel s; tenant := tenant s; database := database s;
     cluster := cluster s; in_production := p |}.

(** [Settings::new]: [loaded] is what the builder deserialised. *)
Definition Settings_new `{FloatText} (run_mode : option string) (loaded : result string Settings)
  : result string Settings :=
  s <-? loaded ;;
  let settings := set_production (production_mode (default "development" run_mode)) s in
  _ <-? validate settings ;; Ok settings.

Definition server_addr (s : Settings) : string := sv_host (server s) +:+ ":" +:+ pretty (sv_port (server s)).

(** *** The builder's defaults *)

Inductive ConfigValue := CStr (s : string) | CInt (z : Z) | CBool (b : bool) | CFloat (x : f64).
#[export] Instance spec_float_eq_dec : EqDecision f64.
Proof. solve_decision. Defined.
#[export] Instance ConfigValue_eq_dec : EqDecision ConfigValue.
Proof. solve_decision. Defined.

(** The [set_default] calls of [Settings::new]. *)
Definition builder_defaults : list (string * ConfigValue) :=
  [ ("server.host", CStr "0.0.0.0"); ("server.port", CInt 8081); ("redis.url", CStr "redis://localhost:6379");
    ("websocket.heartbeat_interval", CInt 30); ("websocket.connection_timeout", CInt 120);
    ("websocket.cleanup_interval", CInt 60); ("websocket.max_connections", CInt 10000);
    ("websocket.max_connections_per_user", CInt 5); ("websocket.max_subscriptions_per_connection", CInt 50);
    ("queue.enabled", CBool false); ("queue.max_size_per_user", CInt 100); ("queue.message_ttl_seconds", CInt 3600);
    ("queue.cleanup_interval_seconds", CInt 300); ("queue.backend", CStr "memory"); ("queue.redis_prefix", CStr "ara:queue");
    ("ratelimit.enabled", CBool false); ("ratelimit.http_requests_per_second", CInt 100);
    ("ratelimit.http_burst_size", CInt 200); ("ratelimit.ws_connections_per_minute", CInt 10);
    ("ratelimit.ws_messages_per_second", CInt 50); ("ratelimit.cleanup_interval_seconds", CInt 60);
    ("redis.circuit_breaker_failure_threshold", CInt 5); ("redis.circuit_breaker_success_threshold", CInt 2);
    ("redis.circuit_breaker_reset_timeout_seconds", CInt 30); ("redis.backoff_initial_delay_ms", CInt 100);
    ("redis.backoff_max_delay_ms", CInt 30000); ("ack.enabled", CBool false); ("ack.timeout_seconds", CInt 30);
    ("ack.cleanup_interval_seconds", CInt 60); ("ack.backend", CStr "memory"); ("ack.redis_prefix", CStr "ara:ack");
    ("otel.enabled", CBool false); ("otel.endpoint", CStr "http://localhost:4317");
    ("otel.service_name", CStr "ara-notification-service"); ("otel.sampling_ratio", CFloat (f64_of_Z 1));
    ("tenant.enabled", CBool false); ("tenant.default_limits.max_connections", CInt 1000);
    ("tenant.default_limits.max_connections_per_user", CInt 5);
    ("tenant.default_limits.max_subscriptions_per_connection", CInt 50);
    ("database.url", CStr "postgres://localhost:5432/ara_notification"); ("database.pool_size", CInt 10);
    ("database.connect_timeout_seconds", CInt 30); ("database.idle_timeout_seconds", CInt 600);
    ("cluster.enabled", CBool false); ("cluster.session_prefix", CStr "ara:cluster:sessions");
    ("cluster.session_ttl_seconds", CInt 60); ("cluster.routing_channel", CStr "ara:cluster:route") ].

(** The fields of the settings that hold one value, by their path. *)
Definition fields (s : Settings) : list (string * ConfigValue) :=
  let n k := CInt (Z.of_nat k) in
  let limits := tc_default_limits (tenant s) in
  [ ("server.host", CStr (sv_host (server s))); ("server.port", CInt (sv_port (server s)));
    ("jwt.secret", CStr (jwt_secret (jwt s))); ("redis.url", CStr (rd_url (redis s)));
    ("redis.circuit_breaker_failure_threshold", CInt (circuit_breaker_failure_threshold (redis s)));
    ("redis.circuit_breaker_success_threshold", CInt (circuit_breaker_success_threshold (redis s)));
    ("redis.circuit_breaker_reset_timeout_seconds", CInt (circuit_breaker_reset_timeout_seconds (redis s)));
    ("redis.backoff_initial_delay_ms", CInt (backoff_initial_delay_ms (redis s)));
    ("redis.backoff_max_delay_ms", CInt (backoff_max_delay_ms (redis s)));
    ("websocket.heartbeat_interval", CInt (heartbeat_interval (websocket s)));
    ("websocket.connection_timeout", CInt (connection_timeout (websocket s)));
    ("websocket.cleanup_interval", CInt (cleanup_interval (websocket s)));
    ("websocket.max_connections", n (wsc_max_connections (websocket s)));
    ("websocket.max_connections_per_user", n (wsc_max_connections_per_user (websocket s)));
    ("websocket.max_subscriptions_per_connection", n (wsc_max_subscriptions_per_connection (websocket s)));
    ("queue.enabled", CBool (set_enabled (queue s))); ("queue.max_size_per_user", n (set_max_size_per_user (queue s)));
    ("queue.message_ttl_seconds", CInt (set_message_ttl_seconds (queue s)));
    ("queue.cleanup_interval_seconds", CInt (set_cleanup_interval_seconds (queue s)));
    ("queue.backend", CStr (set_backend (queue s))); ("queue.redis_prefix", CStr (set_redis_prefix (queue s)));
    ("ratelimit.enabled", CBool (rl_enabled (ratelimit s)));
    ("ratelimit.http_requests_per_second", CInt (rl_http_requests_per_second (ratelimit s)));
    ("ratelimit.http_burst_size", CInt (rl_http_burst_size (ratelimit s)));
    ("ratelimit.ws_connections_per_minute", CInt (rl_ws_connections_per_minute (ratelimit s)));
    ("ratelimit.ws_messages_per_second", CInt (rl_ws_messages_per_second (ratelimit s)));
    ("ratelimit.cleanup_interval_seconds", CInt (rl_cleanup_interval_seconds (ratelimit s)));
    ("ratelimit.backend", CStr (rl_backend (ratelimit s))); ("ratelimit.redis_prefix", CStr (rl_redis_prefix (ratelimit s)));
    ("ack.enabled", CBool (as_enabled (ack s))); ("ack.timeout_seconds", CInt (as_timeout_seconds (ack s)));
    ("ack.cleanup_interval_seconds", CInt (as_cleanup_interval_seconds (ack s)));
    ("ack.backend", CStr (as_backend (ack s))); ("ack.redis_prefix", CStr (as_redis_prefix (ack s)));
    ("otel.enabled", CBool (otel_enabled (otel s))); ("otel.endpoint", CStr (otel_endpoint (otel s)));
    ("otel.service_name", CStr (otel_service_name (otel s))); ("otel.sampling_ratio", CFloat (sampling_ratio (otel s)));
    ("tenant.enabled", CBool (tc_enabled (tenant s)));
    ("tenant.default_limits.max_connections", n (tl_max_connections limits));
    ("tenant.default_limits.max_connections_per_user", n (tl_max_connections_per_user limits));
    ("tenant.default_limits.max_subscriptions_per_connection", n (tl_max_subscriptions_per_connection limits));
    ("database.url", CStr (db_url (database s))); ("database.pool_size", CInt (pool_size (database s)));
    ("database.connect_timeout_seconds", CInt (connect_timeout_seconds (database s)));
    ("database.idle_timeout_seconds", CInt (idle_timeout_seconds (database s)));
    ("cluster.enabled", CBool (cc_enabled (cluster s))); ("cluster.server_id", CStr (cc_server_id (cluster s)));
    ("cluster.session_prefix", CStr (session_prefix (cluster s)));
    ("cluster.session_ttl_seconds", CInt (session_ttl_seconds (cluster s)));
    ("cluster.routing_channel", CStr (routing_channel (cluster s))) ].

(** ** What validation reports *)

(** The condition each error stands for. *)
Definition problem (s : Settings) (production : bool) (e : SettingsError) : Prop :=
  let hb := heartbeat_interval (websocket s) in
  let timeout := connection_timeout (websocket s) in
  let ttl := session_ttl_seconds (cluster s) in
  match e with
  | JwtSecretTooShort n => n = String.length (jwt_secret (jwt s)) /\ (n < 32)%nat
  | ApiKeyTooShort n =>
    production = true /\ exists k, api_config_key (api s) = Some k /\ n = String.length (trim_ws k) /\ (n < 16)%nat
  | ApiKeyMissing => production = true /\ api_config_key (api s) = None
  | BadRedisUrl u => u = rd_url (redis s) /\ forall r, u <> "redis://" +:+ r /\ u <> "rediss://" +:+ r
  | PortZero => sv_port (server s) = 0
  | HeartbeatZero => hb = 0
  | TimeoutZero => timeout = 0
  | AckTimeoutZero => as_enabled (ack s) = true /\ as_timeout_seconds (ack s) = 0
  | QueueTtlZero => set_enabled (queue s) = true /\ set_message_ttl_seconds (queue s) = 0
  | BadQueueBackend b => b = set_backend (queue s) /\ b ∉ VALID_BACKENDS
  | BadAckBackend b => b = as_backend (ack s) /\ b ∉ VALID_BACKENDS
  | BadRateLimitBackend b => b = rl_backend (ratelimit s) /\ b ∉ VALID_RATELIMIT_BACKENDS
  | BadSamplingRatio x =>
    x = sampling_ratio (otel s) /\ otel_enabled (otel s) = true /\
    ~ (f64_leb (f64_of_Z 0) x = true /\ f64_leb x (f64_of_Z 1) = true)
  | PoolSizeZero => pool_size (database s) = 0
  | TimeoutNotAboveHeartbeat t h => t = timeout /\ h = hb /\ 0 < t <= h
  | SessionTtlNotAboveHeartbeat t h => t = ttl /\ h = hb /\ cc_enabled (cluster s) = true /\ 0 < t <= h
  | CorsMissing => production = true /\ sv_cors_origins (server s) = []
  end.

Lemma elem_of_check b x e : e ∈ check b x <-> b = true /\ e = x.
Proof. unfold check. destruct b; set_solver. Qed.
Lemma listed_spec x l : listed x l = true <-> x ∈ l.
Proof.
  unfold listed. rewrite existsb_exists. setoid_rewrite <- list_elem_of_In. setoid_rewrite String.eqb_eq. naive_solver.
Qed.
Lemma elem_of_check_api_key p k e :
  e ∈ check_api_key p k <-> p = true /\
    ((k = None /\ e = ApiKeyMissing) \/
     exists key, k = Some key /\ (String.length (trim_ws key) < 16)%nat /\ e = ApiKeyTooShort (String.length (trim_ws key))).
Proof.
  unfold check_api_key, MIN_API_KEY_LENGTH. destruct p; [|set_solver]. destruct k as [key|]; [|set_solver].
  case (Nat.leb_spec 16 (String.length (trim_ws key))); intros L; rewrite ?list_elem_of_singleton.
  - split; [by intros []%not_elem_of_nil|]. intros [_ [[? _]|(k' & [= <-] & ? & _)]]; [done|lia].
  - split; [intros ->; split; [done|]; right; eauto|]. intros [_ [[? _]|(k' & [= <-] & ? & E)]]; done.
Qed.
Lemma bad_prefixes u :
  negb (starts_with "redis://" u) && negb (starts_with "rediss://" u) = true <->
  forall r, u <> "redis://" +:+ r /\ u <> "rediss://" +:+ r.
Proof.
  rewrite andb_true_iff, !negb_true_iff, <- !not_true_iff_false, !starts_with_spec.
  split; [intros [A B] r; split; intros ->; eauto|]. intros A. split; intros [r ->]; by destruct (A r).
Qed.

(** Choose the disjunct whose conjuncts hold. *)
Ltac find_case := first [ by split_and! | left; by split_and! | right; find_case ].

(** C29: Validation reports exactly the problems the settings have: every failed
    condition, with the value it failed on, and nothing else. *)
Theorem validation_reports_problems s production e :
  e ∈ validation_errors s production <-> problem s production e.
Proof.
  unfold validation_errors. rewrite !elem_of_app, !elem_of_check, elem_of_check_api_key, bad_prefixes.
  rewrite ?andb_true_iff, ?Nat.ltb_lt, ?Z.eqb_eq, ?Z.ltb_lt, ?Z.leb_le, ?negb_true_iff, <- ?not_true_iff_false,
    ?listed_spec, ?andb_true_iff, bool_decide_eq_true.
  split.
  - intros H. destruct_or?; destruct_and?; destruct_or?; simplify_eq; simpl; try tauto.
    all: try (split; [done|]; eauto 6).
    + by destruct H1 as [? ->].
    + destruct H1 as (k & ? & ? & ->). simpl. eauto 6.
  - destruct e; simpl; intros H; destruct_and?; simplify_eq;
      try (match goal with H : exists _, _ |- _ => destruct H as (k & -> & -> & ?) end).
    2, 3: right; left; split; [done|]; eauto 6.
    13, 14: assert (0 < heartbeat_interval (websocket s)) by lia.
    all: find_case.
Qed.

Lemma validate_ok_iff `{FloatText} s production :
  validate_with_production_flag s production = Ok tt <-> forall e, ~ problem s production e.
Proof.
  setoid_rewrite <- validation_reports_problems. unfold validate_with_production_flag.
  destruct (validation_errors s production) as [|e es]; [|split; [done|]]; [split; [intros _ e; set_solver|done]|].
  intros N. exfalso. apply (N e). left.
Qed.

(** The defaults written twice - in the builder of [Settings::new] and in the
    [Default] of each section - agree, path by path and type by type, and no
    path is set twice. *)
Theorem builder_defaults_agree j server_id :
  NoDup (map fst builder_defaults) /\ NoDup (map fst (fields (default_settings j server_id))) /\
  forall path v, (path, v) ∈ builder_defaults -> (path, v) ∈ fields (default_settings j server_id).
Proof.
  split_and!; [by apply (bool_decide_unpack _); vm_compute..|].
  intros path v H.
  assert (F : Forall (fun pv => pv ∈ fields (default_settings j server_id)) builder_defaults).
  { repeat constructor; unfold fields; (repeat first [left | right]). }
  by eapply Forall_forall in F.
Qed.

(** ** Lists in environment variables *)

Lemma split_on_cons a s : a <> ","%char ->
  exists x l, split_on ","%char s = x :: l /\ split_on ","%char (String a s) = String a x :: l.
Proof.
  intros N. simpl. rewrite decide_False by done. destruct (split_on ","%char s) as [|x l] eqn:E; [|eauto].
  exfalso. destruct s as [|b s]; simpl in E; [done|]. case_decide; [done|]. by destruct (split_on _ _).
Qed.
Lemma split_on_join x l : Forall (fun s => str_has ","%char s = false) (x :: l) ->
  split_on ","%char (join "," (x :: l)) = x :: l.
Proof.
  revert x. induction l as [|y l IH]; intros x F; apply Forall_cons in F as [Hx F].
  - simpl. induction x as [|a x IHx]; [done|]. simpl in Hx. bool_to_prop.
    destruct (split_on_cons a x) as (? & ? & E1 & ->); [congruence|]. rewrite IHx in E1 by done. by simplify_eq.
  - change (join "," (x :: y :: l)) with (x +:+ "," +:+ join "," (y :: l)).
    specialize (IH y F). induction x as [|a x IHx].
    { change ("" +:+ "," +:+ join "," (y :: l)) with (String ","%char (join "," (y :: l))). cbn [split_on].
      by rewrite decide_True, IH. }
    simpl in Hx. bool_to_prop.
    change (String a x +:+ "," +:+ join "," (y :: l)) with (String a (x +:+ "," +:+ join "," (y :: l))).
    destruct (split_on_cons a (x +:+ "," +:+ join "," (y :: l))) as (? & ? & E1 & ->); [congruence|].
    rewrite IHx in E1 by done. by simplify_eq.
Qed.

(** What an operator joins with commas is what the service reads. *)
Lemma comma_list_roundtrip (l : list string) :
  l <> [] -> Forall (fun s => s <> "" /\ str_has ","%char s = false /\ trim_ws s = s) l ->
  deserialize_comma_separated (Some (join "," l)) = l.
Proof.
  intros N F. destruct l as [|x l]; [done|]. unfold deserialize_comma_separated.
  rewrite split_on_join by (eapply Forall_impl; [exact F|by intros ? (? & ? & ?)]).
  clear N. induction F as [|s l' (N & _ & T) F IH]; [done|]. cbn [map List.filter].
  rewrite T, bool_decide_false by done. simpl. by rewrite IH.
Qed.
