(* ===== verification/Jwt.v ===== *)
(** * Jwt: the token validator

    Models [infrastructure/auth/jwt.rs].  Decoding a token, building a key and
    reading a file are libraries' ([JwtLibrary]); what is modelled is the
    choice of key, algorithm and checks, and the mapping of the error.
    [JwtLibraryLaws] states what the library promises of a decoded token. *)
From S2P Require Import Prelude Auth Settings Http.

Inductive Algorithm := HS256 | RS256.
#[export] Instance Algorithm_eq_dec : EqDecision Algorithm.
Proof. solve_decision. Defined.

(** What the source sets of the library's [Validation]. *)
Record Validation := { val_algorithm : Algorithm; val_issuer : option (list string); val_audience : option (list string) }.
Definition validation_new (a : Algorithm) : Validation :=
  {| val_algorithm := a; val_issuer := None; val_audience := None |}.
Definition set_issuer (i : list string) (v : Validation) : Validation :=
  {| val_algorithm := val_algorithm v; val_issuer := Some i; val_audience := val_audience v |}.
Definition set_audience (a : list string) (v : Validation) : Validation :=
  {| val_algorithm := val_algorithm v; val_issuer := val_issuer v; val_audience := Some a |}.

Class JwtLibrary := {
  DecodingKey : Type;
  from_secret : string -> DecodingKey;
  from_rsa_pem : string -> option DecodingKey;
  read_file : string -> result string string;
  (** [decode] at a time *)
  decode : string -> DecodingKey -> Validation -> Z -> result string Claims;
}.

(** A token that decodes names the algorithm of the validation in its header,
    is signed with the key, and expired at most a minute ago. *)
Class JwtLibraryLaws `{JwtLibrary} := {
  header_algorithm : string -> option Algorithm;
  signed_with : DecodingKey -> Algorithm -> string -> Prop;
  decode_algorithm : forall token k v now c, decode token k v now = Ok c ->
    header_algorithm token = Some (val_algorithm v);
  decode_signed : forall token k v now c, decode token k v now = Ok c -> signed_with k (val_algorithm v) token;
  decode_unexpired : forall token k v now c, decode token k v now = Ok c -> timestamp now <= exp c + 60;
}.

Section validator.
Context `{JwtLibrary}.

Record JwtValidator := { decoding_key : DecodingKey; validation : Validation }.

(** A panic of the constructor is an [Err] with the text the source gives it. *)
Definition JwtValidator_new (c : JwtConfig) : result string JwtValidator :=
  let algorithm := default "HS256" (jwt_algorithm c) in
  key_alg <-? (if decide (algorithm = "RS256") then
                 match jwt_publickey c with
                 | None => Err "publickey is required for RS256"
                 | Some pem_path =>
                   match read_file pem_path with
                   | Err e => Err ("Failed to read public key " +:+ pem_path +:+ ": " +:+ e)
                   | Ok pem => match from_rsa_pem pem with
                               | Some k => Ok (k, RS256)
                               | None => Err "Invalid RSA public key"
                               end
                   end
                 end
               else Ok (from_secret (jwt_secret c), HS256)) ;;
  let v := validation_new key_alg.2 in
  let v := match jwt_issuer c with Some i => set_issuer [i] v | None => v end in
  let v := match jwt_audience c with Some a => set_audience [a] v | None => v end in
  Ok {| decoding_key := key_alg.1; validation := v |}.

Definition validate (j : JwtValidator) (token : string) (now : Z) : result AppError Claims :=
  map_err (fun e => AAuth ("Invalid token: " +:+ e)) (decode token (decoding_key j) (validation j) now).
End validator.

Section laws.
Context `{JwtLibraryLaws}.

(** The algorithm a configuration asks for. *)
Definition configured_algorithm (c : JwtConfig) : Algorithm :=
  if decide (jwt_algorithm c = Some "RS256") then RS256 else HS256.
(** The key a configuration asks for. *)
Definition configured_key (c : JwtConfig) : option DecodingKey :=
  match configured_algorithm c with
  | HS256 => Some (from_secret (jwt_secret c))
  | RS256 => path ← jwt_publickey c; pem ← match read_file path with Ok p => Some p | Err _ => None end; from_rsa_pem pem
  end.

Lemma JwtValidator_new_spec c :
  match JwtValidator_new c with
  | Ok j => configured_key c = Some (decoding_key j) /\
            validation j = {| val_algorithm := configured_algorithm c; val_issuer := (fun i => [i]) <$> jwt_issuer c;
                              val_audience := (fun a => [a]) <$> jwt_audience c |}
  | Err _ => configured_key c = None
  end.
Proof.
  unfold JwtValidator_new, configured_key, configured_algorithm.
  assert (E : default "HS256" (jwt_algorithm c) = "RS256" <-> jwt_algorithm c = Some "RS256")
    by (destruct (jwt_algorithm c); simpl; split; congruence).
  destruct (decide (default _ _ = _)) as [D|D]; rewrite E in D.
  - rewrite decide_True by done. destruct (jwt_publickey c) as [path|]; [simpl|done].
    destruct (read_file path) as [pem|]; [simpl|done]. destruct (from_rsa_pem pem); [|done].
    simpl. by destruct (jwt_issuer c), (jwt_audience c).
  - rewrite decide_False by done. simpl. by destruct (jwt_issuer c), (jwt_audience c).
Qed.

(** No algorithm confusion: a token that is accepted names the configured
    algorithm in its header, is signed with the configured key, and expired no
    more than a minute ago - so an RS256 service never takes a token signed
    with HS256, whatever the key. *)
Theorem accepted_tokens c j token now claims :
  JwtValidator_new c = Ok j -> validate j token now = Ok claims ->
  header_algorithm token = Some (configured_algorithm c) /\
  (exists k, configured_key c = Some k /\ signed_with k (configured_algorithm c) token) /\
  timestamp now <= exp claims + 60.
Proof.
  intros En Ev. pose proof (JwtValidator_new_spec c) as S. rewrite En in S. destruct S as [K V].
  unfold validate in Ev. destruct (decode token _ _ now) as [c'|] eqn:E; simplify_eq/=. split_and!.
  - rewrite (decode_algorithm _ _ _ _ _ E), V. done.
  - exists (decoding_key j). split; [done|]. pose proof (decode_signed _ _ _ _ _ E) as S. by rewrite V in S.
  - by eapply decode_unexpired.
Qed.

(** Every other outcome of decoding is an authentication error. *)
Lemma rejected_tokens j token now e : validate j token now = Err e -> exists m, e = AAuth ("Invalid token: " +:+ m).
Proof. unfold validate. destruct (decode _ _ _ _); intros; simplify_eq/=. by eexists. Qed.
End laws.

(** ** One token *)

Definition one_claims : Claims :=
  {| sub := "u"; exp := 100; iat := 0; roles := []; tenant_id := None; extra := ∅ |}.
Definition one_decode (token key : string) (v : Validation) (now : Z) : result string Claims :=
  if bool_decide (token = "token" /\ key = "secret" /\ val_algorithm v = HS256 /\ timestamp now <= 160)
  then Ok one_claims else Err "InvalidSignature".
#[local] Instance one_token : JwtLibrary := {|
  DecodingKey := string; from_secret := id; from_rsa_pem _ := None; read_file _ := Err "not found"; decode := one_decode |}.
#[local] Program Instance one_token_laws : JwtLibraryLaws := {|
  header_algorithm token := if decide (token = "token") then Some HS256 else None;
  signed_with key a token := token = "token" /\ key = "secret" /\ a = HS256 |}.
Next Obligation.
  intros token k v now c. cbn [decode one_token]. unfold one_decode. case_bool_decide as D; [|done].
  destruct D as (-> & _ & -> & _). done.
Qed.
Next Obligation.
  intros token k v now c. cbn [decode one_token]. unfold one_decode. case_bool_decide as D; [|done]. tauto.
Qed.
Next Obligation.
  intros token k v now c. cbn [decode one_token]. unfold one_decode. case_bool_decide as D; [|done].
  intros [= <-]. simpl. lia.
Qed.

Lemma accepted_tokens_witness :
  let c := {| jwt_algorithm := None; jwt_publickey := None; jwt_secret := "secret"; jwt_issuer := None; jwt_audience := None |} in
  exists j, JwtValidator_new c = Ok j /\ validate j "token" 0 = Ok one_claims /\
    header_algorithm "token" = Some (configured_algorithm c).
Proof.
  intros c. eexists. split; [reflexivity|]. split; [vm_compute; reflexivity|].
  eapply (accepted_tokens c _ "token" 0 one_claims); [reflexivity|vm_compute; reflexivity].
Defined.
