(* ===== verification/Metrics.v ===== *)
(** * Metrics: the Prometheus metrics and their helpers

    Models [infrastructure/metrics/mod.rs] (every metric with its name, kind,
    labels and buckets) and [infrastructure/metrics/helpers.rs].  The registry
    and the text encoder are the [prometheus] library's; what the source
    relies on is that registering a well-formed metric with a name that is
    still free succeeds, and that a labelled metric takes as many values as it
    has labels: [register] and [apply] fail (the source panics) otherwise. *)
From S2P Require Import Prelude Settings.

(** ** The metrics *)

(** A bucket bound [m / 10^e]. *)
Abbreviation Bucket := (Z * nat)%type.
Inductive MetricKind :=
| IntGauge | IntCounter | IntCounterVec (labels : list string)
| Histogram (buckets : list Bucket) | HistogramVec (labels : list string) (buckets : list Bucket).
Record Metric := { metric_name : string; metric_help : string; metric_kind : MetricKind }.

Definition METRIC_PREFIX : string := "ara".
(** The name under the common prefix, the help text and the kind. *)
Definition metric (suffix help : string) (k : MetricKind) : Metric :=
  {| metric_name := METRIC_PREFIX +:+ suffix; metric_help := help; metric_kind := k |}.

Definition CONNECTIONS_TOTAL : Metric :=
  metric "_connections_total" "Total number of active WebSocket connections"
    IntGauge.
Definition USERS_CONNECTED : Metric := metric "_users_connected" "Number of unique connected users" IntGauge.
Definition CONNECTIONS_PER_USER : Metric :=
  metric "_connections_per_user" "Distribution of connections per user"
    (Histogram [(1, 0%nat); (2, 0%nat); (3, 0%nat); (4, 0%nat); (5, 0%nat); (10, 0%nat)]).
Definition CHANNELS_ACTIVE : Metric :=
  metric "_channels_active" "Total number of channels with at least one subscriber"
    IntGauge.
Definition MESSAGES_SENT_TOTAL : Metric :=
  metric "_messages_sent_total" "Total messages sent"
    (IntCounterVec ["target"]).
Definition MESSAGES_DELIVERED_TOTAL : Metric :=
  metric "_messages_delivered_total" "Total messages successfully delivered to connections"
    IntCounter.
Definition MESSAGES_FAILED_TOTAL : Metric :=
  metric "_messages_failed_total" "Total message delivery failures"
    IntCounter.
Definition MESSAGE_DELIVERY_LATENCY : Metric :=
  metric "_message_delivery_latency_seconds" "Message delivery latency in seconds"
    (Histogram [(1, 4%nat); (5, 4%nat); (1, 3%nat); (5, 3%nat); (1, 2%nat); (5, 2%nat); (1, 1%nat); (5, 1%nat); (1, 0%nat)]).
Definition REDIS_CONNECTION_STATUS : Metric :=
  metric "_redis_connection_status" "Redis connection status (1=connected, 0=disconnected)"
    IntGauge.
Definition REDIS_CIRCUIT_BREAKER_STATE : Metric :=
  metric "_redis_circuit_breaker_state" "Redis circuit breaker state (0=closed, 1=open, 2=half-open)"
    IntGauge.
Definition REDIS_RECONNECTIONS_TOTAL : Metric :=
  metric "_redis_reconnections_total" "Total Redis reconnection attempts"
    IntCounter.
Definition REDIS_MESSAGES_RECEIVED : Metric :=
  metric "_redis_messages_received_total" "Total messages received from Redis pub/sub"
    IntCounter.
Definition QUEUE_SIZE_TOTAL : Metric := metric "_queue_size_total" "Total messages currently in queue" IntGauge.
Definition QUEUE_USERS_TOTAL : Metric :=
  metric "_queue_users_total" "Number of users with queued messages"
    IntGauge.
Definition QUEUE_ENQUEUED_TOTAL : Metric :=
  metric "_queue_enqueued_total" "Total messages enqueued for offline users"
    IntCounter.
Definition QUEUE_REPLAYED_TOTAL : Metric :=
  metric "_queue_replayed_total" "Total messages replayed on user reconnect"
    IntCounter.
Definition QUEUE_EXPIRED_TOTAL : Metric :=
  metric "_queue_expired_total" "Total messages expired from queue"
    IntCounter.
Definition QUEUE_DROPPED_TOTAL : Metric :=
  metric "_queue_dropped_total" "Total messages dropped due to queue being full"
    IntCounter.
Definition RATELIMIT_ALLOWED_TOTAL : Metric :=
  metric "_ratelimit_allowed_total" "Total requests allowed by rate limiter"
    (IntCounterVec ["type"]).
Definition RATELIMIT_DENIED_TOTAL : Metric :=
  metric "_ratelimit_denied_total" "Total requests denied by rate limiter"
    (IntCounterVec ["type"]).
Definition ACK_TRACKED_TOTAL : Metric :=
  metric "_ack_tracked_total" "Total notifications tracked for ACK"
    IntCounter.
Definition ACK_RECEIVED_TOTAL : Metric :=
  metric "_ack_received_total" "Total ACKs received from clients"
    IntCounter.
Definition ACK_EXPIRED_TOTAL : Metric :=
  metric "_ack_expired_total" "Total ACKs that expired without being received"
    IntCounter.
Definition ACK_PENDING : Metric := metric "_ack_pending" "Current number of pending ACKs" IntGauge.
Definition ACK_LATENCY : Metric :=
  metric "_ack_latency_seconds" "ACK latency in seconds (time from send to ACK)"
    (Histogram [(1, 2%nat); (5, 2%nat); (1, 1%nat); (25, 2%nat); (5, 1%nat); (1, 0%nat); (25, 1%nat); (5, 0%nat); (10, 0%nat)]).
Definition HTTP_REQUESTS_TOTAL : Metric :=
  metric "_http_requests_total" "Total HTTP requests"
    (IntCounterVec ["method"; "path"; "status"]).
Definition HTTP_REQUEST_LATENCY : Metric :=
  metric "_http_request_latency_seconds" "HTTP request latency in seconds"
    (HistogramVec ["method"; "path"] [(1, 3%nat); (5, 3%nat); (1, 2%nat); (25, 3%nat); (5, 2%nat); (1, 1%nat); (25, 2%nat); (5, 1%nat); (1, 0%nat)]).
Definition WS_CONNECTIONS_OPENED : Metric :=
  metric "_ws_connections_opened_total" "Total WebSocket connections opened"
    IntCounter.
Definition WS_CONNECTIONS_CLOSED : Metric :=
  metric "_ws_connections_closed_total" "Total WebSocket connections closed"
    IntCounter.
Definition WS_MESSAGES_RECEIVED : Metric :=
  metric "_ws_messages_received_total" "Total WebSocket messages received from clients"
    (IntCounterVec ["type"]).
Definition WS_CONNECTION_DURATION : Metric :=
  metric "_ws_connection_duration_seconds" "WebSocket connection duration in seconds"
    (Histogram [(1, 0%nat); (5, 0%nat); (10, 0%nat); (30, 0%nat); (60, 0%nat); (300, 0%nat); (600, 0%nat); (1800, 0%nat); (3600, 0%nat)]).
Definition BATCH_REQUESTS_TOTAL : Metric :=
  metric "_batch_requests_total" "Total batch notification requests"
    IntCounter.
Definition BATCH_SIZE : Metric :=
  metric "_batch_size" "Number of notifications per batch request"
    (Histogram [(1, 0%nat); (5, 0%nat); (10, 0%nat); (25, 0%nat); (50, 0%nat); (75, 0%nat); (100, 0%nat)]).
Definition PROCESS_MEMORY_BYTES : Metric :=
  metric "_process_memory_bytes" "Process memory usage (RSS) in bytes"
    IntGauge.
Definition CONNECTION_MANAGER_MEMORY_BYTES : Metric :=
  metric "_connection_manager_memory_bytes" "Estimated memory used by connection manager"
    IntGauge.
Definition QUEUE_MEMORY_BYTES : Metric :=
  metric "_queue_memory_bytes" "Estimated memory used by message queue"
    IntGauge.
Definition HEARTBEAT_DURATION_MS : Metric :=
  metric "_heartbeat_duration_ms" "Heartbeat round duration in milliseconds"
    (Histogram [(10, 0%nat); (50, 0%nat); (100, 0%nat); (250, 0%nat); (500, 0%nat); (1000, 0%nat); (2500, 0%nat); (5000, 0%nat); (10000, 0%nat)]).
Definition HEARTBEAT_TIMEOUTS : Metric :=
  metric "_heartbeat_timeouts_total" "Total heartbeat send timeouts"
    IntCounter.
Definition BACKEND_OPERATION_LATENCY : Metric :=
  metric "_backend_operation_latency_seconds" "Backend operation latency in seconds"
    (HistogramVec ["backend"; "operation"] [(1, 3%nat); (5, 3%nat); (1, 2%nat); (25, 3%nat); (5, 2%nat); (1, 1%nat); (25, 2%nat); (5, 1%nat); (1, 0%nat)]).
Definition BACKEND_ERRORS_TOTAL : Metric :=
  metric "_backend_errors_total" "Total backend operation errors"
    (IntCounterVec ["backend"; "operation"]).
Definition CLUSTER_ENABLED : Metric :=
  metric "_cluster_enabled" "Cluster mode enabled (1=enabled, 0=disabled)"
    IntGauge.
Definition CLUSTER_CONNECTIONS_TOTAL : Metric :=
  metric "_cluster_connections_total" "Cluster-wide total connections"
    IntGauge.
Definition CLUSTER_USERS_TOTAL : Metric := metric "_cluster_users_total" "Cluster-wide unique users" IntGauge.
Definition CLUSTER_SESSIONS_REFRESHED : Metric :=
  metric "_cluster_sessions_refreshed_total" "Total cluster sessions refreshed"
    IntCounter.
Definition CLUSTER_MESSAGES_ROUTED : Metric :=
  metric "_cluster_messages_routed_total" "Total messages routed to other servers"
    IntCounter.
Definition CLUSTER_MESSAGES_RECEIVED : Metric :=
  metric "_cluster_messages_received_total" "Total messages received from other servers"
    IntCounter.

Definition all_metrics : list Metric :=
  [CONNECTIONS_TOTAL; USERS_CONNECTED; CONNECTIONS_PER_USER; CHANNELS_ACTIVE; MESSAGES_SENT_TOTAL;
   MESSAGES_DELIVERED_TOTAL; MESSAGES_FAILED_TOTAL; MESSAGE_DELIVERY_LATENCY; REDIS_CONNECTION_STATUS;
   REDIS_CIRCUIT_BREAKER_STATE; REDIS_RECONNECTIONS_TOTAL; REDIS_MESSAGES_RECEIVED; QUEUE_SIZE_TOTAL;
   QUEUE_USERS_TOTAL; QUEUE_ENQUEUED_TOTAL; QUEUE_REPLAYED_TOTAL; QUEUE_EXPIRED_TOTAL; QUEUE_DROPPED_TOTAL;
   RATELIMIT_ALLOWED_TOTAL; RATELIMIT_DENIED_TOTAL; ACK_TRACKED_TOTAL; ACK_RECEIVED_TOTAL; ACK_EXPIRED_TOTAL;
   ACK_PENDING; ACK_LATENCY; HTTP_REQUESTS_TOTAL; HTTP_REQUEST_LATENCY; WS_CONNECTIONS_OPENED;
   WS_CONNECTIONS_CLOSED; WS_MESSAGES_RECEIVED; WS_CONNECTION_DURATION; BATCH_REQUESTS_TOTAL; BATCH_SIZE;
   PROCESS_MEMORY_BYTES; CONNECTION_MANAGER_MEMORY_BYTES; QUEUE_MEMORY_BYTES; HEARTBEAT_DURATION_MS;
   HEARTBEAT_TIMEOUTS; BACKEND_OPERATION_LATENCY; BACKEND_ERRORS_TOTAL; CLUSTER_ENABLED;
   CLUSTER_CONNECTIONS_TOTAL; CLUSTER_USERS_TOTAL; CLUSTER_SESSIONS_REFRESHED; CLUSTER_MESSAGES_ROUTED;
   CLUSTER_MESSAGES_RECEIVED].

(** ** Registration *)

Definition byte_in (lo hi : nat) (c : Ascii.ascii) : bool :=
  let n := Ascii.nat_of_ascii c in ((lo <=? n) && (n <=? hi))%nat.
(** A letter or an underscore, and then digits too; a metric's name may also
    hold colons. *)
Definition name_start (colon : bool) (c : Ascii.ascii) : bool :=
  byte_in 97 122 c || byte_in 65 90 c || Ascii.eqb c "_" || (colon && Ascii.eqb c ":").
Definition valid_name (colon : bool) (s : string) : bool :=
  match String.list_ascii_of_string s with
  | [] => false
  | c :: r => name_start colon c && forallb (fun d => name_start colon d || byte_in 48 57 d) r
  end.

(** The order of two bucket bounds [m / 10^e]. *)
Definition bucket_lt (a b : Bucket) : bool := a.1 * 10 ^ Z.of_nat b.2 <? b.1 * 10 ^ Z.of_nat a.2.
Fixpoint increasing (l : list Bucket) : bool :=
  match l with
  | a :: (b :: _) as r => bucket_lt a b && increasing r
  | _ => true
  end.

Definition labels_of (k : MetricKind) : list string :=
  match k with IntCounterVec l | HistogramVec l _ => l | _ => [] end.
Definition buckets_of (k : MetricKind) : list Bucket :=
  match k with Histogram b | HistogramVec _ b => b | _ => [] end.

Definition well_formed (m : Metric) : bool :=
  valid_name true (metric_name m) && forallb (valid_name false) (labels_of (metric_kind m)) &&
  bool_decide (NoDup (labels_of (metric_kind m))) && increasing (buckets_of (metric_kind m)).

(** The names registered after one more metric; [None] is the panic of the
    [unwrap] in its initialiser. *)
Definition register (registry : list string) (m : Metric) : option (list string) :=
  if well_formed m && negb (bool_decide (metric_name m ∈ registry)) then Some (metric_name m :: registry) else None.
Fixpoint register_all (registry : list string) (ms : list Metric) : option (list string) :=
  match ms with
  | [] => Some registry
  | m :: r => match register registry m with Some reg => register_all reg r | None => None end
  end.

(** ** Recording *)

(** Series by metric name and label values. *)
Abbreviation Series := (string * list string)%type.
Record Samples := { values : gmap Series Z; observed : gmap Series (list f64) }.
Definition no_samples : Samples := {| values := ∅; observed := ∅ |}.

Inductive update :=
| Inc (m : Metric) (label_values : list string) (n : Z)
| SetTo (m : Metric) (v : Z)
| Observe (m : Metric) (label_values : list string) (x : f64).

(** Counters wrap at 64 bits; [None] is a panic: the metric has another kind
    or another number of labels. *)
Definition apply (u : update) (s : Samples) : option Samples :=
  match u with
  | Inc m ls n =>
    match metric_kind m with
    | IntCounter | IntCounterVec _ =>
      if (length ls =? length (labels_of (metric_kind m)))%nat
      then let k := (metric_name m, ls) in
           Some {| values := <[k := u64 (default 0 (values s !! k) + n)]> (values s); observed := observed s |}
      else None
    | _ => None
    end
  | SetTo m v =>
    match metric_kind m with
    | IntGauge => Some {| values := <[(metric_name m, []) := v]> (values s); observed := observed s |}
    | _ => None
    end
  | Observe m ls x =>
    match metric_kind m with
    | Histogram _ | HistogramVec _ _ =>
      if (length ls =? length (labels_of (metric_kind m)))%nat
      then let k := (metric_name m, ls) in
           Some {| values := values s; observed := <[k := default [] (observed s !! k) ++ [x]]> (observed s) |}
      else None
    | _ => None
    end
  end.
Fixpoint apply_all (us : list update) (s : Samples) : option Samples :=
  match us with
  | [] => Some s
  | u :: r => match apply u s with Some s' => apply_all r s' | None => None end
  end.

(** ** The helpers *)

(** [split_whitespace] *)
Fixpoint words (fuel : nat) (cur s : string) : list string :=
  let flush := if decide (cur = "") then [] else [cur] in
  match fuel with
  | O => flush
  | S n =>
    match strip_any WHITE_SPACE s with
    | Some s' => flush ++ words n "" s'
    | None => match s with
              | EmptyString => flush
              | String a r => words n (cur +:+ String a "") r
              end
    end
  end.
Definition split_whitespace (s : string) : list string := words (S (String.length s)) "" s.

Fixpoint digits (acc : Z) (s : string) : option Z :=
  match s with
  | EmptyString => Some acc
  | String c r => if byte_in 48 57 c then digits (acc * 10 + Z.of_nat (Ascii.nat_of_ascii c) - 48) r else None
  end.
(** [parse::<i64>] *)
Definition parse_i64 (s : string) : option Z :=
  let body neg r :=
    match r with
    | EmptyString => None
    | _ => match digits 0 r with
           | Some v => let v := if neg : bool then - v else v in
                       if (- 2 ^ 63 <=? v) && (v <? 2 ^ 63) then Some v else None
           | None => None
           end
    end in
  match s with
  | String "-" r => body true r
  | String "+" r => body false r
  | r => body false r
  end.

(** The kilobytes of the first [VmRSS:] line that has a number. *)
Fixpoint resident_kb (lines : list string) : option Z :=
  match lines with
  | [] => None
  | line :: r =>
    if starts_with "VmRSS:" line then
      match split_whitespace line !! 1%nat with
      | Some kb_str => match parse_i64 kb_str with Some kb => Some kb | None => resident_kb r end
      | None => resident_kb r
      end
    else resident_kb r
  end.

Inductive MessageMetrics :=
| record_user_sent | record_users_sent | record_broadcast_sent | record_channel_sent | record_channels_sent
| record_delivered (count : Z) | record_failed (count : Z).
Definition message_metrics (c : MessageMetrics) : list update :=
  match c with
  | record_user_sent => [Inc MESSAGES_SENT_TOTAL ["user"] 1]
  | record_users_sent => [Inc MESSAGES_SENT_TOTAL ["users"] 1]
  | record_broadcast_sent => [Inc MESSAGES_SENT_TOTAL ["broadcast"] 1]
  | record_channel_sent => [Inc MESSAGES_SENT_TOTAL ["channel"] 1]
  | record_channels_sent => [Inc MESSAGES_SENT_TOTAL ["channels"] 1]
  | record_delivered count => [Inc MESSAGES_DELIVERED_TOTAL [] count]
  | record_failed count => [Inc MESSAGES_FAILED_TOTAL [] count]
  end.

Inductive RateLimitMetrics := record_http_allowed | record_http_denied | record_ws_allowed | record_ws_denied.
Definition rate_limit_metrics (c : RateLimitMetrics) : list update :=
  match c with
  | record_http_allowed => [Inc RATELIMIT_ALLOWED_TOTAL ["http"] 1]
  | record_http_denied => [Inc RATELIMIT_DENIED_TOTAL ["http"] 1]
  | record_ws_allowed => [Inc RATELIMIT_ALLOWED_TOTAL ["ws"] 1]
  | record_ws_denied => [Inc RATELIMIT_DENIED_TOTAL ["ws"] 1]
  end.

(** [status] is what [/proc/self/status] holds, if it can be read. *)
Inductive MemoryMetrics :=
| update_process_memory (status : option string)
| update_connection_manager_memory (connections subscriptions : nat)
| update_queue_memory (messages avg_message_size : nat).
Definition memory_metrics (c : MemoryMetrics) : list update :=
  match c with
  | update_process_memory status =>
    match status with
    | Some text => match resident_kb (split_on (Ascii.ascii_of_nat 10) text) with
                   | Some kb => [SetTo PROCESS_MEMORY_BYTES (i64 (kb * 1024))]
                   | None => []
                   end
    | None => []
    end
  | update_connection_manager_memory connections subscriptions =>
    [SetTo CONNECTION_MANAGER_MEMORY_BYTES
       (i64 (u64 (u64 (Z.of_nat connections * 500) + u64 (Z.of_nat subscriptions * 100))))]
  | update_queue_memory messages avg => [SetTo QUEUE_MEMORY_BYTES (i64 (u64 (Z.of_nat messages * Z.of_nat avg)))]
  end.

Inductive HeartbeatMetrics := record_duration_ms (duration_ms : Z) | record_timeouts (count : Z).
Definition heartbeat_metrics (c : HeartbeatMetrics) : list update :=
  match c with
  | record_duration_ms d => [Observe HEARTBEAT_DURATION_MS [] (f64_of_Z d)]
  | record_timeouts count => [Inc HEARTBEAT_TIMEOUTS [] count]
  end.

Inductive BackendMetrics :=
| record_backend_latency (backend operation : string) (latency_secs : f64)
| record_error (backend operation : string).
Definition backend_metrics (c : BackendMetrics) : list update :=
  match c with
  | record_backend_latency backend operation x => [Observe BACKEND_OPERATION_LATENCY [backend; operation] x]
  | record_error backend operation => [Inc BACKEND_ERRORS_TOTAL [backend; operation] 1]
  end.

Inductive ClusterMetrics :=
| set_cluster_enabled (enabled : bool) | set_cluster_connections (count : nat) | set_cluster_users (count : nat)
| record_sessions_refreshed (count : nat) | record_message_routed | record_message_received.
Definition cluster_metrics (c : ClusterMetrics) : list update :=
  match c with
  | set_cluster_enabled enabled => [SetTo CLUSTER_ENABLED (if enabled then 1 else 0)]
  | set_cluster_connections count => [SetTo CLUSTER_CONNECTIONS_TOTAL (i64 (Z.of_nat count))]
  | set_cluster_users count => [SetTo CLUSTER_USERS_TOTAL (i64 (Z.of_nat count))]
  | record_sessions_refreshed count => [Inc CLUSTER_SESSIONS_REFRESHED [] (Z.of_nat count)]
  | record_message_routed => [Inc CLUSTER_MESSAGES_ROUTED [] 1]
  | record_message_received => [Inc CLUSTER_MESSAGES_RECEIVED [] 1]
  end.

Inductive WsMessageMetrics := record_subscribe | record_unsubscribe | record_ping | record_ack.
Definition ws_message_metrics (c : WsMessageMetrics) : list update :=
  match c with
  | record_subscribe => [Inc WS_MESSAGES_RECEIVED ["subscribe"] 1]
  | record_unsubscribe => [Inc WS_MESSAGES_RECEIVED ["unsubscribe"] 1]
  | record_ping => [Inc WS_MESSAGES_RECEIVED ["ping"] 1]
  | record_ack => [Inc WS_MESSAGES_RECEIVED ["ack"] 1]
  end.

Inductive AckMetrics :=
| record_tracked | record_received | record_expired | set_pending (count : Z) | record_ack_latency (latency_secs : f64).
Definition ack_metrics (c : AckMetrics) : list update :=
  match c with
  | record_tracked => [Inc ACK_TRACKED_TOTAL [] 1]
  | record_received => [Inc ACK_RECEIVED_TOTAL [] 1]
  | record_expired => [Inc ACK_EXPIRED_TOTAL [] 1]
  | set_pending count => [SetTo ACK_PENDING count]
  | record_ack_latency x => [Observe ACK_LATENCY [] x]
  end.

Inductive HelperCall :=
| OnMessage (c : MessageMetrics) | OnRateLimit (c : RateLimitMetrics) | OnMemory (c : MemoryMetrics)
| OnHeartbeat (c : HeartbeatMetrics) | OnBackend (c : BackendMetrics) | OnCluster (c : ClusterMetrics)
| OnWsMessage (c : WsMessageMetrics) | OnAck (c : AckMetrics).
Definition helper (c : HelperCall) : list update :=
  match c with
  | OnMessage c => message_metrics c
  | OnRateLimit c => rate_limit_metrics c
  | OnMemory c => memory_metrics c
  | OnHeartbeat c => heartbeat_metrics c
  | OnBackend c => backend_metrics c
  | OnCluster c => cluster_metrics c
  | OnWsMessage c => ws_message_metrics c
  | OnAck c => ack_metrics c
  end.

(** ** Nothing panics *)

Lemma all_metrics_well_formed : Forall (fun m => well_formed m = true) all_metrics.
Proof. repeat constructor. Qed.
Lemma metric_names_distinct : NoDup (metric_name <$> all_metrics).
Proof. apply (bool_decide_unpack _). by vm_compute. Qed.
Lemma metric_name_inj m n : m ∈ all_metrics -> n ∈ all_metrics -> metric_name m = metric_name n -> m = n.
Proof.
  intros [i Hi]%list_elem_of_lookup_1 [j Hj]%list_elem_of_lookup_1 E. assert (i = j) as <-.
  { eapply NoDup_lookup; [apply metric_names_distinct|by rewrite list_lookup_fmap, Hi|].
    by rewrite list_lookup_fmap, Hj, E. }
  congruence.
Qed.

Lemma register_all_fresh registry ms :
  ms ⊆ all_metrics -> NoDup ms -> Forall (fun m => metric_name m ∉ registry) ms -> is_Some (register_all registry ms).
Proof.
  intros Sub Nd. revert registry. induction Nd as [|m ms Hm _ IH]; intros registry F; [by eexists|].
  apply Forall_cons in F as [Fm F]. simpl. unfold register.
  assert (Hin : m ∈ all_metrics) by (apply Sub; left).
  rewrite (proj1 (Forall_forall _ _) all_metrics_well_formed m Hin), bool_decide_false by done.
  apply IH; [intros n Hn; apply Sub; by right|]. apply Forall_forall. intros n Hn.
  apply not_elem_of_cons. split; [|by eapply Forall_forall in F].
  intros E%metric_name_inj; [by subst|apply Sub; by right|done].
Qed.

(** An update whose metric has the kind and the number of labels it needs. *)
Definition well_typed (u : update) : bool :=
  match u with
  | Inc m ls _ =>
    match metric_kind m with
    | IntCounter => (length ls =? 0)%nat | IntCounterVec l => (length ls =? length l)%nat | _ => false
    end
  | SetTo m _ => match metric_kind m with IntGauge => true | _ => false end
  | Observe m ls _ =>
    match metric_kind m with
    | Histogram _ => (length ls =? 0)%nat | HistogramVec l _ => (length ls =? length l)%nat | _ => false
    end
  end.
Lemma well_typed_apply u s : well_typed u = true <-> is_Some (apply u s).
Proof.
  destruct u as [m ls n|m v|m ls x]; simpl; destruct (metric_kind m); simpl;
    try (by split; [done|intros [? ?]]); try (by split; [eexists|]);
    destruct (_ =? _)%nat; split; try done; try (by eexists); by intros [? ?].
Qed.
Lemma well_typed_apply_all us s : forallb well_typed us = true -> is_Some (apply_all us s).
Proof.
  revert s. induction us as [|u us IH]; intros s; [by eexists|]. simpl. intros [U Us]%andb_true_iff.
  destruct (proj1 (well_typed_apply u s) U) as [s' ->]. by apply IH.
Qed.

Lemma helper_well_typed c : forallb well_typed (helper c) = true.
Proof. destruct c as [c|c|c|c|c|c|c|c]; destruct c; simpl; repeat case_match; reflexivity. Qed.

(** C36: The metrics are well typed.  Every name, label and bucket list is one the
    registry accepts and no name is used twice, so in whatever order the
    metrics are first used none of their initialisers panics; and every
    helper records with the kind and the number of labels its metric is
    declared with, so no helper panics. *)
Theorem metrics_never_panic ms c s :
  ms ⊆ all_metrics -> NoDup ms -> is_Some (register_all [] ms) /\ is_Some (apply_all (helper c) s).
Proof.
  intros Sub N. split; [|by apply well_typed_apply_all, helper_well_typed].
  apply register_all_fresh; [done..|]. apply Forall_true. intros m. apply not_elem_of_nil.
Qed.
Lemma metrics_never_panic_witness :
  is_Some (register_all [] all_metrics) /\ is_Some (apply_all (helper (OnBackend (record_error "redis" "xadd"))) no_samples).
Proof. apply metrics_never_panic; [done|]. eapply NoDup_fmap_1, metric_names_distinct. Defined.

(** The series a metric's update touches. *)
Definition series_of (u : update) : Series :=
  match u with Inc m ls _ | Observe m ls _ => (metric_name m, ls) | SetTo m _ => (metric_name m, []) end.
Lemma apply_other u s s' k : apply u s = Some s' -> k <> series_of u ->
  values s' !! k = values s !! k /\ observed s' !! k = observed s !! k.
Proof.
  intros E N. destruct u as [m ls n|m v|m ls x]; simpl in *; repeat case_match; simplify_eq; simpl;
    by rewrite lookup_insert_ne by congruence.
Qed.

Example rss_line : memory_metrics (update_process_memory (Some
  (String.concat (String (Ascii.ascii_of_nat 10) "") ["Name: ara"; "VmRSS:	    2048 kB"; "Threads: 4"]))) =
  [SetTo PROCESS_MEMORY_BYTES 2097152].
Proof. reflexivity. Qed.
