(* ===== verification/Api.v ===== *)
(** * Api: the HTTP middleware and the read-only endpoints

    Models [server/middleware.rs] and the endpoints of [api/connection.rs],
    [api/tenant.rs] and [api/cluster.rs].  A request is what the middleware
    reads of it: the values of the headers that decode to text, and the
    peer's address. *)
From S2P Require Import Prelude Auth Tenant RateLimit Connection Realtime Cluster.
Import RateLimit.Limiter.

(** ** API key authentication *)

Record ApiSettings := { is_production : bool; api_key : option string }.

Record Request := { rq_api_key : option string; rq_tenant_id : option string; rq_ip : string }.

(** The bytes are folded with [or] of their [xor], whatever they are. *)
Definition constant_time_eq (a b : list N) : bool :=
  if negb (length a =? length b)%nat then false
  else (fold_left (fun acc xy => N.lor acc (N.lxor xy.1 xy.2)) (zip a b) 0 =? 0)%N.

Inductive AuthOutcome := Next (ctx : option TenantContext) | Reject (status : Z).

Section middleware.
Context `{UnicodeTables}.

Definition api_key_auth (s : ApiSettings) (tm : TenantManager) (req : Request) : AuthOutcome :=
  match api_key s with
  | None => if is_production s then Reject 503 else Next None
  | Some expected_key =>
    match rq_api_key req with
    | Some key =>
      if constant_time_eq (str_bytes key) (str_bytes expected_key) then
        if tm_is_enabled tm then
          match trim <$> rq_tenant_id req with
          | Some tid => if is_valid_tenant_id tid then Next (Some (create_context tm tid)) else Reject 400
          | None => Reject 400
          end
        else Next None
      else Reject 401
    | None => Reject 401
    end
  end.

(** ** Rate limiting *)

Record Response := { rs_status : Z; rs_headers : gmap string string; rs_body : string }.

Definition status_response (status : Z) : Response :=
  {| rs_status := status; rs_headers := ∅; rs_body := "" |}.

(** The body is the error's message; the code beside it is [RATE_LIMITED]. *)
Definition rate_limit_response (retry_after limit reset_at : Z) : Response :=
  {| rs_status := 429;
     rs_headers := <["X-RateLimit-Reset" := pretty reset_at]> (<["X-RateLimit-Remaining" := "0"]>
       (<["X-RateLimit-Limit" := pretty limit]> {["Retry-After" := pretty retry_after]}));
     rs_body := "Too many requests, please retry after " +:+ pretty retry_after +:+ " seconds" |}.

Definition add_rate_headers (remaining limit reset_at : Z) (r : Response) : Response :=
  {| rs_status := rs_status r;
     rs_headers := <["X-RateLimit-Reset" := pretty reset_at]> (<["X-RateLimit-Remaining" := pretty remaining]>
       (<["X-RateLimit-Limit" := pretty limit]> (rs_headers r)));
     rs_body := rs_body r |}.

Section layers.
Context {S : Type}.

(** A service answers a request; the limiter is shared by its layers, and [S]
    is the state behind them. *)
Definition Service := RateLimiter * S -> Response * (RateLimiter * S).

Definition rate_limit_middleware (req : Request) (now0 now1 now2 : Z) (next : Service) : Service := fun w =>
  if negb (Limiter.is_enabled w.1) then next w
  else
    let '(r, l) := check_http w.1 (rq_api_key req) (rq_ip req) now0 now1 now2 in
    match r with
    | Allowed remaining limit reset_at =>
      let n := next (l, w.2) in (add_rate_headers remaining limit reset_at n.1, n.2)
    | Denied retry limit reset_at => (rate_limit_response retry limit reset_at, (l, w.2))
    end.
(** Connections are limited by the peer's address. *)
Definition ws_rate_limit_middleware (req : Request) (now0 now1 now2 : Z) (next : Service) : Service := fun w =>
  if negb (Limiter.is_enabled w.1) then next w
  else
    let '(r, l) := check_ip w.1 (rq_ip req) now0 now1 now2 in
    match r with
    | Allowed _ _ _ => next (l, w.2)
    | Denied retry limit reset_at => (rate_limit_response retry limit reset_at, (l, w.2))
    end.

(** What is behind the limiter is reached with the state as it was, or not at
    all and the answer is 429. *)
Lemma rate_limit_cases req n0 n1 n2 (next : Service) w :
  let out := rate_limit_middleware req n0 n1 n2 next w in
  (exists l, rs_status out.1 = rs_status (next (l, w.2)).1 /\ rs_body out.1 = rs_body (next (l, w.2)).1 /\
     out.2 = (next (l, w.2)).2) \/
  (rs_status out.1 = 429 /\ out.2.2 = w.2 /\ Limiter.is_enabled w.1 = true /\
   Limiter.is_allowed (check_http w.1 (rq_api_key req) (rq_ip req) n0 n1 n2).1 = false).
Proof.
  unfold rate_limit_middleware. destruct w as [l s]. simpl. destruct (Limiter.is_enabled l) eqn:E; simpl; [|eauto].
  destruct (check_http l _ _ n0 n1 n2) as [[] l'] eqn:C; simpl; [left; by eauto|right; done].
Qed.
End layers.

(** *** Properties *)

Lemma lor_xor_fold xs acc :
  fold_left (fun (acc : N) (xy : N * N) => N.lor acc (N.lxor xy.1 xy.2)) xs acc = 0%N <->
  acc = 0%N /\ Forall (fun xy => xy.1 = xy.2) xs.
Proof.
  revert acc. induction xs as [|[x y] xs IH]; intros acc; simpl.
  - split; [intros ->; by split|by intros [? _]].
  - rewrite IH, N.lor_eq_0_iff, N.lxor_eq_0_iff, Forall_cons. simpl. tauto.
Qed.

Lemma zip_same (a b : list N) :
  length a = length b -> Forall (fun xy : N * N => xy.1 = xy.2) (zip a b) <-> a = b.
Proof.
  revert b. induction a as [|x a IH]; intros [|y b] L; simplify_eq/=; [done|].
  rewrite Forall_cons, IH by done. simpl. naive_solver.
Qed.

(** The comparison that takes the same time whatever the bytes still
    decides equality. *)
Lemma constant_time_eq_spec a b : constant_time_eq a b = true <-> a = b.
Proof.
  unfold constant_time_eq. destruct (length a =? length b)%nat eqn:E; bool_to_prop; simpl.
  - rewrite N.eqb_eq, lor_xor_fold, zip_same by done. tauto.
  - split; [done|]. by intros ->.
Qed.

Lemma str_bytes_inj a b : str_bytes a = str_bytes b -> a = b.
Proof.
  unfold str_bytes. intros E%list_fmap_eq_inj; [|].
  - rewrite <- (String.string_of_list_ascii_of_string a), E. apply String.string_of_list_ascii_of_string.
  - intros x y Hxy. rewrite <- (Ascii.ascii_N_embedding x), Hxy. apply Ascii.ascii_N_embedding.
Qed.
(** C15: Who reaches a protected route: with a key configured, exactly the
    requests that bring that key, and, with multi-tenancy on, a well-formed
    tenant id, whose context they get; without one, every request outside
    production, and then with no tenant context. *)
Theorem auth_gate cfg tm req ctx :
  api_key_auth cfg tm req = Next ctx <->
  (api_key cfg = None /\ is_production cfg = false /\ ctx = None) \/
  (exists key, api_key cfg = Some key /\ rq_api_key req = Some key /\
     ((tm_is_enabled tm = false /\ ctx = None) \/
      (tm_is_enabled tm = true /\ exists tid, rq_tenant_id req = Some tid /\
         is_valid_tenant_id (trim tid) = true /\ ctx = Some (TenantContext_new (trim tid))))).
Proof.
  unfold api_key_auth, create_context, tm_is_enabled. destruct (api_key cfg) as [k|].
  2:{ destruct (is_production cfg); naive_solver. }
  destruct (rq_api_key req) as [k'|]; [|naive_solver].
  destruct (constant_time_eq _ _) eqn:E.
  - apply constant_time_eq_spec, str_bytes_inj in E as ->.
    destruct (tc_enabled (tm_config tm)); [|naive_solver].
    destruct (rq_tenant_id req) as [tid|]; simpl; [|naive_solver].
    destruct (is_valid_tenant_id (trim tid)) eqn:V.
    + split; [intros [= <-]; right; exists k; eauto 8|].
      by intros [[]|(? & _ & _ & [[]|(_ & ? & [= <-] & _ & ->)])].
    + split; [done|]. intros [[]|(? & _ & _ & [[]|(_ & ? & [= <-] & ? & ->)])]; congruence.
  - assert (k <> k') by (intros ->; by rewrite (proj2 (constant_time_eq_spec _ _) eq_refl) in E).
    naive_solver.
Qed.

(** ** The limiter's key is the key the request claims *)

(** The limiter's answers to requests in order, each with its time. *)
Fixpoint limited_run (l : RateLimiter) (reqs : list (Request * Z)) : list bool :=
  match reqs with
  | [] => []
  | (req, now) :: rest =>
    let r := check_http l (rq_api_key req) (rq_ip req) now now now in
    Limiter.is_allowed r.1 :: limited_run r.2 rest
  end.

Lemma check_key_fresh l k now :
  enabled (Limiter.config l) = true -> 0 < http_burst_size (Limiter.config l) < 2 ^ 32 ->
  key_buckets l !! k = None ->
  let r := check_key l k now now now in
  Limiter.is_allowed r.1 = true /\ Limiter.config r.2 = Limiter.config l /\
  forall k', k <> k' -> key_buckets r.2 !! k' = key_buckets l !! k'.
Proof.
  intros He Hb Hk. unfold check_key. rewrite He, Hk. simpl.
  unfold TokenBucket.try_consume, TokenBucket.try_consume_n, TokenBucket.refilled. simpl.
  rewrite tokens_to_add_now.
  rewrite Z.add_0_r, u32_id, Z.min_id by (unfold is_u32; lia).
  destruct (_ <? 1) eqn:E; bool_to_prop; [lia|]. simpl. split_and!; [done..|].
  intros. by rewrite lookup_insert_ne.
Qed.

(** The limiter runs before the key is checked and keeps a bucket per key
    claimed, so requests that each bring a key of their own are all let
    through, however many come at one instant. *)
Theorem fresh_keys_never_limited l (keyed : list (string * Request)) now :
  enabled (Limiter.config l) = true -> 0 < http_burst_size (Limiter.config l) < 2 ^ 32 ->
  NoDup keyed.*1 -> Forall (fun kr => rq_api_key kr.2 = Some kr.1) keyed ->
  (forall k, k ∈ keyed.*1 -> key_buckets l !! k = None) ->
  limited_run l ((fun kr => (kr.2, now)) <$> keyed) = replicate (length keyed) true.
Proof.
  intros He Hb. revert l He Hb. induction keyed as [|[k req] keyed IH]; intros l He Hb Hn Hk Hf; [done|].
  apply NoDup_cons in Hn as [Hn1 Hn2]. apply Forall_cons in Hk as [Hk1 Hk2]. cbn in *.
  rewrite Hk1. cbn [check_http].
  destruct (check_key_fresh l k now He Hb) as (A & C & O); [apply Hf; set_solver|].
  rewrite A. f_equal. apply IH; rewrite ?C; try done.
  intros k' Hin. rewrite O; [apply Hf; set_solver|]. intros ->. done.
Qed.
End middleware.
Arguments Service : clear implicits.

Lemma auth_gate_witness :
  api_key_auth {| is_production := true; api_key := Some "k" |}
    {| tm_config := {| tc_enabled := true; tc_default_limits := default_tenant_limits; tc_tenant_overrides := ∅ |};
       tm_stats := ∅ |}
    {| rq_api_key := Some "k"; rq_tenant_id := Some " acme "; rq_ip := "::1" |}
    (H := ascii_only) = Next (Some (TenantContext_new "acme")).
Proof.
  apply (@auth_gate ascii_only). right. exists "k". split; [reflexivity|]. split; [reflexivity|].
  right. split; [reflexivity|]. exists " acme ". split; [reflexivity|]. split; vm_compute; reflexivity.
Defined.

Lemma fresh_keys_never_limited_witness :
  let c := {| enabled := true; http_requests_per_second := 1; http_burst_size := 1;
              ws_connections_per_minute := 1; ws_messages_per_second := 1; cleanup_interval_seconds := 60;
              bucket_ttl_seconds := 300; backend := "local"; redis_prefix := "p" |} in
  let req k := (k, {| rq_api_key := Some k; rq_tenant_id := None; rq_ip := "1.2.3.4" |}) in
  limited_run (Limiter.new c) ((fun kr => (kr.2, 5)) <$> [req "a"; req "b"; req "c"]) = [true; true; true].
Proof.
  intros c req. apply (fresh_keys_never_limited (Limiter.new c) [req "a"; req "b"; req "c"] 5).
  - reflexivity.
  - simpl. lia.
  - refine (proj1 (bool_decide_eq_true _) _). vm_compute. reflexivity.
  - repeat constructor.
  - intros k _. reflexivity.
Defined.

(** ** Channel and subscription endpoints *)

(** An error body: its status, code and message. *)
Record ApiError := { er_status : Z; er_code : string; er_message : string }.

Definition list_channels (m : ConnectionManager) (ctx : option TenantContext) : list ChannelInfo :=
  let all_channels := Connection.list_channels m in
  match ctx with
  | Some t =>
    if ctx_is_default t then all_channels
    else List.filter (fun ch => starts_with (ctx_tenant_id t +:+ ":") (ch_name ch)) all_channels
  | None => all_channels
  end.

Definition get_channel (m : ConnectionManager) (ctx : option TenantContext) (name : string)
  : result ApiError ChannelInfo :=
  let namespaced := match ctx with Some t => namespace_channel t name | None => name end in
  match get_channel_info m namespaced with
  | Some info => Ok info
  | None => Err {| er_status := 404; er_code := "CHANNEL_NOT_FOUND";
                   er_message := "Channel '" +:+ name +:+ "' not found or has no subscribers" |}
  end.

Definition get_user_subscriptions (m : ConnectionManager) (ctx : option TenantContext) (user : string)
  : result ApiError UserSubscriptionInfo :=
  match Connection.get_user_subscriptions m user with
  | Some info =>
    Ok match ctx with
       | Some t =>
         if ctx_is_default t then info
         else {| us_user_id := us_user_id info;
                 us_connection_count :=
                   length (List.filter (fun c => bool_decide (tenant_id c = ctx_tenant_id t))
                             (get_user_connections m user));
                 us_subscriptions :=
                   List.filter (starts_with (ctx_tenant_id t +:+ ":")) (us_subscriptions info) |}
       | None => info
       end
  | None => Err {| er_status := 404; er_code := "USER_NOT_CONNECTED";
                   er_message := "User '" +:+ user +:+ "' has no active connections" |}
  end.

(** ** Tenant endpoints *)

Definition list_tenants (tm : TenantManager) (ctx : option TenantContext) : list (string * TenantStats) :=
  let all_tenants := list_active_tenants tm in
  match ctx with
  | Some t => List.filter (fun info => bool_decide (info.1 = ctx_tenant_id t)) all_tenants
  | None => all_tenants
  end.

Definition get_tenant_stats (tm : TenantManager) (m : ConnectionManager) (ctx : option TenantContext)
  (tenant : string) : result ApiError (TenantStats * TenantConnectionStats) :=
  let denied := match ctx with Some t => negb (bool_decide (ctx_tenant_id t = tenant)) | None => false end in
  if denied then
    Err {| er_status := 403; er_code := "TENANT_ACCESS_DENIED";
           er_message := "Cannot access another tenant's stats" |}
  else
    let stats := get_stats tm tenant in
    let conn_stats := tenant_stats m tenant in
    if (Tenant.total_connections stats =? 0) && (ts_total_connections conn_stats =? 0)%nat then
      Err {| er_status := 404; er_code := "TENANT_NOT_FOUND";
             er_message := "Tenant '" +:+ tenant +:+ "' has no recorded activity" |}
    else Ok (stats, conn_stats).

(** ** Cluster endpoints *)

Record ClusterStatusResponse := {
  cs_enabled : bool; cs_mode : string; cs_server_id : string; local_connections : nat; local_users : nat;
  cluster_connections : option nat; cluster_users : option nat;
}.
Record UserSessionInfo := {
  usi_connection_id : string; usi_server_id : string; usi_connected_at : Z; usi_channels : list string;
}.
Record UserLocationResponse := { ul_user_id : string; ul_found : bool; ul_sessions : list UserSessionInfo }.

Section cluster_endpoints.
Context {S : Type} `{SessionStore S} (uuid_str : uuid -> string) (fuel : nat).

(** [None] when the scan of the sessions has not ended within [fuel] turns. *)
Definition cluster_status (m : ConnectionManager) (s : S) : option ClusterStatusResponse * S :=
  let enabled := s_is_enabled s in
  let answer counts s' :=
    (Some {| cs_enabled := enabled; cs_mode := if enabled then "distributed" else "standalone";
             cs_server_id := s_server_id s;
             local_connections := stat_total_connections (Connection.stats m);
             local_users := stat_unique_users (Connection.stats m);
             cluster_connections := fst <$> counts; cluster_users := snd <$> counts |}, s') in
  if enabled then
    match s_get_all_sessions fuel s with
    | (Ok (Some sessions), s') =>
      answer (Some (length sessions, size (list_to_set (si_user_id <$> sessions) : gset string))) s'
    | (Ok None, s') => (None, s')
    | (Err _, s') => answer None s'
    end
  else answer None s.

Definition local_session (server : string) (c : ConnectionHandle) : UserSessionInfo :=
  {| usi_connection_id := uuid_str (conn_id c); usi_server_id := server;
     usi_connected_at := timestamp (connected_at c); usi_channels := [] |}.
Definition stored_session (si : SessionInfo) : UserSessionInfo :=
  {| usi_connection_id := uuid_str (si_connection_id si); usi_server_id := si_server_id si;
     usi_connected_at := si_connected_at si; usi_channels := si_channels si |}.

(** The filter both branches apply: by tenant, whenever there is a context. *)
Definition of_tenant {X} (tenant : X -> string) (ctx : option TenantContext) (l : list X) : list X :=
  match ctx with Some t => List.filter (fun x => bool_decide (tenant x = ctx_tenant_id t)) l | None => l end.

Definition located (user : string) (sessions : list UserSessionInfo) : UserLocationResponse :=
  {| ul_user_id := user; ul_found := match sessions with [] => false | _ => true end; ul_sessions := sessions |}.

Definition cluster_user_location (m : ConnectionManager) (ctx : option TenantContext) (user : string) (s : S)
  : option UserLocationResponse * S :=
  if negb (s_is_enabled s) then
    (Some (located user (map (local_session (s_server_id s)) (of_tenant tenant_id ctx (get_user_connections m user)))), s)
  else
    match s_get_user_sessions fuel s user with
    | (Ok (Some sessions), s') => (Some (located user (map stored_session (of_tenant si_tenant_id ctx sessions))), s')
    | (Ok None, s') => (None, s')
    | (Err _, s') => (Some (located user []), s')
    end.
End cluster_endpoints.

(** ** What a tenant sees *)

(** Every subscription was made under its connection's tenant, with a name
    that passed the check, and no tenant id holds a colon. *)
Definition namespaced `{UnicodeTables} (m : ConnectionManager) : Prop :=
  forall i h, connections m !! i = Some h ->
    str_has COLON (tenant_id h) = false /\
    forall s, s ∈ subscriptions h -> exists c, is_valid_channel_name c = true /\
      s = namespace_channel (TenantContext_new (tenant_id h)) c.

Section visibility.
Context `{UnicodeTables} (m : ConnectionManager) (t : TenantContext).
Context (Hwf : wf m) (Hns : namespaced m).
Context (Ht : ctx_is_default t = false) (Hid : t = TenantContext_new (ctx_tenant_id t)).
Context (Hc : str_has COLON (ctx_tenant_id t) = false).

(** A channel under a tenant's prefix is one that tenant subscribed to. *)
Lemma prefix_is_tenant i h s :
  connections m !! i = Some h -> s ∈ subscriptions h ->
  starts_with (ctx_tenant_id t +:+ ":") s = true <-> tenant_id h = ctx_tenant_id t.
Proof.
  intros Hi Hs. destruct (Hns i h Hi) as [Hn Hsub]. destruct (Hsub s Hs) as (c & Hv & ->).
  apply valid_channel_no_colon in Hv. rewrite starts_with_spec.
  assert (Hd : ctx_tenant_id t <> DEFAULT_TENANT_ID).
  { intros E. rewrite Hid, E in Ht. done. }
  split.
  - intros [r Er]. unfold namespace_channel in Er.
    destruct (ctx_is_default (TenantContext_new (tenant_id h))) eqn:D.
    + rewrite Er, str_app_assoc, str_has_colon_join in Hv. done.
    + simpl in Er. rewrite str_app_assoc in Er. by apply colon_split_unique in Er as [? _].
  - intros E. rewrite E, namespace_other by done. exists c. by rewrite str_app_assoc.
Qed.

Lemma channel_ids_subset c ids :
  channel_index m !! c = Some ids ->
  ids <> ∅ /\ (starts_with (ctx_tenant_id t +:+ ":") c = true -> ids ⊆ idx_get (tenant_index m) (ctx_tenant_id t)) /\
  (starts_with (ctx_tenant_id t +:+ ":") c = false -> ids ∩ idx_get (tenant_index m) (ctx_tenant_id t) = ∅).
Proof.
  intros E. assert (Hin : forall i, i ∈ ids <-> some_conn m i (fun h => c ∈ subscriptions h)).
  { intros i. rewrite <- (wf_channel m Hwf). unfold idx_get. by rewrite E. }
  split; [intros ->; by apply (wf_channel_compact m Hwf c)|]. split; intros Hp.
  - intros i [h [Hi Hs]]%Hin. apply (wf_tenant m Hwf). exists h. split; [done|].
    by apply (prefix_is_tenant i h c).
  - apply set_eq. intros i. split; [|set_solver]. intros [[h [Hi Hs]]%Hin Ht']%elem_of_intersection.
    apply (wf_tenant m Hwf) in Ht' as (h' & Hi' & E'). simplify_eq.
    apply (prefix_is_tenant i h c) in E'; congruence.
Qed.


Lemma elem_of_user_subscriptions u info s :
  Connection.get_user_subscriptions m u = Some info ->
  us_user_id info = u /\ us_connection_count info = length (get_user_connections m u) /\
  (s ∈ us_subscriptions info <-> exists h, h ∈ get_user_connections m u /\ s ∈ subscriptions h).
Proof.
  unfold Connection.get_user_subscriptions. destruct (get_user_connections m u) as [|h0 hs] eqn:E; [done|].
  intros [= <-]. cbn [us_user_id us_connection_count us_subscriptions]. split_and!; try done.
  rewrite elem_of_elements. clear E.
  assert (G : forall acc, s ∈ foldl (fun acc h => acc ∪ subscriptions h) acc (h0 :: hs) <->
              s ∈ acc \/ exists h, h ∈ h0 :: hs /\ s ∈ subscriptions h).
  { induction (h0 :: hs) as [|h l IH]; intros acc; simpl; [set_solver|].
    rewrite IH, elem_of_union. set_solver. }
  specialize (G ∅). simpl in G. rewrite G. set_solver.
Qed.

(** What a tenant learns of a user: the subscriptions and the number of
    connections that user has in that tenant, and nothing of the other
    tenants but that the user is connected somewhere. *)
Theorem user_subscriptions_of_tenant u info s :
  get_user_subscriptions m (Some t) u = Ok info ->
  us_connection_count info =
    length (List.filter (fun c => bool_decide (tenant_id c = ctx_tenant_id t)) (get_user_connections m u)) /\
  (s ∈ us_subscriptions info <->
     exists h, connections m !! conn_id h = Some h /\ user_id h = u /\ tenant_id h = ctx_tenant_id t /\
               s ∈ subscriptions h).
Proof.
  unfold get_user_subscriptions. rewrite Ht.
  destruct (Connection.get_user_subscriptions m u) as [i|] eqn:E; [|done]. intros [= <-]. simpl.
  split; [done|]. destruct (elem_of_user_subscriptions u i s E) as (_ & _ & Hs).
  rewrite list_elem_of_In, filter_In, <- list_elem_of_In, Hs. split.
  - intros [(h & Hh & Hin) Hp]. apply elem_of_user_connections in Hh as [Hi Hu]; [|done].
    exists h. split_and!; try done. by apply (prefix_is_tenant (conn_id h) h s).
  - intros (h & Hi & Hu & Hn & Hin). split.
    + exists h. split; [|done]. by apply elem_of_user_connections.
    + by apply (prefix_is_tenant (conn_id h) h s).
Qed.
End visibility.

Lemma namespaced_example :
  namespaced (H := ascii_only)
    (subscribe_to_channel (register (with_limits ConnectionLimits_default) "u" "acme" [] 1%N 0).2 1%N "acme:news").2.
Proof.
  intros i h Hi.
  assert (E : connections (subscribe_to_channel (register (with_limits ConnectionLimits_default) "u" "acme" [] 1%N 0).2
                             1%N "acme:news").2 =
              {[1%N := set_subscriptions (fun s => {["acme:news"]} ∪ s) (handle_new "u" "acme" [] 1%N 0)]})
    by (vm_compute; reflexivity).
  rewrite E in Hi. clear E. apply lookup_singleton_Some in Hi as [<- <-]. split; [reflexivity|]. intros s Hs.
  exists "news". split; [reflexivity|]. set_solver.
Qed.


Lemma user_subscriptions_of_tenant_witness :
  let m := (subscribe_to_channel (register (with_limits ConnectionLimits_default) "u" "acme" [] 1%N 0).2
              1%N "acme:news").2 in
  exists info, get_user_subscriptions m (Some (TenantContext_new "acme")) "u" = Ok info /\
    us_connection_count info = 1%nat.
Proof.
  intros m. exists {| us_user_id := "u"; us_connection_count := 1; us_subscriptions := ["acme:news"] |}.
  assert (E : get_user_subscriptions m (Some (TenantContext_new "acme")) "u" =
    Ok {| us_user_id := "u"; us_connection_count := 1; us_subscriptions := ["acme:news"] |})
    by (vm_compute; reflexivity).
  split; [exact E|]. eapply eq_trans.
  - refine (proj1 (@user_subscriptions_of_tenant ascii_only m (TenantContext_new "acme")
      _ namespaced_example eq_refl eq_refl eq_refl "u" _ "" E)).
    apply wf_subscribe, wf_register; [apply wf_empty|reflexivity].
  - vm_compute. reflexivity.
Defined.

(** A tenant reads its own statistics only: whatever a caller with a tenant
    context asks, the tenants listed to it are itself or none, and another
    tenant's statistics are refused, as well as its own without activity. *)
Theorem tenant_stats_private tm m t tenant :
  (forall info, info ∈ list_tenants tm (Some t) -> info.1 = ctx_tenant_id t) /\
  (ctx_tenant_id t <> tenant ->
     exists e, get_tenant_stats tm m (Some t) tenant = Err e /\ er_status e = 403) /\
  (forall r, get_tenant_stats tm m (Some t) tenant = Ok r ->
     tenant = ctx_tenant_id t /\ r = (get_stats tm tenant, tenant_stats m tenant) /\
     (Tenant.total_connections r.1 <> 0 \/ ts_total_connections r.2 <> 0%nat)).
Proof.
  unfold list_tenants, get_tenant_stats. split_and!.
  - intros info [_ ?]%list_elem_of_In%filter_In. by bool_to_prop.
  - intros Hne. rewrite bool_decide_false by done. by eexists.
  - intros r. case_bool_decide as D; [|done]. simpl.
    destruct (_ && _)%bool eqn:E; [done|]. intros [= <-]. split_and!; try done. simpl.
    bool_to_prop. destruct E; bool_to_prop; auto.
Qed.

Lemma tenant_stats_private_witness :
  exists e, get_tenant_stats (TenantManager_new TenantConfig_default) manager_new
              (Some (TenantContext_new "acme")) "globex" = Err e /\ er_status e = 403.
Proof.
  apply (tenant_stats_private (TenantManager_new TenantConfig_default) manager_new (TenantContext_new "acme") "globex").
  discriminate.
Defined.
