(* ===== verification/App.v ===== *)
(** * App: the routes of the service and the layers around them

    Models [server/app.rs].  Axum's routers and tower-http's layers are
    libraries: [Axum] gives the operations [create_app] calls, where [None] is
    the panic on overlapping routes, and [TowerHttp] what the source uses of
    tower-http, each with the documented laws.  Which route a path leads to is
    axum's; answers to preflight requests are the CORS layer's and reach no
    route. *)
From S2P Require Import Prelude Auth Tenant RateLimit Settings Api.

(** ** Routes *)

Inductive Method := GET | POST | PUT | DELETE | OPTIONS.
#[export] Instance Method_eq_dec : EqDecision Method.
Proof. solve_decision. Defined.

Inductive Handler :=
| h_ws_handler | h_sse_handler | h_health | h_prometheus_metrics | h_stats
| h_send_notification | h_send_to_users | h_broadcast_notification | h_channel_notification
| h_multi_channel_notification | h_batch_send
| h_list_channels | h_get_channel | h_get_user_subscriptions
| h_create_template | h_list_templates | h_get_template | h_update_template | h_delete_template
| h_list_tenants | h_get_tenant_stats | h_cluster_status | h_cluster_user_location.

Inductive AllowOrigin := AnyOrigin | OriginList (origins : list string).

(** [None] stands for [Any]. *)
Record CorsLayer := {
  allow_origin : AllowOrigin; allow_methods : option (list Method); allow_headers : option (list string);
}.

Inductive Layer :=
| WsRateLimitLayer | RateLimitLayer | ApiKeyAuthLayer | RequestBodyLimitLayer (bytes : Z) | TraceLayer
| Cors (c : CorsLayer).

(** The layers from the outside in. *)
Record Route := { rt_method : Method; rt_path : string; rt_handler : Handler; rt_layers : list Layer }.

Definition add_layer (l : Layer) (r : Route) : Route :=
  {| rt_method := rt_method r; rt_path := rt_path r; rt_handler := rt_handler r; rt_layers := l :: rt_layers r |}.
Definition add_prefix (p : string) (r : Route) : Route :=
  {| rt_method := rt_method r; rt_path := p +:+ rt_path r; rt_handler := rt_handler r; rt_layers := rt_layers r |}.

(** A path up to the names of its parameters. *)
Definition shape (path : string) : list string :=
  map (fun seg => if starts_with "{" seg then "{}" else seg) (split_on "/"%char path).

(** Axum takes two routes apart by method or by path, and takes one path only
    under one naming of its parameters. *)
Definition apart (r r' : Route) : bool :=
  if String.eqb (rt_path r) (rt_path r') then bool_decide (rt_method r <> rt_method r')
  else bool_decide (shape (rt_path r) <> shape (rt_path r')).
Definition all_apart (l l' : list Route) : bool := forallb (fun r => forallb (apart r) l') l.

Class Axum (Router : Type) := {
  router_new : Router;
  route : string -> Method -> Handler -> Router -> option Router;
  layer : Layer -> Router -> Router;
  nest : string -> Router -> Router -> option Router;
  merge : Router -> Router -> option Router;
  router_routes : Router -> list Route;
}.

Class AxumLaws (Router : Type) `{Axum Router} := {
  routes_new : router_routes router_new = [];
  routes_layer l r : router_routes (layer l r) = add_layer l <$> router_routes r;
  routes_route p m h r : let new := {| rt_method := m; rt_path := p; rt_handler := h; rt_layers := [] |} in
    all_apart (router_routes r) [new] = true ->
    exists r', route p m h r = Some r' /\ router_routes r' = router_routes r ++ [new];
  routes_nest p inner r : let new := add_prefix p <$> router_routes inner in
    all_apart (router_routes r) new = true ->
    exists r', nest p inner r = Some r' /\ router_routes r' = router_routes r ++ new;
  routes_merge other r : all_apart (router_routes r) (router_routes other) = true ->
    exists r', merge other r = Some r' /\ router_routes r' = router_routes r ++ router_routes other;
}.

(** What is used of tower-http: header values, the list of origins (an [Err]
    is its panic) and what the CORS layer adds to an answer. *)
Class TowerHttp := {
  header_value : string -> option string;
  AllowOrigin_list : list string -> result string AllowOrigin;
  with_cors : CorsLayer -> Response -> Response;
}.
Class TowerHttpLaws `{TowerHttp} := {
  list_without_wildcard l : "*" ∉ l -> AllowOrigin_list l = Ok (OriginList l);
  list_with_wildcard l : "*" ∈ l -> is_ok (AllowOrigin_list l) = false;
  with_cors_status c r : rs_status (with_cors c r) = rs_status r;
  with_cors_body c r : rs_body (with_cors c r) = rs_body r;
}.

(** ** [create_app] *)

Definition MAX_BODY_SIZE : Z := 64 * 1024.
Definition MAX_BATCH_BODY_SIZE : Z := 1024 * 1024.

Section app.
Context `{TowerHttp} {Router : Type} `{!Axum Router}.

Definition build_cors_layer (origins : list string) : result string CorsLayer :=
  match origins with
  | [] => Ok {| allow_origin := AnyOrigin; allow_methods := None; allow_headers := None |}
  | _ =>
    allowed <-? AllowOrigin_list (omap header_value origins) ;;
    Ok {| allow_origin := allowed; allow_methods := Some [GET; POST; OPTIONS];
          allow_headers := Some ["content-type"; "authorization"; "x-api-key"] |}
  end.

Definition ws_routes : option Router :=
  r ← route "/ws" GET h_ws_handler router_new;
  r ← route "/sse" GET h_sse_handler r;
  Some (layer WsRateLimitLayer r).

Definition health_routes : option Router :=
  r ← route "/health" GET h_health router_new;
  route "/metrics" GET h_prometheus_metrics r.

Definition notification_routes : option Router :=
  r ← route "/notifications/send" POST h_send_notification router_new;
  r ← route "/notifications/send-to-users" POST h_send_to_users r;
  r ← route "/notifications/broadcast" POST h_broadcast_notification r;
  r ← route "/notifications/channel" POST h_channel_notification r;
  r ← route "/notifications/channels" POST h_multi_channel_notification r;
  Some (layer (RequestBodyLimitLayer MAX_BODY_SIZE) r).

Definition batch_routes : option Router :=
  r ← route "/notifications/batch" POST h_batch_send router_new;
  Some (layer (RequestBodyLimitLayer MAX_BATCH_BODY_SIZE) r).

Definition channel_routes : option Router :=
  r ← route "/channels" GET h_list_channels router_new;
  r ← route "/channels/{name}" GET h_get_channel r;
  route "/users/{user_id}/subscriptions" GET h_get_user_subscriptions r.

Definition template_routes : option Router :=
  r ← route "/templates" POST h_create_template router_new;
  r ← route "/templates" GET h_list_templates r;
  r ← route "/templates/{id}" GET h_get_template r;
  r ← route "/templates/{id}" PUT h_update_template r;
  route "/templates/{id}" DELETE h_delete_template r.

Definition tenant_routes : option Router :=
  r ← route "/tenants" GET h_list_tenants router_new;
  route "/tenants/{tenant_id}" GET h_get_tenant_stats r.

Definition cluster_routes : option Router :=
  r ← route "/cluster/status" GET h_cluster_status router_new;
  route "/cluster/users/{user_id}" GET h_cluster_user_location r.

Definition api_routes : option Router :=
  n ← notification_routes; b ← batch_routes; c ← channel_routes; t ← template_routes; te ← tenant_routes;
  cl ← cluster_routes;
  r ← merge b n; r ← merge c r; r ← merge t r; r ← merge te r; merge cl r.

Definition protected_routes : option Router :=
  a ← api_routes;
  r ← route "/stats" GET h_stats router_new;
  r ← nest "/api/v1" a r;
  Some (layer RateLimitLayer (layer ApiKeyAuthLayer r)).

Definition app_router (cors : CorsLayer) : option Router :=
  ws ← ws_routes; health ← health_routes; protected ← protected_routes;
  r ← merge ws router_new; r ← merge health r; r ← merge protected r;
  Some (layer (Cors cors) (layer TraceLayer r)).

Definition create_app (cors_origins : list string) : result string Router :=
  cors <-? build_cors_layer cors_origins ;;
  match app_router cors with Some r => Ok r | None => Err "Overlapping method route" end.
End app.

(** ** Answering a request on a route *)

(** The clock's readings for the limiter, and the declared length of the body. *)
Record Call := { cl_request : Request; cl_now : Z * Z * Z; cl_length : option Z }.

Section answers.
Context `{UnicodeTables} `{TowerHttp} {S : Type} (cfg : ApiSettings) (tm : TenantManager).

(** A service behind some layers, given the tenant context those stored. *)
Definition Inner := option TenantContext -> Service S.

Definition apply_layer (c : Call) (l : Layer) (next : Inner) : Inner := fun ctx =>
  let '(now0, now1, now2) := cl_now c in
  match l with
  | WsRateLimitLayer => ws_rate_limit_middleware (cl_request c) now0 now1 now2 (next ctx)
  | RateLimitLayer => rate_limit_middleware (cl_request c) now0 now1 now2 (next ctx)
  | ApiKeyAuthLayer => fun w =>
    match api_key_auth cfg tm (cl_request c) with
    | Next None => next ctx w
    | Next (Some t) => next (Some t) w
    | Reject status => (status_response status, w)
    end
  | RequestBodyLimitLayer bytes => fun w =>
    match cl_length c with
    | Some n => if bytes <? n then (status_response 413, w) else next ctx w
    | None => next ctx w
    end
  | TraceLayer => next ctx
  | Cors cors => fun w => let n := next ctx w in (with_cors cors n.1, n.2)
  end.

Definition run_route (handlers : Handler -> Call -> Inner) (r : Route) (c : Call) : Service S :=
  foldr (apply_layer c) (handlers (rt_handler r) c) (rt_layers r) None.
End answers.

(** ** What [create_app] serves *)

(** A construction that does not panic, and the routes it gives. *)
Definition gives {Router} `{Axum Router} (o : option Router) (l : list Route) : Prop :=
  exists r, o = Some r /\ router_routes r = l.

Section routes.
Context `{TowerHttp} {Router : Type} `{AxumLaws Router}.
Implicit Types (r : Router).

Lemma gives_bind {l l'} (o : option Router) f :
  gives o l -> (forall r, router_routes r = l -> gives (f r) l') -> gives (r ← o; f r) l'.
Proof. intros (r & -> & E) Hf. simpl. by apply Hf. Qed.
Lemma gives_eq (o : option Router) l l' : gives o l -> l = l' -> gives o l'.
Proof. by intros G <-. Qed.
Lemma gives_some r l : router_routes r = l -> gives (Some r) l.
Proof. intros E. by exists r. Qed.
Lemma gives_route p m h r l :
  router_routes r = l -> let new := {| rt_method := m; rt_path := p; rt_handler := h; rt_layers := [] |} in
  all_apart l [new] = true -> gives (route p m h r) (l ++ [new]).
Proof. intros <- new A. by apply routes_route. Qed.
Lemma gives_merge other r lo l :
  router_routes other = lo -> router_routes r = l -> all_apart l lo = true -> gives (merge other r) (l ++ lo).
Proof. intros <- <- A. by apply routes_merge. Qed.
Lemma gives_nest p inner r li l :
  router_routes inner = li -> router_routes r = l -> all_apart l (add_prefix p <$> li) = true ->
  gives (nest p inner r) (l ++ (add_prefix p <$> li)).
Proof. intros <- <- A. by apply routes_nest. Qed.
Lemma gives_layer L r l : router_routes r = l -> router_routes (layer L r) = add_layer L <$> l.
Proof. intros <-. apply routes_layer. Qed.

(** One call of a construction: its side condition is computed. *)
Ltac build_step :=
  first [ eapply gives_route; [first [eassumption | exact routes_new] | vm_compute; reflexivity]
        | eapply gives_merge; [eassumption | first [eassumption | exact routes_new] | vm_compute; reflexivity]
        | eapply gives_nest; [eassumption | eassumption | vm_compute; reflexivity]
        | eapply gives_some; repeat (eapply gives_layer); eassumption ].
Ltac build := repeat (eapply gives_bind; [solve [eassumption | build_step] | intros ? ?; cbn [app] in *]); build_step.

Definition on (m : Method) (p : string) (h : Handler) (ls : list Layer) : Route :=
  {| rt_method := m; rt_path := p; rt_handler := h; rt_layers := ls |}.

(** The routes behind the key, as their routers are put together. *)
Definition limited_table : list Route :=
  let small := [RequestBodyLimitLayer MAX_BODY_SIZE] in
  [on POST "/notifications/send" h_send_notification small;
   on POST "/notifications/send-to-users" h_send_to_users small;
   on POST "/notifications/broadcast" h_broadcast_notification small;
   on POST "/notifications/channel" h_channel_notification small;
   on POST "/notifications/channels" h_multi_channel_notification small;
   on POST "/notifications/batch" h_batch_send [RequestBodyLimitLayer MAX_BATCH_BODY_SIZE]].
Definition unlimited_table : list Route :=
  [on GET "/channels" h_list_channels []; on GET "/channels/{name}" h_get_channel [];
   on GET "/users/{user_id}/subscriptions" h_get_user_subscriptions [];
   on POST "/templates" h_create_template []; on GET "/templates" h_list_templates [];
   on GET "/templates/{id}" h_get_template []; on PUT "/templates/{id}" h_update_template [];
   on DELETE "/templates/{id}" h_delete_template [];
   on GET "/tenants" h_list_tenants []; on GET "/tenants/{tenant_id}" h_get_tenant_stats [];
   on GET "/cluster/status" h_cluster_status []; on GET "/cluster/users/{user_id}" h_cluster_user_location []].
Definition protected_table : list Route :=
  add_layer RateLimitLayer <$> (add_layer ApiKeyAuthLayer <$>
    (on GET "/stats" h_stats [] :: (add_prefix "/api/v1" <$> (limited_table ++ unlimited_table)))).
Definition open_table : list Route :=
  [on GET "/ws" h_ws_handler [WsRateLimitLayer]; on GET "/sse" h_sse_handler [WsRateLimitLayer];
   on GET "/health" h_health []; on GET "/metrics" h_prometheus_metrics []].
Definition app_table (cors : CorsLayer) : list Route :=
  add_layer (Cors cors) <$> (add_layer TraceLayer <$> (open_table ++ protected_table)).

Lemma api_routes_gives : gives api_routes (limited_table ++ unlimited_table).
Proof.
  unfold api_routes.
  eapply gives_bind; [unfold notification_routes; build|]. intros n En.
  eapply gives_bind; [unfold batch_routes; build|]. intros b Eb.
  eapply gives_bind; [unfold channel_routes; build|]. intros c Ec.
  eapply gives_bind; [unfold template_routes; build|]. intros t Et.
  eapply gives_bind; [unfold tenant_routes; build|]. intros te Ete.
  eapply gives_bind; [unfold cluster_routes; build|]. intros cl Ecl.
  eapply gives_eq; [build|reflexivity].
Qed.

Lemma app_router_gives cors : gives (app_router cors) (app_table cors).
Proof.
  unfold app_router.
  eapply gives_bind; [unfold ws_routes; build|]. intros ws Ews.
  eapply gives_bind; [unfold health_routes; build|]. intros h Eh.
  eapply (gives_bind (l := protected_table)).
  { unfold protected_routes. eapply gives_bind; [exact api_routes_gives|]. intros a Ea.
    eapply gives_eq; [build|reflexivity]. }
  intros p Ep. eapply gives_eq; [build|reflexivity].
Qed.
End routes.

(** ** Who is answered *)

(** What is open to anyone. *)
Definition is_public (h : Handler) : bool :=
  match h with h_ws_handler | h_sse_handler | h_health | h_prometheus_metrics => true | _ => false end.

Lemma public_routes : Forall (fun r => is_public (rt_handler r) = true) open_table.
Proof. repeat constructor. Qed.

(** The layers a protected handler finds around it. *)
Lemma protected_layers cors r :
  r ∈ app_table cors -> is_public (rt_handler r) = false ->
  exists inner, rt_layers r = [Cors cors; TraceLayer; RateLimitLayer; ApiKeyAuthLayer] ++ inner /\
    (inner = [] \/ exists bytes, inner = [RequestBodyLimitLayer bytes]).
Proof.
  unfold app_table, protected_table. intros (r1 & -> & (r2 & -> & Hr)%list_elem_of_fmap)%list_elem_of_fmap N. cbn in N.
  apply elem_of_app in Hr as [Hr|(r3 & -> & (r4 & -> & Hr)%list_elem_of_fmap)%list_elem_of_fmap].
  { pose proof (proj1 (Forall_forall _ _) public_routes _ Hr). cbn in *. congruence. }
  exists (rt_layers r4). split; [done|]. clear N. revert r4 Hr. apply (proj1 (Forall_forall _ _)).
  repeat (apply Forall_cons; split; [cbn; eauto|]). apply Forall_nil. done.
Qed.

Section admission.
Context `{UnicodeTables} `{TowerHttpLaws} {Router : Type} `{AxumLaws Router} {S : Type}.
Implicit Types (handlers : Handler -> Call -> Inner (S := S)).

Lemma create_app_routes origins (app : Router) :
  create_app origins = Ok app -> exists cors, build_cors_layer origins = Ok cors /\ router_routes app = app_table cors.
Proof.
  unfold create_app. destruct (build_cors_layer origins) as [cors|]; [|done].
  destruct (app_router_gives (Router := Router) cors) as (r & -> & E). intros [= <-]. eauto.
Qed.

(** Why a protected route's handler is not reached. *)
Definition refused (cfg : ApiSettings) (tm : TenantManager) (r : Route) (c : Call) (l : Limiter.RateLimiter)
  (status : Z) : Prop :=
  let '(now0, now1, now2) := cl_now c in
  (status = 429 /\ Limiter.is_enabled l = true /\
     Limiter.is_allowed (Limiter.check_http l (rq_api_key (cl_request c)) (rq_ip (cl_request c)) now0 now1 now2).1 = false) \/
  api_key_auth cfg tm (cl_request c) = Reject status \/
  (status = 413 /\ exists n bytes, cl_length c = Some n /\ bytes < n /\ RequestBodyLimitLayer bytes ∈ rt_layers r).

(** Layers leave the state behind them alone: a request either stops at one
    of them or reaches the handler with the state as it was. *)
Lemma layer_reaches cfg tm c L (next : Inner (S := S)) ctx w :
  (apply_layer cfg tm c L next ctx w).2.2 = w.2 \/
  exists ctx' l, (apply_layer cfg tm c L next ctx w).2.2 = (next ctx' (l, w.2)).2.2.
Proof.
  destruct c as [req [[n0 n1] n2] len], w as [lim x].
  unfold apply_layer, ws_rate_limit_middleware, rate_limit_middleware. destruct L; simpl; repeat case_match; simplify_eq/=; simpl;
    first [by left | right; by eexists _, _].
Qed.
Lemma run_route_reaches cfg tm handlers r c w :
  (run_route cfg tm handlers r c w).2.2 = w.2 \/
  exists ctx l, (run_route cfg tm handlers r c w).2.2 = (handlers (rt_handler r) c ctx (l, w.2)).2.2.
Proof.
  unfold run_route. generalize (None : option TenantContext), w. induction (rt_layers r) as [|L ls IH]; intros ctx w0; simpl.
  { right. exists ctx, w0.1. by destruct w0. }
  destruct (layer_reaches cfg tm c L (foldr (apply_layer cfg tm c) (handlers (rt_handler r) c) ls) ctx w0)
    as [->|(ctx' & l & ->)]; [by left|]. apply (IH ctx' (l, w0.2)).
Qed.

(** What the layers of a protected route do. *)
Lemma key_layer cfg tm c (next : Inner (S := S)) ctx w :
  apply_layer cfg tm c ApiKeyAuthLayer next ctx w =
  match api_key_auth cfg tm (cl_request c) with
  | Next None => next ctx w
  | Next (Some t) => next (Some t) w
  | Reject status => (status_response status, w)
  end.
Proof. by destruct c as [? [[? ?] ?] ?]. Qed.
Lemma size_layer cfg tm c bytes (next : Inner (S := S)) ctx w :
  apply_layer cfg tm c (RequestBodyLimitLayer bytes) next ctx w =
  match cl_length c with
  | Some n => if bytes <? n then (status_response 413, w) else next ctx w
  | None => next ctx w
  end.
Proof. by destruct c as [? [[? ?] ?] ?]. Qed.

(** Behind the limiter. *)
Lemma behind_limiter cfg tm (h : Inner (S := S)) c inner w :
  (inner = [] \/ exists bytes, inner = [RequestBodyLimitLayer bytes]) ->
  let out := apply_layer cfg tm c ApiKeyAuthLayer (foldr (apply_layer cfg tm c) h inner) None w in
  (out.2 = w /\ (api_key_auth cfg tm (cl_request c) = Reject (rs_status out.1) \/
     rs_status out.1 = 413 /\ exists n bytes, cl_length c = Some n /\ bytes < n /\ RequestBodyLimitLayer bytes ∈ inner)) \/
  (exists ctx, api_key_auth cfg tm (cl_request c) = Next ctx /\ out = h ctx w).
Proof.
  intros Hi. rewrite key_layer. destruct (api_key_auth cfg tm (cl_request c)) as [ctx|status]; [|by left; auto].
  assert (Ec : forall next : Inner, match ctx with None => next None w | Some t => next (Some t) w end = next ctx w)
    by (intros; by destruct ctx).
  rewrite Ec. destruct Hi as [->|(bytes & ->)]; cbn [foldr]; [right; by eauto|]. rewrite size_layer.
  destruct (cl_length c) as [n|]; [destruct (bytes <? n) eqn:B; bool_to_prop|]; [left|right; by eauto..].
  split; [done|]. right. split; [done|]. exists n, bytes. set_solver.
Qed.

(** Every route but [/ws], [/sse], [/health] and [/metrics] is behind the
    limiter, the key and the size limit: a request to it is refused by one of
    the three, with that layer's status and the state as it was, or has passed
    the API-key check and is answered by its handler, which gets the tenant
    context of that check. *)
Lemma app_admission cfg tm handlers origins (app : Router) r c w :
  create_app origins = Ok app -> r ∈ router_routes app -> is_public (rt_handler r) = false ->
  let out := run_route cfg tm handlers r c w in
  (out.2.2 = w.2 /\ refused cfg tm r c w.1 (rs_status out.1)) \/
  (exists ctx l, api_key_auth cfg tm (cl_request c) = Next ctx /\
     let answer := handlers (rt_handler r) c ctx (l, w.2) in
     rs_status out.1 = rs_status answer.1 /\ rs_body out.1 = rs_body answer.1 /\ out.2 = answer.2).
Proof.
  intros (cors & _ & E)%create_app_routes Hr P. rewrite E in Hr.
  destruct (protected_layers cors r Hr P) as (inner & L & Hi). unfold run_route, refused. rewrite L.
  destruct (cl_now c) as [[n0 n1] n2] eqn:T. set (h := handlers (rt_handler r) c).
  set (inside := apply_layer cfg tm c ApiKeyAuthLayer (foldr (apply_layer cfg tm c) h inner) None).
  assert (Eout : foldr (apply_layer cfg tm c) h ([Cors cors; TraceLayer; RateLimitLayer; ApiKeyAuthLayer] ++ inner) None w =
    let n := rate_limit_middleware (cl_request c) n0 n1 n2 inside w in (with_cors cors n.1, n.2))
    by (unfold inside; destruct c; simpl in T; by subst).
  rewrite Eout. cbn. rewrite with_cors_status, with_cors_body.
  destruct (rate_limit_cases (cl_request c) n0 n1 n2 inside w) as [(l & -> & -> & ->)|(-> & Es & En & Ea)]; [|left; auto 6].
  pose proof (behind_limiter cfg tm h c inner (l, w.2) Hi) as B. fold inside in B.
  destruct B as [(-> & D)|(ctx & A & ->)]; [left|by right; exists ctx, l].
  split; [done|]. right. destruct D as [D|(D & n & bytes & ? & ? & ?)]; [by left|right]. split; [done|].
  exists n, bytes. set_solver.
Qed.
End admission.

(** ** Origins *)

Section cors.
Context `{TowerHttpLaws} {Router : Type} `{AxumLaws Router}.

(** Building the application panics exactly when an origin that is a header
    value is the wildcard; the routes never overlap. *)
Lemma create_app_ok_iff origins :
  (is_ok (create_app (Router := Router) origins) = true) <-> ("*" ∉ omap header_value origins).
Proof.
  unfold create_app, build_cors_layer. destruct origins as [|o l].
  { destruct (app_router_gives (Router := Router) {| allow_origin := AnyOrigin; allow_methods := None; allow_headers := None |})
      as (r & -> & _). cbn. split; [set_solver|done]. }
  destruct (decide ("*" ∈ omap header_value (o :: l))) as [W|W].
  - pose proof (list_with_wildcard _ W). destruct (AllowOrigin_list _); [done|]. cbn in *. split; [done|]. by intros [].
  - rewrite (list_without_wildcard _ W). cbn [app_router].
    match goal with |- context [app_router ?c] => destruct (app_router_gives (Router := Router) c) as (r & -> & _) end. done.
Qed.

(** With origins configured, the template routes that change or delete are
    served with methods that no browser at those origins may use. *)
Lemma template_edits_not_allowed o l (app : Router) :
  create_app (o :: l) = Ok app ->
  exists r r' c, r ∈ router_routes app /\ rt_handler r = h_update_template /\
    r' ∈ router_routes app /\ rt_handler r' = h_delete_template /\
    Cors c ∈ rt_layers r /\ Cors c ∈ rt_layers r' /\
    (forall ms, allow_methods c = Some ms -> (rt_method r ∉ ms) /\ (rt_method r' ∉ ms)) /\ is_Some (allow_methods c).
Proof.
  intros (c & Ec & ->)%create_app_routes. unfold build_cors_layer in Ec.
  destruct (AllowOrigin_list _); [|done]. injection Ec as <-.
  do 3 eexists. split_and!.
  - apply list_elem_of_lookup_2 with 17%nat. reflexivity.
  - reflexivity.
  - apply list_elem_of_lookup_2 with 18%nat. reflexivity.
  - reflexivity.
  - apply list_elem_of_here.
  - apply list_elem_of_here.
  - cbn. intros ms [= <-]. split; by apply (bool_decide_unpack _).
  - eexists. reflexivity.
Qed.
End cors.

(** ** Concrete libraries *)

Module ListRouter.

Definition extend (l new : list Route) : option (list Route) := if all_apart l new then Some (l ++ new) else None.

#[local] Instance list_axum : Axum (list Route) := {|
  router_new := [];
  route p m h l := extend l [{| rt_method := m; rt_path := p; rt_handler := h; rt_layers := [] |}];
  layer L l := add_layer L <$> l;
  nest p inner l := extend l (add_prefix p <$> inner);
  merge other l := extend l other;
  router_routes l := l;
|}.
#[local] Instance list_axum_laws : AxumLaws (list Route).
Proof.
  assert (X : forall l new, all_apart l new = true -> exists l', extend l new = Some l' /\ l' = l ++ new)
    by (intros l new E; exists (l ++ new); unfold extend; by rewrite E).
  split; simpl; auto.
Qed.

#[local] Instance plain_tower : TowerHttp := {|
  header_value o := Some o;
  AllowOrigin_list l :=
    if decide ("*" ∈ l) then Err "Wildcard origin (`*`) cannot be passed to `AllowOrigin::list`" else Ok (OriginList l);
  with_cors _ r := r;
|}.
#[local] Instance plain_tower_laws : TowerHttpLaws.
Proof. split; simpl; intros; by try case_decide. Qed.

End ListRouter.

Section witnesses.
Import ListRouter.
#[local] Existing Instances list_axum list_axum_laws plain_tower plain_tower_laws ascii_only.

(** A send with the key and a small body reaches its handler. *)
Definition example_call (key : string) : Call :=
  {| cl_request := {| rq_api_key := Some key; rq_tenant_id := None; rq_ip := "1.2.3.4" |}; cl_now := (5, 5, 5);
     cl_length := Some 100 |}.
Definition example_limiter : Limiter.RateLimiter :=
  Limiter.new {| enabled := true; http_requests_per_second := 1; http_burst_size := 1; ws_connections_per_minute := 1;
                 ws_messages_per_second := 1; cleanup_interval_seconds := 60; bucket_ttl_seconds := 300;
                 backend := "local"; redis_prefix := "p" |}.
Definition example_handlers (h : Handler) (c : Call) : Inner (S := nat) :=
  fun _ w => (status_response 200, (w.1, Datatypes.S w.2)).
Definition example_gate : ApiSettings := {| is_production := true; api_key := Some "k" |}.
Definition example_tenants : TenantManager :=
  {| tm_config := {| tc_enabled := false; tc_default_limits := default_tenant_limits; tc_tenant_overrides := ∅ |};
     tm_stats := ∅ |}.
Definition example_route (app : list Route) : Route :=
  default (on GET "" h_health []) (app !! 5%nat).

Example example_answers :
  match create_app (Router := list Route) ["https://app.example"] with
  | Ok app =>
    let run key := run_route example_gate example_tenants example_handlers (example_route app) (example_call key) (example_limiter, O) in
    rt_path (example_route app) = "/api/v1/notifications/send" /\
    (rs_status (run "k").1, (run "k").2.2) = (200, 1%nat) /\ (rs_status (run "x").1, (run "x").2.2) = (401, O)
  | Err _ => False
  end.
Proof. vm_compute. done. Qed.

Definition example_cors : CorsLayer :=
  {| allow_origin := OriginList ["https://app.example"]; allow_methods := Some [GET; POST; OPTIONS];
     allow_headers := Some ["content-type"; "authorization"; "x-api-key"] |}.

Lemma app_admission_witness :
  create_app ["https://app.example"] = Ok (app_table example_cors) /\
  exists ctx, api_key_auth example_gate example_tenants (cl_request (example_call "k")) = Next ctx.
Proof.
  split; [vm_compute; reflexivity|].
  destruct (app_admission (S := nat) example_gate example_tenants example_handlers ["https://app.example"]
    (app_table example_cors) (example_route (app_table example_cors)) (example_call "k") (example_limiter, O))
    as [[_ D]|(ctx & _ & A & _)].
  - vm_compute. reflexivity.
  - apply list_elem_of_lookup_2 with 5%nat. reflexivity.
  - reflexivity.
  - exfalso. vm_compute in D. destruct D as [(D & _)|[D|(D & _)]]; discriminate D.
  - exists ctx. exact A.
Defined.

Example wildcard_panics : is_ok (create_app (Router := list Route) ["*"]) = false.
Proof. reflexivity. Qed.
End witnesses.
