(* ===== verification/Lifecycle.v ===== *)
(** * Lifecycle: the heartbeat task and the graceful shutdown

    Models [tasks/heartbeat.rs] ([Module Heartbeat]) and [shutdown/mod.rs]
    ([Module Shutdown]).  The sends of a batch run concurrently: the
    environment picks the one that completes next, as in [Dispatcher]. *)
From S2P Require Import Prelude Auth Tenant Notification Connection Queue Ack Dispatcher Resilience Redis Realtime Cluster.

(** ** Heartbeats *)
Module Heartbeat.

Definition MAX_CONCURRENT_HEARTBEATS : nat := 1000.

(** The task waits for its next event, has ended, or is blocked for good. *)
Inductive TaskStatus := Waiting | Stopped | Blocked.
(** The branches of the [select!]. *)
Inductive TaskEvent := ShutdownSignal | HeartbeatTick | CleanupTick (now : Z).

Section heartbeat.
Context {Q A S E : Type} `{MessageQueueBackend Q} `{AckTrackerBackend A} `{SessionStore S}.
Context (to_string : ServerMessage -> result E string) (env : Env).
Implicit Types w : World Q A.

Definition heartbeat_msg : OutboundMessage :=
  match preserialized to_string Heartbeat with Ok m => m | Err _ => Raw Heartbeat end.

(** [join_all] over a batch: every send completes, in some order. *)
Definition send_batch (s : (nat * nat) * World Q A) (batch : list ConnectionHandle) : (nat * nat) * World Q A :=
  (complete_while env (length batch) 1 heartbeat_msg None batch s).2.

(** The sends that succeeded and those that failed. *)
Definition send_heartbeats w : (nat * nat) * World Q A :=
  let conns := get_all_connections (connection_manager (disp w)) in
  fold_left send_batch (chunks (length conns) MAX_CONCURRENT_HEARTBEATS conns) ((0, 0)%nat, w).

Definition refresh_cluster_sessions (s : S) : TaskStatus * S :=
  if negb (s_is_enabled s) then (Waiting, s)
  else match s_refresh_sessions s with
       | (Returned _, s') => (Waiting, s')
       | (Deadlocked, s') => (Blocked, s')
       end.

Definition cleanup (now connection_timeout : Z) w : World Q A :=
  upd_disp (fun d => mk_dispatcher (cleanup_stale_connections (connection_manager d) now connection_timeout).2
                       (queue_backend d) (ack_backend d) (d_stats d)) w.

(** The task over the events that reach it. *)
Fixpoint run (connection_timeout : Z) (events : list TaskEvent) (s : S) w : TaskStatus * S * World Q A :=
  match events with
  | [] => (Waiting, s, w)
  | ShutdownSignal :: _ => (Stopped, s, w)
  | HeartbeatTick :: rest =>
    let w1 := (send_heartbeats w).2 in
    match refresh_cluster_sessions s with
    | (Blocked, s') => (Blocked, s', w1)
    | (_, s') => run connection_timeout rest s' w1
    end
  | CleanupTick now :: rest => run connection_timeout rest s (cleanup now connection_timeout w)
  end.
End heartbeat.

(** *** What the task does *)

Section facts.
Context {Q A S X : Type} `{MessageQueueBackend Q} `{AckTrackerBackend A} `{SessionStore S}.
Context (to_string : ServerMessage -> result X string) (env : Env).
Implicit Types w : World Q A.

Abbreviation manager_of w := (connection_manager (disp w)).
Abbreviation beat := (heartbeat_msg to_string).
Abbreviation runs := (run to_string env).

Lemma round_batches bs (s : (nat * nat) * World Q A) :
  round beat None (concat bs) s (fold_left (send_batch to_string env) bs s).
Proof.
  revert s. induction bs as [|b bs IH]; intros s; cbn [fold_left concat]; [apply round_refl|].
  eapply round_trans; [|apply IH]. unfold send_batch.
  destruct (complete_while_spec env (length b) 1 beat None b s) as (ds & P & R & L). cbn zeta in *.
  destruct (complete_while env (length b) 1 beat None b s).1 as [|c l]; [|simpl in L; lia].
  rewrite app_nil_r in P. by eapply round_perm.
Qed.

Lemma heartbeats_round w :
  round beat None (get_all_connections (manager_of w)) ((0, 0)%nat, w) (send_heartbeats to_string env w).
Proof.
  unfold send_heartbeats. set (cs := get_all_connections _).
  rewrite <- (concat_chunks (length cs) MAX_CONCURRENT_HEARTBEATS cs) at 1 by (unfold MAX_CONCURRENT_HEARTBEATS; lia).
  apply round_batches.
Qed.

Lemma manager_heartbeats w : manager_of (send_heartbeats to_string env w).2 = manager_of w.
Proof. by destruct (heartbeats_round w) as (ds & fs & _ & _ & _ & _ & M & _). Qed.

(** A heartbeat round sends the heartbeat to every registered connection
    exactly once, counts each send as sent or failed, and leaves the
    connection manager and the statistics alone. *)
Theorem heartbeat_reaches_all w :
  wf (manager_of w) ->
  let r := send_heartbeats to_string env w in
  exists ds fs, NoDup (ds ++ fs) /\ (forall c, c ∈ ds ++ fs <-> connections (manager_of w) !! conn_id c = Some c) /\
    r.1 = (length ds, length fs) /\ log r.2 = log w ++ entries beat ds /\
    manager_of r.2 = manager_of w /\ d_stats (disp r.2) = d_stats (disp w).
Proof.
  intros W r. destruct (heartbeats_round w) as (ds & fs & P & C & L & _ & M & _ & St). fold r in C, L, M, St.
  exists ds, fs. split_and!; try done.
  - rewrite P. auto with ara.
  - intros c. rewrite P. by apply elem_of_all_connections.
Qed.

Lemma run_app t pre post (s : S) w :
  runs t (pre ++ post) s w =
    match runs t pre s w with (Waiting, s', w') => runs t post s' w' | r => r end.
Proof.
  revert s w. induction pre as [|[| |now] pre IH]; intros s w; cbn [app run]; [done|done| |apply IH].
  destruct (refresh_cluster_sessions s) as [[| |] s']; [apply IH|apply IH|done].
Qed.

(** The task only takes connections away, and sends nothing but heartbeats. *)
Definition quieter w w' : Prop :=
  (forall i h, connections (manager_of w') !! i = Some h -> connections (manager_of w) !! i = Some h) /\
  exists ext, log w' = log w ++ ext /\
    Forall (fun d => d.2 = beat /\ is_Some (connections (manager_of w) !! d.1)) ext.

Lemma quieter_trans w1 w2 w3 : quieter w1 w2 -> quieter w2 w3 -> quieter w1 w3.
Proof.
  intros [S1 (e1 & L1 & F1)] [S2 (e2 & L2 & F2)]. split; [auto|]. exists (e1 ++ e2).
  rewrite L2, L1, app_assoc. split; [done|]. apply Forall_app. split; [done|].
  eapply Forall_impl; [exact F2|]. intros d [-> [h E]]. split; [done|]. eauto.
Qed.

Lemma quieter_heartbeats w : wf (manager_of w) -> quieter w (send_heartbeats to_string env w).2.
Proof.
  intros W. destruct (heartbeats_round w) as (ds & fs & P & _ & L & _ & M & _). split; [intros i h; by rewrite M|].
  exists (entries beat ds). split; [exact L|]. apply Forall_fmap, Forall_forall. intros c Hc. split; [done|].
  exists c. apply elem_of_all_connections; [done|]. rewrite <- P. set_solver.
Qed.
Lemma cleanup_keeps now t w i h :
  connections (manager_of (cleanup now t w)) !! i = Some h ->
  connections (manager_of w) !! i = Some h /\ ~ seconds (i64 t) < now - last_activity_time h.
Proof. destruct (cleanup_stale_connections_spec (manager_of w) now t) as [Sp _]. apply Sp. Qed.
Lemma quieter_cleanup now t w : quieter w (cleanup now t w).
Proof.
  split; [|exists []; by rewrite app_nil_r]. intros i h E.
  by apply cleanup_keeps in E as [? _].
Qed.

(** Whatever events reach the task, the maps of the connection manager stay
    consistent, no connection is added or changed, and all that is sent is
    heartbeats to registered connections. *)
Theorem task_invariant t events (s : S) w :
  wf (manager_of w) -> let w' := (runs t events s w).2 in wf (manager_of w') /\ quieter w w'.
Proof.
  revert s w. induction events as [|[| |now] events IH]; intros s w W; cbn [run snd].
  1,2: split; [done|split; [done|exists []; by rewrite app_nil_r]].
  - pose proof (quieter_heartbeats w W) as B.
    assert (M : wf (manager_of (send_heartbeats to_string env w).2)).
    { by rewrite manager_heartbeats. }
    destruct (refresh_cluster_sessions s) as [[| |] s']; [..|done];
      destruct (IH s' _ M) as [W' T]; (split; [exact W'|by eapply quieter_trans]).
  - destruct (IH s (cleanup now t w)) as [W' T]; [apply wf_cleanup, W|].
    split; [exact W'|]. eapply quieter_trans; [apply quieter_cleanup|exact T].
Qed.

(** C38: As long as the task has not been blocked or stopped, a cleanup removes
    every connection idle for longer than the timeout, for good. *)
Theorem idle_connections_dropped t pre now post (s : S) w i h :
  wf (manager_of w) -> (runs t pre s w).1.1 = Waiting ->
  connections (manager_of w) !! i = Some h -> seconds (i64 t) < now - last_activity_time h ->
  connections (manager_of (runs t (pre ++ CleanupTick now :: post) s w).2) !! i = None.
Proof.
  intros W St E Old. rewrite run_app. destruct (task_invariant t pre s w W) as [W1 [S1 _]].
  destruct (runs t pre s w) as [[st1 s1] w1]. cbn [fst snd] in *. subst st1. cbn [run].
  destruct (task_invariant t post s1 (cleanup now t w1)) as [_ [S2 _]]; [apply wf_cleanup, W1|].
  destruct (connections (manager_of (runs t post s1 (cleanup now t w1)).2) !! i) as [h'|] eqn:E2; [|done].
  apply S2, cleanup_keeps in E2 as [E3 N].
  apply S1 in E3. by simplify_eq.
Qed.
End facts.

Section blocked.
Context {Q A R E : Type} `{MessageQueueBackend Q} `{AckTrackerBackend A}.
Context `{RedisLaws R} `{JsonLaws SessionInfo} `{JsonLaws RoutedMessage} `{UuidText} (clock : nat -> Z).
Context (to_string : ServerMessage -> result E string) (env : Env).

(** With the Redis session store, a heartbeat at which the session of a local
    connection has expired blocks the task: later heartbeats are not sent and
    stale connections are never removed.  While every session is stored the
    task goes on. *)
Theorem expired_session_stops_task t rest (s : RedisStore.RedisSessionStore R) (w : World Q A) :
  RedisStore.ready s -> 0 < RedisStore.ttl_of (RedisStore.config s) ->
  let step := run (H1 := RedisStore.store clock) to_string env t (HeartbeatTick :: rest) s w in
  let w1 := (send_heartbeats to_string env w).2 in
  let s1 := (RedisStore.refresh_sessions clock s).2 in
  if forallb (RedisStore.session_alive s) (map_to_list (RedisStore.local_connections s)).*1
  then step = run (H1 := RedisStore.store clock) to_string env t rest s1 w1
  else step = (Blocked, s1, w1).
Proof.
  intros Rd Ht. cbn [run]. pose proof (RedisStore.refresh_outcome clock s Rd Ht) as O.
  unfold refresh_cluster_sessions. cbn [s_is_enabled s_refresh_sessions RedisStore.store negb].
  destruct (RedisStore.refresh_sessions clock s) as [o s']. cbn [fst] in O. subst o.
  by destruct (forallb _ _).
Qed.
End blocked.
End Heartbeat.

(** ** Graceful shutdown *)
Module Shutdown.

(** The timeouts, in seconds. *)
Record ShutdownConfig := {
  client_notification_timeout : Z; drain_timeout : Z; queue_flush_timeout : Z; reconnect_after_seconds : Z;
}.
Definition ShutdownConfig_default : ShutdownConfig :=
  {| client_notification_timeout := 5; drain_timeout := 10; queue_flush_timeout := 15; reconnect_after_seconds := 5 |}.

Record ShutdownResult := {
  success : bool; clients_notified : nat; connections_closed : Z; queue_drained : bool;
}.

(** What the timeouts let happen: how many notifications complete within
    theirs, what each look at the queue finds until its timeout, and how many
    connections are left after the last wait. *)
Record Course := { completions : nat; queue_polls : list nat; connections_left : nat }.

Section shutdown.
Context {Q A : Type} `{MessageQueueBackend Q} `{AckTrackerBackend A} (env : Env).
Implicit Types w : World Q A.

Definition notify_clients (c : ShutdownConfig) (completions : nat) (reason : string) w : nat * World Q A :=
  let conns := get_all_connections (connection_manager (disp w)) in
  let message := Notification.Shutdown reason (Some (reconnect_after_seconds c)) in
  let r := complete_while env completions 1 (Raw message) None conns ((0, 0)%nat, w) in
  (r.2.1.1, r.2.2).

Definition drain_queues (polls : list nat) (q : Q) : bool :=
  if negb (q_is_enabled q) then true
  else if (total_messages (q_stats q) =? 0)%nat then true
  else existsb (fun n => n =? 0)%nat polls.

(** [initial - final], on [usize]. *)
Definition wait_for_connections_to_close (m : ConnectionManager) (left_ : nat) : Z :=
  let initial := stat_total_connections (stats m) in
  if (initial =? 0)%nat then 0 else u64 (Z.of_nat initial - Z.of_nat left_).

Definition execute (c : ShutdownConfig) (reason : string) (run : Course) (q : Q) w : ShutdownResult * World Q A :=
  let n := notify_clients c (completions run) reason w in
  ({| success := true; clients_notified := n.1; queue_drained := drain_queues (queue_polls run) q;
      connections_closed := wait_for_connections_to_close (connection_manager (disp n.2)) (connections_left run) |}, n.2).
End shutdown.

(** *** What the shutdown does *)

Section facts.
Context {Q A : Type} `{MessageQueueBackend Q} `{AckTrackerBackend A} (env : Env).
Implicit Types w : World Q A.

Lemma manager_notify_clients c n reason w :
  connection_manager (disp (notify_clients env c n reason w).2) = connection_manager (disp w).
Proof.
  unfold notify_clients. cbn [snd]. destruct (complete_while_spec env n 1
    (Raw (Notification.Shutdown reason (Some (reconnect_after_seconds c)))) None
    (get_all_connections (connection_manager (disp w))) ((0, 0)%nat, w)) as (dn & _ & R & _).
  by destruct R as (ds & fs & _ & _ & _ & _ & M & _).
Qed.

(** C39: The shutdown tells each registered connection at most once; the number it
    reports is of those that were told; once as many sends have completed as
    there are connections, none is left out. *)
Theorem shutdown_notifies c n reason w :
  wf (connection_manager (disp w)) ->
  let r := notify_clients env c n reason w in
  let message := Raw (Notification.Shutdown reason (Some (reconnect_after_seconds c))) in
  exists ds fs rest, NoDup (ds ++ fs ++ rest) /\
    (forall h, h ∈ ds ++ fs ++ rest <-> connections (connection_manager (disp w)) !! conn_id h = Some h) /\
    r.1 = length ds /\ log r.2 = log w ++ entries message ds /\
    connection_manager (disp r.2) = connection_manager (disp w) /\
    ((size (connections (connection_manager (disp w))) <= n)%nat -> rest = []).
Proof.
  intros W r message. set (cs := get_all_connections (connection_manager (disp w))).
  destruct (complete_while_spec env n 1 message None cs ((0, 0)%nat, w)) as (dn & P & R & B).
  destruct R as (ds & fs & P2 & C & L & _ & M & _). cbn zeta in *.
  exists ds, fs, (complete_while env n 1 message None cs ((0, 0)%nat, w)).1.
  assert (Pe : ds ++ fs ++ (complete_while env n 1 message None cs ((0, 0)%nat, w)).1 ≡ₚ cs) by (by rewrite app_assoc, P2, P).
  split_and!.
  - rewrite Pe. unfold cs. auto with ara.
  - intros h. rewrite Pe. by apply elem_of_all_connections.
  - unfold r, notify_clients. fold cs message. by rewrite C.
  - exact L.
  - exact M.
  - intros Hn. assert (Lc : length cs = size (connections (connection_manager (disp w)))).
    { unfold cs, get_all_connections. by rewrite length_fmap, length_map_to_list. }
    destruct (complete_while _ _ _ _ _ cs _).1; [done|]. simpl in B. lia.
Qed.

(** The wait for the queue reports it drained only when it is off or was seen
    empty; messages kept for users who stay away make it run into its timeout. *)
Lemma drain_queues_true polls (q : Q) :
  drain_queues polls q = true <->
  q_is_enabled q = false \/ total_messages (q_stats q) = 0%nat \/ 0%nat ∈ polls.
Proof.
  unfold drain_queues. destruct (q_is_enabled q); cbn [negb]; [|naive_solver].
  destruct (total_messages (q_stats q) =? 0)%nat eqn:T; bool_to_prop; [naive_solver|].
  rewrite existsb_exists. setoid_rewrite <- list_elem_of_In. setoid_rewrite Nat.eqb_eq. naive_solver.
Qed.

(** Connections only leave once the server has stopped: then the number
    reported is of those that left. *)
Lemma connections_closed_count (m : ConnectionManager) left_ :
  (left_ <= size (connections m))%nat -> Z.of_nat (size (connections m)) < 2 ^ 64 ->
  wait_for_connections_to_close m left_ = Z.of_nat (size (connections m) - left_).
Proof.
  intros Hl Hs. unfold wait_for_connections_to_close. cbn [stats stat_total_connections].
  destruct (size (connections m) =? 0)%nat eqn:Z0; bool_to_prop; [lia|]. unfold u64. rewrite Z.mod_small; lia.
Qed.
End facts.
End Shutdown.

(** ** Two connections and a cluster session that expired *)

Section witnesses.
#[local] Existing Instances Store.keyspace_server Store.keyspace_laws decimal_uuids.
#[local] Existing Instances session_codec session_laws routed_codec routed_laws.

Lemma heartbeat_reaches_all_witness :
  exists ds fs : list ConnectionHandle, (Heartbeat.send_heartbeats no_text example_env example_world).1 = (length ds, length fs) /\
    log (Heartbeat.send_heartbeats no_text example_env example_world).2 = entries (Raw Heartbeat) ds /\ length ds = 2%nat.
Proof.
  destruct (Heartbeat.heartbeat_reaches_all no_text example_env example_world example_manager_wf)
    as (ds & fs & _ & _ & C & L & _).
  exists ds, fs. split; [exact C|]. split; [exact L|].
  assert (V : (Heartbeat.send_heartbeats no_text example_env example_world).1 = (2, 0)%nat) by (vm_compute; reflexivity).
  congruence.
Defined.

Definition quiet_store : Local.LocalSessionStore := {| Local.server_id := "s1" |}.
Definition first_beat : list Heartbeat.TaskEvent := [Heartbeat.HeartbeatTick].

Lemma task_invariant_witness :
  wf (connection_manager (disp (Heartbeat.run no_text example_env 60
    [Heartbeat.HeartbeatTick; Heartbeat.CleanupTick (seconds 100)] quiet_store example_world).2)).
Proof.
  apply (Heartbeat.task_invariant no_text example_env 60 [Heartbeat.HeartbeatTick; Heartbeat.CleanupTick (seconds 100)]
    quiet_store example_world example_manager_wf).
Defined.

Lemma idle_connections_dropped_witness :
  connections (connection_manager (disp (Heartbeat.run no_text example_env 60
    (first_beat ++ [Heartbeat.CleanupTick (seconds 100)]) quiet_store example_world).2)) !! 1%N = None.
Proof.
  eapply (Heartbeat.idle_connections_dropped no_text example_env 60 first_beat (seconds 100) [] quiet_store example_world 1%N);
    [apply example_manager_wf|vm_compute; reflexivity|vm_compute; reflexivity|vm_compute; reflexivity].
Defined.

Lemma expired_session_stops_task_witness :
  (Heartbeat.run (H1 := RedisStore.store stopped) no_text example_env 60
    [Heartbeat.HeartbeatTick; Heartbeat.CleanupTick (seconds 100)] expired_store example_world).1.1 = Heartbeat.Blocked.
Proof.
  pose proof (Heartbeat.expired_session_stops_task stopped no_text example_env 60 [Heartbeat.CleanupTick (seconds 100)]
    expired_store example_world (proj2 east_ready) eq_refl) as E.
  cbv zeta in E. replace (forallb _ _) with false in E by (vm_compute; reflexivity). rewrite E. reflexivity.
Defined.

Lemma shutdown_notifies_witness :
  exists ds : list ConnectionHandle, (Shutdown.notify_clients example_env Shutdown.ShutdownConfig_default 2 "bye" example_world).1 = length ds /\
    length ds = 2%nat.
Proof.
  destruct (Shutdown.shutdown_notifies example_env Shutdown.ShutdownConfig_default 2 "bye" example_world example_manager_wf)
    as (ds & fs & rest & _ & _ & C & _).
  exists ds. split; [exact C|]. rewrite <- C. vm_compute. reflexivity.
Defined.
End witnesses.
