(* ===== verification/Startup.v ===== *)
(** * Startup: from the settings to a running service

    Models [server/state.rs] and the order of steps in [main.rs].  What a
    library decides is an argument: whether the Redis client accepts its URL,
    whether the database can be reached, the JWT library.  The two pools hold
    the one circuit breaker of the state. *)
From S2P Require Import Prelude Auth Tenant Notification RateLimit Resilience Redis Connection Queue Ack.
From S2P Require Import Template Dispatcher Realtime Cluster Postgres Settings Api App Jwt.

(** ** The application state *)

Section state.
Context `{JwtLibrary} {R D : Type}.

(** [R] and [D] are the pools' handles on Redis and on the database. *)
Record ServiceState := {
  st_settings : Settings;
  st_jwt_validator : JwtValidator;
  st_connection_manager : ConnectionManager;
  st_rate_limiter : Limiter.RateLimiter;
  st_circuit_breaker : CircuitBreaker.CircuitBreaker;
  st_redis_health : Health.RedisHealth;
  st_redis_pool : option R;
  st_postgres_pool : option D;
  st_template_store : TemplateStore;
  st_tenant_manager : TenantManager;
  st_queue_backend : QueueBackendChoice * QueueConfig;
  st_ack_backend : AckBackendChoice * AckConfig;
  st_session_store : StoreChoice;
  st_start_time : Z;
}.

Inductive StartError := Panic (message : string) | Bail (message : string).

Definition needs_redis (s : Settings) : bool :=
  (set_enabled (queue s) && String.eqb (set_backend (queue s)) "redis") ||
  (as_enabled (ack s) && String.eqb (as_backend (ack s)) "redis") || cc_enabled (cluster s).
Definition needs_postgres (s : Settings) : bool :=
  String.eqb (set_backend (queue s)) "postgres" || String.eqb (as_backend (ack s)) "postgres".

Definition connection_limits (w : WebSocketConfig) : ConnectionLimits :=
  {| max_connections := wsc_max_connections w; max_connections_per_user := wsc_max_connections_per_user w;
     max_subscriptions_per_connection := wsc_max_subscriptions_per_connection w |}.
Definition breaker_config (r : RedisConfig) : CircuitBreaker.CircuitBreakerConfig :=
  {| CircuitBreaker.failure_threshold := circuit_breaker_failure_threshold r;
     CircuitBreaker.success_threshold := circuit_breaker_success_threshold r;
     CircuitBreaker.reset_timeout_ms := u64 (circuit_breaker_reset_timeout_seconds r * 1000) |}.
Definition rate_limit_config (r : RateLimitSettings) : RateLimit.RateLimitConfig :=
  {| RateLimit.enabled := rl_enabled r; RateLimit.http_requests_per_second := rl_http_requests_per_second r;
     RateLimit.http_burst_size := rl_http_burst_size r;
     RateLimit.ws_connections_per_minute := rl_ws_connections_per_minute r;
     RateLimit.ws_messages_per_second := rl_ws_messages_per_second r;
     RateLimit.cleanup_interval_seconds := rl_cleanup_interval_seconds r; RateLimit.bucket_ttl_seconds := 300;
     RateLimit.backend := rl_backend r; RateLimit.redis_prefix := rl_redis_prefix r |}.

(** A pool a backend needs: without it production does not start, and other
    modes go on without. *)
Definition open_pool {X} (needed production : bool) (opened : result string X) (message : string -> string)
  : result StartError (option X) :=
  if needed then
    match opened with
    | Ok p => Ok (Some p)
    | Err e => if production then Err (Bail (message e)) else Ok None
    end
  else Ok None.

Definition is_some {X} (o : option X) : bool := if o is Some _ then true else false.

(** [redis] and [postgres] are the outcomes of opening the two pools; the
    breaker's clock is in milliseconds. *)
Definition AppState_new (redis : result string R) (postgres : result string D) (breaker_now start_time : Z) (s : Settings)
  : result StartError ServiceState :=
  match JwtValidator_new (jwt s) with
  | Err e => Err (Panic e)
  | Ok jwt_validator =>
    redis_pool <-? open_pool (needs_redis s) (in_production s) redis (fun e =>
      "Redis pool creation failed in production mode (required by configured backends): " +:+ e) ;;
    postgres_pool <-? open_pool (needs_postgres s && negb (String.eqb (db_url (database s)) "")) (in_production s) postgres
      (fun e => "PostgreSQL pool creation failed in production mode (required by configured backends): " +:+ e) ;;
    Ok {| st_settings := s; st_jwt_validator := jwt_validator;
          st_connection_manager := with_limits (connection_limits (websocket s));
          st_rate_limiter := Limiter.new (rate_limit_config (ratelimit s));
          st_circuit_breaker := CircuitBreaker.with_config (breaker_config (Settings.redis s)) breaker_now;
          st_redis_health := Health.new_with_enabled (needs_redis s);
          st_redis_pool := redis_pool; st_postgres_pool := postgres_pool; st_template_store := store_new;
          st_tenant_manager := TenantManager_new (tenant s);
          st_queue_backend := create_queue_backend (queue s) (is_some redis_pool) (is_some postgres_pool) None;
          st_ack_backend := create_ack_backend (ack s) (is_some redis_pool) (is_some postgres_pool) None;
          st_session_store := create_session_store (cluster s) (is_some redis_pool);
          st_start_time := start_time |}
  end.

(** What the handlers are given ([create_app]): the dispatcher over the chosen
    backends, nothing delivered yet. *)
Definition serve {Q A} (st : ServiceState) (q : Q) (a : A) : AppState Q A :=
  mk_state (mk_world (with_backends (st_connection_manager st) q a) [] 0) (st_tenant_manager st)
    (match st_session_store st with UseRedisStore _ => true | UseLocalStore _ => false end)
    (match st_session_store st with UseRedisStore c => cc_server_id c | UseLocalStore i => i end) [].

(** ** [main] *)

Inductive Task := SubscriberTask | HeartbeatTask_ | RoutedMessageTask.

(** The background tasks [main] starts. *)
Definition tasks (st : ServiceState) : list Task :=
  [SubscriberTask; HeartbeatTask_] ++
  (if cc_enabled (cluster (st_settings st)) then if is_some (st_redis_pool st) then [RoutedMessageTask] else [] else []).

(** [tokio::time::interval] panics on a zero period. *)
Definition heartbeat_panics (w : WebSocketConfig) : bool := (heartbeat_interval w =? 0) || (cleanup_interval w =? 0).

(** From the loaded sources to the state and the routes the server runs on:
    the telemetry is set up between the settings and the state, and a failure
    there panics; so does building the application. *)
Definition main `{FloatText} `{TowerHttp} {Router} `{Axum Router} (run_mode : option string)
  (loaded : result string Settings) (telemetry : OtelConfig -> result string unit) (redis : Settings -> result string R)
  (postgres : Settings -> result string D) (breaker_now start_time : Z)
  : result StartError (ServiceState * Router * string) :=
  match Settings_new run_mode loaded with
  | Err e => Err (Bail e)
  | Ok settings =>
    match telemetry (otel settings) with
    | Err e => Err (Panic ("Failed to initialize telemetry: " +:+ e))
    | Ok _ =>
      st <-? AppState_new (redis settings) (postgres settings) breaker_now start_time settings ;;
      match create_app (sv_cors_origins (server (st_settings st))) with
      | Ok app => Ok (st, app, server_addr settings)
      | Err e => Err (Panic e)
      end
    end
  end.

(** *** The end of [main]: waiting for the tasks *)

Definition SHUTDOWN_TIMEOUT_SECS : Z := 30.

(** When a task ends, in milliseconds from the start of the wait; a task that
    never does has none.  The three are awaited to the last. *)
Definition last_of (a b : option Z) : option Z :=
  match a, b with Some x, Some y => Some (Z.max x y) | _, _ => None end.
Definition all_finished (redis heartbeat : option Z) (cluster : option (option Z)) : option Z :=
  let joined := last_of redis heartbeat in
  match cluster with Some t => last_of joined t | None => joined end.

Inductive WaitOutcome := Completed (elapsed : Z) | ForcedExit (elapsed : Z).

Definition wait_for_tasks (redis heartbeat : option Z) (cluster : option (option Z)) : WaitOutcome :=
  let limit := SHUTDOWN_TIMEOUT_SECS * 1000 in
  match all_finished redis heartbeat cluster with
  | Some t => if t <=? limit then Completed t else ForcedExit limit
  | None => ForcedExit limit
  end.

End state.
Arguments ServiceState {_} _ _.

(** ** The backends are the configured ones *)

Section startup.
Context `{JwtLibrary} {R D : Type}.
Implicit Types (st : ServiceState R D) (s : Settings).

Lemma open_pool_production {X} needed (opened : result string X) message p :
  open_pool needed true opened message = Ok p -> is_some p = needed.
Proof. unfold open_pool. destruct needed, opened; intros; by simplify_eq/=. Qed.

(** What a state that was built is made of. *)
Lemma AppState_new_inv redis postgres bn t s st :
  AppState_new redis postgres bn t s = Ok st ->
  st_settings st = s /\
  (in_production s = true -> is_some (st_redis_pool st) = needs_redis s /\
     is_some (st_postgres_pool st) = needs_postgres s && negb (String.eqb (db_url (database s)) "")) /\
  st_queue_backend st = create_queue_backend (queue s) (is_some (st_redis_pool st)) (is_some (st_postgres_pool st)) None /\
  st_ack_backend st = create_ack_backend (ack s) (is_some (st_redis_pool st)) (is_some (st_postgres_pool st)) None /\
  st_session_store st = create_session_store (cluster s) (is_some (st_redis_pool st)) /\
  st_tenant_manager st = TenantManager_new (tenant s) /\
  st_connection_manager st = with_limits (connection_limits (websocket s)) /\
  st_redis_health st = Health.new_with_enabled (needs_redis s).
Proof.
  unfold AppState_new. destruct (JwtValidator_new _) as [j|]; [|done].
  destruct (open_pool _ _ redis _) as [rp|] eqn:Er; [|done]. destruct (open_pool _ _ postgres _) as [pp|] eqn:Ep; [|done].
  intros [= <-]. split_and!; try done. simpl. intros P. rewrite P in Er, Ep. by apply open_pool_production in Er, Ep.
Qed.

(** C28: In production a service that starts runs on the backends it is configured
    with: a Redis backend in use gets its pool, a PostgreSQL one its pool when
    the database has a URL, and a cluster its session store and the task that
    takes routed messages.  The one fall back to memory there is - a PostgreSQL
    backend chosen with an empty database URL, which validation lets through -
    is part of the statement. *)
Theorem production_backends redis postgres bn t s st :
  AppState_new redis postgres bn t s = Ok st -> in_production s = true ->
  (set_enabled (queue s) = true -> set_backend (queue s) = "redis" ->
     (st_queue_backend st).1 = UseRedis (set_redis_prefix (queue s)) "default") /\
  (as_enabled (ack s) = true -> as_backend (ack s) = "redis" ->
     (st_ack_backend st).1 = AckUseRedis (as_redis_prefix (ack s)) "default") /\
  (db_url (database s) <> "" ->
     (set_backend (queue s) = "postgres" -> (st_queue_backend st).1 = UsePostgres "default") /\
     (as_backend (ack s) = "postgres" -> (st_ack_backend st).1 = AckUsePostgres "default")) /\
  (db_url (database s) = "" ->
     (set_backend (queue s) = "postgres" -> (st_queue_backend st).1 = UseMemory) /\
     (as_backend (ack s) = "postgres" -> (st_ack_backend st).1 = AckUseMemory)) /\
  (cc_enabled (cluster s) = true -> st_session_store st = UseRedisStore (cluster s) /\ RoutedMessageTask ∈ tasks st).
Proof.
  intros E P. destruct (AppState_new_inv _ _ _ _ _ _ E) as (Es & Pools & Q & A & C & _).
  destruct (Pools P) as [Pr Pp]. unfold tasks. rewrite Q, A, C, Es, Pr, Pp. clear -P.
  unfold needs_redis, needs_postgres, create_queue_backend, create_ack_backend, create_session_store. split_and!.
  - intros -> ->. done.
  - intros -> ->. simpl. by rewrite orb_true_r.
  - intros Hu. apply String.eqb_neq in Hu. rewrite Hu. split; intros ->; simpl; [done|]. by rewrite orb_true_r.
  - intros ->. rewrite andb_false_r. split; intros ->; done.
  - intros ->. rewrite orb_true_r. split; [done|]. set_solver.
Qed.

(** Other modes start whatever the pools, on memory where a pool is missing. *)
Lemma development_starts redis postgres bn t s :
  in_production s = false -> is_ok (JwtValidator_new (jwt s)) = true ->
  exists st, AppState_new redis postgres bn t s = Ok st /\
    (is_ok redis = false -> cc_enabled (cluster s) = true -> st_session_store st = UseLocalStore (cc_server_id (cluster s))).
Proof.
  intros P J. unfold AppState_new, open_pool. destruct (JwtValidator_new _); [|done]. rewrite P.
  destruct (needs_redis s) eqn:Nr, redis, (needs_postgres s && negb (String.eqb (db_url (database s)) "")), postgres; simpl;
    eexists; (split; [reflexivity|]); simpl; unfold create_session_store; intros; simplify_eq; by case_match.
Qed.

(** The exception: a PostgreSQL backend and no URL - which validation lets
    through - starts on memory, in production too. *)
Lemma empty_url_falls_back redis postgres bn t s st :
  AppState_new redis postgres bn t s = Ok st -> in_production s = true ->
  set_backend (queue s) = "postgres" -> db_url (database s) = "" -> (st_queue_backend st).1 = UseMemory.
Proof.
  intros E P B U. destruct (AppState_new_inv _ _ _ _ _ _ E) as (_ & Pools & Q & _). destruct (Pools P) as [_ Pp].
  rewrite Q, Pp. unfold create_queue_backend. rewrite B, U, andb_false_r. done.
Qed.

(** A service that starts with multi-tenancy serves from a state without
    connections. *)
Lemma serve_start {Q A} redis postgres bn t s st (q : Q) (a : A) :
  AppState_new redis postgres bn t s = Ok st ->
  connection_manager (disp (core (serve st q a))) = with_limits (connection_limits (websocket s)) /\
  tm_is_enabled (tenant_manager (serve st q a)) = tc_enabled (tenant s).
Proof.
  intros E. destruct (AppState_new_inv _ _ _ _ _ _ E) as (_ & _ & _ & _ & _ & T & M & _).
  unfold serve. simpl. by rewrite T, M.
Qed.

(** The wait ends within thirty seconds, also with a task that never ends. *)
Lemma wait_bounded redis heartbeat cluster :
  match wait_for_tasks redis heartbeat cluster with Completed t => t <= 30000 | ForcedExit t => t = 30000 end.
Proof.
  unfold wait_for_tasks, SHUTDOWN_TIMEOUT_SECS. destruct (all_finished _ _ _); [destruct (_ <=? _) eqn:E; bool_to_prop|]; lia.
Qed.
Lemma blocked_task_forces_exit redis cluster :
  wait_for_tasks redis None cluster = ForcedExit (SHUTDOWN_TIMEOUT_SECS * 1000).
Proof. unfold wait_for_tasks, all_finished, last_of. by destruct redis, cluster as [[]|]. Qed.

(** ** What validation is good for *)

Lemma strip_any_length ps x x' : strip_any ps x = Some x' -> (String.length x' <= String.length x)%nat.
Proof.
  induction ps as [|p ps IH]; simpl; [done|]. destruct (strip_prefix p x) as [y|] eqn:E; [|auto].
  intros [= <-]. apply strip_prefix_Some in E as ->. rewrite str_length_app. lia.
Qed.
Lemma strip_all_length n ps x : (String.length (strip_all n ps x) <= String.length x)%nat.
Proof.
  revert x. induction n as [|n IH]; intros x; simpl; [done|]. destruct (strip_any ps x) as [y|] eqn:E; [|done].
  etrans; [apply IH|by eapply strip_any_length].
Qed.
Lemma str_rev_length x : String.length (str_rev x) = String.length x.
Proof.
  unfold str_rev. rewrite <- (string_of_list_ascii_of_string x) at 2.
  assert (L : forall l, String.length (String.string_of_list_ascii l) = length l)
    by (induction l as [|a l IH]; [done|]; simpl; by rewrite IH).
  by rewrite !L, length_rev.
Qed.
Lemma trim_ws_length x : (String.length (trim_ws x) <= String.length x)%nat.
Proof.
  unfold trim_ws. rewrite str_rev_length. etrans; [apply strip_all_length|]. rewrite str_rev_length.
  apply strip_all_length.
Qed.

(** Settings that were loaded are valid for the mode they run in. *)
Lemma Settings_new_valid `{FloatText} run_mode loaded s :
  Settings_new run_mode loaded = Ok s ->
  in_production s = production_mode (default "development" run_mode) /\ forall e, ~ problem s (in_production s) e.
Proof.
  unfold Settings_new, Settings.validate. destruct loaded as [s0|]; [|done].
  cbv zeta. set (s1 := set_production _ s0). destruct (validate_with_production_flag s1 (in_production s1)) as [[]|] eqn:V. 2: done.
  intros [= <-]. split; [done|].
  exact (proj1 (validate_ok_iff s1 (in_production s1)) V).
Qed.

Context `{UnicodeTables}.
Definition api_settings s : ApiSettings := {| is_production := in_production s; Api.api_key := api_config_key (api s) |}.

Lemma main_inv `{FloatText} `{TowerHttp} {Router} `{Axum Router} run_mode loaded telemetry redis postgres bn t st
  (app : Router) addr :
  main run_mode loaded telemetry redis postgres bn t = Ok (st, app, addr) ->
  Settings_new run_mode loaded = Ok (st_settings st) /\ create_app (sv_cors_origins (server (st_settings st))) = Ok app /\
  AppState_new (redis (st_settings st)) (postgres (st_settings st)) bn t (st_settings st) = Ok st /\
  addr = server_addr (st_settings st).
Proof.
  unfold main. destruct (Settings_new _ _) as [s|] eqn:Es; [|done]. destruct (telemetry _); [|done].
  destruct (AppState_new _ _ _ _ _) as [st'|] eqn:Ea; [|done]. pose proof (AppState_new_inv _ _ _ _ _ _ Ea) as (Eset & _).
  destruct (create_app _) eqn:Ec; [|done]. intros [= <- <- <-]. rewrite Eset in *. done.
Qed.

(** Validation has seen to it that the key of a production mode is long. *)
Lemma production_key `{FloatText} run_mode loaded s req tm ctx :
  Settings_new run_mode loaded = Ok s -> production_mode (default "development" run_mode) = true ->
  api_key_auth (api_settings s) tm req = Next ctx ->
  exists key, api_config_key (api s) = Some key /\ rq_api_key req = Some key /\ (16 <= String.length key)%nat.
Proof.
  intros Es P. destruct (Settings_new_valid _ _ _ Es) as [Ep V]. rewrite P in Ep. rewrite Ep in V.
  unfold api_key_auth, api_settings. cbn [Api.api_key is_production]. rewrite Ep.
  destruct (api_config_key (api s)) as [key|] eqn:K; [|done].
  destruct (rq_api_key req) as [key'|]; [|done]. destruct (constant_time_eq _ _) eqn:C; [|done].
  apply constant_time_eq_spec, str_bytes_inj in C as ->. intros _. exists key. split_and!; try done.
  destruct (decide (16 <= String.length key)%nat) as [|N]; [done|]. exfalso.
  apply (V (ApiKeyTooShort (String.length (trim_ws key)))). simpl. split; [done|]. exists key.
  pose proof (trim_ws_length key). split_and!; [done|done|lia].
Qed.

(** C16: No unauthenticated request in production: when the service starts in a
    production mode, a request on any of its routes but [/ws], [/sse],
    [/health] and [/metrics] is refused and leaves the state as it was, or
    brings the configured key, which has at least sixteen characters. *)
Theorem production_requests_authenticated `{FloatText} `{TowerHttpLaws} {Router} `{AxumLaws Router} {S : Type}
  run_mode loaded telemetry redis postgres bn t st (app : Router) addr tm
  (handlers : Handler -> Call -> Inner (S := S)) r c w :
  main run_mode loaded telemetry redis postgres bn t = Ok (st, app, addr) ->
  production_mode (default "development" run_mode) = true ->
  r ∈ router_routes app -> is_public (rt_handler r) = false ->
  let out := run_route (api_settings (st_settings st)) tm handlers r c w in
  (out.2.2 = w.2 /\ refused (api_settings (st_settings st)) tm r c w.1 (rs_status out.1)) \/
  (exists key, api_config_key (api (st_settings st)) = Some key /\ rq_api_key (cl_request c) = Some key /\
    (16 <= String.length key)%nat).
Proof.
  intros (Es & Ec & _)%main_inv P Hr N. cbv zeta.
  destruct (app_admission (api_settings (st_settings st)) tm handlers _ app r c w Ec Hr N) as [Rf|(ctx & _ & A & _)].
  - by left.
  - right. by eapply production_key.
Qed.
End startup.

(** ** A production configuration *)

Section witnesses.
#[local] Existing Instances one_token ascii_only.
#[local] Instance no_float_text : FloatText := {| f64_text _ := "" |}.

Definition example_jwt : JwtConfig :=
  {| jwt_algorithm := None; jwt_publickey := None; jwt_secret := "0123456789abcdef0123456789abcdef"; jwt_issuer := None;
     jwt_audience := None |}.
Definition production_settings : Settings :=
  let d := default_settings example_jwt "server-1" in
  {| server := {| sv_host := "0.0.0.0"; sv_port := 8081; sv_cors_origins := ["https://app.example"] |}; jwt := example_jwt;
     Settings.redis := Settings.redis d; api := {| api_config_key := Some "0123456789abcdef" |}; websocket := websocket d;
     queue := {| set_enabled := true; set_backend := "redis"; set_max_size_per_user := 100; set_message_ttl_seconds := 3600;
                 set_cleanup_interval_seconds := 300; set_redis_prefix := "ara:queue" |};
     ratelimit := ratelimit d; ack := ack d; otel := otel d; tenant := tenant d; database := database d;
     cluster := cluster d; in_production := true |}.

Lemma production_backends_witness :
  exists st, AppState_new (R := unit) (D := unit) (Ok tt) (Ok tt) 0 0 production_settings = Ok st /\
    (st_queue_backend st).1 = UseRedis "ara:queue" "default".
Proof.
  eexists. split; [reflexivity|].
  eapply (production_backends (R := unit) (D := unit) (Ok tt) (Ok tt) 0 0 production_settings); reflexivity.
Defined.

Import ListRouter.
#[local] Existing Instances list_axum list_axum_laws plain_tower plain_tower_laws.

Definition example_main (settings : Settings) :=
  main (R := unit) (D := unit) (Router := list Route) (Some "production") (Ok settings) (fun _ => Ok tt) (fun _ => Ok tt)
    (fun _ => Ok tt) 0 0.

(** The stats endpoint. *)
Definition stats_route : Route :=
  on GET "/stats" h_stats [Cors example_cors; TraceLayer; RateLimitLayer; ApiKeyAuthLayer].

Lemma production_requests_authenticated_witness :
  exists st, example_main production_settings = Ok (st, app_table example_cors, "0.0.0.0:8081") /\
    exists key, api_config_key (api (st_settings st)) = Some key /\ (16 <= String.length key)%nat.
Proof.
  eexists. split; [reflexivity|].
  destruct (production_requests_authenticated (R := unit) (D := unit) (S := nat) (Some "production")
    (Ok production_settings) (fun _ => Ok tt) (fun _ => Ok tt) (fun _ => Ok tt) 0 0 _ (app_table example_cors)
    "0.0.0.0:8081" (TenantManager_new TenantConfig_default) example_handlers stats_route
    (example_call "0123456789abcdef") (example_limiter, O) (eq_refl (example_main production_settings)))
    as [[_ X]|(key & K & _ & L)].
  - reflexivity.
  - apply list_elem_of_lookup_2 with 4%nat. reflexivity.
  - reflexivity.
  - exfalso. vm_compute in X. destruct X as [(X & _)|[X|(X & _)]]; discriminate X.
  - exists key. split; [exact K|exact L].
Defined.

(** A clean-up interval of zero passes validation, and the heartbeat task
    panics on it: nothing pings or cleans up from then on. *)
Example zero_cleanup_interval_accepted :
  let w := websocket (default_settings example_jwt "s") in
  let s := {| server := ServerConfig_default; jwt := example_jwt; Settings.redis := RedisConfig_default; api := ApiConfig_default;
              websocket := {| heartbeat_interval := heartbeat_interval w; connection_timeout := connection_timeout w;
                              cleanup_interval := 0; wsc_max_connections := 10; wsc_max_connections_per_user := 5;
                              wsc_max_subscriptions_per_connection := 5 |};
              queue := QueueSettings_default; ratelimit := RateLimitSettings_default; ack := AckSettings_default;
              otel := OtelConfig_default; tenant := TenantConfig_default; database := DatabaseConfig_default;
              cluster := ClusterConfig_default "s"; in_production := false |} in
  validation_errors s false = [] /\ heartbeat_panics (websocket s) = true.
Proof. by vm_compute. Qed.
End witnesses.
