(* ===== verification/Monitoring.v ===== *)
(** * Monitoring: health, statistics, scraping and tracing

    Models [api/health.rs], [api/metrics.rs] and [telemetry/mod.rs].  The
    endpoints read the running service ([Running]) through the interfaces of
    the queue and acknowledgement backends; the text encoder, the exporter and
    the subscriber are libraries'. *)
From S2P Require Import Prelude Notification Resilience Connection Queue Ack Dispatcher Cluster Settings Metrics Startup.

(** What the endpoints read.  [run_postgres] is the pool's size and its idle
    connections, as the library reports them; the breaker is the one both
    pools share. *)
Record Running (Q A : Type) := mk_running {
  run_settings : Settings;
  run_manager : ConnectionManager;
  run_dispatcher : DispatcherStats;
  run_queue : Q;
  run_ack : A;
  run_health : Health.RedisHealth;
  run_breaker : CircuitBreaker.CircuitBreaker;
  run_postgres : option (Z * Z);
  run_start_time : Z;
}.
Arguments mk_running {Q A} _ _ _ _ _ _ _ _ _.
Arguments run_settings {Q A} _.
Arguments run_manager {Q A} _.
Arguments run_dispatcher {Q A} _.
Arguments run_queue {Q A} _.
Arguments run_ack {Q A} _.
Arguments run_health {Q A} _.
Arguments run_breaker {Q A} _.
Arguments run_postgres {Q A} _.
Arguments run_start_time {Q A} _.

(** ** Health *)

Record RedisHealthResponse := { rhr_status : string; rhr_connected : bool }.
Record PostgresHealthResponse := {
  phr_status : string; phr_connected : bool; phr_pool_size : Z; phr_idle_connections : Z;
}.
Record ConnectionHealthResponse := { chr_total : nat; chr_unique_users : nat; chr_channels_count : nat }.
Record QueueHealthResponse := {
  qhr_enabled : bool; qhr_backend : string; qhr_total_messages : nat; qhr_users_with_queue : nat;
}.
Record ClusterHealthResponse := { clr_enabled : bool; clr_server_id : string }.
Record HealthResponse := {
  hr_status : string; hr_version : string; hr_uptime_seconds : Z; hr_redis : RedisHealthResponse;
  hr_postgres : option PostgresHealthResponse; hr_connections : ConnectionHealthResponse;
  hr_queue : QueueHealthResponse; hr_cluster : option ClusterHealthResponse;
}.

(** The version of [Cargo.toml]. *)
Definition CARGO_PKG_VERSION : string := "1.0.0".

Definition is_healthy (s : Health.RedisHealthStatus) : bool :=
  match s with Health.Healthy => true | _ => false end.

Section endpoints.
Context {Q A : Type} `{MessageQueueBackend Q} `{AckTrackerBackend A}.
Implicit Types r : Running Q A.

Definition set_breaker (b : CircuitBreaker.CircuitBreaker) r : Running Q A :=
  mk_running (run_settings r) (run_manager r) (run_dispatcher r) (run_queue r) (run_ack r) (run_health r) b
    (run_postgres r) (run_start_time r).

(** [elapsed] is the time since the start; [now] and [now'] are the readings
    of the breaker's clock, taken when there is a PostgreSQL pool. *)
Definition health (elapsed now now' : Z) r : HealthResponse * Running Q A :=
  let s := run_settings r in
  let redis_required := needs_redis s in
  let redis_status := if redis_required then Health.st_status (Health.stats (run_health r)) else Health.Disabled in
  let is_redis_healthy := is_healthy redis_status in
  let conn_stats := Connection.stats (run_manager r) in
  let queue_stats := q_stats (run_queue r) in
  let probe :=
    match run_postgres r with
    | Some (size, idle) =>
      let a := CircuitBreaker.allow_request (run_breaker r) now now' in
      (Some {| phr_status := "connected"; phr_connected := a.1; phr_pool_size := size; phr_idle_connections := idle |},
       set_breaker a.2 r)
    | None => (None, r)
    end in
  ({| hr_status := if negb redis_required || is_redis_healthy then "healthy" else "degraded";
      hr_version := CARGO_PKG_VERSION; hr_uptime_seconds := elapsed / 10 ^ 9;
      hr_redis := {| rhr_status := Health.as_str redis_status; rhr_connected := is_redis_healthy |};
      hr_postgres := probe.1;
      hr_connections := {| chr_total := stat_total_connections conn_stats; chr_unique_users := stat_unique_users conn_stats;
                           chr_channels_count := size (stat_channels conn_stats) |};
      hr_queue := {| qhr_enabled := q_is_enabled (run_queue r); qhr_backend := set_backend (queue s);
                     qhr_total_messages := total_messages queue_stats;
                     qhr_users_with_queue := users_with_queue queue_stats |};
      hr_cluster := if cc_enabled (cluster s)
                    then Some {| clr_enabled := true; clr_server_id := cc_server_id (cluster s) |} else None |},
   probe.2).

(** ** Statistics *)

Record ConnectionStatsResponse := {
  csr_total_connections : nat; csr_unique_users : nat; csr_channels : gmap string nat;
}.
Record RedisStats := {
  rs_status : string; rs_connected : bool; rs_circuit_breaker_state : string; rs_circuit_breaker_failures : Z;
  rs_reconnection_attempts : Z; rs_total_reconnections : Z;
}.
Record AckStatsResponse := {
  asr_enabled : bool; asr_total_tracked : Z; asr_total_acked : Z; asr_total_expired : Z; asr_pending_count : Z;
  asr_ack_rate : f64; asr_avg_latency_ms : Z;
}.
Record StatsResponse := {
  sr_connections : ConnectionStatsResponse; sr_notifications : DispatcherStats; sr_redis : RedisStats;
  sr_ack : option AckStatsResponse;
}.

Definition circuit_text (s : CircuitBreaker.CircuitState) : string :=
  match s with CircuitBreaker.Closed => "closed" | CircuitBreaker.Open => "open" | CircuitBreaker.HalfOpen => "half_open" end.

(** The channel names are left out: they would show one tenant's to another. *)
Definition stats (now now' : Z) r : StatsResponse * Running Q A :=
  let conn_stats := Connection.stats (run_manager r) in
  let redis_health := Health.stats (run_health r) in
  let circuit_breaker := CircuitBreaker.stats (run_breaker r) now now' in
  ({| sr_connections := {| csr_total_connections := stat_total_connections conn_stats;
                           csr_unique_users := stat_unique_users conn_stats; csr_channels := ∅ |};
      sr_notifications := run_dispatcher r;
      sr_redis := {| rs_status := Health.as_str (Health.st_status redis_health);
                     rs_connected := is_healthy (Health.st_status redis_health);
                     rs_circuit_breaker_state := circuit_text (CircuitBreaker.st_state circuit_breaker.1);
                     rs_circuit_breaker_failures := CircuitBreaker.st_failure_count circuit_breaker.1;
                     rs_reconnection_attempts := Health.st_reconnection_attempts redis_health;
                     rs_total_reconnections := Health.st_total_reconnections redis_health |};
      sr_ack := if a_is_enabled (run_ack r) then
                  let ack := a_stats (run_ack r) in
                  Some {| asr_enabled := true; asr_total_tracked := st_total_tracked ack;
                          asr_total_acked := st_total_acked ack; asr_total_expired := st_total_expired ack;
                          asr_pending_count := pending_count_stat ack; asr_ack_rate := ack_rate ack;
                          asr_avg_latency_ms := avg_latency_ms ack |}
                else None |}, set_breaker circuit_breaker.2 r).

(** ** Scraping *)

Definition circuit_gauge (s : CircuitBreaker.CircuitState) : Z :=
  match s with CircuitBreaker.Closed => 0 | CircuitBreaker.Open => 1 | CircuitBreaker.HalfOpen => 2 end.

Definition update_metrics_from_state (now now' : Z) r : list update * Running Q A :=
  let conn_stats := Connection.stats (run_manager r) in
  let is_connected := is_healthy (Health.st_status (Health.stats (run_health r))) in
  let circuit_breaker := CircuitBreaker.stats (run_breaker r) now now' in
  let queue_stats := q_stats (run_queue r) in
  ([SetTo CONNECTIONS_TOTAL (i64 (Z.of_nat (stat_total_connections conn_stats)));
    SetTo USERS_CONNECTED (i64 (Z.of_nat (stat_unique_users conn_stats)));
    SetTo CHANNELS_ACTIVE (i64 (Z.of_nat (size (stat_channels conn_stats))));
    SetTo REDIS_CONNECTION_STATUS (if is_connected then 1 else 0);
    SetTo REDIS_CIRCUIT_BREAKER_STATE (circuit_gauge (CircuitBreaker.st_state circuit_breaker.1))] ++
   (if q_is_enabled (run_queue r) then
      [SetTo QUEUE_SIZE_TOTAL (i64 (Z.of_nat (total_messages queue_stats)));
       SetTo QUEUE_USERS_TOTAL (i64 (Z.of_nat (users_with_queue queue_stats)))]
    else []) ++
   (if a_is_enabled (run_ack r) then [SetTo ACK_PENDING (i64 (pending_count_stat (a_stats (run_ack r))))] else []),
   set_breaker circuit_breaker.2 r).

Record MetricsResponse := { mr_status : Z; mr_content_type : string; mr_body : string }.

(** [encode] prints the gathered samples; [None] would be a panic. *)
Definition prometheus_metrics (encode : Samples -> result string string) (now now' : Z) (samples : Samples) r
  : option (MetricsResponse * Samples * Running Q A) :=
  let u := update_metrics_from_state now now' r in
  match apply_all u.1 samples with
  | None => None
  | Some samples' =>
    Some (match encode samples' with
          | Ok output => {| mr_status := 200; mr_content_type := "text/plain; version=0.0.4; charset=utf-8"; mr_body := output |}
          | Err e => {| mr_status := 500; mr_content_type := "text/plain"; mr_body := "Failed to encode metrics: " +:+ e |}
          end, samples', u.2)
  end.
End endpoints.

(** ** Tracing *)

Inductive Sampler := AlwaysOn | AlwaysOff | TraceIdRatioBased (ratio : f64).
Definition sampler_of (c : OtelConfig) : Sampler :=
  if f64_leb (f64_of_Z 1) (sampling_ratio c) then AlwaysOn
  else if f64_leb (sampling_ratio c) (f64_of_Z 0) then AlwaysOff
  else TraceIdRatioBased (sampling_ratio c).

Inductive TelemetryError := TracerInit (e : string) | ExporterBuild (e : string).
Definition telemetry_error_display (e : TelemetryError) : string :=
  match e with
  | TracerInit e => "Failed to initialize OpenTelemetry tracer: " +:+ e
  | ExporterBuild e => "Failed to build OTLP exporter: " +:+ e
  end.
(** What the tracer provider is built from. *)
Record TracerSetup := { tr_sampler : Sampler; tr_service_name : string; tr_service_version : string }.
Definition init_otel_tracer (exporter : string -> result string unit) (c : OtelConfig) : result TelemetryError TracerSetup :=
  match exporter (otel_endpoint c) with
  | Err e => Err (ExporterBuild e)
  | Ok _ => Ok {| tr_sampler := sampler_of c; tr_service_name := otel_service_name c; tr_service_version := CARGO_PKG_VERSION |}
  end.
(** The provider of the guard, if tracing is on. *)
Definition init_telemetry (exporter : string -> result string unit) (c : OtelConfig)
  : result TelemetryError (option TracerSetup) :=
  if otel_enabled c then match init_otel_tracer exporter c with Ok p => Ok (Some p) | Err e => Err e end else Ok None.

Inductive AttributeValue := AString (s : string) | AInt (z : Z).
Inductive Attribute :=
| user_id_attr (id : string) | connection_id_attr (id : uuid) | notification_id_attr (id : uuid) | target_type (t : string)
| channel (name : string) | event_type_attr (t : string) | delivered_count (n : nat) | failed_count (n : nat)
| ws_message_type (t : string) | http_method (m : string) | http_path (p : string) | http_status (code : Z).
Definition key_value `{UuidText} (a : Attribute) : string * AttributeValue :=
  match a with
  | user_id_attr i => ("user.id", AString i)
  | connection_id_attr i => ("connection.id", AString (uuid_text i))
  | notification_id_attr i => ("notification.id", AString (uuid_text i))
  | target_type t => ("notification.target_type", AString t)
  | channel n => ("channel.name", AString n)
  | event_type_attr t => ("notification.event_type", AString t)
  | delivered_count n => ("notification.delivered_count", AInt (i64 (Z.of_nat n)))
  | failed_count n => ("notification.failed_count", AInt (i64 (Z.of_nat n)))
  | ws_message_type t => ("ws.message_type", AString t)
  | http_method m => ("http.method", AString m)
  | http_path p => ("http.path", AString p)
  | http_status c => ("http.status_code", AInt c)
  end.

(** ** What they report *)

Section laws.
Context {Q A : Type} `{MessageQueueBackend Q} `{AckTrackerBackend A}.
Implicit Types r : Running Q A.

(** Only the breaker may differ: an open one whose timeout has passed is found
    half-open. *)
Lemma endpoints_read_only elapsed now now' r :
  (health elapsed now now' r).2 = set_breaker (run_breaker (health elapsed now now' r).2) r /\
  (stats now now' r).2 = set_breaker (run_breaker (stats now now' r).2) r /\
  (update_metrics_from_state now now' r).2 = set_breaker (run_breaker (update_metrics_from_state now now' r).2) r.
Proof. split_and!; try done. unfold health. destruct (run_postgres r) as [[? ?]|]; [done|by destruct r]. Qed.

(** The verdict of [/health]: degraded exactly when a configured backend or
    the cluster needs Redis and Redis is not healthy; the numbers are those of
    the connection manager and of the queue. *)
Theorem health_verdict elapsed now now' r :
  let h := (health elapsed now now' r).1 in
  (hr_status h = "degraded" <-> needs_redis (run_settings r) = true /\ Health.status (run_health r) <> Health.Healthy) /\
  (hr_status h = "degraded" \/ hr_status h = "healthy") /\
  (rhr_connected (hr_redis h) = true <-> needs_redis (run_settings r) = true /\ Health.status (run_health r) = Health.Healthy) /\
  chr_total (hr_connections h) = size (connections (run_manager r)) /\
  chr_unique_users (hr_connections h) = size (user_index (run_manager r)) /\
  chr_channels_count (hr_connections h) = size (channel_index (run_manager r)) /\
  qhr_total_messages (hr_queue h) = total_messages (q_stats (run_queue r)) /\
  (is_Some (hr_cluster h) <-> cc_enabled (cluster (run_settings r)) = true).
Proof.
  unfold health. simpl. split_and!; try done.
  - destruct (needs_redis _); simpl; [|by split; [|intros []]].
    destruct (Health.status (run_health r)); simpl; split; try done; by intros [? ?].
  - case_match; auto.
  - destruct (needs_redis _); simpl; [|by split; [|intros []]].
    destruct (Health.status (run_health r)); simpl; split; try done; by intros [? ?].
  - by rewrite map_size_fmap.
  - destruct (cc_enabled _); split; try done; by intros [].
Qed.

(** With a PostgreSQL pool a health check asks the Redis breaker for a
    request: what it reports as the database's connection is the breaker's
    answer, and an open breaker past its timeout is left half-open, without
    anything having been sent to Redis. *)
Lemma health_probe_half_opens elapsed now now' r size idle :
  run_postgres r = Some (size, idle) -> CircuitBreaker.state_u8 (run_breaker r) = 1 ->
  i64 (CircuitBreaker.reset_timeout_ms (CircuitBreaker.config (run_breaker r))) <=
    i64 (now - CircuitBreaker.last_state_change (run_breaker r)) ->
  CircuitBreaker.cur (run_breaker (health elapsed now now' r).2) = CircuitBreaker.HalfOpen /\
  phr_connected <$> hr_postgres (health elapsed now now' r).1 = Some true.
Proof.
  intros P S T. unfold health. rewrite P. simpl.
  unfold CircuitBreaker.allow_request, CircuitBreaker.state, CircuitBreaker.check_state_transition, CircuitBreaker.cur.
  rewrite S. simpl. destruct (_ <=? _) eqn:E; [|apply Z.leb_gt in E; lia]. by split.
Qed.

(** A series after updates that touch it only once. *)
Lemma apply_all_other us s s' k :
  apply_all us s = Some s' -> Forall (fun u => k <> series_of u) us ->
  values s' !! k = values s !! k /\ observed s' !! k = observed s !! k.
Proof.
  revert s. induction us as [|u us IH]; intros s E F; simpl in *; [by simplify_eq|].
  destruct (apply u s) as [s1|] eqn:E1; [|done]. apply Forall_cons in F as [Fu F].
  destruct (IH s1 E F) as [-> ->]. by eapply apply_other.
Qed.
Lemma apply_all_set m v us s s' :
  apply_all (us) s = Some s' ->
  (exists pre post, us = pre ++ SetTo m v :: post /\ Forall (fun u => (metric_name m, []) <> series_of u) post) ->
  values s' !! (metric_name m, []) = Some v.
Proof.
  intros E (pre & post & -> & F). revert s E. induction pre as [|u pre IH]; intros s E; simpl in *.
  - destruct (metric_kind m); try done. eapply apply_all_other in E as [-> _]; [|exact F]. simpl. apply lookup_insert_eq.
  - destruct (apply u s) as [s1|]; [|done]. by apply (IH s1).
Qed.

(** The gauges [/metrics] sets. *)
Definition scraped (now now' : Z) r : list (Metric * Z) :=
  let c := Connection.stats (run_manager r) in
  [(CONNECTIONS_TOTAL, i64 (Z.of_nat (stat_total_connections c))); (USERS_CONNECTED, i64 (Z.of_nat (stat_unique_users c)));
   (CHANNELS_ACTIVE, i64 (Z.of_nat (size (stat_channels c))));
   (REDIS_CONNECTION_STATUS, if is_healthy (Health.status (run_health r)) then 1 else 0);
   (REDIS_CIRCUIT_BREAKER_STATE,
    circuit_gauge (CircuitBreaker.cur (CircuitBreaker.check_state_transition (run_breaker r) now now')))] ++
  (if q_is_enabled (run_queue r) then
     [(QUEUE_SIZE_TOTAL, i64 (Z.of_nat (total_messages (q_stats (run_queue r)))));
      (QUEUE_USERS_TOTAL, i64 (Z.of_nat (users_with_queue (q_stats (run_queue r)))))] else []) ++
  (if a_is_enabled (run_ack r) then [(ACK_PENDING, i64 (pending_count_stat (a_stats (run_ack r))))] else []).

Lemma update_metrics_scraped now now' r :
  (update_metrics_from_state now now' r).1 = (fun mv => SetTo mv.1 mv.2) <$> scraped now now' r.
Proof. unfold update_metrics_from_state, scraped. simpl. by destruct (q_is_enabled _), (a_is_enabled _). Qed.
Abbreviation scraped_names now now' r := ((fun mv => metric_name mv.1) <$> scraped now now' r).
Lemma scraped_distinct now now' r : NoDup (scraped_names now now' r).
Proof.
  unfold scraped. simpl. destruct (q_is_enabled _), (a_is_enabled _); simpl; by apply (bool_decide_unpack _); vm_compute.
Qed.

Lemma scrape_sets encode now now' samples r :
  exists resp samples', prometheus_metrics encode now now' samples r =
      Some (resp, samples', (update_metrics_from_state now now' r).2) /\
    (forall m v, (m, v) ∈ scraped now now' r -> values samples' !! (metric_name m, []) = Some v) /\
    (forall name ls, name ∉ scraped_names now now' r ->
       values samples' !! (name, ls) = values samples !! (name, ls) /\
       observed samples' !! (name, ls) = observed samples !! (name, ls)) /\
    (mr_status resp = 200 <-> is_ok (encode samples') = true).
Proof.
  unfold prometheus_metrics. rewrite update_metrics_scraped.
  pose proof (scraped_distinct now now' r) as Nd. set (l := scraped now now' r) in *.
  destruct (well_typed_apply_all ((fun mv => SetTo mv.1 mv.2) <$> l) samples) as [samples' E].
  { subst l. unfold scraped. simpl. by destruct (q_is_enabled _), (a_is_enabled _). }
  rewrite E. eexists _, samples'. split; [reflexivity|]. split_and!.
  - intros m v Hm. apply (apply_all_set m v _ _ _ E). apply list_elem_of_split in Hm as (l1 & l2 & El).
    exists ((fun mv => SetTo mv.1 mv.2) <$> l1), ((fun mv => SetTo mv.1 mv.2) <$> l2).
    rewrite El, fmap_app. split; [done|]. apply Forall_forall. intros u Hu.
    apply list_elem_of_fmap in Hu as ([m' v'] & -> & Hu). cbn [series_of fst snd]. intros [Em _]%pair_eq.
    rewrite El, fmap_app in Nd. apply NoDup_app in Nd as (_ & _ & Nd). csimpl in Nd. apply NoDup_cons in Nd as [Nm _].
    apply Nm. rewrite Em. by apply (list_elem_of_fmap_2 (fun mv => metric_name mv.1) _ (m', v')).
  - intros name ls Hm. apply (apply_all_other _ _ _ _ E). apply Forall_forall. intros u Hu.
    apply list_elem_of_fmap in Hu as ([m' v'] & -> & Hu). cbn [series_of fst snd]. intros [Em _]%pair_eq.
    apply Hm. rewrite Em. by apply (list_elem_of_fmap_2 (fun mv => metric_name mv.1) _ (m', v')).
  - by destruct (encode samples').
Qed.

(** What an operator reads: the users with a connection and the channels
    somebody is subscribed to, whatever the indices. *)
Definition connected_users (m : ConnectionManager) : gset string :=
  list_to_set ((fun kv => Connection.user_id kv.2) <$> map_to_list (connections m)).
Definition subscribed_channels (m : ConnectionManager) : gset string :=
  ⋃ ((fun kv => Connection.subscriptions kv.2) <$> map_to_list (connections m)).

Lemma size_user_index m : wf m -> size (user_index m) = size (connected_users m).
Proof.
  intros W. rewrite <- size_dom. f_equal. apply set_eq. intros u. unfold connected_users.
  rewrite elem_of_list_to_set, list_elem_of_fmap, elem_of_dom. split.
  - intros [ids E]. destruct (wf_user_ids _ W _ _ E) as [_ N]. destruct ids as [|i ids]; [done|].
    assert (I : i ∈ default [] (user_index m !! u)) by (rewrite E; left).
    apply (wf_user _ W) in I as (h & Eh & <-). exists (i, h). split; [done|]. by apply elem_of_map_to_list.
  - intros ([i h] & -> & Eh%elem_of_map_to_list). simpl.
    assert (I : i ∈ default [] (user_index m !! Connection.user_id h)) by (apply (wf_user _ W); by exists h).
    destruct (user_index m !! Connection.user_id h); [done|]. by apply elem_of_nil in I.
Qed.
Lemma size_channel_index m : wf m -> size (channel_index m) = size (subscribed_channels m).
Proof.
  intros W. rewrite <- size_dom. f_equal. apply set_eq. intros c. unfold subscribed_channels.
  rewrite elem_of_union_list, elem_of_dom. split.
  - intros [ids E]. destruct (set_choose_L ids) as [i Hi]; [intros ->; by apply (wf_channel_compact _ W c)|].
    assert (I : i ∈ idx_get (channel_index m) c) by (unfold idx_get; by rewrite E).
    apply (wf_channel _ W) in I as (h & Eh & Hc). exists (Connection.subscriptions h). split; [|done].
    apply (list_elem_of_fmap_2 (fun kv => Connection.subscriptions kv.2) _ (i, h)). by apply elem_of_map_to_list.
  - intros (s & ([i h] & -> & Eh%elem_of_map_to_list)%list_elem_of_fmap & Hc).
    assert (I : i ∈ idx_get (channel_index m) c) by (apply (wf_channel _ W); by exists h).
    unfold idx_get in I. destruct (channel_index m !! c); [done|]. by apply elem_of_empty in I.
Qed.

(** The gauges of the state, by the names they are scraped under. *)
Definition state_gauges r : list string :=
  ["ara_connections_total"; "ara_users_connected"; "ara_channels_active"; "ara_redis_connection_status";
   "ara_redis_circuit_breaker_state"] ++
  (if q_is_enabled (run_queue r) then ["ara_queue_size_total"; "ara_queue_users_total"] else []) ++
  (if a_is_enabled (run_ack r) then ["ara_ack_pending"] else []).

Lemma scraped_gauges now now' r : scraped_names now now' r = state_gauges r.
Proof. unfold scraped, state_gauges. by destruct (q_is_enabled _), (a_is_enabled _). Qed.

(** C37: A scrape of a consistent manager never panics, and answers 200 when
    the encoder prints.  Afterwards the gauges read: the connections there
    are, the users who have one, the channels somebody subscribes to; 1 or 0
    as Redis is healthy or not; 0, 1 or 2 as the breaker is closed, open
    within its timeout, or half-open - or open past it; and, where the queue
    and the acknowledgements are on, their backends' totals.  Every other
    series is what it was. *)
Theorem scrape_reports_state encode now now' samples r :
  wf (run_manager r) ->
  let b := run_breaker r in
  let timeout := i64 (CircuitBreaker.reset_timeout_ms (CircuitBreaker.config b)) in
  let age := i64 (now - CircuitBreaker.last_state_change b) in
  exists resp samples', prometheus_metrics encode now now' samples r =
      Some (resp, samples', (update_metrics_from_state now now' r).2) /\
    let reads name v := values samples' !! (name, []) = Some v in
    reads "ara_connections_total" (i64 (Z.of_nat (size (connections (run_manager r))))) /\
    reads "ara_users_connected" (i64 (Z.of_nat (size (connected_users (run_manager r))))) /\
    reads "ara_channels_active" (i64 (Z.of_nat (size (subscribed_channels (run_manager r))))) /\
    (Health.status (run_health r) = Health.Healthy -> reads "ara_redis_connection_status" 1) /\
    (Health.status (run_health r) <> Health.Healthy -> reads "ara_redis_connection_status" 0) /\
    (CircuitBreaker.state_u8 b = 0 -> reads "ara_redis_circuit_breaker_state" 0) /\
    (CircuitBreaker.state_u8 b = 1 -> age < timeout -> reads "ara_redis_circuit_breaker_state" 1) /\
    (CircuitBreaker.state_u8 b = 1 -> timeout <= age -> reads "ara_redis_circuit_breaker_state" 2) /\
    (CircuitBreaker.state_u8 b = 2 -> reads "ara_redis_circuit_breaker_state" 2) /\
    (q_is_enabled (run_queue r) = true ->
       reads "ara_queue_size_total" (i64 (Z.of_nat (total_messages (q_stats (run_queue r))))) /\
       reads "ara_queue_users_total" (i64 (Z.of_nat (users_with_queue (q_stats (run_queue r)))))) /\
    (a_is_enabled (run_ack r) = true -> reads "ara_ack_pending" (i64 (pending_count_stat (a_stats (run_ack r))))) /\
    (forall name ls, name ∉ state_gauges r ->
       values samples' !! (name, ls) = values samples !! (name, ls) /\
       observed samples' !! (name, ls) = observed samples !! (name, ls)) /\
    (mr_status resp = 200 <-> is_ok (encode samples') = true).
Proof.
  intros W b timeout age. destruct (scrape_sets encode now now' samples r) as (resp & samples' & E & S & O & St).
  exists resp, samples'. split; [exact E|]. intros reads. rewrite scraped_gauges in O.
  assert (S1 : forall m v, (m, v) ∈ take 5 (scraped now now' r) -> reads (metric_name m) v).
  { intros m v Hm. apply S. apply elem_of_take in Hm as (i & Hm & _). by eapply list_elem_of_lookup_2. }
  cbn [scraped app take] in S1. rewrite <- size_user_index, <- size_channel_index by done.
  pose proof (S1 REDIS_CONNECTION_STATUS _ ltac:(do 3 right; left)) as Sh.
  pose proof (S1 REDIS_CIRCUIT_BREAKER_STATE _ ltac:(do 4 right; left)) as Sb.
  assert (Sc : forall s, CircuitBreaker.cur (CircuitBreaker.check_state_transition b now now') = s ->
    reads "ara_redis_circuit_breaker_state" (circuit_gauge s)) by (by intros s <-).
  unfold CircuitBreaker.check_state_transition in Sc. fold timeout age in Sc.
  split_and!; try done.
  - apply (S1 CONNECTIONS_TOTAL). left.
  - apply (S1 USERS_CONNECTED). right; left.
  - rewrite <- (map_size_fmap (fun s : gset uuid => size s)). apply (S1 CHANNELS_ACTIVE). do 2 right; left.
  - intros Hh. rewrite Hh in Sh. exact Sh.
  - intros Hh. destruct (Health.status (run_health r)); done.
  - intros Hs. apply (Sc CircuitBreaker.Closed). unfold CircuitBreaker.cur. by rewrite Hs; simpl; rewrite Hs.
  - intros Hs L. apply (Sc CircuitBreaker.Open). unfold CircuitBreaker.cur. rewrite Hs. simpl.
    rewrite (proj2 (Z.leb_gt _ _) L). by rewrite Hs.
  - intros Hs L. apply (Sc CircuitBreaker.HalfOpen). unfold CircuitBreaker.cur. rewrite Hs. simpl.
    by rewrite (proj2 (Z.leb_le _ _) L).
  - intros Hs. apply (Sc CircuitBreaker.HalfOpen). unfold CircuitBreaker.cur. by rewrite Hs; simpl; rewrite Hs.
  - intros Hq. split; [apply (S QUEUE_SIZE_TOTAL)|apply (S QUEUE_USERS_TOTAL)]; unfold scraped; rewrite Hq; simpl;
      [do 5 right; left|do 6 right; left].
  - intros Ha. apply (S ACK_PENDING). unfold scraped. rewrite Ha. apply elem_of_app. right. apply elem_of_app. right. left.
Qed.
End laws.

(** ** A node whose breaker is past its timeout *)

Definition example_running : Running Memory.MemoryQueueBackend AckMemory.MemoryAckBackend :=
  mk_running
    (default_settings {| jwt_algorithm := None; jwt_publickey := None; jwt_secret := ""; jwt_issuer := None; jwt_audience := None |} "s1")
    example_manager DispatcherStats_default (Memory.new (Memory.example_config 5)) example_ack (Health.new_with_enabled true)
    (CircuitBreaker.mk 1 5 0 0 CircuitBreaker.CircuitBreakerConfig_default) None 0.

Lemma scrape_reports_state_witness : exists resp samples' r',
  prometheus_metrics (fun _ => Ok "") 30000 30001 no_samples example_running = Some (resp, samples', r') /\
  values samples' !! ("ara_users_connected", []) = Some 2 /\
  values samples' !! ("ara_redis_circuit_breaker_state", []) = Some 2.
Proof.
  destruct (scrape_reports_state (fun _ => Ok "") 30000 30001 no_samples example_running)
    as (resp & samples' & E & _ & U & _ & _ & _ & _ & _ & B & _).
  - exact example_manager_wf.
  - exists resp, samples'. eexists. split; [exact E|]. split; [exact U|]. apply B; vm_compute; [reflexivity|discriminate].
Defined.
