(* ===== verification/System.v ===== *)
(** * System: the running service

    The steps of the whole service on its application state: connections
    opening and closing, frames, dispatches, clean-up, heartbeats, messages
    routed from other servers and the shutdown's notices, in any order
    ([server_step]).  What holds in every state they reach: the maps of the
    connection manager agree and every subscription carries the name space of
    its connection's tenant; so, with multi-tenancy and as long as no
    connected tenant's id holds a colon, a tenant's notifications stay within
    the tenant. *)
From S2P Require Import Prelude Auth Tenant Notification Ack Queue Connection Template Dispatcher Http Realtime Cluster Api Lifecycle Jwt Startup.

(** ** Subscriptions keep their tenant *)

(** The same connection, up to its subscriptions and activity. *)
Definition same_identity (h h' : ConnectionHandle) : Prop :=
  user_id h' = user_id h /\ tenant_id h' = tenant_id h /\ roles h' = roles h.

(** Nothing new: each connection of [m'] was in [m], the same one, with at
    least its subscriptions. *)
Definition shrinks (m m' : ConnectionManager) : Prop :=
  forall i h', connections m' !! i = Some h' ->
    exists h, connections m !! i = Some h /\ same_identity h h' /\ subscriptions h' ⊆ subscriptions h.
(** No new connections. *)
Definition kin (m m' : ConnectionManager) : Prop :=
  forall i h', connections m' !! i = Some h' -> exists h, connections m !! i = Some h /\ same_identity h h'.

#[global] Instance same_identity_preorder : PreOrder same_identity.
Proof. split; [done|]. intros h1 h2 h3 (? & ? & ?) (? & ? & ?). repeat split; congruence. Qed.
#[global] Instance shrinks_preorder : PreOrder shrinks.
Proof.
  split.
  - intros m i h E. by exists h.
  - intros m1 m2 m3 H12 H23 i h3 E3. destruct (H23 i h3 E3) as (h2 & E2 & T2 & S2).
    destruct (H12 i h2 E2) as (h1 & E1 & T1 & S1). exists h1. split_and!; [done|by etrans|set_solver].
Qed.
#[global] Instance kin_preorder : PreOrder kin.
Proof.
  split.
  - intros m i h E. by exists h.
  - intros m1 m2 m3 H12 H23 i h3 E3. destruct (H23 i h3 E3) as (h2 & E2 & T2).
    destruct (H12 i h2 E2) as (h1 & E1 & T1). exists h1. split; [done|by etrans].
Qed.
Lemma shrinks_kin m m' : shrinks m m' -> kin m m'.
Proof. intros S i h' E. destruct (S i h' E) as (h & ? & ? & _). by exists h. Qed.
Lemma same_kin m m' : m' = m -> kin m m'.
Proof. by intros ->. Qed.

Lemma shrinks_unregister m i : shrinks m (unregister m i).
Proof.
  intros j h. rewrite connections_unregister. intros [_ E]%lookup_delete_Some. by exists h.
Qed.

Lemma shrinks_cleanup m now timeout : shrinks m (cleanup_stale_connections m now timeout).2.
Proof.
  unfold cleanup_stale_connections. simpl. generalize (find_stale_connections m now timeout). intros l.
  revert m. induction l as [|i l IH]; intros m; simpl; [done|].
  etrans; [apply shrinks_unregister|apply IH].
Qed.

(** One handle replaced by the same one with fewer subscriptions. *)
Lemma shrinks_insert m i h h' users tenants channels l :
  connections m !! i = Some h -> same_identity h h' -> subscriptions h' ⊆ subscriptions h ->
  shrinks m {| connections := <[i := h']> (connections m); user_index := users; tenant_index := tenants;
               channel_index := channels; limits := l |}.
Proof.
  intros E S Sub j x. simpl. intros [[<- <-]|[_ E']]%lookup_insert_Some; [|by exists x]. by exists h.
Qed.

Lemma shrinks_unsubscribe m i c : shrinks m (unsubscribe_from_channel m i c).
Proof.
  unfold unsubscribe_from_channel. destruct (connections m !! i) as [h|] eqn:E; [|done].
  eapply shrinks_insert; [done|done|]. simpl. set_solver.
Qed.

Lemma shrinks_unsubscribe_loop ctx i cs m : shrinks m (unsubscribe_loop ctx i cs m).
Proof.
  unfold unsubscribe_loop. revert m. induction cs as [|c cs IH]; intros m; simpl; [done|].
  etrans; [apply shrinks_unsubscribe|apply IH].
Qed.

Lemma shrinks_touch m i now : shrinks m (touch m i now).
Proof.
  unfold touch. destruct (connections m !! i) as [h|] eqn:E; [|done]. by eapply shrinks_insert.
Qed.

Lemma kin_subscribe_loop `{UnicodeTables} ctx i cs m : kin m (subscribe_loop ctx i cs m).2.
Proof.
  revert m. induction cs as [|c cs IH]; intros m; simpl; [done|]. destruct (negb _); [apply IH|].
  unfold subscribe_to_channel. destruct (connections m !! i) as [h|] eqn:E; cbn zeta; [|apply IH].
  destruct (_ && _)%bool; simpl; [apply IH|]. etrans; [|apply IH].
  intros j x. simpl. intros [[<- <-]|[_ E']]%lookup_insert_Some; [|by exists x]. by exists h.
Qed.
#[export] Hint Resolve shrinks_unregister shrinks_cleanup shrinks_unsubscribe_loop shrinks_touch : ara.

(** Every subscription is a checked name in the context of its connection's
    tenant: under the tenant's prefix with multi-tenancy, bare without. *)
Definition scoped `{UnicodeTables} (tm : TenantManager) (m : ConnectionManager) : Prop :=
  forall i h, connections m !! i = Some h -> forall s, s ∈ subscriptions h ->
    exists c, is_valid_channel_name c = true /\ s = namespace_channel (create_context tm (tenant_id h)) c.

(** The tenants connected hold no colon: the API checks an id that a header
    brings, but nothing checks one that a token brings. *)
Definition colon_free (m : ConnectionManager) : Prop :=
  map_Forall (fun _ h => str_has COLON (tenant_id h) = false) (connections m).

Section scoped.
Context `{UnicodeTables} (tm : TenantManager).

Lemma scoped_namespaced m : tm_is_enabled tm = true -> scoped tm m -> colon_free m -> namespaced m.
Proof.
  intros En S C i h E. split; [by apply (C i)|]. intros s Hs. destruct (S i h E s Hs) as (c & V & ->).
  exists c. split; [done|]. unfold create_context. unfold tm_is_enabled in En. by rewrite En.
Qed.

Lemma scoped_shrinks m m' : scoped tm m -> shrinks m m' -> scoped tm m'.
Proof.
  intros N S i h' E s Hs. destruct (S i h' E) as (h & E1 & (_ & T & _) & Sub). rewrite T. apply (N i h E1). set_solver.
Qed.

Lemma scoped_register m u t rs l fresh now :
  scoped tm m -> scoped tm (register_with_limits m u t rs l fresh now).2.
Proof.
  intros N. unfold register_with_limits. destruct (check_limits m u l) as [?|e]; [|done]. simpl.
  intros i h E. unfold insert_handle in E. simpl in E.
  apply lookup_insert_Some in E as [[<- <-]|[_ E]]; [|by apply (N i)]. simpl. set_solver.
Qed.

(** The loop of a connection, in the context of its own tenant. *)
Lemma scoped_subscribe_loop i t cs m :
  scoped tm m -> (forall h, connections m !! i = Some h -> tenant_id h = t) ->
  scoped tm (subscribe_loop (create_context tm t) i cs m).2.
Proof.
  revert m. induction cs as [|c cs IH]; intros m N T; simpl; [done|].
  destruct (is_valid_channel_name c) eqn:V; simpl; [|by apply IH].
  unfold subscribe_to_channel. destruct (connections m !! i) as [h|] eqn:E; cbn zeta; [|simpl; apply IH; [done|by rewrite E]].
  destruct (_ && _)%bool; simpl; [apply IH; [done|by rewrite E]|]. apply IH.
  - intros j h'. simpl. intros [[<- <-]|[_ E']]%lookup_insert_Some; [|by apply (N j)]. simpl.
    intros s [->%elem_of_singleton|Hs]%elem_of_union; [|by apply (N i h E)].
    exists c. by rewrite (T h).
  - intros h'. simpl. rewrite lookup_insert_eq. intros [= <-]. simpl. by apply T.
Qed.
End scoped.

(** ** The steps *)

Section system.
Context {Q A E : Type} `{QueueLaws Q} `{AckTrackerBackend A} `{UnicodeTables}.
Context (to_string : ServerMessage -> result E string) (env : Env).
Context (uuid_text : uuid -> string) (decode : string -> result string ClientMessage).
Context `{JsonCodec RoutedMessage} `{JsonCodec ServerMessage}.
Implicit Types st : AppState Q A.

Abbreviation manager st := (connection_manager (disp (core st))).
Abbreviation frame := (process_message env uuid_text decode).
Abbreviation dispatched := (dispatch_for_tenant to_string env).

(** A step that opens no connection.  A frame comes on a connection under the
    tenant it was opened with, or after it is gone. *)
Inductive internal_step : AppState Q A -> AppState Q A -> Prop :=
| srv_frame msg h st :
    (forall h0, connections (manager st) !! conn_id h = Some h0 -> tenant_id h0 = tenant_id h) ->
    internal_step st (frame msg h st).2
| srv_close i st : internal_step st (close_socket i st)
| srv_dispatch target e tenant st : internal_step st (set_core (dispatched target e tenant (core st)).2 st)
| srv_send_channel ch e st : internal_step st (set_core (send_to_channel to_string env ch e (core st)).2 st)
| srv_send_channels chs e st : internal_step st (set_core (send_to_channels to_string env chs e (core st)).2 st)
| srv_cleanup now timeout st :
    internal_step st (set_manager (cleanup_stale_connections (manager st) now timeout).2 st)
| srv_heartbeat st : internal_step st (set_core (Heartbeat.send_heartbeats to_string env (core st)).2 st)
| srv_routed server payload st : internal_step st (set_core (Router.subscriber_handle env server payload (core st)).2 st)
| srv_shutdown c n reason st : internal_step st (set_core (Shutdown.notify_clients env c n reason (core st)).2 st)
| srv_tick st : internal_step st (tick st).

(** One step of the service.  A fresh connection id is not in use. *)
Inductive server_step : AppState Q A -> AppState Q A -> Prop :=
| srv_connect claims st :
    connections (manager st) !! env_fresh env (ticks (core st)) = None ->
    server_step st (open_socket env claims st).2
| srv_internal st st' : internal_step st st' -> server_step st st'.

(** The service starts without connections. *)
Definition server_start st : Prop := exists l, manager st = with_limits l.

Definition server_inv st : Prop := wf (manager st) /\ scoped (tenant_manager st) (manager st).

Lemma tenant_manager_session_call c st : tenant_manager (session_call c st) = tenant_manager st.
Proof. unfold session_call. by case_match. Qed.

Lemma tenant_manager_frame msg h st : tenant_manager (frame msg h st).2 = tenant_manager st.
Proof.
  destruct msg as [text| | | |]; simpl; try done. destruct (decode text) as [m|e]; simpl; [|done].
  destruct m as [cs|cs| |n]; simpl.
  - unfold handle_subscribe. destruct (subscribe_loop _ _ _ _) as [[[|s1 s2] [|e1 e2]] m']; simpl;
      rewrite ?tenant_manager_session_call; done.
  - unfold handle_unsubscribe. destruct cs; rewrite ?tenant_manager_session_call; done.
  - done.
  - unfold handle_ack. destruct (ack_backend _); [|done]. destruct (negb _); [done|]. by destruct (_.1).
Qed.

Lemma tenant_manager_open claims st : tenant_manager (open_socket env claims st).2 = tenant_manager st.
Proof.
  unfold open_socket. destruct (register _ _ _ _ _ _) as [[h|e] m]; [|done]. cbn [fst snd].
  set (s2 := session_call _ _). assert (D : forall key, tenant_manager (drain_for_replay env key s2).2 = tenant_manager s2).
  { intros key. unfold drain_for_replay. destruct (queue_backend _); [|done]. by destruct (q_is_enabled _). }
  rewrite D. unfold s2. by rewrite tenant_manager_session_call.
Qed.

Lemma kin_frame msg h st : kin (manager st) (manager (frame msg h st).2).
Proof.
  assert (S : kin (manager st) (manager (touch_handle env h st))) by apply shrinks_kin, shrinks_touch.
  destruct msg as [text| | | |]; cbn [process_message fst snd]; try done; [|by rewrite manager_reply].
  destruct (decode text) as [m|e]; cbn [fst snd]; [|by rewrite manager_reply].
  destruct m; cbn [handle_client_message];
    rewrite ?manager_handle_subscribe, ?manager_handle_unsubscribe, ?manager_reply, ?manager_handle_ack; try done.
  - etrans; [exact S|apply kin_subscribe_loop].
  - etrans; [exact S|apply shrinks_kin, shrinks_unsubscribe_loop].
Qed.

Lemma scoped_frame msg h st :
  (forall h0, connections (manager st) !! conn_id h = Some h0 -> tenant_id h0 = tenant_id h) ->
  scoped (tenant_manager st) (manager st) -> scoped (tenant_manager st) (manager (frame msg h st).2).
Proof.
  intros T N. assert (S : shrinks (manager st) (manager (touch_handle env h st))) by apply shrinks_touch.
  assert (N' : scoped (tenant_manager st) (manager (touch_handle env h st))) by (by eapply scoped_shrinks).
  assert (T' : forall h0, connections (manager (touch_handle env h st)) !! conn_id h = Some h0 -> tenant_id h0 = tenant_id h).
  { intros h0 E0. destruct (S _ _ E0) as (h1 & E1 & (_ & -> & _) & _). by apply T. }
  destruct msg as [text| | | |]; cbn [process_message fst snd]; try done; [|by rewrite manager_reply].
  destruct (decode text) as [m|e]; cbn [fst snd]; [|by rewrite manager_reply].
  destruct m; cbn [handle_client_message];
    rewrite ?manager_handle_subscribe, ?manager_handle_unsubscribe, ?manager_reply, ?manager_handle_ack by done;
    auto using scoped_subscribe_loop.
  eapply scoped_shrinks; [done|]. auto with ara.
Qed.

Lemma manager_send_channel ch e (w : World Q A) :
  connection_manager (disp (send_to_channel to_string env ch e w).2) = connection_manager (disp w).
Proof.
  unfold send_to_channel, finish. simpl.
  by destruct (send_to_connections_rounds to_string env (get_channel_connections (connection_manager (disp w)) ch)
    (Notification e) (Some (id e)) w) as (_ & _ & _ & _ & _ & _ & _ & _ & _ & M & _).
Qed.
Lemma manager_send_channels chs e (w : World Q A) :
  connection_manager (disp (send_to_channels to_string env chs e w).2) = connection_manager (disp w).
Proof.
  unfold send_to_channels, finish. simpl.
  by destruct (send_to_connections_rounds to_string env
    (first_occurrences ∅ (concat (map (get_channel_connections (connection_manager (disp w))) chs)))
    (Notification e) (Some (id e)) w) as (_ & _ & _ & _ & _ & _ & _ & _ & _ & M & _).
Qed.

Lemma server_inv_same st st' :
  manager st' = manager st -> tenant_manager st' = tenant_manager st -> server_inv st -> server_inv st'.
Proof. unfold server_inv. by intros -> ->. Qed.

(** Who the tenants are is settled at the start. *)
Lemma tenant_manager_step st st' : server_step st st' -> tenant_manager st' = tenant_manager st.
Proof.
  intros [claims st1 _|st1 st2 Hs]; [apply tenant_manager_open|].
  destruct Hs; try done; [apply tenant_manager_frame|]. unfold close_socket. by rewrite tenant_manager_session_call.
Qed.
Lemma tenant_manager_reachable st0 st : rtc server_step st0 st -> tenant_manager st = tenant_manager st0.
Proof. induction 1 as [|x y z Hxy _ IH]; [done|]. rewrite IH. by apply tenant_manager_step. Qed.

Lemma server_inv_step st st' : server_inv st -> server_step st st' -> server_inv st'.
Proof.
  intros (W & N) Hs. pose proof (tenant_manager_step _ _ Hs) as Tm. unfold server_inv. rewrite Tm.
  destruct Hs as [claims st F|st st' Hs].
  { split.
    - destruct (open_socket env claims st) as [o st'] eqn:O.
      pose proof (open_socket_manager env _ _ _ _ W F O) as M. destruct o; simpl; [by rewrite M|apply M..].
    - unfold open_socket, register.
      pose proof (scoped_register (tenant_manager st) (manager st) (claims_user_id claims) (claims_tenant_id claims)
        (Auth.roles claims) (limits (manager st)) (env_fresh env (ticks (core st))) (now_of env st) N) as N'.
      destruct (register_with_limits _ _ _ _ _ _ _) as [[h|e] m]; [|done]. cbn [fst snd] in *.
      by rewrite manager_drain, manager_session_call. }
  assert (Same : forall st1, manager st1 = manager st -> wf (manager st1) /\ scoped (tenant_manager st) (manager st1))
    by (by intros ? ->).
  destruct Hs as [msg h st T|i st|target e tenant st|ch e st|chs e st|now timeout st|
    st|server payload st|c n reason st|st].
  - split; [by apply wf_frame|by apply scoped_frame].
  - unfold close_socket. rewrite manager_session_call. simpl.
    split; [auto with ara|]. eapply scoped_shrinks; [done|apply shrinks_unregister].
  - apply Same, manager_dispatch.
  - apply Same, manager_send_channel.
  - apply Same, manager_send_channels.
  - split; [by apply wf_cleanup|]. eapply scoped_shrinks; [done|apply shrinks_cleanup].
  - apply Same, Heartbeat.manager_heartbeats.
  - apply Same, Router.manager_subscriber_handle.
  - apply Same, (Shutdown.manager_notify_clients env c n reason (core st)).
  - by apply Same.
Qed.

Lemma server_inv_reachable st0 st : server_start st0 -> rtc server_step st0 st -> server_inv st.
Proof.
  intros [l L] R. assert (I : server_inv st0).
  { unfold server_inv. rewrite L. split; [apply wf_empty|]. intros i h Hh. simpl in Hh. by rewrite lookup_empty in Hh. }
  clear l L. induction R; eauto using server_inv_step.
Qed.

(** With multi-tenancy and colon-free tenants, a reachable state is one the
    tenants are kept apart in. *)
Lemma namespaced_reachable st0 st :
  server_start st0 -> rtc server_step st0 st -> tm_is_enabled (tenant_manager st0) = true -> colon_free (manager st) ->
  namespaced (manager st).
Proof.
  intros S0 R En C. destruct (server_inv_reachable _ _ S0 R) as [_ N]. rewrite (tenant_manager_reachable _ _ R) in N.
  by apply (scoped_namespaced (tenant_manager st0)).
Qed.

(** A step that opens no connection leaves each one whose it was. *)
Lemma kin_internal st st' : internal_step st st' -> kin (manager st) (manager st').
Proof.
  intros Hs. destruct Hs as [msg h st1|i st1|target e tenant st1|ch e st1|chs e st1|now timeout st1|st1|server payload st1|c n reason st1|st1].
  - apply kin_frame.
  - unfold close_socket. rewrite manager_session_call. apply shrinks_kin, shrinks_unregister.
  - apply same_kin. apply manager_dispatch.
  - apply same_kin, manager_send_channel.
  - apply same_kin, manager_send_channels.
  - apply shrinks_kin, shrinks_cleanup.
  - apply same_kin, Heartbeat.manager_heartbeats.
  - apply same_kin, Router.manager_subscriber_handle.
  - apply same_kin, (Shutdown.manager_notify_clients env c n reason (core st1)).
  - done.
Qed.

(** Only a tenant's own connections are addressed by its requests: users and
    broadcasts through the tenant scope, channels through their prefix. *)
Lemma addressed_in_tenant m t bt c :
  wf m -> namespaced m -> t <> DEFAULT_TENANT_ID -> str_has COLON t = false ->
  connections m !! conn_id c = Some c ->
  addressed_by (into_notification_target bt (Some (TenantContext_new t))) (Some t) c -> tenant_id c = t.
Proof.
  intros W N Hd Hc Hi. assert (D : ctx_is_default (TenantContext_new t) = false) by (simpl; by rewrite bool_decide_false).
  assert (P : forall name, namespace_channel (TenantContext_new t) name ∈ subscriptions c -> tenant_id c = t).
  { intros name Hs. rewrite namespace_other in Hs by done.
    apply (prefix_is_tenant m (TenantContext_new t) N D eq_refl Hc (conn_id c) c _ Hi Hs).
    apply starts_with_spec. exists name. simpl. by rewrite str_app_assoc. }
  destruct bt as [u|us| |n|ns]; simpl; [naive_solver..|done|apply P|].
  intros (ch & (n & <- & _)%list_elem_of_In%in_map_iff & Hs). by eapply P.
Qed.

(** Tenant isolation of the running service, with multi-tenancy and as long as
    no connected tenant's id holds a colon: in any state reached by its
    connections, frames, dispatches and clean-ups, a notification sent by a
    tenant, to users, to everybody or to channels of any name, is delivered
    to connections of that tenant only. *)
Theorem tenant_isolation st0 st t bt e :
  server_start st0 -> rtc server_step st0 st -> tm_is_enabled (tenant_manager st0) = true -> colon_free (manager st) ->
  t <> DEFAULT_TENANT_ID -> str_has COLON t = false ->
  let target := into_notification_target bt (Some (TenantContext_new t)) in
  let r := dispatched target e (Some t) (core st) in
  exists ext, log r.2 = log (core st) ++ ext /\
    Forall (fun d => exists c, connections (manager st) !! d.1 = Some c /\ tenant_id c = t) ext.
Proof.
  intros S0 R En C Hd Hc target r. pose proof (server_inv_reachable _ _ S0 R) as [W _].
  pose proof (namespaced_reachable _ _ S0 R En C) as N.
  destruct (Notification.is_expired e (env_clock env (ticks (core st)))) eqn:X.
  { exists []. unfold r, dispatch_for_tenant. rewrite X. by rewrite app_nil_r. }
  destruct (dispatch_outcome to_string env target e (Some t) (core st) W X)
    as (cs & [Ha _] & ds & fs & ext & P & _ & L & Ex & _).
  exists ext. split; [done|]. apply Forall_forall. intros d Hin.
  assert (Hf : d.1 ∈ ext.*1) by (by apply list_elem_of_fmap_2). rewrite Ex in Hf.
  apply list_elem_of_fmap in Hf as (c & -> & Hc').
  assert (Hcs : c ∈ cs) by (rewrite <- P; set_solver). apply Ha in Hcs as [Hi Had].
  exists c. split; [done|]. by apply (addressed_in_tenant (manager st) t bt).
Qed.

(** C3: The invariant of the running service, with multi-tenancy or without
    and whatever tokens open its connections: the maps of the connection
    manager agree, and every subscription of a connection is a checked
    channel name in the context of its connection's tenant.  With
    multi-tenancy, as long as no connected tenant's id holds a colon, a tenant
    other than the default one is listed only channels that its own
    connections subscribe to. *)
Theorem server_invariant st0 st :
  server_start st0 -> rtc server_step st0 st ->
  wf (manager st) /\ scoped (tenant_manager st0) (manager st) /\
  (tm_is_enabled (tenant_manager st0) = true -> colon_free (manager st) ->
   forall t, t <> DEFAULT_TENANT_ID -> str_has COLON t = false ->
     forall ch, ch ∈ ch_name <$> list_channels (manager st) (Some (TenantContext_new t)) ->
       exists c, connections (manager st) !! conn_id c = Some c /\ tenant_id c = t /\ ch ∈ subscriptions c).
Proof.
  intros S0 R. destruct (server_inv_reachable _ _ S0 R) as (W & Sc).
  split; [done|]. split; [by rewrite <- (tenant_manager_reachable _ _ R)|].
  intros En Cf t Hd Hc ch (info & -> & Hin)%list_elem_of_fmap. pose proof (namespaced_reachable _ _ S0 R En Cf) as N.
  unfold list_channels in Hin.
  assert (D : ctx_is_default (TenantContext_new t) = false) by (simpl; by rewrite bool_decide_false).
  rewrite D in Hin. apply list_elem_of_In, filter_In in Hin as [Hin Hp]. unfold Connection.list_channels in Hin.
  apply in_map_iff in Hin as ([name ids] & <- & Hin%list_elem_of_In%elem_of_map_to_list). simpl in *.
  destruct (set_choose_L ids) as [i Hi]; [intros ->; by apply (wf_channel_compact _ W name)|].
  assert (Hx : i ∈ idx_get (channel_index (manager st)) name) by (unfold idx_get; by rewrite Hin).
  apply (wf_channel _ W) in Hx as (c & E1 & Hs). pose proof (wf_ids _ W _ _ E1) as Hid. subst i.
  exists c. split_and!; try done.
  by apply (prefix_is_tenant (manager st) (TenantContext_new t) N D eq_refl Hc (conn_id c) c name E1 Hs).
Qed.

(** From the settings to the invariant: a service that was started, over
    whatever backends, keeps its maps in agreement and its subscriptions in
    their tenants' contexts, whatever it is asked to do. *)
Theorem started_service_invariant `{JwtLibrary} {R D : Type} (redis : result string R) (postgres : result string D)
  bn t s service (q : Q) (a : A) st :
  AppState_new redis postgres bn t s = Ok service ->
  rtc server_step (serve service q a) st ->
  wf (manager st) /\ scoped (tenant_manager st) (manager st) /\
  tm_is_enabled (tenant_manager st) = tc_enabled (Settings.tenant s).
Proof.
  intros Es Rt. destruct (serve_start redis postgres bn t s service q a Es) as [M En].
  destruct (server_inv_reachable (serve service q a) st) as [W N]; [by eexists|done|].
  split_and!; [done..|]. by rewrite (tenant_manager_reachable _ _ Rt), En.
Qed.
End system.

(** ** A concrete run: alice of acme and bob of globex connect and subscribe
    to a channel of the same name; acme then notifies that channel. *)

Section witnesses.
#[local] Existing Instances ascii_only routed_codec server_codec.

Definition multi_tenant : TenantManager :=
  TenantManager_new {| tc_enabled := true; tc_default_limits := default_tenant_limits; tc_tenant_overrides := ∅ |}.
Definition start_state : AppState Memory.MemoryQueueBackend AckMemory.MemoryAckBackend :=
  mk_state (mk_world (with_backends (with_limits ConnectionLimits_default)
              (Memory.new (Memory.example_config 5)) example_ack) [] 0) multi_tenant false "s1" [].
Definition subscribe_news (s : string) : result string ClientMessage := Ok (Subscribe ["news"]).
Definition tenant_handle (i : uuid) (u t : string) : ConnectionHandle := handle_new u t [] i 0.

Abbreviation opens u t s := (open_socket example_env (example_claims u t) s).2.
Abbreviation says_subscribe h s := (process_message example_env no_uuid_text subscribe_news (MText "x") h s).2.

Definition state1 := opens "alice" "acme" start_state.
Definition state2 := opens "bob" "globex" state1.
Definition state3 := says_subscribe (tenant_handle 0%N "alice" "acme") state2.
Definition running_state := says_subscribe (tenant_handle 2%N "bob" "globex") state3.

Abbreviation run_step := (server_step no_text example_env no_uuid_text subscribe_news).

Lemma frame_step i u t s :
  (forall h0, connections (connection_manager (disp (core s))) !! i = Some h0 -> tenant_id h0 = t) ->
  run_step s (says_subscribe (tenant_handle i u t) s).
Proof. intros T. apply srv_internal. by apply (srv_frame no_text example_env no_uuid_text subscribe_news). Qed.

Lemma connect_step u t s :
  connections (connection_manager (disp (core s))) !! env_fresh example_env (ticks (core s)) = None ->
  run_step s (opens u t s).
Proof. intros F. by apply (srv_connect no_text example_env no_uuid_text subscribe_news (example_claims u t)). Qed.

Lemma running_reachable : rtc run_step start_state running_state.
Proof.
  apply (rtc_l _ _ state1); [apply connect_step; vm_compute; reflexivity|].
  apply (rtc_l _ _ state2); [apply connect_step; vm_compute; reflexivity|].
  apply (rtc_l _ _ state3).
  { apply frame_step. intros h0 E. vm_compute in E. by simplify_eq. }
  apply (rtc_l _ _ running_state); [|apply rtc_refl].
  apply frame_step. intros h0 E. vm_compute in E. by simplify_eq.
Qed.

Lemma running_start : server_start start_state.
Proof. by eexists. Qed.
Lemma running_colon_free : colon_free (connection_manager (disp (core running_state))).
Proof. apply (bool_decide_unpack _). vm_compute. exact I. Qed.

Lemma tenant_isolation_witness :
  let r := dispatch_for_tenant no_text example_env
             (into_notification_target (BChannel "news") (Some (TenantContext_new "acme")))
             (Memory.example_event 9%N) (Some "acme") (core running_state) in
  exists ext, log r.2 = log (core running_state) ++ ext /\
    Forall (fun d => exists c, connections (connection_manager (disp (core running_state))) !! d.1 = Some c /\
                               tenant_id c = "acme") ext.
Proof.
  apply (tenant_isolation no_text example_env no_uuid_text subscribe_news start_state running_state "acme"
    (BChannel "news") (Memory.example_event 9%N));
    [apply running_start|apply running_reachable|reflexivity|apply running_colon_free|discriminate|reflexivity].
Defined.

(** The same service, started from its settings. *)
#[local] Existing Instance one_token.
Definition tenant_settings : Settings.Settings :=
  let d := Settings.default_settings example_jwt "s1" in
  {| Settings.server := Settings.server d; Settings.jwt := Settings.jwt d; Settings.redis := Settings.redis d;
     Settings.api := Settings.api d; Settings.websocket := Settings.websocket d; Settings.queue := Settings.queue d;
     Settings.ratelimit := Settings.ratelimit d; Settings.ack := Settings.ack d; Settings.otel := Settings.otel d;
     Settings.tenant := {| tc_enabled := true; tc_default_limits := default_tenant_limits; tc_tenant_overrides := ∅ |};
     Settings.database := Settings.database d; Settings.cluster := Settings.cluster d; Settings.in_production := false |}.
Lemma started_service_invariant_witness :
  exists service, AppState_new (R := unit) (D := unit) (Ok tt) (Ok tt) 0 0 tenant_settings = Ok service /\
    wf (connection_manager (disp (core (opens "alice" "acme"
      (serve service (Memory.new (Memory.example_config 5)) example_ack))))).
Proof.
  eexists. split; [reflexivity|].
  eapply (started_service_invariant no_text example_env no_uuid_text subscribe_news (R := unit) (D := unit)
    (Ok tt) (Ok tt) 0 0 tenant_settings); [reflexivity|].
  eapply rtc_l; [|apply rtc_refl]. apply connect_step; vm_compute; reflexivity.
Defined.

Lemma server_invariant_witness :
  "acme:news" ∈ ch_name <$> list_channels (connection_manager (disp (core running_state))) (Some (TenantContext_new "acme")) /\
  exists c, connections (connection_manager (disp (core running_state))) !! conn_id c = Some c /\ tenant_id c = "acme" /\
    "acme:news" ∈ subscriptions c.
Proof.
  assert (L : "acme:news" ∈ ch_name <$> list_channels (connection_manager (disp (core running_state))) (Some (TenantContext_new "acme")))
    by (vm_compute; left).
  split; [exact L|]. revert L.
  refine (proj2 (proj2 (server_invariant no_text example_env no_uuid_text subscribe_news start_state running_state
    running_start running_reachable)) eq_refl running_colon_free "acme" _ eq_refl "acme:news"). discriminate.
Defined.
End witnesses.
