(* ===== verification/Service.v ===== *)
(** * Service: requests from the route to the state, and back

    The routes of [App] with the handlers of the service behind them, on the
    whole state of a running node ([Node]), and the steps of that node: a
    request on any route, the start of an upgraded WebSocket, and the steps of
    [System] that open no connection.  Decoding a request (axum's extractors)
    and printing an answer are libraries' ([Extractors], [ResponseText]). *)
From S2P Require Import Prelude Auth Tenant Notification RateLimit Resilience Ack Queue Connection Template Dispatcher.
From S2P Require Import Http Realtime Cluster Settings Jwt Metrics Api App Lifecycle Startup Monitoring System.

(** ** Requests and answers, by handler *)

(** What a handler is given besides the state and the tenant context: the
    token in the query and the Authorization header, the path's parameter and
    the decoded body. *)
Definition Input (h : Handler) : Type :=
  match h with
  | h_ws_handler | h_sse_handler => option string * option string
  | h_send_notification => SendNotificationRequest
  | h_send_to_users => SendToUsersRequest
  | h_broadcast_notification => BroadcastNotificationRequest
  | h_channel_notification => ChannelNotificationRequest
  | h_multi_channel_notification => MultiChannelNotificationRequest
  | h_batch_send => BatchSendRequest
  | h_get_channel | h_get_user_subscriptions | h_get_template | h_delete_template | h_get_tenant_stats
  | h_cluster_user_location => string
  | h_create_template => CreateTemplateRequest
  | h_update_template => string * UpdateTemplateRequest
  | h_health | h_prometheus_metrics | h_stats | h_list_channels | h_list_templates | h_list_tenants
  | h_cluster_status => unit
  end.

(** [None] where the endpoint of the model has none: a panic, or a scan of the
    session store that has not ended. *)
Definition Output (h : Handler) : Type :=
  match h with
  | h_ws_handler => result (Z * string) Claims
  | h_sse_handler => SseResponse
  | h_health => option HealthResponse
  | h_prometheus_metrics => option MetricsResponse
  | h_stats => option StatsResponse
  | h_send_notification | h_send_to_users | h_broadcast_notification | h_channel_notification
  | h_multi_channel_notification => result AppError SendNotificationResponse
  | h_batch_send => result AppError BatchSendResponse
  | h_list_channels => list ChannelInfo
  | h_get_channel => result ApiError ChannelInfo
  | h_get_user_subscriptions => result ApiError UserSubscriptionInfo
  | h_create_template => result (Z * TemplateErrorInfo) (Z * Template)
  | h_list_templates => TemplateListResponse
  | h_get_template | h_update_template => result (Z * TemplateErrorInfo) Template
  | h_delete_template => result (Z * TemplateErrorInfo) Z
  | h_list_tenants => list (string * TenantStats)
  | h_get_tenant_stats => result ApiError (TenantStats * TenantConnectionStats)
  | h_cluster_status => option ClusterStatusResponse
  | h_cluster_user_location => option UserLocationResponse
  end.

Definition from_result {E X} (on_error : E -> Z) (r : result E X) : Z :=
  match r with Ok _ => 200 | Err e => on_error e end.
Definition from_option (o : Z) {X} (r : option X) : Z := match r with Some _ => o | None => 0 end.

(** The status of an answer; 0 stands for none. *)
Definition status_of (production : bool) (h : Handler) : Output h -> Z :=
  let app e := (error_response production e).1.1 in
  match h return Output h -> Z with
  | h_ws_handler => fun r => match r with Ok _ => 101 | Err e => e.1 end
  | h_sse_handler => fun r => match r with SseStatus s _ => s | SseHangs _ _ => 0 | SseStream _ _ => 200 end
  | h_health => from_option 200
  | h_prometheus_metrics => fun r => match r with Some m => mr_status m | None => 0 end
  | h_stats => from_option 200
  | h_send_notification | h_send_to_users | h_broadcast_notification | h_channel_notification
  | h_multi_channel_notification => from_result app
  | h_batch_send => from_result app
  | h_list_channels => fun _ => 200
  | h_get_channel => from_result er_status
  | h_get_user_subscriptions => from_result er_status
  | h_create_template => fun r => match r with Ok created => created.1 | Err e => e.1 end
  | h_list_templates => fun _ => 200
  | h_get_template | h_update_template => from_result fst
  | h_delete_template => fun r => match r with Ok s => s | Err e => e.1 end
  | h_list_tenants => fun _ => 200
  | h_get_tenant_stats => from_result er_status
  | h_cluster_status => from_option 200
  | h_cluster_user_location => from_option 200
  end.

(** Axum's extractors, an [Err] with the status they refuse a request with. *)
Class Extractors := { extract : forall h : Handler, Call -> result Z (Input h) }.
Class ResponseText := { body_text : forall h : Handler, Output h -> string }.

(** ** The state of a node *)

(** [nd_upgrades] are the upgraded sockets whose task has not started yet, by
    the claims of their tokens. *)
Record Node (Q A SS : Type) := mk_node {
  nd_app : AppState Q A;
  nd_templates : TemplateStore;
  nd_sessions : SS;
  nd_health : Health.RedisHealth;
  nd_breaker : CircuitBreaker.CircuitBreaker;
  nd_samples : Samples;
  nd_upgrades : list Claims;
}.
Arguments mk_node {Q A SS} _ _ _ _ _ _ _.
Arguments nd_app {Q A SS} _.
Arguments nd_templates {Q A SS} _.
Arguments nd_sessions {Q A SS} _.
Arguments nd_health {Q A SS} _.
Arguments nd_breaker {Q A SS} _.
Arguments nd_samples {Q A SS} _.
Arguments nd_upgrades {Q A SS} _.

(** What a node is configured with and reads from outside: its settings, the
    token validator, the size and idle connections of a PostgreSQL pool, the
    start, and at each tick the breaker's clock and the time elapsed; whether
    the encoder prints the samples; the turns allowed to a session scan. *)
Record Setup `{JwtLibrary} := {
  su_settings : Settings;
  su_validator : JwtValidator;
  su_postgres : option (Z * Z);
  su_start_time : Z;
  su_breaker_clock : nat -> Z * Z;
  su_elapsed : nat -> Z;
  su_encode : Samples -> result string string;
  su_scan_fuel : nat;
}.

Section endpoints.
Context {Q A SS E : Type} `{MessageQueueBackend Q} `{AckTrackerBackend A} `{SessionStore SS}.
Context `{UnicodeTables} `{JsonText} `{JwtLibrary}.
Context (to_string : ServerMessage -> result E string) (env : Env) (uuid_text : uuid -> string) (setup : Setup).
Implicit Types s : Node Q A SS.

Definition with_app (a : AppState Q A) s : Node Q A SS :=
  mk_node a (nd_templates s) (nd_sessions s) (nd_health s) (nd_breaker s) (nd_samples s) (nd_upgrades s).
Definition with_templates (t : TemplateStore) s : Node Q A SS :=
  mk_node (nd_app s) t (nd_sessions s) (nd_health s) (nd_breaker s) (nd_samples s) (nd_upgrades s).
Definition with_sessions (x : SS) s : Node Q A SS :=
  mk_node (nd_app s) (nd_templates s) x (nd_health s) (nd_breaker s) (nd_samples s) (nd_upgrades s).
Definition with_samples (x : Samples) s : Node Q A SS :=
  mk_node (nd_app s) (nd_templates s) (nd_sessions s) (nd_health s) (nd_breaker s) x (nd_upgrades s).
Definition with_breaker (b : CircuitBreaker.CircuitBreaker) s : Node Q A SS :=
  mk_node (nd_app s) (nd_templates s) (nd_sessions s) (nd_health s) b (nd_samples s) (nd_upgrades s).
Definition with_upgrades (l : list Claims) s : Node Q A SS :=
  mk_node (nd_app s) (nd_templates s) (nd_sessions s) (nd_health s) (nd_breaker s) (nd_samples s) l.

Abbreviation world s := (core (nd_app s)).
Abbreviation manager s := (Dispatcher.connection_manager (disp (world s))).

Definition validate_token s (token : string) : result string Claims :=
  map_err app_error_display (Jwt.validate (su_validator setup) token (env_clock env (ticks (world s)))).

(** The part of the state the monitoring endpoints read: a node is built with
    both backends. *)
Definition running s : option (Running Q A) :=
  match queue_backend (disp (world s)), ack_backend (disp (world s)) with
  | Some q, Some a =>
    Some (mk_running (su_settings setup) (manager s) (d_stats (disp (world s))) q a (nd_health s) (nd_breaker s)
            (su_postgres setup) (su_start_time setup))
  | _, _ => None
  end.

Definition on_world {X} (f : World Q A -> X * World Q A) s : X * Node Q A SS :=
  let r := f (world s) in (r.1, with_app (set_core r.2 (nd_app s)) s).
(** A handler that reads the clock once. *)
Definition on_templates {X} (f : TemplateStore -> Z -> X * TemplateStore) s : X * Node Q A SS :=
  let r := f (nd_templates s) (env_clock env (ticks (world s))) in
  (r.1, with_templates r.2 (with_app (tick (nd_app s)) s)).
Definition on_running {X} (f : Running Q A -> option (X * Samples * Running Q A)) s : option X * Node Q A SS :=
  match running s with
  | Some r => match f r with
              | Some (x, samples, r') => (Some x, with_samples samples (with_breaker (run_breaker r') s))
              | None => (None, s)
              end
  | None => (None, s)
  end.

(** The state's handlers, each given its decoded input. *)
Definition endpoint (h : Handler) (ctx : option TenantContext) : Input h -> Node Q A SS -> Output h * Node Q A SS :=
  match h return Input h -> Node Q A SS -> Output h * Node Q A SS with
  | h_ws_handler => fun i s =>
    let r := Realtime.ws_handler (validate_token s) i.1 i.2 in
    (r, match r with Ok claims => with_upgrades (nd_upgrades s ++ [claims]) s | Err _ => s end)
  | h_sse_handler => fun i s =>
    let r := Realtime.sse_handler env (validate_token s) i.1 i.2 (nd_app s) in (r.1, with_app r.2 s)
  | h_health => fun _ s =>
    let c := su_breaker_clock setup (ticks (world s)) in
    on_running (fun r => let x := Monitoring.health (su_elapsed setup (ticks (world s))) c.1 c.2 r in
                         Some (x.1, nd_samples s, x.2)) s
  | h_prometheus_metrics => fun _ s =>
    let c := su_breaker_clock setup (ticks (world s)) in
    on_running (Monitoring.prometheus_metrics (su_encode setup) c.1 c.2 (nd_samples s)) s
  | h_stats => fun _ s =>
    let c := su_breaker_clock setup (ticks (world s)) in
    on_running (fun r => let x := Monitoring.stats c.1 c.2 r in Some (x.1, nd_samples s, x.2)) s
  | h_send_notification => fun i s => on_world (send_notification to_string env (nd_templates s) ctx i) s
  | h_send_to_users => fun i s => on_world (send_to_users to_string env (nd_templates s) ctx i) s
  | h_broadcast_notification => fun i s => on_world (broadcast_notification to_string env (nd_templates s) ctx i) s
  | h_channel_notification => fun i s => on_world (channel_notification to_string env (nd_templates s) ctx i) s
  | h_multi_channel_notification => fun i s =>
    on_world (multi_channel_notification to_string env (nd_templates s) ctx i) s
  | h_batch_send => fun i s => on_world (batch_send to_string env (nd_templates s) ctx i) s
  | h_list_channels => fun _ s => (Api.list_channels (manager s) ctx, s)
  | h_get_channel => fun name s => (Api.get_channel (manager s) ctx name, s)
  | h_get_user_subscriptions => fun user s => (Api.get_user_subscriptions (manager s) ctx user, s)
  | h_create_template => fun i s => on_templates (fun st now => create_template st ctx i now) s
  | h_list_templates => fun _ s =>
    (list_templates (nd_templates s) (tm_is_enabled (tenant_manager (nd_app s))) ctx, s)
  | h_get_template => fun i s => (get_template (nd_templates s) ctx i, s)
  | h_update_template => fun i s => on_templates (fun st now => update_template st ctx i.1 i.2 now) s
  | h_delete_template => fun i s => on_templates (fun st _ => delete_template st ctx i) s
  | h_list_tenants => fun _ s => (Api.list_tenants (tenant_manager (nd_app s)) ctx, s)
  | h_get_tenant_stats => fun i s => (Api.get_tenant_stats (tenant_manager (nd_app s)) (manager s) ctx i, s)
  | h_cluster_status => fun _ s =>
    let r := Api.cluster_status (su_scan_fuel setup) (manager s) (nd_sessions s) in (r.1, with_sessions r.2 s)
  | h_cluster_user_location => fun user s =>
    let r := Api.cluster_user_location uuid_text (su_scan_fuel setup) (manager s) ctx user (nd_sessions s) in
    (r.1, with_sessions r.2 s)
  end.

Context `{Extractors} `{ResponseText}.

(** A handler as the routes call it. *)
Definition api (h : Handler) (c : Call) : Inner (S := Node Q A SS) := fun ctx w =>
  match extract h c with
  | Err status => (status_response status, w)
  | Ok i =>
    let r := endpoint h ctx i w.2 in
    ({| Api.rs_status := status_of (in_production (su_settings setup)) h r.1; rs_headers := ∅; rs_body := body_text h r.1 |},
     (w.1, r.2))
  end.

Context `{TowerHttp}.

(** The answer of a node to a request that axum led to a route. *)
Definition answer (r : Route) (c : Call) (w : Limiter.RateLimiter * Node Q A SS) : Response * (Limiter.RateLimiter * Node Q A SS) :=
  run_route (api_settings (su_settings setup)) (tenant_manager (nd_app w.2)) api r c w.

(** An upgraded socket's task: it opens the connection. *)
Definition start_upgraded (l1 l2 : list Claims) (claims : Claims) s : Opened * Node Q A SS :=
  let r := open_socket env claims (nd_app s) in (r.1, with_upgrades (l1 ++ l2) (with_app r.2 s)).
End endpoints.

(** ** What a tenant's request may touch *)

Section confinement.
Context {Q A E : Type} `{QueueLaws Q} `{AckTrackerBackend A} `{UnicodeTables} `{JsonText}.
Context (to_string : ServerMessage -> result E string) (env : Env) (store : TemplateStore).
Context (t : string) (Ht : t <> DEFAULT_TENANT_ID) (Hc : str_has COLON t = false).
Implicit Types w : World Q A.

Abbreviation tenant := (TenantContext_new t).
Abbreviation manager w := (Dispatcher.connection_manager (disp w)).

Definition of_this_tenant (m : ConnectionManager) (c : ConnectionHandle) : Prop :=
  connections m !! conn_id c = Some c /\ tenant_id c = t.

(** The connections are left alone, what is delivered goes to connections of
    the tenant, and no queue but the tenant's changes. *)
Definition confined w w' : Prop :=
  manager w' = manager w /\
  (exists ext, log w' = log w ++ ext /\
     Forall (fun d => exists c, connections (manager w) !! d.1 = Some c /\ tenant_id c = t) ext) /\
  other_queues_kept (Some t) w w'.

#[global] Instance confined_preorder : PreOrder confined.
Proof.
  split.
  - intros w. split_and!; [done| |done]. exists []. by rewrite app_nil_r.
  - intros w1 w2 w3 (M1 & (x1 & L1 & F1) & Q1) (M2 & (x2 & L2 & F2) & Q2). split_and!; [congruence| |by etrans].
    exists (x1 ++ x2). rewrite L2, L1, app_assoc. split; [done|]. apply Forall_app. by rewrite M1 in F2.
Qed.

(** Nothing but counters and the clock. *)
Lemma confined_same w w' :
  manager w' = manager w -> log w' = log w -> queue_backend (disp w') = queue_backend (disp w) -> confined w w'.
Proof.
  intros M L Eq. split_and!; [done| |by apply same_queue_kept]. exists []. by rewrite L, app_nil_r.
Qed.

Lemma deliveries_in_tenant m ds fs cs (ext : delivery_log) :
  (forall c, c ∈ cs -> of_this_tenant m c) -> ds ++ fs ≡ₚ cs -> ext.*1 = conn_id <$> ds ->
  Forall (fun d => exists c, connections m !! d.1 = Some c /\ tenant_id c = t) ext.
Proof.
  intros Hcs P Ex. apply Forall_forall. intros d Hin.
  assert (Hf : d.1 ∈ ext.*1) by (by apply list_elem_of_fmap_2). rewrite Ex in Hf.
  apply list_elem_of_fmap in Hf as (c & -> & Hc'). exists c. apply Hcs. rewrite <- P. set_solver.
Qed.

Lemma confined_conns k nid cs msg w :
  (forall c, c ∈ cs -> of_this_tenant (manager w) c) ->
  confined w (finish k nid (send_to_connections to_string env cs msg (Some nid) w)).2.
Proof.
  intros Hcs. destruct (send_to_connections_rounds to_string env cs msg (Some nid) w)
    as (ds & fs & ext & P & _ & L & Ex & _ & _ & M & _).
  split_and!; [done| |].
  - exists ext. split; [done|]. by eapply deliveries_in_tenant.
  - etrans; [apply (send_to_connections_kept to_string env (Some t) cs msg (Some nid) w)|]. by apply same_queue_kept.
Qed.

Lemma confined_dispatch bt e w :
  wf (manager w) -> namespaced (manager w) ->
  confined w (dispatch_for_tenant to_string env (into_notification_target bt (Some tenant)) e (Some t) w).2.
Proof.
  intros W N. split_and!; [apply manager_dispatch| |apply dispatch_queues].
  destruct (Notification.is_expired e (env_clock env (ticks w))) eqn:X.
  { exists []. unfold dispatch_for_tenant. by rewrite X, app_nil_r. }
  destruct (dispatch_sends to_string env (into_notification_target bt (Some tenant)) e (Some t) w X)
    as (ds & fs & ext & P & _ & L & Ex & _). exists ext. split; [done|].
  eapply deliveries_in_tenant; [|exact P|exact Ex]. intros c Hin.
  destruct (addressed_target (manager w) (into_notification_target bt (Some tenant)) (Some t) W) as [Ha _].
  apply Ha in Hin as [Hi Had]. split; [done|]. by apply (addressed_in_tenant (manager w) t bt).
Qed.

(** A channel the endpoints name for the tenant has only its subscribers. *)
Lemma channels_in_tenant names m c :
  wf m -> namespaced m ->
  connections m !! conn_id c = Some c -> (exists ch, ch ∈ map (request_channel (Some tenant)) names /\ ch ∈ subscriptions c) ->
  tenant_id c = t.
Proof. intros W N Hi Hs. by apply (addressed_in_tenant m t (BChannels names) c). Qed.

Lemma confined_channel name e w :
  wf (manager w) -> namespaced (manager w) ->
  confined w (send_to_channel to_string env (request_channel (Some tenant) name) e w).2.
Proof.
  intros W N. apply confined_conns. intros c [Hi Hs]%elem_of_channel_connections; [|done]. split; [done|].
  apply (channels_in_tenant [name] (manager w)); try done. exists (request_channel (Some tenant) name). set_solver.
Qed.
Lemma confined_channels names e w :
  wf (manager w) -> namespaced (manager w) ->
  confined w (send_to_channels to_string env (map (request_channel (Some tenant)) names) e w).2.
Proof.
  intros W N. apply confined_conns. intros c Hin.
  destruct (addressed_target (manager w) (Channels (map (request_channel (Some tenant)) names)) None W) as [Ha _].
  apply Ha in Hin as [Hi Had]. split; [done|]. by apply (channels_in_tenant names (manager w)).
Qed.

(** *** The endpoints *)

Lemma confined_resolved c p ttl audience cid send w :
  wf (manager w) -> namespaced (manager w) ->
  (forall e w', wf (manager w') -> namespaced (manager w') -> confined w' (send e w').2) ->
  confined w (send_resolved env store c (Some t) p ttl audience cid send w).2.
Proof.
  intros W N Hs. unfold send_resolved. destruct (resolve_for_tenant _ _ _ _ _) as [r|e]; [|done]. cbn [snd].
  set (ew := fresh_event env r SOURCE audience cid w).
  transitivity ew.2; [by apply confined_same|]. transitivity (send ew.1 ew.2).2; [by apply Hs|by apply confined_same].
Qed.

Lemma confined_batch opts i items y w :
  wf (manager w) -> namespaced (manager w) ->
  confined w (batch_loop to_string env store (Some tenant) opts i items y w).2.
Proof.
  revert i y w. induction items as [|item items IH]; intros i y w W N; simpl; [done|].
  destruct (resolve_for_tenant _ _ _ _ _) as [r|e].
  2: { destruct (stop_on_error opts); [done|by apply IH]. }
  destruct (_ && _)%bool; [by apply IH|].
  set (ew := fresh_event env r SOURCE None (bi_correlation_id item) w). set (sent := dispatch_for_tenant _ _ _ _ _ _).
  assert (C : confined w sent.2).
  { transitivity ew.2; [by apply confined_same|]. by apply (confined_dispatch (bi_target item)). }
  pose proof (proj1 C) as M.
  destruct (success sent.1); [etrans; [exact C|]; by apply IH; rewrite M|].
  destruct (stop_on_error opts); [exact C|]. etrans; [exact C|]. by apply IH; rewrite M.
Qed.
End confinement.

(** ** The steps of a node *)

Section service.
Context {Q A SS E : Type} `{QueueLaws Q} `{AckTrackerBackend A} `{SessionStore SS}.
Context `{UnicodeTables} `{JsonText} `{JwtLibrary} `{Extractors} `{ResponseText}.
Context `{JsonCodec RoutedMessage} `{JsonCodec ServerMessage}.
Context (to_string : ServerMessage -> result E string) (env : Env) (uuid_text : uuid -> string).
Context (decode_frame : string -> result string ClientMessage) (setup : Setup).
Implicit Types s : Node Q A SS.

Abbreviation world s := (core (nd_app s)).
Abbreviation manager s := (Dispatcher.connection_manager (disp (world s))).
Abbreviation internal := (internal_step to_string env uuid_text decode_frame).
Abbreviation server := (server_step to_string env uuid_text decode_frame).
Abbreviation handler := (endpoint to_string env uuid_text setup).

(** A token the validator took, at some time. *)
Definition accepted (claims : Claims) : Prop :=
  exists token now, Jwt.validate (su_validator setup) token now = Ok claims.

Definition fresh_id s : Prop := connections (manager s) !! env_fresh env (ticks (world s)) = None.

Inductive service_step (routes : list Route) `{TowerHttp} :
  Limiter.RateLimiter * Node Q A SS -> Limiter.RateLimiter * Node Q A SS -> Prop :=
| svc_request r c w :
    r ∈ routes -> fresh_id w.2 -> service_step routes w (answer to_string env uuid_text setup r c w).2
| svc_upgraded claims l1 l2 l s :
    nd_upgrades s = l1 ++ claims :: l2 -> fresh_id s ->
    service_step routes (l, s) (l, (start_upgraded env l1 l2 claims s).2)
| svc_internal l s st : internal (nd_app s) st -> service_step routes (l, s) (l, with_app st s).

(** *** A node does what the server of [System] does *)

Lemma accepted_token s token claims : validate_token env setup s token = Ok claims -> accepted claims.
Proof.
  unfold validate_token. destruct (Jwt.validate _ _ _) as [c|] eqn:V; [|done]. intros [= <-]. by do 2 eexists.
Qed.

(** The server's steps, with connections for accepted tokens only. *)
Inductive admitted : AppState Q A -> AppState Q A -> Prop :=
| adm_connect claims st :
    accepted claims -> connections (Dispatcher.connection_manager (disp (core st))) !! env_fresh env (ticks (core st)) = None ->
    admitted st (open_socket env claims st).2
| adm_internal st st' : internal st st' -> admitted st st'.

Lemma internal_steps st st' : internal st st' -> rtc admitted st st'.
Proof. intros Hs. by apply rtc_once, adm_internal. Qed.

Lemma tick_steps st st' : tick st = st' -> rtc admitted st st'.
Proof. intros <-. apply internal_steps, srv_tick. Qed.

(** A send: the event is drawn, dispatched and the answer stamped. *)
Lemma send_resolved_steps store c tenant p ttl audience cid send (st : AppState Q A) :
  (forall e st, internal st (set_core (send e (core st)).2 st)) ->
  rtc admitted st (set_core (send_resolved env store c tenant p ttl audience cid send (core st)).2 st).
Proof.
  intros Hs. unfold send_resolved. destruct (resolve_for_tenant _ _ _ _ _) as [r|e]; [|by destruct st; apply rtc_refl].
  cbn [snd]. etrans; [by apply tick_steps|].
  etrans; [apply internal_steps, (Hs (fresh_event env r SOURCE audience cid (core st)).1)|].
  by apply tick_steps.
Qed.

Lemma batch_loop_steps store ctx opts i items y (st : AppState Q A) :
  rtc admitted st (set_core (batch_loop to_string env store ctx opts i items y (core st)).2 st).
Proof.
  revert i y st. induction items as [|item items IH]; intros i y st; simpl; [by destruct st; apply rtc_refl|].
  destruct (resolve_for_tenant _ _ _ _ _) as [r|e].
  2: { destruct (stop_on_error opts); [by destruct st; apply rtc_refl|apply IH]. }
  destruct (_ && _)%bool; [apply IH|].
  set (ew := fresh_event env r SOURCE None (bi_correlation_id item) (core st)). set (sent := dispatch_for_tenant _ _ _ _ _ _).
  assert (S1 : rtc admitted st (set_core sent.2 st)).
  { etrans; [by apply tick_steps|]. apply internal_steps.
    exact (srv_dispatch to_string env uuid_text decode_frame _ ew.1 _ (tick st)). }
  destruct (success sent.1); [etrans; [exact S1|]; apply (IH _ _ (set_core sent.2 st))|].
  destruct (stop_on_error opts); [exact S1|]. etrans; [exact S1|]. apply (IH _ _ (set_core sent.2 st)).
Qed.

Lemma endpoint_steps h ctx i s :
  fresh_id s -> rtc admitted (nd_app s) (nd_app (handler h ctx i s).2).
Proof.
  intros F. assert (Run : forall X (f : Running Q A -> option (X * Samples * Running Q A)),
    nd_app (on_running setup f s).2 = nd_app s).
  { intros X f. unfold on_running. destruct (running _ _); [|done]. by destruct (f _) as [[[? ?] ?]|]. }
  destruct h; simpl; rewrite ?Run; try done.
  - by destruct (Realtime.ws_handler _ _ _).
  - unfold Realtime.sse_handler. destruct (sse_extract_token _ _) as [t|]; [|done].
    destruct (validate_token env setup s t) as [claims|] eqn:V; [|done]. apply accepted_token in V.
    assert (S1 : rtc admitted (nd_app s) (open_socket env claims (nd_app s)).2) by by apply rtc_once, adm_connect.
    by destruct (open_socket env claims (nd_app s)) as [[] st].
  - apply send_resolved_steps. intros. apply srv_dispatch.
  - unfold send_to_users. destruct (_ <? _)%nat; [by destruct (nd_app s); apply rtc_refl|].
    apply send_resolved_steps. intros. apply srv_dispatch.
  - apply send_resolved_steps. intros. apply srv_dispatch.
  - apply send_resolved_steps. intros. apply srv_send_channel.
  - unfold multi_channel_notification. destruct (_ <? _)%nat; [by destruct (nd_app s); apply rtc_refl|].
    apply send_resolved_steps. intros. apply srv_send_channels.
  - unfold batch_send. destruct (_ <? _)%nat; [by apply tick_steps|]. destruct (_ =? _)%nat; [by apply tick_steps|].
    cbn [snd]. etrans; [by apply tick_steps|]. etrans; [apply batch_loop_steps|]. by apply tick_steps.
  - by apply tick_steps.
  - by apply tick_steps.
  - by apply tick_steps.
Qed.

Lemma endpoint_upgrades h ctx i s :
  Forall accepted (nd_upgrades s) -> Forall accepted (nd_upgrades (handler h ctx i s).2).
Proof.
  intros F. assert (Run : forall X (f : Running Q A -> option (X * Samples * Running Q A)),
    nd_upgrades (on_running setup f s).2 = nd_upgrades s).
  { intros X f. unfold on_running. destruct (running _ _); [|done]. by destruct (f _) as [[[? ?] ?]|]. }
  destruct h; simpl; rewrite ?Run; try done.
  destruct (Realtime.ws_handler _ _ _) as [claims|] eqn:W; [|done]. simpl. apply Forall_app. split; [done|].
  constructor; [|done]. unfold Realtime.ws_handler in W. destruct (extract_token _ _) as [t|]; [|done].
  destruct (validate_token env setup s t) eqn:V; [|done]. simplify_eq. by eapply accepted_token.
Qed.

Lemma service_step_admitted `{TowerHttp} routes w w' :
  Forall accepted (nd_upgrades w.2) -> service_step routes w w' ->
  rtc admitted (nd_app w.2) (nd_app w'.2) /\ Forall accepted (nd_upgrades w'.2).
Proof.
  intros U Hs. destruct Hs as [r c w0 Hr F|claims l1 l2 l s Hu F|l s st Hs].
  - unfold answer. destruct (run_route_reaches (api_settings (su_settings setup)) (tenant_manager (nd_app w0.2))
      (api to_string env uuid_text setup) r c w0) as [->|(ctx & l & ->)]; [done|].
    unfold api. destruct (extract _ _) as [i|]; [|done]. simpl. split; [by apply endpoint_steps|by apply endpoint_upgrades].
  - simpl in *. rewrite Hu in U. apply Forall_app in U as [U1 [Ha U2]%Forall_cons]. split.
    + by apply rtc_once, adm_connect.
    + by apply Forall_app.
  - split; [by apply internal_steps|done].
Qed.

Lemma service_admitted `{TowerHttp} routes w0 w :
  nd_upgrades w0.2 = [] -> rtc (service_step routes) w0 w -> rtc admitted (nd_app w0.2) (nd_app w.2).
Proof.
  intros U R. assert (U' : Forall accepted (nd_upgrades w0.2)) by by rewrite U. clear U.
  induction R as [w|w1 w2 w3 S1 _ IH]; [done|]. destruct (service_step_admitted routes w1 w2 U' S1) as [S2 U2].
  etrans; [exact S2|by apply IH].
Qed.

Lemma admitted_server st st' : rtc admitted st st' -> rtc server st st'.
Proof.
  induction 1 as [|st1 st2 st3 [claims st Ha F|st s2 Hs] _ IH]; [done|..]; (etrans; [|exact IH]); apply rtc_once.
  - by apply srv_connect.
  - by apply srv_internal.
Qed.

(** Whatever requests come in on whatever routes, and whatever happens besides,
    the state of the application moves by the steps of [System]; so
    [System.server_invariant] holds of a running node. *)
Lemma service_refines_server `{TowerHttp} routes w0 w :
  nd_upgrades w0.2 = [] -> rtc (service_step routes) w0 w -> rtc server (nd_app w0.2) (nd_app w.2).
Proof. intros U R%(service_admitted routes); [by apply admitted_server|done]. Qed.

(** *** Whose connections there are *)

Definition vouched (m : ConnectionManager) : Prop :=
  forall i h, connections m !! i = Some h ->
    exists claims, accepted claims /\ user_id h = claims_user_id claims /\ tenant_id h = claims_tenant_id claims /\
      Connection.roles h = Auth.roles claims.

Lemma vouched_kin m m' : vouched m -> kin m m' -> vouched m'.
Proof.
  intros V K i h' E'. destruct (K i h' E') as (h & E1 & -> & -> & ->). by apply (V i).
Qed.

Lemma vouched_open claims (st : AppState Q A) :
  accepted claims -> vouched (Dispatcher.connection_manager (disp (core st))) ->
  vouched (Dispatcher.connection_manager (disp (core (open_socket env claims st).2))).
Proof.
  intros Ha V. unfold open_socket, Connection.register, register_with_limits.
  match goal with |- context [check_limits ?m ?u ?l] => destruct (check_limits m u l) end; [|done].
  cbn [fst snd]. rewrite manager_drain, manager_session_call. intros i h E1. unfold insert_handle in E1. simpl in E1.
  apply lookup_insert_Some in E1 as [[<- <-]|[_ E1]]; [by exists claims|by apply (V i)].
Qed.

(** C4: Every connection of a running node, WebSocket or SSE, was opened with
    a token the validator accepted, and carries that token's user, tenant and
    roles, whatever the requests on whatever routes and whatever the sockets
    have sent since. *)
Theorem connections_vouched `{TowerHttp} routes w0 w :
  connections (manager w0.2) = ∅ -> nd_upgrades w0.2 = [] -> rtc (service_step routes) w0 w ->
  forall i h, connections (manager w.2) !! i = Some h ->
    exists claims, accepted claims /\ user_id h = claims_user_id claims /\ tenant_id h = claims_tenant_id claims /\
      Connection.roles h = Auth.roles claims.
Proof.
  intros C U R%(service_admitted routes); [|done]. assert (V : vouched (manager w0.2)).
  { intros i h. rewrite C, lookup_empty. done. }
  clear C U. change (vouched (manager w.2)). revert V R. generalize (nd_app w0.2) (nd_app w.2). intros st st' V R.
  induction R as [|st1 st2 st3 [claims st Ha F|st s2 Hs] _ IH]; [done|..]; apply IH; [by apply vouched_open|].
  eapply vouched_kin; [done|]. by eapply kin_internal.
Qed.

(** *** From the request to the sockets *)

(** What a request to a send endpoint asks for, in the caller's scope. *)
Record SendSpec := {
  ss_target : NotificationTarget; ss_content : NotificationContent; ss_priority : option Priority;
  ss_ttl : option Z; ss_audience : option Audience; ss_correlation : option string; ss_listed : nat; ss_most : nat;
}.
Definition send_spec (h : Handler) (ctx : option TenantContext) : Input h -> option SendSpec :=
  let ask target c p ttl audience cid listed most :=
    Some {| ss_target := target; ss_content := c; ss_priority := p; ss_ttl := ttl; ss_audience := audience;
            ss_correlation := cid; ss_listed := listed; ss_most := most |} in
  match h return Input h -> option SendSpec with
  | h_send_notification => fun i =>
    ask (User (target_user_id i)) (sn_content i) (sn_priority i) (sn_ttl i) None (sn_correlation_id i) 1%nat 1%nat
  | h_send_to_users => fun i =>
    ask (Users (target_user_ids i)) (su_content i) (su_priority i) (su_ttl i) None (su_correlation_id i)
      (length (target_user_ids i)) 10000%nat
  | h_broadcast_notification => fun i =>
    ask Broadcast (bc_content i) (bc_priority i) (bc_ttl i) (bc_audience i) (bc_correlation_id i) 1%nat 1%nat
  | h_channel_notification => fun i =>
    ask (Channel (request_channel ctx (cn_channel i))) (cn_content i) (cn_priority i) (cn_ttl i) None
      (cn_correlation_id i) 1%nat 1%nat
  | h_multi_channel_notification => fun i =>
    ask (Channels (map (request_channel ctx) (mc_channels i))) (mc_content i) (mc_priority i) (mc_ttl i) None
      (mc_correlation_id i) (length (mc_channels i)) 100%nat
  | _ => fun _ => None
  end.
Definition sent_answer (h : Handler) : Output h -> option (result AppError SendNotificationResponse) :=
  match h return Output h -> option (result AppError SendNotificationResponse) with
  | h_send_notification | h_send_to_users | h_broadcast_notification | h_channel_notification
  | h_multi_channel_notification => Some
  | _ => fun _ => None
  end.

(** The connections [ds] got the event and [fs] did not. *)
Definition delivered_to_these (e : NotificationEvent) (ds fs : list ConnectionHandle) (resp : SendNotificationResponse)
  (w w' : World Q A) : Prop :=
  resp_notification_id resp = Notification.id e /\ resp_delivered_to resp = length ds /\ resp_failed resp = length fs /\
  resp_success resp = (0 <? length ds)%nat /\
  (exists ext, log w' = log w ++ ext /\ ext.*1 = conn_id <$> ds /\ Forall (carries to_string (Notification e)) ext.*2) /\
  Dispatcher.connection_manager (disp w') = Dispatcher.connection_manager (disp w).

Lemma resolved_delivers store c tenant p ttl audience cid send k cs rc (w : World Q A) :
  resolve_for_tenant c store tenant p ttl = Ok rc ->
  let n := ticks w in
  let e := event_of rc SOURCE audience cid (env_fresh env n) (env_clock env n) in
  let w1 := mk_world (disp w) (log w) (S n) in
  outcome to_string k e cs w1 (send e w1) ->
  let r := send_resolved env store c tenant p ttl audience cid send w in
  exists ds fs resp, ds ++ fs ≡ₚ cs /\ r.1 = Ok resp /\ delivered_to_these e ds fs resp w r.2.
Proof.
  intros Er n e w1 (ds & fs & ext & P & R & L & Ex & F & _ & M & _) r. unfold r, send_resolved. rewrite Er.
  cbn [fst snd fresh_event]. fold n e w1. exists ds, fs. eexists. split; [exact P|]. split; [reflexivity|].
  unfold response_of. rewrite R. unfold delivered_to_these, delivery_new; cbn. split_and!; try done. by exists ext.
Qed.

Lemma with_same_world s : with_app (set_core (world s) (nd_app s)) s = s.
Proof. by destruct s as [[] ? ? ? ? ? ?]. Qed.
Lemma on_world_ext {X} (f g : World Q A -> X * World Q A) s : f (world s) = g (world s) -> on_world f s = on_world g s.
Proof. unfold on_world. by intros ->. Qed.

(** Within the limits these two resolve and send as the others do. *)
Lemma send_to_users_resolves ctx i store (w : World Q A) : (length (target_user_ids i) <= 10000)%nat ->
  send_to_users to_string env store ctx i w =
  send_resolved env store (su_content i) (ctx_tenant_id <$> ctx) (su_priority i) (su_ttl i) None (su_correlation_id i)
    (fun e w => dispatch_for_tenant to_string env (Users (target_user_ids i)) e (ctx_tenant_id <$> ctx) w) w.
Proof. intros L. unfold send_to_users. by rewrite (proj2 (Nat.ltb_ge MAX_TARGET_USERS _) L). Qed.
Lemma multi_channel_resolves ctx i store (w : World Q A) : (length (mc_channels i) <= 100)%nat ->
  multi_channel_notification to_string env store ctx i w =
  send_resolved env store (mc_content i) (ctx_tenant_id <$> ctx) (mc_priority i) (mc_ttl i) None (mc_correlation_id i)
    (fun e w => send_to_channels to_string env (map (request_channel ctx) (mc_channels i)) e w) w.
Proof. intros L. unfold multi_channel_notification. by rewrite (proj2 (Nat.ltb_ge MAX_CHANNELS _) L). Qed.

Lemma resolved_request c tenant p ttl audience cid send k target s :
  wf (manager s) ->
  (forall e, Notification.is_expired e (env_clock env (S (ticks (world s)))) = false ->
     let w1 := mk_world (disp (world s)) (log (world s)) (S (ticks (world s))) in
     outcome to_string k e (target_connections (manager s) target tenant) w1 (send e w1)) ->
  let r := on_world (send_resolved env (nd_templates s) c tenant p ttl audience cid send) s in
  match resolve_for_tenant c (nd_templates s) tenant p ttl with
  | Err x => Some r.1 = Some (Err x) /\ r.2 = s
  | Ok rc =>
    let n := ticks (world s) in
    let e := event_of rc SOURCE audience cid (env_fresh env n) (env_clock env n) in
    Notification.is_expired e (env_clock env (S n)) = false ->
    exists ds fs resp, Some r.1 = Some (Ok resp) /\ exactly_addressed (manager s) target tenant (ds ++ fs) /\
      delivered_to_these e ds fs resp (world s) (world r.2)
  end.
Proof.
  intros W Hsend r. destruct (resolve_for_tenant c (nd_templates s) tenant p ttl) as [rc|x] eqn:Er.
  - intros n e X. destruct (resolved_delivers _ _ _ _ _ audience cid send k _ rc (world s) Er (Hsend _ X))
      as (ds & fs & resp & P & R & D). exists ds, fs, resp. split_and!; [by f_equal| |done].
    rewrite P. by apply addressed_target.
  - unfold r, on_world, send_resolved. rewrite Er. split; [done|apply with_same_world].
Qed.

(** C11: The send endpoints, from the request to the sockets.  On a node whose
    manager is consistent, a request to send to a user, to users, to all, to
    a channel or to channels is refused without an effect when it lists more
    than 10000 users or 100 channels, or when its content cannot be resolved
    for the caller's tenant.  Otherwise, unless its event has expired when it
    is dispatched, it is attempted on exactly the connections that its target
    names in the caller's scope - a user's connections once for each time the
    user is listed - and the answer counts the attempts: each delivery has
    put this very event on its connection, and no connection is opened or
    closed. *)
Theorem send_request_delivers h ctx i s sp :
  wf (manager s) -> send_spec h ctx i = Some sp ->
  let tenant := ctx_tenant_id <$> ctx in
  let r := handler h ctx i s in
  ((ss_most sp < ss_listed sp)%nat -> (exists m, sent_answer h r.1 = Some (Err (AValidation m))) /\ r.2 = s) /\
  ((ss_listed sp <= ss_most sp)%nat ->
   match resolve_for_tenant (ss_content sp) (nd_templates s) tenant (ss_priority sp) (ss_ttl sp) with
   | Err x => sent_answer h r.1 = Some (Err x) /\ r.2 = s
   | Ok rc =>
     let n := ticks (world s) in
     let e := event_of rc SOURCE (ss_audience sp) (ss_correlation sp) (env_fresh env n) (env_clock env n) in
     Notification.is_expired e (env_clock env (S n)) = false ->
     exists ds fs resp, sent_answer h r.1 = Some (Ok resp) /\
       exactly_addressed (manager s) (ss_target sp) tenant (ds ++ fs) /\
       delivered_to_these e ds fs resp (world s) (world r.2)
   end).
Proof.
  intros W Hs tenant r. set (w1 := (mk_world (disp (world s)) (log (world s)) (S (ticks (world s))))).
  destruct h; try discriminate Hs; injection Hs as <-;
    cbn [ss_target ss_content ss_priority ss_ttl ss_audience ss_correlation ss_listed ss_most sent_answer];
    unfold r; cbn [endpoint]; (split; [intros L; try lia|intros L]).
  - apply resolved_request with (k := ToUsers); [done|]. intros e X. exact (dispatch_sends to_string env (User (target_user_id i)) e tenant w1 X).
  - unfold on_world, send_to_users. rewrite (proj2 (Nat.ltb_lt MAX_TARGET_USERS _) L). split; [by eexists|apply with_same_world].
  - rewrite (on_world_ext _ _ _ (send_to_users_resolves ctx i _ (world s) L)).
    apply resolved_request with (k := ToUsers); [done|]. intros e X. exact (dispatch_sends to_string env (Users (target_user_ids i)) e tenant w1 X).
  - apply resolved_request with (k := ToAll); [done|]. intros e X. exact (dispatch_sends to_string env Broadcast e tenant w1 X).
  - apply resolved_request with (k := ToChannels); [done|]. intros e X.
    exact (send_to_channel_outcome to_string env _ e w1).
  - unfold on_world, multi_channel_notification. rewrite (proj2 (Nat.ltb_lt MAX_CHANNELS _) L). split; [by eexists|apply with_same_world].
  - rewrite (on_world_ext _ _ _ (multi_channel_resolves ctx i _ (world s) L)).
    apply resolved_request with (k := ToChannels); [done|]. intros e X.
    exact (send_to_channels_outcome to_string env _ e w1).
Qed.

(** *** From the send to the stream *)

Lemma send_endpoint t i s rc :
  resolve_for_tenant (sn_content i) (nd_templates s) (Some t) (sn_priority i) (sn_ttl i) = Ok rc ->
  let e := event_of rc SOURCE None (sn_correlation_id i) (env_fresh env (ticks (world s))) (env_clock env (ticks (world s))) in
  let d := dispatch_for_tenant to_string env (User (target_user_id i)) e (Some t) (core (tick (nd_app s))) in
  handler h_send_notification (Some (TenantContext_new t)) i s =
  (Ok (response_of d.1 (env_clock env (ticks d.2))),
   with_app (set_core (mk_world (disp d.2) (log d.2) (S (ticks d.2))) (nd_app s)) s).
Proof.
  intros Er. cbn [endpoint]. unfold on_world, send_notification, send_resolved. simpl. by rewrite Er.
Qed.

Lemma sse_endpoint ctx tok hdr s token claims h buffer :
  sse_extract_token tok hdr = Some token -> validate_token env setup s token = Ok claims ->
  (open_socket env claims (nd_app s)).1 = OpenedConnection h buffer ->
  (handler h_sse_handler ctx (tok, hdr) s).1 = SseStream h buffer.
Proof.
  intros Et V O. cbn [endpoint fst snd]. unfold Realtime.sse_handler. rewrite Et, V.
  destruct (open_socket env claims (nd_app s)) as [[] ?]; by simplify_eq/=.
Qed.


(** *** What a tenant's request may touch *)

(** The template a tenant's request names is under its prefix. *)
Lemma template_prefixed t id : t <> DEFAULT_TENANT_ID ->
  starts_with (t +:+ ":") (tenant_template_id (Some (TenantContext_new t)) id) = true.
Proof.
  intros Ht. unfold tenant_template_id. simpl. rewrite bool_decide_false by done. apply starts_with_spec.
  exists id. by rewrite str_app_assoc.
Qed.

Definition node_confined (t : string) s s' : Prop :=
  confined t (world s) (world s') /\
  forall id, starts_with (t +:+ ":") id = false -> nd_templates s' !! id = nd_templates s !! id.

Lemma confined_on_templates {X} t (q : Z -> request) (f : TemplateStore -> Z -> X * TemplateStore) s :
  t <> DEFAULT_TENANT_ID ->
  (forall now, (f (nd_templates s) now).2 = handle (Some (TenantContext_new t)) (nd_templates s) (q now)) ->
  node_confined t s (on_templates env f s).2.
Proof.
  intros Ht Hf. split; [by apply confined_same|]. intros id Hid. simpl. rewrite Hf. apply handle_frame. intros ->.
  by rewrite template_prefixed in Hid.
Qed.

Lemma confined_world {X} t (f : World Q A -> X * World Q A) s :
  confined t (world s) (f (world s)).2 -> node_confined t s (on_world f s).2.
Proof. done. Qed.

Lemma endpoint_confined t h i s :
  t <> DEFAULT_TENANT_ID -> str_has COLON t = false -> wf (manager s) -> namespaced (manager s) ->
  is_public h = false -> node_confined t s (handler h (Some (TenantContext_new t)) i s).2.
Proof.
  intros Ht Hc W N P.
  assert (Run : forall X (f : Running Q A -> option (X * Samples * Running Q A)), node_confined t s (on_running setup f s).2).
  { intros X f. unfold on_running. destruct (running _ _); [|done]. by destruct (f _) as [[[? ?] ?]|]. }
  destruct h; try done; cbn [endpoint]; try apply Run; try apply confined_world.
  - apply confined_resolved; try done. intros. by apply (confined_dispatch to_string env t Ht Hc (BUser _)).
  - unfold send_to_users. destruct (_ <? _)%nat; [done|].
    apply confined_resolved; try done. intros. by apply (confined_dispatch to_string env t Ht Hc (BUsers _)).
  - apply confined_resolved; try done. intros. by apply (confined_dispatch to_string env t Ht Hc BBroadcast).
  - apply confined_resolved; try done. intros. by apply confined_channel.
  - unfold multi_channel_notification. destruct (_ <? _)%nat; [done|].
    apply confined_resolved; try done. intros. by apply confined_channels.
  - unfold batch_send. destruct (_ <? _)%nat; [by apply confined_same|]. destruct (_ =? _)%nat; [by apply confined_same|].
    cbn [snd]. etrans; [|by apply confined_same]. etrans; [|by apply confined_batch]. by apply confined_same.
  - by apply (confined_on_templates t (RCreate i)).
  - by apply (confined_on_templates t (RUpdate i.1 i.2)).
  - by apply (confined_on_templates t (fun _ => RDelete i)).
Qed.

(** The tenant context the API-key check stores. *)
Lemma auth_tenant cfg tm req tc :
  api_key_auth cfg tm req = Next (Some tc) ->
  exists t, tc = TenantContext_new t /\ str_has COLON t = false.
Proof.
  unfold api_key_auth, create_context, tm_is_enabled. destruct (api_key cfg); [|by destruct (is_production cfg)].
  destruct (rq_api_key req); [|done]. destruct (constant_time_eq _ _); [|done].
  destruct (tc_enabled (tm_config tm)); [|done]. destruct (rq_tenant_id req) as [tid|]; simpl; [|done].
  destruct (is_valid_tenant_id (trim tid)) eqn:V; [|done]. intros [= <-]. exists (trim tid).
  split; [done|by apply trimmed_tenant_no_colon].
Qed.

(** A protected route answers a tenant within its confines. *)
Lemma answer_confined `{TowerHttpLaws} {Router} `{AxumLaws Router} origins (app : Router) r c w tc :
  wf (manager w.2) -> namespaced (manager w.2) -> create_app origins = Ok app -> r ∈ router_routes app -> is_public (rt_handler r) = false ->
  api_key_auth (api_settings (su_settings setup)) (tenant_manager (nd_app w.2)) (cl_request c) = Next (Some tc) ->
  ctx_is_default tc = false ->
  node_confined (ctx_tenant_id tc) w.2 (answer to_string env uuid_text setup r c w).2.2.
Proof.
  intros W N Ec Hr P Au Df. destruct (auth_tenant _ _ _ _ Au) as (t & -> & C).
  assert (Ht : t <> DEFAULT_TENANT_ID) by (intros ->; done).
  destruct (app_admission (api_settings (su_settings setup)) (tenant_manager (nd_app w.2))
    (api to_string env uuid_text setup) origins app r c w Ec Hr P) as [[Es _]|(ctx & l & Au' & _ & _ & Es)]; unfold answer.
  - rewrite Es. done.
  - rewrite Es. rewrite Au in Au'. injection Au' as <-. unfold api. destruct (extract _ _) as [i|]; [|done].
    by apply (endpoint_confined t (rt_handler r) i w.2).
Qed.
End service.

(** ** A node, from its settings *)

Section started.
Context {Q A SS E R D : Type} `{QueueLaws Q} `{AckTrackerBackend A} `{SessionStore SS}.
Context `{UnicodeTables} `{JsonText} `{JwtLibrary} `{Extractors} `{ResponseText} `{FloatText}.
Context `{JsonCodec RoutedMessage} `{JsonCodec ServerMessage} `{TowerHttpLaws} {Router : Type} `{AxumLaws Router}.
Context (to_string : ServerMessage -> result E string) (env : Env) (uuid_text : uuid -> string).
Context (decode_frame : string -> result string ClientMessage).

(** The node [main] serves, over backends and a session store of the chosen
    kinds, with nothing counted yet. *)
Definition start_node (st : ServiceState R D) (q : Q) (a : A) (sessions : SS) : Limiter.RateLimiter * Node Q A SS :=
  (st_rate_limiter st,
   mk_node (serve st q a) (st_template_store st) sessions (st_redis_health st) (st_circuit_breaker st) no_samples []).

(** The parts of the setup that come from the state. *)
Definition setup_of (setup : Setup) (st : ServiceState R D) : Prop :=
  su_settings setup = st_settings st /\ su_validator setup = st_jwt_validator st /\ su_start_time setup = st_start_time st.

(** C1: A tenant's requests stay within the tenant, from the request to the
    socket.  In a service that [main] started with multi-tenancy, after any
    requests, frames and background steps, and as long as no connected
    tenant's id holds a colon (nothing checks the ids that tokens bring), a
    request of a tenant other than the default one on any route behind the key
    delivers to connections of that tenant only, changes only queues and
    templates whose keys begin with the tenant's prefix, and opens and closes
    no connection. *)
Theorem tenant_request_confined (setup : Setup) run_mode loaded telemetry redis postgres bn t
  (st : ServiceState R D) (app : Router) addr q a sessions w r c tc :
  main run_mode loaded telemetry redis postgres bn t = Ok (st, app, addr) ->
  tc_enabled (Settings.tenant (st_settings st)) = true -> setup_of setup st ->
  rtc (service_step to_string env uuid_text decode_frame setup (router_routes app)) (start_node st q a sessions) w ->
  colon_free (Dispatcher.connection_manager (disp (core (nd_app w.2)))) ->
  r ∈ router_routes app -> is_public (rt_handler r) = false ->
  api_key_auth (api_settings (st_settings st)) (tenant_manager (nd_app w.2)) (cl_request c) = Next (Some tc) ->
  ctx_is_default tc = false ->
  node_confined (ctx_tenant_id tc) w.2 (answer to_string env uuid_text setup r c w).2.2.
Proof.
  intros (_ & Ec & Es & _)%main_inv T (Ss & _ & _) Rt Cf Hr P Au D0. rewrite <- Ss in Au.
  destruct (serve_start _ _ _ _ _ st q a Es) as [M En].
  assert (S0 : server_start (serve st q a)) by by eexists.
  apply service_refines_server in Rt; [|done].
  apply (answer_confined to_string env uuid_text setup (sv_cors_origins (server (st_settings st))) app r c w tc); try done.
  - apply (server_inv_reachable _ _ _ _ _ _ S0 Rt).
  - apply (namespaced_reachable _ _ _ _ _ _ S0 Rt); [by rewrite En|done].
Qed.
End started.

(** ** A run: alice of acme and bob of globex connect; acme then broadcasts *)

Section witnesses.
Import ListRouter.
#[local] Existing Instances ascii_only routed_codec server_codec no_json_text.
#[local] Existing Instances list_axum list_axum_laws plain_tower plain_tower_laws.
#[local] Instance plain_float_text : FloatText := {| f64_text _ := "" |}.

Definition two_decode (token : string) : result string Claims :=
  if decide (token = "alice") then Ok (example_claims "alice" "acme")
  else if decide (token = "bob") then Ok (example_claims "bob" "globex") else Err "InvalidToken".
#[local] Instance two_tokens : JwtLibrary := {|
  DecodingKey := string; from_secret := Datatypes.id; from_rsa_pem _ := None; read_file _ := Err "not found";
  Jwt.decode token _ _ _ := two_decode token |}.

(** The token is in the query; a broadcast carries an empty event. *)
#[local] Instance example_extractors : Extractors := {|
  extract h c :=
    match h return result Z (Input h) with
    | h_ws_handler => Ok (rq_api_key (cl_request c), None)
    | h_broadcast_notification =>
      Ok {| bc_content := CDirect "hello" JNull; bc_priority := None; bc_ttl := None; bc_audience := None;
            bc_correlation_id := None |}
    | _ => Err 400
    end |}.
#[local] Instance example_body : ResponseText := {| body_text _ _ := "" |}.

Definition service_settings : Settings.Settings :=
  let d := tenant_settings in
  {| Settings.server := Settings.server d; Settings.jwt := Settings.jwt d; Settings.redis := Settings.redis d;
     Settings.api := {| api_config_key := Some "key" |}; Settings.websocket := Settings.websocket d;
     Settings.queue := Settings.queue d;
     Settings.ratelimit := Settings.ratelimit d; Settings.ack := Settings.ack d; Settings.otel := Settings.otel d;
     Settings.tenant := Settings.tenant d; Settings.database := Settings.database d;
     Settings.cluster := Settings.cluster d; Settings.in_production := false |}.
Definition service_validator : JwtValidator :=
  {| decoding_key := "0123456789abcdef0123456789abcdef"; validation := validation_new HS256 |}.
Definition example_setup : Setup :=
  {| su_settings := service_settings; su_validator := service_validator; su_postgres := None; su_start_time := 0;
     su_breaker_clock _ := (0, 0); su_elapsed _ := 0; su_encode _ := Ok ""; su_scan_fuel := 0 |}.

Definition any_cors : CorsLayer := {| allow_origin := AnyOrigin; allow_methods := None; allow_headers := None |}.
Definition ws_route : Route := on GET "/ws" h_ws_handler [Cors any_cors; TraceLayer; WsRateLimitLayer].
Definition broadcast_route : Route :=
  on POST "/api/v1/notifications/broadcast" h_broadcast_notification
    [Cors any_cors; TraceLayer; RateLimitLayer; ApiKeyAuthLayer; RequestBodyLimitLayer MAX_BODY_SIZE].
Definition call_of (key : string) : Call :=
  {| cl_request := {| rq_api_key := Some key; rq_tenant_id := Some "acme"; rq_ip := "1.2.3.4" |}; cl_now := (5, 5, 5);
     cl_length := Some 100 |}.

Abbreviation answers := (answer no_text example_env no_uuid_text example_setup).
Abbreviation node_step := (service_step no_text example_env no_uuid_text subscribe_news example_setup (app_table any_cors)).
Abbreviation started st :=
  (start_node (R := unit) (D := unit) st (Memory.new (Memory.example_config 5)) example_ack {| Local.server_id := "s1" |}).

(** A connection from the request to the registered socket. *)
Definition connected (token : string) (claims : Claims) (w : Limiter.RateLimiter * Node Memory.MemoryQueueBackend AckMemory.MemoryAckBackend Local.LocalSessionStore) :=
  let w1 := (answers ws_route (call_of token) w).2 in (w1.1, (start_upgraded example_env [] [] claims w1.2).2).

Lemma connected_steps token claims w :
  fresh_id example_env w.2 -> nd_upgrades (answers ws_route (call_of token) w).2.2 = [claims] ->
  fresh_id example_env (answers ws_route (call_of token) w).2.2 -> rtc node_step w (connected token claims w).
Proof.
  intros F U F'. eapply rtc_l.
  { apply (svc_request no_text example_env no_uuid_text subscribe_news example_setup (app_table any_cors) ws_route (call_of token)).
    - by apply list_elem_of_lookup_2 with 0%nat.
    - exact F. }
  apply rtc_once. unfold connected. destruct (answers ws_route (call_of token) w).2 as [l s]. by apply svc_upgraded.
Qed.

Definition service_main :=
  main (R := unit) (D := unit) (Router := list Route) None (Ok service_settings) (fun _ => Ok tt) (fun _ => Ok tt)
    (fun _ => Ok tt) 0 0.

Lemma tenant_request_confined_witness :
  exists st addr, service_main = Ok (st, app_table any_cors, addr) /\
    let w := connected "bob" (example_claims "bob" "globex") (connected "alice" (example_claims "alice" "acme") (started st)) in
    let s' := (answers broadcast_route (call_of "key") w).2.2 in
    length (log (core (nd_app s'))) = 1%nat /\ node_confined "acme" w.2 s'.
Proof.
  eexists _, _. split; [reflexivity|]. cbv zeta. split; [vm_compute; reflexivity|].
  eapply (tenant_request_confined no_text example_env no_uuid_text subscribe_news (R := unit) (D := unit) (Router := list Route)
    example_setup None (Ok service_settings) (fun _ => Ok tt) (fun _ => Ok tt) (fun _ => Ok tt) 0 0 _ (app_table any_cors) _
    (Memory.new (Memory.example_config 5)) example_ack {| Local.server_id := "s1" |} _ broadcast_route (call_of "key")
    (TenantContext_new "acme") (eq_refl service_main)).
  - reflexivity.
  - split; [reflexivity|split; reflexivity].
  - etrans; apply connected_steps; vm_compute; reflexivity.
  - apply (bool_decide_unpack _). vm_compute. exact I.
  - apply list_elem_of_lookup_2 with 7%nat. reflexivity.
  - reflexivity.
  - vm_compute. reflexivity.
  - reflexivity.
Defined.

(** Alice connects, whatever else: a run of one connection. *)
Definition alone : AppState Memory.MemoryQueueBackend AckMemory.MemoryAckBackend := start_state.
Definition first_node (a : AppState Memory.MemoryQueueBackend AckMemory.MemoryAckBackend) :=
  (example_limiter, mk_node (SS := Local.LocalSessionStore) a store_new {| Local.server_id := "s1" |}
     (Health.new_with_enabled false) (CircuitBreaker.with_config (breaker_config RedisConfig_default) 0) no_samples []).
Abbreviation alice_in := (connected "alice" (example_claims "alice" "acme") (first_node alone)).

Lemma alice_connects : rtc node_step (first_node alone) alice_in.
Proof. apply connected_steps; vm_compute; reflexivity. Qed.

Lemma alice_wf : wf (Dispatcher.connection_manager (disp (core (nd_app alice_in.2)))).
Proof.
  eapply (server_inv_reachable no_text example_env no_uuid_text subscribe_news alone); [by eexists|].
  by apply (service_refines_server no_text example_env no_uuid_text subscribe_news example_setup (app_table any_cors)
    (first_node alone) alice_in), alice_connects.
Qed.

Definition hello_all : BroadcastNotificationRequest :=
  {| bc_content := CDirect "hello" JNull; bc_priority := None; bc_ttl := None; bc_audience := None;
     bc_correlation_id := None |}.

Lemma send_request_delivers_witness :
  let r := endpoint no_text example_env no_uuid_text example_setup h_broadcast_notification
             (Some (TenantContext_new "acme")) hello_all alice_in.2 in
  exists resp, r.1 = Ok resp /\ resp_delivered_to resp = 1%nat /\
    exists ds fs, exactly_addressed (Dispatcher.connection_manager (disp (core (nd_app alice_in.2)))) Broadcast
                    (Some "acme") (ds ++ fs) /\ length ds = 1%nat.
Proof.
  destruct (send_request_delivers no_text example_env no_uuid_text example_setup h_broadcast_notification
    (Some (TenantContext_new "acme")) hello_all alice_in.2 _ alice_wf eq_refl) as [_ D].
  specialize (D (le_n 1)). cbn iota beta in D.
  destruct (D ltac:(vm_compute; reflexivity)) as (ds & fs & resp & S & Ad & _ & Dl & _).
  cbn [sent_answer] in S. apply (inj Some) in S. exists resp. split; [exact S|].
  assert (E1 : resp_delivered_to resp = 1%nat).
  { apply (f_equal (fun x => match x with Ok p => resp_delivered_to p | Err _ => 0%nat end)) in S. rewrite <- S.
    vm_compute. reflexivity. }
  split; [exact E1|]. exists ds, fs. split; [exact Ad|]. by rewrite <- Dl.
Defined.

Lemma connections_vouched_witness :
  exists claims, accepted example_setup claims /\ claims_user_id claims = "alice".
Proof.
  destruct (connections_vouched no_text example_env no_uuid_text subscribe_news example_setup (app_table any_cors)
    (first_node alone) alice_in eq_refl eq_refl alice_connects 0%N (handle_new "alice" "acme" [] 0%N 0)) as (claims & Ha & Hu & _).
  - vm_compute. reflexivity.
  - exists claims. split; [exact Ha|]. symmetry. exact Hu.
Defined.

Definition example_send : SendNotificationRequest :=
  {| target_user_id := "alice"; sn_content := CDirect "hello" JNull; sn_priority := None; sn_ttl := None;
     sn_correlation_id := None |}.

Definition hello : ResolvedContent :=
  {| rc_event_type := "hello"; rc_payload := JNull; rc_priority := Normal; rc_ttl := None |}.

End witnesses.
